(* ===== verification/_CoqProject ===== *)
-Q . S2P
Prelude.v
LibBitmap.v
Machine.v
Mips.v
LibList.v
LibHash.v
Interrupt.v
Timer.v
ContextSwitch.v
Threads.v
SynchList.v
Disk.v
SynchDisk.v
SectorDevice.v
FileHdr.v
OpenFile.v
Directory.v
PBitmap.v
FileSys.v
Sysdep.v
Network.v
Post.v
StubFS.v
Console.v
AddrSpace.v
Noff.v
STable.v
PTable.v
Syscalls.v
Kernel.v
Run.v
TimeSharing.v
UserPrograms.v
Stacks.v
WaterSystem.v
