(* ===== verification/Prelude.v ===== *)
(** * A verification development for the NachOS 4.0 kernel of this repository

    The program is the teaching operating system under NachOS-4.0/code: a
    simulated MIPS machine with its devices, and the kernel that runs user
    programs on it.  The build (code/build.linux) is a 32-bit one for a
    little-endian host, with FILESYS_STUB, RDATA and SIM_FIX defined and
    USE_TLB not; the models are of that build, and of the file system over the
    simulated disk as well, which the build leaves out.

    ** How the code is modelled

    A routine is a function on explicit state.  It returns in [result] (below):
    a value, or the [fault] that stops the program, an ASSERT that fails or the
    undefined behaviour the sources run into; faults are outcomes to be proved
    absent, not assumptions.  Arrays are lists read and written through [lget]
    and [lset], which fault outside; an [int] is a [Z] wrapped by [wrap32] where
    the code computes with it, an [unsigned] one wrapped by [u32].  Heap objects
    that are shared are locations in a finite map (list elements, PCBs).  Names
    are the source's.  Interleavings are step relations whose steps are the
    sections of code between two points where the processor may change hands.

    ** The files, in the order they build on each other

    - Prelude: results, arrays, machine integers, bytes, list lemmas.
    - LibBitmap (lib/bitmap): the bit map, as words; [free] is its meaning.
    - Machine (machine/machine, machine/translate): registers, main memory, page
      tables, [Translate], [ReadMem], [WriteMem]. [resolve] is the specification
      of the translation.
    - Mips (machine/mipssim): [Decode] and [OneInstruction], every instruction.
    - LibList (lib/list), LibHash (lib/hash): linked lists in a heap of elements,
      sorted lists, hash tables with rehashing, and their self tests; specified
      as sequences and finite maps.
    - Interrupt (machine/interrupt, machine/stats), Timer (machine/timer,
      threads/alarm): simulated time and the queue of pending interrupts.
    - ContextSwitch (threads/switch, the memory of threads/thread): SWITCH and
      ThreadRoot as x86 instructions, the saved registers and the stack of a
      Thread, its constructor and [StackAllocate].
    - Threads (threads/thread, threads/scheduler, threads/synch): the ready
      queue, [Fork], [Yield], [Sleep], [Finish], semaphores, locks and condition
      variables under any program and any preemption at an operation.
    - SynchList (threads/synchlist): the synchronized list, a monitor written
      with the operations of Threads and run in its scheduler.
    - Disk (machine/disk), SynchDisk (filesys/synchdisk): the disk with its head
      and rotation, and the driver whose [Acquire], [P] and interrupt are run
      through the models of the two previous groups.
    - SectorDevice: the interface of the file system to a disk, a class whose
      laws SynchDisk proves; FileHdr, OpenFile, Directory, PBitmap, FileSys
      (filesys/): the file system over any device of that class.
    - Sysdep (lib/sysdep), StubFS (filesys/openfile.h and filesys.h under
      FILESYS_STUB): the files of the host and the open files of a process.
    - Network (machine/network, the sockets of lib/sysdep), Post (network/post):
      machines on an unreliable network, and the post office of each: packets
      and mails as bytes, mailboxes, the postal worker, every interleaving of
      the machines' events.
    - Console (machine/console, userprog/synchconsole): keyboard and display.
    - AddrSpace (userprog/addrspace, userprog/noff.h): loading a program, its
      frames and page table.
    - Noff (coff2noff/): the tool that makes the executables, up to their loading.
    - STable (threads/stable): the named semaphores of user programs.
    - PTable (threads/pcb, threads/ptable): the processes, and Exec, Join and
      Exit as sections run in any order.
    - Syscalls (userprog/exception, userprog/ksyscall): the exception handler, on
      top of Machine, StubFS, Console, STable and the entries of PTable.
    - Run (machine/mipssim's Machine::Run): the loop that runs a user program, with
      the handler, the clock, the timer, and the other threads as an interface.
    - TimeSharing (threads/scheduler): threads that run other user programs on the
      same machine, registers and page tables switched around them, as an instance
      of that interface.
    - Kernel (threads/kernel, threads/main, lib/libtest, lib/debug): the command
      line, what main does in which order, the self tests, Copy and Print, and
      the start of the first program.
    - UserPrograms (test/sort, test/my_sort, test/matmult): user programs that
      compute, from their C, as the system calls they make.
    - WaterSystem (test/watersystem_main, test/student, test/watertap): the three
      processes that serve the queue at the water taps, in any order.
    - Stacks (c++example): the stacks of the C++ tutorial, an array and a list
      behind one interface.

    ** What the theorems show

    - The machine: an instruction never breaks the simulator, whatever the
      program (but for one division), and touches only registers and the frames
      its page table lets it write; translations are safe and isolated; decoding,
      multiplication, overflow and unaligned accesses are those of the processor.
      A program run for any time, with its system calls, interrupts and switches,
      keeps all of it well formed and stays inside its frames; one that makes no
      call runs exactly to the end of its time slice.
    - System calls: a call returns to the program with everything but its result
      and the program counters unchanged; files written are read back, numbers
      shown are read back; other exceptions halt; every loop of the handler ends.
    - Time: due interrupts are delivered in order and once, and the timer makes
      running threads yield.
    - Threads: one thread runs, queues hold each thread once, locks exclude, no
      wakeup is lost, user registers survive a switch.  In memory, a call of SWITCH
      comes back with its registers, and a forked thread starts in its function.
    - Sharing the processor: a program that other programs preempt goes on with
      the registers, page table and memory that its own instructions made.
    - Synchronized lists are first-in first-out queues, and a thread stays blocked
      on one only while it is empty.
    - Mail: what a mailbox hands out was sent to it, in order; a reliable network
      delivers every mail to the receiver that waits for it.
    - Processes: each owns a slot and a live PCB in every interleaving; a parent
      that joins and its child that exits always meet; frames belong to one
      process at a time, programs are loaded where their page tables say.
    - Files: the synchronous disk is an array of sectors, and over it the file
      system is a finite map from names to contents that survives a remount;
      files are byte arrays at any alignment, directories persist.
    - From the outside in: what the linker made is converted, loaded and read by
      the processor at the addresses the linker gave; a host file copied to the
      disk is shown unchanged; the command line means what it spells; the sorting program
      shows what was typed, sorted; the water system serves every queue in every
      order of its processes, and does not stop before it has.
    - Containers: lists are sequences, sorted lists sorted, hash tables finite
      maps with complete iterators, bitmaps sets, the semaphore table a map, and
      the two stacks of the tutorial one stack.

    The documentation of each claim stands before its theorem, with an example
    at concrete values (the lemma named [_witness]) where it has hypotheses. What
    the code does wrong is stated by lemmas too, at the end of the files.

    ** Bounds and fuel

    Loops with no structural measure take fuel and fault with [OutOfFuel], and a
    theorem says how much is enough: the multiplication loop runs 32 times;
    [Idle] and the loop that fires interrupts are bounded by the queue; a loop
    on console input by the characters still to come and one more for the end
    (Syscalls.reads); [count_digits] by the ten digits of an [int].  A request
    to the file system uses the disk at most 300 times
    (FileSys.v), which bounds the time of each disk operation; simulated time
    stays below 2^31 ticks by hypothesis where the code counts in an [int].

    ** What is not modelled, and why

    - The host: only its files are (Sysdep.v), as POSIX describes them for
      regular files, and the x86 instructions of threads/switch.S; [rand] is an
      argument.  switch.S has code for six processors: the x86 one is the build's.
    - The output of printf, DEBUG and Print, which nothing reads.
    - Destructors that only free memory; exhaustion of the host's memory.
    - Kernel::Initialize, which constructs the parts one after another, as one
      state: each part's constructor is in its own file.
    - The other programs of test/, straight-line calls of the system; usr/
      (third-party tools).

    The system calls of one process are modelled against the other processes
    only through the process table and the scheduler; the console serves one
    thread at a time.  Run.v composes the processor, the handler, the clock and
    the timer; TimeSharing.v the user programs that take turns on them.  A program
    that sleeps, in Threads.v and PTable.v, and the switch of the kernel's own
    registers, in ContextSwitch.v, are proved by themselves: Threads.v takes a
    thread that resumes where it stopped, which is what ContextSwitch.v shows. *)

From stdpp Require Export prelude functions gmap strings list_numbers.
From Stdlib Require Export ZArith Lia.
From Stdlib Require Import Strings.Byte.
From Stdlib Require Export Sorted.

#[export] Set Default Goal Selector "!".
Declare Scope nachos_scope.
Create HintDb nachos.
Create Rewrite HintDb nachos.
Delimit Scope nachos_scope with nachos.
Open Scope Z_scope.

(** Linear arithmetic with quotients and remainders. *)
Ltac dlia := Z.to_euclidean_division_equations; lia.

(** ** Outcomes of C++ code

    A C++ routine either returns, or stops the program.  [AssertFailed] is the
    [Abort] of the [ASSERT] macro (lib/debug.h), [BadAlloc] the exception of
    [new] for a negative length; the other constructors but [OutOfFuel], which
    is the model's own, are the ways the sources run into undefined behaviour. *)
Inductive fault :=
  | AssertFailed
  | OutOfBounds
  | NullPointer
  | DanglingPointer
  | Uninitialised
  | ArithTrap
  | BadAlloc
  | OutOfFuel.

Inductive result (A : Type) :=
  | Ok (a : A)
  | Fault (f : fault).
Arguments Ok {A} a.
Arguments Fault {A} f.

#[export] Instance fault_eq_dec : EqDecision fault.
Proof. solve_decision. Defined.
#[export] Instance result_eq_dec `{EqDecision A} : EqDecision (result A).
Proof. solve_decision. Defined.

(** [ASSERT(b)]. *)
Definition assert (b : bool) : result unit :=
  if b then Ok tt else Fault AssertFailed.

(** Sequencing, with the computation first so that its result's type is known
    when the continuation is read. *)
Definition bind {A B} (m : result A) (f : A -> result B) : result B :=
  match m with Ok a => f a | Fault e => Fault e end.
Notation "x <- m ;; k" := (bind m (fun x => k))
  (at level 100, m at level 99, right associativity) : nachos_scope.
#[warnings="-notation-incompatible-prefix"]
Notation "' p <- m ;; k" := (bind m (fun x => match x with p => k end))
  (at level 100, p pattern, m at level 99, right associativity) : nachos_scope.
Notation "m ;; k" := (bind m (fun _ => k))
  (at level 100, right associativity) : nachos_scope.
Open Scope nachos_scope.
Arguments bind {A B} !m f /.

Lemma bind_ok {A B} (m : result A) (f : A -> result B) b :
  bind m f = Ok b <-> exists a, m = Ok a /\ f a = Ok b.
Proof. destruct m; naive_solver. Qed.

Lemma assert_ok b u : assert b = Ok u <-> b = true.
Proof. destruct b, u; naive_solver. Qed.

(** Array reads and writes: C++ does no bounds check, so an index outside the
    array is a fault of the model, never a silent no-op. *)
Definition lget {A} (l : list A) (i : Z) : result A :=
  if bool_decide (0 <= i) then
    match l !! Z.to_nat i with Some x => Ok x | None => Fault OutOfBounds end
  else Fault OutOfBounds.

Definition lset {A} (l : list A) (i : Z) (x : A) : result (list A) :=
  if bool_decide (0 <= i < Z.of_nat (length l)) then Ok (<[Z.to_nat i := x]> l)
  else Fault OutOfBounds.

Lemma lget_ok {A} (l : list A) i x :
  lget l i = Ok x <-> 0 <= i /\ l !! Z.to_nat i = Some x.
Proof.
  unfold lget. case_bool_decide; [|naive_solver].
  destruct (l !! Z.to_nat i); naive_solver.
Qed.

Lemma lget_is_ok {A} (l : list A) i :
  0 <= i < Z.of_nat (length l) -> exists x, lget l i = Ok x /\ l !! Z.to_nat i = Some x.
Proof.
  intros Hi. destruct (lookup_lt_is_Some_2 l (Z.to_nat i)) as [x Hx]; [lia|].
  exists x. split; [apply lget_ok; split; [lia|done]|done].
Qed.

Lemma lset_ok {A} (l : list A) i x l' :
  lset l i x = Ok l' <-> 0 <= i < Z.of_nat (length l) /\ l' = <[Z.to_nat i := x]> l.
Proof. unfold lset. case_bool_decide; naive_solver. Qed.

Lemma lset_in {A} (l : list A) i x :
  0 <= i < Z.of_nat (length l) -> lset l i x = Ok (<[Z.to_nat i := x]> l).
Proof. intros. by apply lset_ok. Qed.

(** ** Machine integers

    The program is built with [-m32]: [int], [unsigned] and pointers are 32 bits
    wide.  [wrap32] is the value of a 32-bit [int] holding the low bits of [z],
    [u32] the value of an [unsigned]. *)
Definition u32 (z : Z) : Z := z mod 2 ^ 32.
Definition wrap32 (z : Z) : Z := (z + 2 ^ 31) mod 2 ^ 32 - 2 ^ 31.
Definition int_range (z : Z) : Prop := - 2 ^ 31 <= z < 2 ^ 31.
(** The macros of lib/utility.h. *)
Definition divRoundDown (n s : Z) : Z := Z.quot n s.
Definition divRoundUp (n s : Z) : Z := Z.quot n s + (if bool_decide (0 < Z.rem n s) then 1 else 0).

#[export] Instance int_range_dec z : Decision (int_range z).
Proof. unfold int_range. apply _. Defined.

Lemma u32_range z : 0 <= u32 z < 2 ^ 32.
Proof. unfold u32. apply Z.mod_pos_bound. lia. Qed.

Lemma u32_small z : 0 <= z < 2 ^ 32 -> u32 z = z.
Proof. intros. by apply Z.mod_small. Qed.

Lemma wrap32_range z : int_range (wrap32 z).
Proof.
  unfold int_range, wrap32. pose proof (Z.mod_pos_bound (z + 2 ^ 31) (2 ^ 32)). lia.
Qed.

Lemma wrap32_small z : int_range z -> wrap32 z = z.
Proof. unfold int_range, wrap32. intros. rewrite Z.mod_small; lia. Qed.

Lemma wrap32_u32 z : wrap32 (u32 z) = wrap32 z.
Proof. unfold wrap32, u32. f_equal. by rewrite Zplus_mod_idemp_l. Qed.

Lemma u32_wrap32 z : u32 (wrap32 z) = u32 z.
Proof.
  unfold wrap32, u32. rewrite Zminus_mod_idemp_l. f_equal. lia.
Qed.

Lemma u32_eq_mod a b : u32 a = u32 b -> wrap32 a = wrap32 b.
Proof. intros H. by rewrite <- (wrap32_u32 a), H, wrap32_u32. Qed.

Lemma divRoundUp_spec n s :
  0 < s -> 0 <= n -> n <= divRoundUp n s * s < n + s.
Proof.
  intros Hs Hn. unfold divRoundUp. rewrite Z.quot_div_nonneg, Z.rem_mod_nonneg by lia.
  pose proof (Z.div_mod n s). pose proof (Z.mod_pos_bound n s). case_bool_decide; nia.
Qed.

Lemma divRoundUp_nonneg n s : 0 < s -> 0 <= n -> 0 <= divRoundUp n s.
Proof. intros Hs Hn. pose proof (divRoundUp_spec n s Hs Hn). nia. Qed.

#[export] Hint Resolve u32_range wrap32_range divRoundUp_nonneg : nachos.
#[export] Hint Rewrite u32_wrap32 wrap32_u32 : nachos.

(** ** Bytes

    [byteZ] is the value of an [unsigned char]; [charZ] that of a plain [char],
    which is signed on the build's target. *)
Definition byteZ (b : byte) : Z := Z.of_N (Byte.to_N b).
Definition Zbyte (z : Z) : byte :=
  match Byte.of_N (Z.to_N (z mod 256)) with Some b => b | None => x00 end.
Definition charZ (b : byte) : Z := if bool_decide (byteZ b < 128) then byteZ b else byteZ b - 256.

#[export] Instance byte_eq_dec : EqDecision byte.
Proof. intros a b. destruct (Byte.byte_eq_dec a b); [by left|by right]. Defined.

(** [printf] of a [char] array as "%s": up to the first NUL; there must be one. *)
Fixpoint cstring (bs : list byte) : result (list byte) :=
  match bs with
  | [] => Fault OutOfBounds
  | b :: bs => if bool_decide (b = x00) then Ok [] else r <- cstring bs ;; Ok (b :: r)
  end.

#[export] Instance byte_countable : Countable byte := inj_countable Byte.to_N Byte.of_N Byte.of_to_N.

Lemma byteZ_range b : 0 <= byteZ b < 256.
Proof.
  unfold byteZ. pose proof (Byte.to_N_bounded b). lia.
Qed.

Lemma byteZ_Zbyte z : byteZ (Zbyte z) = z mod 256.
Proof.
  unfold byteZ, Zbyte. pose proof (Z.mod_pos_bound z 256 ltac:(lia)).
  destruct (Byte.of_N (Z.to_N (z mod 256))) as [b|] eqn:E.
  - apply Byte.to_of_N in E. rewrite E. lia.
  - apply Byte.of_N_None_iff in E. lia.
Qed.

Lemma Zbyte_byteZ b : Zbyte (byteZ b) = b.
Proof.
  unfold Zbyte. pose proof (byteZ_range b). rewrite Z.mod_small by done.
  unfold byteZ. by rewrite N2Z.id, Byte.of_to_N.
Qed.

Lemma byteZ_inj a b : byteZ a = byteZ b -> a = b.
Proof. intros H. by rewrite <- (Zbyte_byteZ a), H, Zbyte_byteZ. Qed.

Lemma charZ_mod b : charZ b mod 256 = byteZ b.
Proof.
  unfold charZ. pose proof (byteZ_range b). case_bool_decide.
  - by rewrite Z.mod_small.
  - rewrite <- (Z_mod_plus_full _ 1). rewrite Z.mod_small; lia.
Qed.

(** The [n] low bytes of [z], least significant first (the byte order of the
    simulated machine and of the host), and the number they stand for. *)
Fixpoint le_bytes (n : nat) (z : Z) : list byte :=
  match n with O => [] | S n => Zbyte z :: le_bytes n (z / 256) end.
Fixpoint le_val (bs : list byte) : Z :=
  match bs with [] => 0 | b :: bs => byteZ b + 256 * le_val bs end.

Lemma length_le_bytes n z : length (le_bytes n z) = n.
Proof. revert z. induction n; intros; simpl; auto. Qed.

Lemma le_val_range bs : 0 <= le_val bs < 256 ^ Z.of_nat (length bs).
Proof.
  induction bs as [|b bs IH]; [done|]. cbn [le_val length].
  rewrite Nat2Z.inj_succ, Z.pow_succ_r by lia. pose proof (byteZ_range b). nia.
Qed.

Lemma le_val_bytes n z : le_val (le_bytes n z) = z mod 256 ^ Z.of_nat n.
Proof.
  revert z. induction n as [|n IH]; intros z; cbn [le_bytes le_val]; [by rewrite Z.mod_1_r|].
  rewrite byteZ_Zbyte, IH, Nat2Z.inj_succ, Z.pow_succ_r by lia.
  rewrite Z.rem_mul_r; [done|lia|]. apply Z.pow_pos_nonneg; lia.
Qed.

Lemma le_bytes_val bs : le_bytes (length bs) (le_val bs) = bs.
Proof.
  induction bs as [|b bs IH]; [done|]. cbn [length le_val le_bytes].
  pose proof (byteZ_range b). f_equal.
  - apply byteZ_inj. rewrite byteZ_Zbyte, Z.mul_comm, Z_mod_plus_full. by apply Z.mod_small.
  - rewrite Z.mul_comm, Z.div_add, Z.div_small by lia. apply IH.
Qed.

(** Arrays of 32-bit words in memory or on disk. *)
Fixpoint words_bytes (ws : list Z) : list byte :=
  match ws with [] => [] | w :: ws => le_bytes 4 w ++ words_bytes ws end.

Fixpoint bytes_words (n : nat) (bs : list byte) : list Z :=
  match n with O => [] | S n => le_val (take 4 bs) :: bytes_words n (drop 4 bs) end.

Lemma length_words_bytes ws : length (words_bytes ws) = (4 * length ws)%nat.
Proof. induction ws as [|w ws IH]; [done|]. cbn [words_bytes]. rewrite length_app, length_le_bytes, IH. simpl. lia. Qed.

Lemma length_bytes_words n bs : length (bytes_words n bs) = n.
Proof. revert bs. induction n; intros; simpl; auto. Qed.

Lemma bytes_words_app ws bs :
  bytes_words (length ws) (words_bytes ws ++ bs) = u32 <$> ws.
Proof.
  induction ws as [|w ws IH]; [done|]. cbn [length bytes_words words_bytes]. rewrite <- app_assoc.
  rewrite take_app_length' by (by rewrite length_le_bytes). rewrite drop_app_length' by (by rewrite length_le_bytes).
  rewrite IH, fmap_cons. f_equal. apply le_val_bytes.
Qed.

Lemma bytes_words_words ws : bytes_words (length ws) (words_bytes ws) = u32 <$> ws.
Proof. rewrite <- (app_nil_r (words_bytes ws)) at 1. apply bytes_words_app. Qed.

Definition isSome {A} (o : option A) : bool := match o with Some _ => true | None => false end.

(** ** Lists *)

Lemma snoc_cases {A} (l : list A) : l = [] \/ exists l' x, l = l' ++ [x].
Proof. induction l as [|x l _] using rev_ind; eauto. Qed.

(** Dropping the second of two adjacent elements of a duplicate-free list. *)
Lemma NoDup_drop {A} (l1 : list A) k l l2 :
  NoDup (l1 ++ k :: l :: l2) ->
  NoDup (l1 ++ k :: l2) /\ l ∉ l1 /\ l <> k /\ l ∉ l2 /\ k ∉ l1.
Proof.
  rewrite !NoDup_app, !NoDup_cons, !not_elem_of_cons. intros (H1 & H2 & [Hkl Hk2] & Hl & H3).
  assert (Hk1 : k ∉ l1) by (intros Hk; apply (H2 k Hk); left).
  assert (Hl1 : l ∉ l1) by (intros Hk; apply (H2 l Hk); right; left).
  split_and!; try done.
  intros x Hx [-> | Hx2]%elem_of_cons; [done|]. apply (H2 x Hx). by do 2 right.
Qed.

Lemma NoDup_insert_after {A} (l1 : list A) k l l2 :
  NoDup (l1 ++ k :: l2) -> l ∉ l1 ++ k :: l2 -> NoDup (l1 ++ k :: l :: l2).
Proof.
  intros Hnd Hl. assert (l1 ++ k :: l :: l2 ≡ₚ l :: l1 ++ k :: l2) as ->; [|by constructor].
  by rewrite (Permutation_swap l k), <- Permutation_middle.
Qed.

Section filter_lemmas.
Context {A : Type} (P Q : A -> Prop).
Context `{decP : forall x, Decision (P x)} `{decQ : forall x, Decision (Q x)}.

Lemma lfilter_ext (l : list A) : (forall x, x ∈ l -> P x <-> Q x) -> filter P l = filter Q l.
Proof.
  induction l as [|x l IH]; intros HP; [done|]. rewrite !filter_cons.
  rewrite IH by (intros; apply HP; by right).
  pose proof (HP x ltac:(by left)). repeat case_decide; tauto.
Qed.

Lemma lfilter_all (l : list A) : (forall x, x ∈ l -> P x) -> filter P l = l.
Proof.
  induction l as [|x l IH]; intros HP; [done|].
  rewrite filter_cons_True by (apply HP; by left). f_equal. apply IH. intros. apply HP. by right.
Qed.

Lemma lfilter_none (l : list A) : (forall x, x ∈ l -> ~ P x) -> filter P l = [].
Proof.
  induction l as [|x l IH]; intros HP; [done|].
  rewrite filter_cons_False by (apply HP; by left). apply IH. intros. apply HP. by right.
Qed.
End filter_lemmas.

Lemma filter_out_perm {A} `{EqDecision A} (x : A) l :
  NoDup l -> x ∈ l -> l ≡ₚ x :: filter (fun y => y <> x) l.
Proof.
  intros Hnd (l1 & l2 & ->)%list_elem_of_split. apply NoDup_app in Hnd as (_ & H1 & H2).
  apply NoDup_cons in H2 as [H2 _]. rewrite <- Permutation_middle. constructor.
  rewrite filter_cons_False by tauto. rewrite lfilter_all; [done|].
  intros y [Hy | Hy]%elem_of_app ->; [|done]. apply (H1 x Hy). left.
Qed.

Lemma seqZ_bounds n : Forall (fun i => 0 <= i < n) (seqZ 0 n).
Proof. apply Forall_forall. intros i Hi%elem_of_seqZ. lia. Qed.

Lemma seqZ_sorted m n : StronglySorted Z.lt (seqZ m n).
Proof.
  destruct (decide (0 <= n)) as [Hn|Hn]; [|rewrite seqZ_nil by lia; constructor].
  revert m. apply (natlike_ind (fun n => forall m, StronglySorted Z.lt (seqZ m n))); [| |done].
  { intros m. rewrite seqZ_nil by lia. constructor. }
  intros k Hk IH m. rewrite seqZ_cons by lia. constructor.
  - rewrite Z.pred_succ. apply IH.
  - apply Forall_forall. intros x Hx%elem_of_seqZ. lia.
Qed.

Lemma StronglySorted_filter {A} (R : A -> A -> Prop) (P : A -> Prop) `{forall x, Decision (P x)} (l : list A) :
  StronglySorted R l -> StronglySorted R (filter P l).
Proof.
  induction 1 as [|x l Hs IH Hall]; [constructor|]. rewrite filter_cons.
  case_decide; [|done]. constructor; [done|]. apply Forall_forall.
  intros y [_ Hy]%list_elem_of_filter. by eapply (proj1 (Forall_forall _ _) Hall).
Qed.

Lemma list_alter_insert {A} (f : A -> A) (l : list A) i x :
  l !! i = Some x -> alter f i l = <[i := f x]> l.
Proof.
  intros Hx. apply lookup_lt_Some in Hx as Hlt. apply list_eq. intros j.
  destruct (decide (i = j)) as [->|Hne].
  - by rewrite list_lookup_alter_eq, Hx, list_lookup_insert_eq.
  - by rewrite list_lookup_alter_ne, list_lookup_insert_ne.
Qed.

(** An array seen as the elements before and after a slot. *)
Lemma slot_set {A} (t1 t2 : list A) x y : lset (t1 ++ x :: t2) (Z.of_nat (length t1)) y = Ok (t1 ++ y :: t2).
Proof.
  rewrite lset_in by (rewrite length_app; cbn [length]; lia). f_equal. rewrite Nat2Z.id, insert_app_r_alt by lia. by rewrite Nat.sub_diag.
Qed.

Lemma slot_get {A} (t1 t2 : list A) x : lget (t1 ++ x :: t2) (Z.of_nat (length t1)) = Ok x.
Proof. apply lget_ok. rewrite Nat2Z.id. split; [lia|by apply list_lookup_middle]. Qed.

Lemma slot_other {A} (t1 t2 : list A) x y (i : nat) : i <> length t1 -> (t1 ++ x :: t2) !! i = (t1 ++ y :: t2) !! i.
Proof.
  intros Hi. destruct (decide (i < length t1)%nat) as [Hl|Hl]; [by rewrite !lookup_app_l by done|].
  rewrite !lookup_app_r by lia. by destruct (i - length t1)%nat as [|k] eqn:E; [lia|].
Qed.

(** A binding in the middle of an association list. *)
Lemma list_to_map_middle {A} `{Countable K} (l1 l2 : list (K * A)) k v :
  NoDup ((l1 ++ (k, v) :: l2).*1) ->
  (list_to_map (l1 ++ (k, v) :: l2) : gmap K A) = <[k := v]> (list_to_map (l1 ++ l2)) /\
  (list_to_map (l1 ++ l2) : gmap K A) !! k = None.
Proof.
  intros Hnd. assert (Hp : l1 ++ (k, v) :: l2 ≡ₚ (k, v) :: l1 ++ l2) by by rewrite Permutation_middle. split.
  - by rewrite (list_to_map_proper _ _ Hnd Hp).
  - rewrite Hp in Hnd. cbn in Hnd. apply NoDup_cons in Hnd as [Hnd _]. by apply not_elem_of_list_to_map.
Qed.

(** Case analysis on a chain of monadic steps known to succeed. *)
Ltac inv_ok :=
  repeat match goal with
  | H : bind _ _ = Ok _ |- _ => apply bind_ok in H as (? & ? & H)
  | H : assert _ = Ok _ |- _ => apply assert_ok in H
  | H : Ok _ = Ok _ |- _ => injection H as H; subst
  | H : Fault _ = Ok _ |- _ => discriminate H
  | H : bool_decide _ = true |- _ => apply bool_decide_eq_true_1 in H
  end.
