(* ===== verification/LibBitmap.v ===== *)
(** * lib/bitmap.cc, lib/bitmap.h: the array of bits used for every allocation
    (disk sectors, physical pages, process slots, semaphore slots). *)

From S2P Require Import Prelude.

Module Bitmap.

(** [BitsInWord] = [sizeof(unsigned int) * BitsInByte]. *)
Definition BitsInByte : Z := 8.
Definition BitsInWord : Z := 4 * BitsInByte.

(** The class's fields; [map] is the array of [unsigned int]. *)
Record t := mk { numBits : Z; numWords : Z; map : list Z }.

(** The mask [1 << (which % BitsInWord)], as the 32-bit pattern it has once
    converted to [unsigned] ([1 << 31] is the sign bit of [int]). *)
Definition mask (which : Z) : Z := u32 (Z.shiftl 1 (which mod BitsInWord)).

Definition in_range (bm : t) (which : Z) : bool :=
  bool_decide (0 <= which) && bool_decide (which < numBits bm).

Definition Test (bm : t) (which : Z) : result bool :=
  assert (in_range bm which) ;;
  w <- lget (map bm) (which / BitsInWord) ;;
  Ok (negb (Z.land w (mask which) =? 0)).

Definition Mark (bm : t) (which : Z) : result t :=
  assert (in_range bm which) ;;
  w <- lget (map bm) (which / BitsInWord) ;;
  m <- lset (map bm) (which / BitsInWord) (Z.lor w (mask which)) ;;
  let bm' := mk (numBits bm) (numWords bm) m in
  b <- Test bm' which ;;
  assert b ;;
  Ok bm'.

Definition Clear (bm : t) (which : Z) : result t :=
  assert (in_range bm which) ;;
  w <- lget (map bm) (which / BitsInWord) ;;
  m <- lset (map bm) (which / BitsInWord) (Z.land w (u32 (Z.lnot (mask which)))) ;;
  let bm' := mk (numBits bm) (numWords bm) m in
  b <- Test bm' which ;;
  assert (negb b) ;;
  Ok bm'.

(** A [for] loop that clears the bits of [ks] in order. *)
Fixpoint clear_all (ks : list Z) (bm : t) : result t :=
  match ks with
  | [] => Ok bm
  | i :: ks => bm' <- Clear bm i ;; clear_all ks bm'
  end.

(** The constructor. *)
Definition Bitmap (numItems : Z) : result t :=
  assert (bool_decide (0 < numItems)) ;;
  let nw := divRoundUp numItems BitsInWord in
  clear_all (seqZ 0 numItems) (mk numItems nw (replicate (Z.to_nat nw) 0)).

Fixpoint FindAndSet_loop (ks : list Z) (bm : t) : result (Z * t) :=
  match ks with
  | [] => Ok (-1, bm)
  | i :: ks =>
      b <- Test bm i ;;
      if negb b then bm' <- Mark bm i ;; Ok (i, bm')
      else FindAndSet_loop ks bm
  end.

Definition FindAndSet (bm : t) : result (Z * t) :=
  FindAndSet_loop (seqZ 0 (numBits bm)) bm.

Fixpoint NumClear_loop (ks : list Z) (count : Z) (bm : t) : result Z :=
  match ks with
  | [] => Ok count
  | i :: ks =>
      b <- Test bm i ;;
      NumClear_loop ks (if negb b then count + 1 else count) bm
  end.

Definition NumClear (bm : t) : result Z := NumClear_loop (seqZ 0 (numBits bm)) 0 bm.

(** [Print] writes the numbers of the set bits; the model returns them. *)
Fixpoint Print_loop (ks : list Z) (bm : t) : result (list Z) :=
  match ks with
  | [] => Ok []
  | i :: ks =>
      b <- Test bm i ;;
      rest <- Print_loop ks bm ;;
      Ok (if b then i :: rest else rest)
  end.

Definition Print (bm : t) : result (list Z) := Print_loop (seqZ 0 (numBits bm)) bm.

Fixpoint mark_all (ks : list Z) (bm : t) : result t :=
  match ks with
  | [] => Ok bm
  | i :: ks => bm' <- Mark bm i ;; mark_all ks bm'
  end.

Definition SelfTest (bm : t) : result t :=
  assert (bool_decide (BitsInWord <= numBits bm)) ;;
  n <- NumClear bm ;;
  assert (n =? numBits bm) ;;
  '(r, bm) <- FindAndSet bm ;;
  assert (r =? 0) ;;
  bm <- Mark bm 31 ;;
  b0 <- Test bm 0 ;;
  b31 <- Test bm 31 ;;
  assert (b0 && b31) ;;
  '(r, bm) <- FindAndSet bm ;;
  assert (r =? 1) ;;
  bm <- Clear bm 0 ;;
  bm <- Clear bm 1 ;;
  bm <- Clear bm 31 ;;
  bm <- mark_all (seqZ 0 (numBits bm)) bm ;;
  '(r, bm) <- FindAndSet bm ;;
  assert (r =? -1) ;;
  clear_all (seqZ 0 (numBits bm)) bm.

(** ** The abstract view: which bits are set, and the free ones in order *)

Definition test (bm : t) (i : Z) : bool :=
  Z.testbit (map bm !!! Z.to_nat (i / BitsInWord)) (i mod BitsInWord).

Definition free (bm : t) : list Z :=
  filter (fun i => test bm i = false) (seqZ 0 (numBits bm)).

Definition wf (bm : t) : Prop :=
  0 < numBits bm /\
  numWords bm = divRoundUp (numBits bm) BitsInWord /\
  Z.of_nat (length (map bm)) = numWords bm /\
  Forall (fun w => 0 <= w < 2 ^ 32) (map bm).

Lemma bit_index i : 0 <= i mod BitsInWord < 32.
Proof. apply Z.mod_pos_bound. by vm_compute. Qed.

Lemma mask_pow2 i : mask i = 2 ^ (i mod BitsInWord).
Proof.
  unfold mask. pose proof (bit_index i).
  rewrite Z.shiftl_1_l, u32_small; [done|].
  split; [apply Z.pow_nonneg; lia|apply Z.pow_lt_mono_r; lia].
Qed.

Lemma land_mask w i : 0 <= i -> negb (Z.land w (mask i) =? 0) = Z.testbit w (i mod BitsInWord).
Proof.
  intros Hi. rewrite mask_pow2. set (k := i mod BitsInWord).
  assert (0 <= k < 32) by apply bit_index.
  destruct (Z.testbit w k) eqn:E.
  - destruct (Z.eqb_spec (Z.land w (2 ^ k)) 0) as [H0|]; [|done].
    assert (Z.testbit (Z.land w (2 ^ k)) k = true) as Hb.
    { by rewrite Z.land_spec, E, Z.pow2_bits_true by lia. }
    by rewrite H0, Z.bits_0 in Hb.
  - apply negb_false_iff, Z.eqb_eq, Z.bits_inj'. intros n Hn.
    rewrite Z.land_spec, Z.bits_0, Z.pow2_bits_eqb by lia.
    destruct (Z.eqb_spec k n); subst; [by rewrite E|by rewrite andb_false_r].
Qed.

Lemma index_lt bm i :
  wf bm -> 0 <= i < numBits bm -> 0 <= i / BitsInWord < Z.of_nat (length (map bm)).
Proof.
  intros (Hn & Hw & Hl & _) Hi. unfold BitsInWord, BitsInByte in *.
  pose proof (divRoundUp_spec (numBits bm) (4 * 8)).
  split; [apply Z.div_pos; lia|]. apply Z.div_lt_upper_bound; lia.
Qed.

Lemma in_range_true bm i : in_range bm i = true <-> 0 <= i < numBits bm.
Proof. unfold in_range. rewrite andb_true_iff, !bool_decide_eq_true. done. Qed.

Lemma Test_ok bm i : wf bm -> 0 <= i < numBits bm -> Test bm i = Ok (test bm i).
Proof.
  intros Hwf Hi. unfold Test. rewrite (proj2 (in_range_true bm i)) by done. simpl.
  destruct (lget_is_ok (map bm) (i / BitsInWord)) as (w & Hw & Hl); [by apply index_lt|].
  rewrite Hw. simpl. rewrite land_mask by lia.
  unfold test. by rewrite (list_lookup_total_correct _ _ _ Hl).
Qed.
(** [bm'] is [bm] with bit [i] set to [b], everything else unchanged. *)
Definition updated (bm : t) (i : Z) (b : bool) (bm' : t) : Prop :=
  wf bm' /\ numBits bm' = numBits bm /\
  forall j, 0 <= j < numBits bm -> test bm' j = if decide (j = i) then b else test bm j.

(** Replacing the word that holds bit [i] by one that differs from it at most in
    that bit, which becomes [b]. *)
Lemma update_word bm i w w' b :
  wf bm -> 0 <= i < numBits bm -> map bm !! Z.to_nat (i / BitsInWord) = Some w ->
  0 <= w' < 2 ^ 32 ->
  (forall k, 0 <= k < 32 -> Z.testbit w' k = if decide (k = i mod BitsInWord) then b else Z.testbit w k) ->
  updated bm i b (mk (numBits bm) (numWords bm) (<[Z.to_nat (i / BitsInWord) := w']> (map bm))).
Proof.
  intros Hwf Hi Hw Hw' Hbit. pose proof (index_lt bm i Hwf Hi) as Hidx.
  destruct Hwf as (Hn & Hnw & Hl & Hall). split; [|split; [done|]].
  - split; [done|]. split; [done|]. split; [simpl; by rewrite length_insert|]. by apply Forall_insert.
  - intros j Hj. unfold test; simpl.
    assert (0 <= j / BitsInWord) by (apply Z.div_pos; [lia|by vm_compute]).
    destruct (decide (j / BitsInWord = i / BitsInWord)) as [E|E].
    + rewrite E, list_lookup_total_insert_eq by lia. rewrite Hbit by apply bit_index.
      pose proof (Z.div_mod j BitsInWord). pose proof (Z.div_mod i BitsInWord).
      assert (BitsInWord <> 0) by (by vm_compute).
      rewrite (list_lookup_total_correct _ _ _ Hw).
      repeat case_decide; try done; exfalso; lia.
    + rewrite list_lookup_total_insert_ne by lia.
      rewrite decide_False; [done|]. intros ->. done.
Qed.

Lemma word_range bm k w : wf bm -> map bm !! k = Some w -> 0 <= w < 2 ^ 32.
Proof. intros (_ & _ & _ & H) Hw. by eapply (Forall_lookup_1 _ _ _ _ H). Qed.

Lemma word_of_bits w : 0 <= w -> (forall k, 32 <= k -> Z.testbit w k = false) -> 0 <= w < 2 ^ 32.
Proof.
  intros Hw Hb. split; [done|]. apply Z.nle_gt. intros Hge.
  assert (0 < w) by lia. pose proof (Z.bit_log2 w ltac:(lia)) as Hbit.
  rewrite Hb in Hbit; [done|]. apply Z.log2_le_pow2 in Hge; lia.
Qed.

Lemma high_bit w k : 0 <= w < 2 ^ 32 -> 32 <= k -> Z.testbit w k = false.
Proof.
  intros Hw Hk. rewrite <- (Z.mod_small w (2 ^ 32)) by done.
  by apply Z.mod_pow2_bits_high.
Qed.

Lemma mask_bit i k : 0 <= k -> Z.testbit (mask i) k = bool_decide (k = i mod BitsInWord).
Proof.
  intros Hk. pose proof (bit_index i). rewrite mask_pow2, Z.pow2_bits_eqb by lia.
  destruct (Z.eqb_spec (i mod BitsInWord) k); case_bool_decide; congruence.
Qed.

Lemma lnot_mask_bit i k :
  0 <= k < 32 -> Z.testbit (u32 (Z.lnot (mask i))) k = negb (bool_decide (k = i mod BitsInWord)).
Proof.
  intros Hk. unfold u32. rewrite Z.mod_pow2_bits_low, Z.lnot_spec, mask_bit by lia. done.
Qed.

Lemma updated_Test bm i b bm' :
  updated bm i b bm' -> 0 <= i < numBits bm -> Test bm' i = Ok b.
Proof.
  intros (Hwf & Hn & Ht) Hi. rewrite Test_ok by (rewrite ?Hn; done).
  by rewrite Ht, decide_True.
Qed.

(** [Mark] and [Clear] write exactly the bit they are asked to, and the
    assertions at their ends hold. *)
Lemma Mark_ok bm i :
  wf bm -> 0 <= i < numBits bm -> exists bm', Mark bm i = Ok bm' /\ updated bm i true bm'.
Proof.
  intros Hwf Hi. pose proof (index_lt bm i Hwf Hi) as Hidx.
  destruct (lget_is_ok (map bm) _ Hidx) as (w & Hw & Hl).
  assert (Hu : updated bm i true
    (mk (numBits bm) (numWords bm) (<[Z.to_nat (i / BitsInWord) := Z.lor w (mask i)]> (map bm)))).
  { pose proof (word_range _ _ _ Hwf Hl) as Hr.
    pose proof (u32_range (Z.shiftl 1 (i mod BitsInWord))) as Hm. fold (mask i) in Hm.
    eapply update_word; [done..| |].
    - apply word_of_bits; [apply Z.lor_nonneg; lia|]. intros k Hk.
      by rewrite Z.lor_spec, !high_bit.
    - intros k Hk. rewrite Z.lor_spec, mask_bit by lia.
      case_bool_decide; case_decide; try done; [apply orb_true_r|apply orb_false_r]. }
  eexists. split; [|exact Hu]. unfold Mark.
  rewrite (proj2 (in_range_true bm i)) by done. simpl. rewrite Hw. simpl.
  rewrite lset_in by done. simpl. by rewrite (updated_Test _ _ _ _ Hu Hi).
Qed.

Lemma Clear_ok bm i :
  wf bm -> 0 <= i < numBits bm -> exists bm', Clear bm i = Ok bm' /\ updated bm i false bm'.
Proof.
  intros Hwf Hi. pose proof (index_lt bm i Hwf Hi) as Hidx.
  destruct (lget_is_ok (map bm) _ Hidx) as (w & Hw & Hl).
  assert (Hu : updated bm i false
    (mk (numBits bm) (numWords bm)
       (<[Z.to_nat (i / BitsInWord) := Z.land w (u32 (Z.lnot (mask i)))]> (map bm)))).
  { pose proof (word_range _ _ _ Hwf Hl) as Hr.
    pose proof (u32_range (Z.lnot (mask i))) as Hm.
    eapply update_word; [done..| |].
    - apply word_of_bits; [apply Z.land_nonneg; lia|]. intros k Hk.
      by rewrite Z.land_spec, (high_bit w).
    - intros k Hk. rewrite Z.land_spec, lnot_mask_bit by lia.
      case_bool_decide; case_decide; try done; [apply andb_false_r|apply andb_true_r]. }
  eexists. split; [|exact Hu]. unfold Clear.
  rewrite (proj2 (in_range_true bm i)) by done. simpl. rewrite Hw. simpl.
  rewrite lset_in by done. simpl. by rewrite (updated_Test _ _ _ _ Hu Hi).
Qed.

Lemma out_of_range_fails bm i :
  ~ (0 <= i < numBits bm) ->
  Test bm i = Fault AssertFailed /\ Mark bm i = Fault AssertFailed /\ Clear bm i = Fault AssertFailed.
Proof.
  intros Hi. unfold Test, Mark, Clear.
  destruct (in_range bm i) eqn:E; [by apply in_range_true in E|done].
Qed.

(** ** The free list *)

Lemma elem_of_free bm i : i ∈ free bm <-> 0 <= i < numBits bm /\ test bm i = false.
Proof. unfold free. rewrite list_elem_of_filter, elem_of_seqZ, Z.add_0_l. tauto. Qed.

Lemma free_NoDup bm : NoDup (free bm).
Proof. apply NoDup_filter, NoDup_seqZ. Qed.

Lemma free_sorted bm i rest j : free bm = i :: rest -> j ∈ rest -> i < j.
Proof.
  unfold free. intros Heq Hj.
  assert (Hs : StronglySorted Z.lt (filter (fun i => test bm i = false) (seqZ 0 (numBits bm)))).
  { apply StronglySorted_filter, seqZ_sorted. }
  rewrite Heq in Hs. apply StronglySorted_inv in Hs as [_ Hs].
  by eapply (proj1 (Forall_forall _ _) Hs).
Qed.

Lemma free_Mark bm i bm' :
  updated bm i true bm' -> free bm' = filter (fun j => j <> i) (free bm).
Proof.
  intros (_ & Hn & Ht). unfold free. rewrite Hn, list_filter_filter.
  apply lfilter_ext. intros j Hj%elem_of_seqZ. rewrite Ht by lia.
  case_decide; naive_solver.
Qed.

Lemma free_Clear_in bm i bm' j :
  updated bm i false bm' -> 0 <= i < numBits bm -> j ∈ free bm' <-> j = i \/ j ∈ free bm.
Proof.
  intros (_ & Hn & Ht) Hi. rewrite !elem_of_free, Hn. split.
  - intros [Hj Hf]. rewrite Ht in Hf by done. case_decide; naive_solver.
  - intros [->|[Hj Hf]]; [|rewrite Ht by done; by case_decide].
    by rewrite Ht, decide_True.
Qed.

Lemma updated_wf bm i b bm' : updated bm i b bm' -> wf bm'.
Proof. by intros (? & ?). Qed.

(** [FindAndSet] takes the head of the free list, or answers -1 when it is empty. *)
Definition found (bm : t) (r : Z * t) : Prop :=
  match free bm with
  | [] => r = (-1, bm)
  | i :: rest => r.1 = i /\ updated bm i true r.2 /\ free r.2 = rest
  end.

Lemma FindAndSet_loop_ok bm l ks :
  wf bm -> seqZ 0 (numBits bm) = l ++ ks -> Forall (fun i => test bm i = true) l ->
  exists r, FindAndSet_loop ks bm = Ok r /\ found bm r.
Proof.
  intros Hwf. revert l. induction ks as [|i ks IH]; intros l Heq Hl; simpl.
  - eexists. split; [done|]. unfold found, free. rewrite Heq, app_nil_r.
    rewrite lfilter_none; [done|].
    intros x Hx. rewrite (proj1 (Forall_forall _ _) Hl x Hx). done.
  - assert (Hi : 0 <= i < numBits bm).
    { assert (Hin : i ∈ seqZ 0 (numBits bm)) by (rewrite Heq; set_solver).
      apply elem_of_seqZ in Hin. lia. }
    rewrite Test_ok by done. simpl. destruct (test bm i) eqn:E; simpl.
    + apply (IH (l ++ [i])); [by rewrite <- app_assoc|].
      apply Forall_app. auto.
    + destruct (Mark_ok bm i Hwf Hi) as (bm' & -> & Hu). simpl. eexists. split; [done|].
      assert (Hfree : free bm = i :: filter (fun j => test bm j = false) ks).
      { unfold free. rewrite Heq, filter_app, filter_cons_True by done.
        rewrite lfilter_none; [done|].
        intros x Hx. rewrite (proj1 (Forall_forall _ _) Hl x Hx). done. }
      unfold found. rewrite Hfree. split; [done|]. split; [done|]. simpl.
      rewrite (free_Mark _ _ _ Hu), Hfree.
      pose proof (free_NoDup bm) as Hnd. rewrite Hfree in Hnd.
      apply NoDup_cons in Hnd as [Hnin _].
      rewrite filter_cons_False by naive_solver.
      apply lfilter_all. intros x Hx ->. done.
Qed.

Lemma FindAndSet_ok bm : wf bm -> exists r, FindAndSet bm = Ok r /\ found bm r.
Proof. intros Hwf. by apply (FindAndSet_loop_ok bm []). Qed.

Lemma NumClear_loop_ok bm ks c :
  wf bm -> Forall (fun i => 0 <= i < numBits bm) ks ->
  NumClear_loop ks c bm = Ok (c + Z.of_nat (length (filter (fun i => test bm i = false) ks))).
Proof.
  intros Hwf Hks. revert c. induction Hks as [|i ks Hi _ IH]; intros c; simpl.
  - simpl. f_equal. lia.
  - rewrite Test_ok by done. simpl. rewrite IH, filter_cons.
    destruct (test bm i); simpl; f_equal; lia.
Qed.

Lemma NumClear_ok bm : wf bm -> NumClear bm = Ok (Z.of_nat (length (free bm))).
Proof.
  intros Hwf. unfold NumClear. rewrite NumClear_loop_ok; [|done|apply seqZ_bounds].
  f_equal.
Qed.

Lemma clear_all_ok ks bm :
  wf bm -> Forall (fun i => 0 <= i < numBits bm) ks ->
  exists bm', clear_all ks bm = Ok bm' /\ wf bm' /\ numBits bm' = numBits bm /\
    forall j, 0 <= j < numBits bm -> test bm' j = if decide (j ∈ ks) then false else test bm j.
Proof.
  intros Hwf Hks. revert bm Hwf Hks. induction ks as [|i ks IH]; intros bm Hwf Hks; simpl.
  - eexists. split; [done|]. split; [done|]. split; [done|]. by intros.
  - apply Forall_cons in Hks as [Hi Hks].
    destruct (Clear_ok bm i Hwf Hi) as (bm1 & -> & Hwf1 & Hn1 & Ht1). simpl.
    destruct (IH bm1 Hwf1) as (bm' & -> & Hwf' & Hn' & Ht'); [by rewrite Hn1|].
    eexists. split; [done|]. split; [done|]. split; [congruence|]. intros j Hj.
    rewrite Ht' by (by rewrite Hn1). rewrite Ht1 by done.
    repeat case_decide; try done; set_solver.
Qed.

Lemma mark_all_ok ks bm :
  wf bm -> Forall (fun i => 0 <= i < numBits bm) ks ->
  exists bm', mark_all ks bm = Ok bm' /\ wf bm' /\ numBits bm' = numBits bm /\
    free bm' = filter (fun j => j ∉ ks) (free bm).
Proof.
  intros Hwf Hks. revert bm Hwf Hks. induction ks as [|i ks IH]; intros bm Hwf Hks; simpl.
  - eexists. split; [done|]. split; [done|]. split; [done|].
    symmetry. apply lfilter_all. set_solver.
  - apply Forall_cons in Hks as [Hi Hks].
    destruct (Mark_ok bm i Hwf Hi) as (bm1 & -> & Hu). simpl.
    destruct (IH bm1) as (bm' & -> & Hwf' & Hn' & Hf'); [by eapply updated_wf|by rewrite (proj1 (proj2 Hu))|].
    eexists. split; [done|]. split; [done|]. split; [rewrite Hn'; apply Hu|].
    rewrite Hf', (free_Mark _ _ _ Hu), list_filter_filter.
    apply lfilter_ext. set_solver.
Qed.

Lemma zeros_wf n :
  0 < n -> wf (mk n (divRoundUp n BitsInWord) (replicate (Z.to_nat (divRoundUp n BitsInWord)) 0)).
Proof.
  intros Hn. assert (0 <= divRoundUp n BitsInWord) by (apply divRoundUp_nonneg; [by vm_compute|lia]).
  repeat split; simpl; [lia|rewrite length_replicate; lia|].
  apply Forall_replicate. lia.
Qed.

Lemma Bitmap_ok n :
  0 < n -> exists bm, Bitmap n = Ok bm /\ wf bm /\ numBits bm = n /\ free bm = seqZ 0 n.
Proof.
  intros Hn. unfold Bitmap. rewrite bool_decide_eq_true_2 by done. simpl.
  destruct (clear_all_ok (seqZ 0 n) _ (zeros_wf n Hn)) as (bm & -> & Hwf & Hn' & Ht);
    [apply seqZ_bounds|].
  eexists. split; [done|]. split; [done|]. split; [done|].
  unfold free. rewrite Hn'. simpl. apply lfilter_all.
  intros i Hi. rewrite Ht by (apply elem_of_seqZ in Hi; simpl; lia). by rewrite decide_True.
Qed.

(** ** Properties *)

(** on a well-formed bitmap, [Mark] and [Clear] of a bit in range return (the
    assertions they end with hold), change exactly that bit as [Test] reads it,
    and keep the representation (array length, 32-bit words); out of range, all
    three stop at their assertion. *)
Theorem Bitmap_Mark_Clear_Test bm i :
  wf bm ->
  (0 <= i < numBits bm ->
   exists m c, Mark bm i = Ok m /\ Clear bm i = Ok c /\ wf m /\ wf c /\
     numBits m = numBits bm /\ numBits c = numBits bm /\
     Test m i = Ok true /\ Test c i = Ok false /\
     forall j, 0 <= j < numBits bm -> j <> i ->
       Test m j = Test bm j /\ Test c j = Test bm j) /\
  (~ (0 <= i < numBits bm) ->
   Test bm i = Fault AssertFailed /\ Mark bm i = Fault AssertFailed /\
   Clear bm i = Fault AssertFailed).
Proof.
  intros Hwf. split; [|apply out_of_range_fails]. intros Hi.
  destruct (Mark_ok bm i Hwf Hi) as (m & -> & Hm), (Clear_ok bm i Hwf Hi) as (c & -> & Hc).
  exists m, c. split_and!; try done; try (by eapply updated_Test); try apply Hm; try apply Hc.
  destruct Hm as (? & En & Hm), Hc as (? & En' & Hc).
  intros j Hj Hne. rewrite !Test_ok by (rewrite ?En, ?En'; done).
  by rewrite Hm, Hc, !decide_False.
Qed.

(** [FindAndSet] answers -1, leaving the bitmap alone, exactly when every bit
    is set; otherwise it answers the lowest clear bit, sets it and no other, and
    [NumClear] drops by one. *)
Theorem Bitmap_FindAndSet_lowest bm :
  wf bm ->
  exists r bm', FindAndSet bm = Ok (r, bm') /\ wf bm' /\
    ((r = -1 /\ bm' = bm /\ NumClear bm = Ok 0 /\ forall j, 0 <= j < numBits bm -> test bm j = true) \/
     (0 <= r < numBits bm /\ test bm r = false /\ (forall j, 0 <= j < r -> test bm j = true) /\
      (forall j, 0 <= j < numBits bm -> test bm' j = if decide (j = r) then true else test bm j) /\
      exists n, NumClear bm = Ok (n + 1) /\ NumClear bm' = Ok n)).
Proof.
  intros Hwf. destruct (FindAndSet_ok bm Hwf) as ([r bm'] & HF & Hf). exists r, bm'. split; [done|].
  unfold found in Hf. destruct (free bm) as [|i rest] eqn:Efree.
  - injection Hf as -> ->. split; [done|]. left. split_and!; try done.
    + by rewrite NumClear_ok, Efree.
    + intros j Hj. destruct (test bm j) eqn:E; [done|].
      assert (j ∈ free bm) as Hin by (by apply elem_of_free). rewrite Efree in Hin. set_solver.
  - simpl in Hf. destruct Hf as (-> & Hu & Hrest). split; [by eapply updated_wf|]. right.
    assert (Hi : i ∈ free bm) by (rewrite Efree; by left). apply elem_of_free in Hi as [Hi Ht].
    split_and!; try lia; try done.
    + intros j Hj. destruct (test bm j) eqn:E; [done|]. exfalso.
      assert (Hin : j ∈ free bm) by (apply elem_of_free; split; [lia|done]).
      rewrite Efree in Hin. apply elem_of_cons in Hin as [->|Hin]; [lia|].
      pose proof (free_sorted bm i rest j Efree Hin). lia.
    + apply Hu.
    + exists (Z.of_nat (length rest)). rewrite !NumClear_ok by (done || by eapply updated_wf).
      rewrite Efree, Hrest. simpl. split; f_equal; lia.
Qed.

(** The module's self test passes on every freshly built bitmap of at least
    one word, and leaves it empty again. *)
Theorem Bitmap_SelfTest_passes n :
  BitsInWord <= n ->
  exists bm bm', Bitmap n = Ok bm /\ SelfTest bm = Ok bm' /\ free bm' = seqZ 0 n.
Proof.
  intros Hn. unfold BitsInWord, BitsInByte in Hn.
  destruct (Bitmap_ok n) as (bm & Hbm & Hwf & Hnb & Hfree); [lia|]. exists bm.
  assert (Hrest : exists bm', SelfTest bm = Ok bm' /\ free bm' = seqZ 0 n);
    [|destruct Hrest as (bm' & ? & ?); by exists bm'].
  unfold SelfTest. rewrite bool_decide_eq_true_2 by (unfold BitsInWord, BitsInByte; lia). simpl.
  rewrite NumClear_ok, Hfree, length_seqZ, Z2Nat.id by (done || lia). simpl.
  rewrite Hnb, Z.eqb_refl. simpl.
  destruct (FindAndSet_ok bm Hwf) as ([r bm1] & -> & Hf). unfold found in Hf.
  rewrite Hfree, seqZ_cons in Hf by lia. destruct Hf as (Hr & (Hwf1 & Hn1 & Ht1) & Hf1).
  simpl in *. subst r. simpl.
  destruct (Mark_ok bm1 31 Hwf1) as (bm2 & -> & Hu2); [lia|]. simpl.
  pose proof (free_Mark _ _ _ Hu2) as Hf2. destruct Hu2 as (Hwf2 & Hn2 & Ht2).
  rewrite !Test_ok, !Ht2 by (done || lia). rewrite !Ht1 by lia. simpl.
  destruct (FindAndSet_ok bm2 Hwf2) as ([r bm3] & -> & Hf). unfold found in Hf.
  rewrite Hf2, Hf1, seqZ_cons in Hf by lia. rewrite filter_cons_True in Hf by lia.
  destruct Hf as (Hr & (Hwf3 & Hn3 & Ht3) & _). simpl in *. subst r. simpl.
  destruct (Clear_ok bm3 0 Hwf3) as (bm4 & -> & Hwf4 & Hn4 & _); [lia|]. simpl.
  destruct (Clear_ok bm4 1 Hwf4) as (bm5 & -> & Hwf5 & Hn5 & _); [lia|]. simpl.
  destruct (Clear_ok bm5 31 Hwf5) as (bm6 & -> & Hwf6 & Hn6 & _); [lia|]. simpl.
  destruct (mark_all_ok (seqZ 0 (numBits bm6)) bm6 Hwf6) as (bm7 & -> & Hwf7 & Hn7 & Hf7);
    [apply seqZ_bounds|]. simpl.
  destruct (FindAndSet_ok bm7 Hwf7) as ([r bm8] & -> & Hf). unfold found in Hf.
  rewrite Hf7, lfilter_none in Hf.
  2:{ intros x [Hx _]%elem_of_free Hnin. apply Hnin, elem_of_seqZ. lia. }
  injection Hf as -> ->. simpl.
  destruct (clear_all_ok (seqZ 0 (numBits bm7)) bm7 Hwf7) as (bm9 & -> & Hwf9 & Hn9 & Ht9);
    [apply seqZ_bounds|]. eexists. split; [done|].
  unfold free. replace (numBits bm9) with n by lia. apply lfilter_all.
  intros i Hi%elem_of_seqZ. rewrite Ht9 by lia. rewrite decide_True; [done|].
  apply elem_of_seqZ. lia.
Qed.

Lemma wf_example : wf (mk 40 2 [0; 0]).
Proof. split_and!; [by vm_compute|done|done|]. repeat constructor; simpl; lia. Defined.

Lemma Bitmap_Mark_Clear_Test_witness :
  wf (mk 40 2 [0; 0]) /\
  ((0 <= 35 < 40 -> exists m c, Mark (mk 40 2 [0; 0]) 35 = Ok m /\ Clear (mk 40 2 [0; 0]) 35 = Ok c /\
     wf m /\ wf c /\ numBits m = 40 /\ numBits c = 40 /\
     Test m 35 = Ok true /\ Test c 35 = Ok false /\
     forall j, 0 <= j < 40 -> j <> 35 ->
       Test m j = Test (mk 40 2 [0; 0]) j /\ Test c j = Test (mk 40 2 [0; 0]) j) /\
   (~ (0 <= 35 < 40) ->
   Test (mk 40 2 [0; 0]) 35 = Fault AssertFailed /\ Mark (mk 40 2 [0; 0]) 35 = Fault AssertFailed /\
   Clear (mk 40 2 [0; 0]) 35 = Fault AssertFailed)).
Proof. split; [apply wf_example|]. apply (Bitmap_Mark_Clear_Test (mk 40 2 [0; 0]) 35 wf_example). Defined.

Lemma Bitmap_FindAndSet_lowest_witness :
  wf (mk 40 2 [0; 0]) /\ exists r bm', FindAndSet (mk 40 2 [0; 0]) = Ok (r, bm').
Proof.
  split; [apply wf_example|].
  destruct (Bitmap_FindAndSet_lowest (mk 40 2 [0; 0]) wf_example) as (r & bm' & H & _). by exists r, bm'.
Defined.

Lemma Bitmap_SelfTest_passes_witness :
  BitsInWord <= 128 /\ exists bm bm', Bitmap 128 = Ok bm /\ SelfTest bm = Ok bm' /\ free bm' = seqZ 0 128.
Proof. split; [by vm_compute|]. apply (Bitmap_SelfTest_passes 128). by vm_compute. Defined.
End Bitmap.
