(* ===== verification/Machine.v ===== *)
(** * machine/machine.{h,cc}, machine/translate.{h,cc}: the simulated host

    CPU registers, main memory, and the translation of a user address through
    the page table or the TLB. *)

From S2P Require Import Prelude.
From Stdlib Require Import Strings.Byte.

Module Machine.

Definition PageSize : Z := 512.
Definition NumPhysPages : Z := 128.
Definition MemorySize : Z := NumPhysPages * PageSize.
Definition TLBSize : Z := 4.

Inductive ExceptionType :=
  | NoException | SyscallException | PageFaultException | ReadOnlyException
  | BusErrorException | AddressErrorException | OverflowException
  | IllegalInstrException | NumExceptionTypes.

#[export] Instance ExceptionType_eq_dec : EqDecision ExceptionType.
Proof. solve_decision. Defined.

Definition StackReg : Z := 29.
Definition RetAddrReg : Z := 31.
Definition NumGPRegs : Z := 32.
Definition HiReg : Z := 32.
Definition LoReg : Z := 33.
Definition PCReg : Z := 34.
Definition NextPCReg : Z := 35.
Definition PrevPCReg : Z := 36.
Definition LoadReg : Z := 37.
Definition LoadValueReg : Z := 38.
Definition BadVAddrReg : Z := 39.
Definition NumTotalRegs : Z := 40.

Record TranslationEntry := TE {
  virtualPage : Z;
  physicalPage : Z;
  valid : bool;
  readOnly : bool;
  use : bool;
  dirty : bool
}.

(** The class's fields.  [mainMemory] maps a physical address to its byte; an
    address never written still holds the zero of the constructor. *)
Record machine := mkM {
  registers : list Z;
  mainMemory : gmap Z byte;
  tlb : option (list TranslationEntry);
  pageTable : option (list TranslationEntry);
  pageTableSize : Z;
  singleStep : bool;
  runUntilTime : Z
}.

Definition set_registers (f : list Z -> list Z) (m : machine) : machine :=
  mkM (f (registers m)) (mainMemory m) (tlb m) (pageTable m) (pageTableSize m) (singleStep m) (runUntilTime m).
Definition set_memory (f : gmap Z byte -> gmap Z byte) (m : machine) : machine :=
  mkM (registers m) (f (mainMemory m)) (tlb m) (pageTable m) (pageTableSize m) (singleStep m) (runUntilTime m).
Definition set_pageTable (t : option (list TranslationEntry)) (m : machine) : machine :=
  mkM (registers m) (mainMemory m) (tlb m) t (pageTableSize m) (singleStep m) (runUntilTime m).
Definition set_tlb (t : option (list TranslationEntry)) (m : machine) : machine :=
  mkM (registers m) (mainMemory m) t (pageTable m) (pageTableSize m) (singleStep m) (runUntilTime m).

(** [Machine::Machine(debug)] without USE_TLB.  [pageTableSize] and
    [runUntilTime] are left uninitialised by the constructor: arguments here. *)
Definition Machine (debug : bool) (size0 until0 : Z) : machine :=
  mkM (replicate (Z.to_nat NumTotalRegs) 0) ∅ None None size0 debug until0.

(** A register whose number is a constant or a decoded 5-bit field. *)
Definition reg (m : machine) (i : Z) : Z := registers m !!! Z.to_nat i.
Definition setreg (i v : Z) (m : machine) : machine := set_registers (<[Z.to_nat i := v]>) m.
Definition byte_at (m : machine) (a : Z) : byte := default x00 (mainMemory m !! a).

Definition ReadRegister (m : machine) (num : Z) : result Z :=
  assert (bool_decide (0 <= num) && bool_decide (num < NumTotalRegs)) ;;
  lget (registers m) num.

Definition WriteRegister (num value : Z) (m : machine) : result machine :=
  assert (bool_decide (0 <= num) && bool_decide (num < NumTotalRegs)) ;;
  r <- lset (registers m) num value ;;
  Ok (set_registers (fun _ => r) m).

(** [registers[registers[LoadReg]]] is the only register access with a run-time
    index. *)
Definition DelayedLoad (nextReg nextValue : Z) (m : machine) : result machine :=
  r <- lset (registers m) (reg m LoadReg) (reg m LoadValueReg) ;;
  let m := set_registers (fun _ => r) m in
  Ok (setreg 0 0 (setreg LoadValueReg nextValue (setreg LoadReg nextReg m))).

(** [RaiseException] up to its call of [ExceptionHandler]: the caller of the
    model is handed the exception and runs the handler on the returned state. *)
Definition RaiseException (badVAddr : Z) (m : machine) : result machine :=
  DelayedLoad 0 0 (setreg BadVAddrReg badVAddr m).

(** The host is little-endian, so these are the identity (translate.cc keeps
    the byte swap under HOST_IS_BIG_ENDIAN). *)
Definition WordToHost (word : Z) : Z := word.
Definition ShortToHost (shortword : Z) : Z := shortword.
Definition WordToMachine (word : Z) : Z := WordToHost word.
Definition ShortToMachine (shortword : Z) : Z := ShortToHost shortword.

(** The TLB scan: index of the first valid entry for [vpn]. *)
Fixpoint tlb_find (i : Z) (es : list TranslationEntry) (vpn : Z) : option (Z * TranslationEntry) :=
  match es with
  | [] => None
  | e :: es =>
      if valid e && (virtualPage e =? wrap32 vpn) then Some (i, e) else tlb_find (i + 1) es vpn
  end.

(** Where the entry of a page was found, so that its use and dirty bits can be
    written back. *)
Inductive slot := InPageTable (i : Z) | InTLB (i : Z).

Definition lookup_entry (m : machine) (vpn : Z) : result (ExceptionType + slot * TranslationEntry) :=
  match tlb m with
  | None =>
      match pageTable m with
      | None => Fault NullPointer
      | Some pt =>
          if bool_decide (pageTableSize m <= vpn) then Ok (inl AddressErrorException)
          else
            e <- lget pt vpn ;;
            if negb (valid e) then Ok (inl PageFaultException)
            else Ok (inr (InPageTable vpn, e))
      end
  | Some es =>
      match tlb_find 0 es vpn with
      | None => Ok (inl PageFaultException)
      | Some (i, e) => Ok (inr (InTLB i, e))
      end
  end.

Definition update_entry (s : slot) (e : TranslationEntry) (m : machine) : machine :=
  match s with
  | InPageTable i => set_pageTable (fmap (M:=option) (<[Z.to_nat i := e]>) (pageTable m)) m
  | InTLB i => set_tlb (fmap (M:=option) (<[Z.to_nat i := e]>) (tlb m)) m
  end.

(** Outcome of a translation: the exception, or the physical address. *)
Definition Translate (virtAddr size : Z) (writing : bool) (m : machine)
    : result (machine * (ExceptionType + Z)) :=
  if ((size =? 4) && negb (Z.land virtAddr 3 =? 0)) || ((size =? 2) && negb (Z.land virtAddr 1 =? 0))
  then Ok (m, inl AddressErrorException)
  else
    assert (negb (isSome (tlb m) && isSome (pageTable m))) ;;
    assert (isSome (tlb m) || isSome (pageTable m)) ;;
    let vpn := u32 virtAddr / PageSize in
    let offset := u32 virtAddr mod PageSize in
    found <- lookup_entry m vpn ;;
    match found with
    | inl e => Ok (m, inl e)
    | inr (s, entry) =>
        if readOnly entry && writing then Ok (m, inl ReadOnlyException)
        else
          let pageFrame := u32 (physicalPage entry) in
          if bool_decide (NumPhysPages <= pageFrame) then Ok (m, inl BusErrorException)
          else
            let entry' := TE (virtualPage entry) (physicalPage entry) (valid entry) (readOnly entry)
                            true (writing || dirty entry) in
            let physAddr := pageFrame * PageSize + offset in
            assert (bool_decide (0 <= physAddr) && bool_decide (physAddr + size <= MemorySize)) ;;
            Ok (update_entry s entry' m, inr physAddr)
    end.

Definition load_bytes (m : machine) (a : Z) (n : nat) : list byte :=
  (fun k => byte_at m (a + k)) <$> seqZ 0 (Z.of_nat n).

Fixpoint store_bytes (a : Z) (bs : list byte) (mem : gmap Z byte) : gmap Z byte :=
  match bs with [] => mem | b :: bs => store_bytes (a + 1) bs (<[a := b]> mem) end.

(** [ReadMem]: the value read, or the exception raised ([FALSE] in the code, after
    [RaiseException]).  One byte is read through a plain [char]. *)
Definition ReadMem (addr size : Z) (m : machine) : result (machine * (ExceptionType + Z)) :=
  '(m, r) <- Translate addr size false m ;;
  match r with
  | inl e => m <- RaiseException addr m ;; Ok (m, inl e)
  | inr pa =>
      if size =? 1 then Ok (m, inr (charZ (byte_at m pa)))
      else if size =? 2 then Ok (m, inr (ShortToHost (le_val (load_bytes m pa 2))))
      else if size =? 4 then Ok (m, inr (wrap32 (WordToHost (le_val (load_bytes m pa 4)))))
      else Fault AssertFailed
  end.

Definition WriteMem (addr size value : Z) (m : machine) : result (machine * (ExceptionType + unit)) :=
  '(m, r) <- Translate addr size true m ;;
  match r with
  | inl e => m <- RaiseException addr m ;; Ok (m, inl e)
  | inr pa =>
      if size =? 1 then
        Ok (set_memory (<[pa := Zbyte (Z.land value 255)]>) m, inr tt)
      else if size =? 2 then
        Ok (set_memory (store_bytes pa (le_bytes 2 (ShortToMachine (Z.land value 65535)))) m, inr tt)
      else if size =? 4 then
        Ok (set_memory (store_bytes pa (le_bytes 4 (WordToMachine (u32 value)))) m, inr tt)
      else Fault AssertFailed
  end.

(** ** Invariants *)

Definition regs_ok (m : machine) : Prop :=
  Z.of_nat (length (registers m)) = NumTotalRegs /\
  Forall int_range (registers m) /\
  0 <= reg m LoadReg < NumGPRegs.

(** The machine translates through a page table of the size it was told. *)
Definition paged (m : machine) (pt : list TranslationEntry) : Prop :=
  tlb m = None /\ pageTable m = Some pt /\ pageTableSize m = Z.of_nat (length pt).

Definition mem_size (size : Z) : Prop := size = 1 \/ size = 2 \/ size = 4.

Definition aligned (a size : Z) : bool := (u32 a mod size =? 0).

Lemma land_ones_mod a k : 0 <= k -> Z.land a (2 ^ k - 1) = a mod 2 ^ k.
Proof. intros. rewrite <- Z.land_ones by done. f_equal. rewrite Z.ones_equiv. lia. Qed.

Lemma u32_mod_pow2 a k : 0 <= k <= 32 -> u32 a mod 2 ^ k = a mod 2 ^ k.
Proof.
  intros Hk. unfold u32. rewrite <- !Z.land_ones, <- Z.land_assoc by lia. f_equal.
  rewrite (Z.land_comm (Z.ones 32)), Z.land_ones by lia. apply Z.mod_small.
  rewrite !Z.ones_equiv. split; [apply Z.lt_le_pred, Z.pow_pos_nonneg; lia|].
  pose proof (Z.pow_le_mono_r 2 k 32). lia.
Qed.

Lemma misaligned a size :
  mem_size size ->
  ((size =? 4) && negb (Z.land a 3 =? 0)) || ((size =? 2) && negb (Z.land a 1 =? 0)) =
  negb (aligned a size).
Proof.
  intros [-> | [-> | ->]]; unfold aligned; simpl.
  - by rewrite Z.mod_1_r.
  - rewrite (land_ones_mod a 1 ltac:(lia) : Z.land a 1 = a mod 2).
    by rewrite (u32_mod_pow2 a 1 ltac:(lia) : u32 a mod 2 = a mod 2).
  - rewrite (land_ones_mod a 2 ltac:(lia) : Z.land a 3 = a mod 4).
    by rewrite (u32_mod_pow2 a 2 ltac:(lia) : u32 a mod 4 = a mod 4), orb_false_r.
Qed.

Lemma aligned_fits a size :
  mem_size size -> aligned a size = true -> u32 a mod PageSize + size <= PageSize.
Proof.
  intros Hs Ha%Z.eqb_eq. unfold PageSize.
  pose proof (u32_range a). pose proof (Z.mod_pos_bound (u32 a) 512 ltac:(lia)).
  pose proof (Z.div_mod (u32 a) 512 ltac:(lia)).
  pose proof (Z.div_mod (u32 a) size).
  destruct Hs as [-> | [-> | ->]]; lia.
Qed.

(** ** Translation through a page table, as a decision list *)

Definition touch (e : TranslationEntry) (writing : bool) : TranslationEntry :=
  TE (virtualPage e) (physicalPage e) (valid e) (readOnly e) true (writing || dirty e).

Definition resolve (pt : list TranslationEntry) (a size : Z) (writing : bool) : ExceptionType + Z :=
  if negb (aligned a size) then inl AddressErrorException
  else match pt !! Z.to_nat (u32 a / PageSize) with
       | None => inl AddressErrorException
       | Some e =>
           if negb (valid e) then inl PageFaultException
           else if readOnly e && writing then inl ReadOnlyException
           else if bool_decide (NumPhysPages <= u32 (physicalPage e)) then inl BusErrorException
           else inr (u32 (physicalPage e) * PageSize + u32 a mod PageSize)
       end.

Definition touch_page (a : Z) (writing : bool) (pt : list TranslationEntry) : list TranslationEntry :=
  alter (fun e => touch e writing) (Z.to_nat (u32 a / PageSize)) pt.

Lemma vpn_nonneg a : 0 <= u32 a / PageSize.
Proof. pose proof (u32_range a). apply Z.div_pos; [lia|by vm_compute]. Qed.

Lemma Translate_paged m pt a size w :
  paged m pt -> mem_size size ->
  Translate a size w m =
    Ok (match resolve pt a size w with
        | inl e => (m, inl e)
        | inr pa => (set_pageTable (Some (touch_page a w pt)) m, inr pa)
        end).
Proof.
  intros (Ht & Hp & Hsz) Hs. unfold Translate, resolve. rewrite misaligned by done.
  destruct (aligned a size) eqn:Ea; [|done]. simpl.
  unfold lookup_entry. rewrite Ht, Hp, Hsz. simpl. pose proof (vpn_nonneg a) as Hv.
  destruct (pt !! Z.to_nat (u32 a / PageSize)) as [e|] eqn:El.
  - apply lookup_lt_Some in El as Hlt. rewrite bool_decide_eq_false_2 by lia.
    rewrite (proj2 (lget_ok pt _ e)) by done. simpl.
    destruct (valid e); [|done]. simpl. destruct (readOnly e && w); [done|].
    case_bool_decide as Hf; [done|]. pose proof (u32_range (physicalPage e)).
    pose proof (aligned_fits a size Hs Ea). pose proof (Z.mod_pos_bound (u32 a) PageSize ltac:(done)).
    rewrite !bool_decide_eq_true_2; [|unfold MemorySize, NumPhysPages, PageSize in *; lia..].
    simpl. rewrite Hp. unfold touch_page. simpl.
    by rewrite (list_alter_insert _ _ _ e El).
  - apply lookup_ge_None in El. rewrite bool_decide_eq_true_2 by lia. done.
Qed.

(** ** Registers *)

Lemma reg_setreg m i j v :
  regs_ok m -> 0 <= i < NumTotalRegs -> 0 <= j ->
  reg (setreg i v m) j = if decide (i = j) then v else reg m j.
Proof.
  intros (Hl & _) Hi Hj. unfold reg, setreg; simpl. case_decide as E.
  - subst. apply list_lookup_total_insert_eq. lia.
  - apply list_lookup_total_insert_ne. lia.
Qed.

Lemma reg_range m i : regs_ok m -> 0 <= i < NumTotalRegs -> int_range (reg m i).
Proof.
  intros (Hl & Hall & _) Hi. unfold reg.
  eapply (Forall_lookup_1 _ _ (Z.to_nat i)); [exact Hall|].
  apply list_lookup_lookup_total_lt. lia.
Qed.

(** A write to any register but [LoadReg] keeps the register file well formed;
    [LoadReg] itself only ever holds a general register's number. *)
Lemma setreg_ok m i v :
  regs_ok m -> 0 <= i < NumTotalRegs -> int_range v -> (i = LoadReg -> 0 <= v < NumGPRegs) ->
  regs_ok (setreg i v m).
Proof.
  intros Hok Hi Hv Hload. pose proof Hok as (Hl & Hall & Hr). split; [|split].
  - unfold setreg; simpl. by rewrite length_insert.
  - unfold setreg; simpl. by apply Forall_insert.
  - rewrite reg_setreg by (done || by vm_compute). case_decide; auto.
Qed.

Lemma DelayedLoad_ok m r v :
  regs_ok m -> 0 <= r < NumGPRegs -> int_range v ->
  exists m', DelayedLoad r v m = Ok m' /\ regs_ok m' /\ reg m' 0 = 0 /\
    mainMemory m' = mainMemory m /\ pageTable m' = pageTable m /\ tlb m' = tlb m /\
    pageTableSize m' = pageTableSize m /\
    m' = setreg 0 0 (setreg LoadValueReg v (setreg LoadReg r (setreg (reg m LoadReg) (reg m LoadValueReg) m))).
Proof.
  intros Hok Hr Hv. pose proof Hok as (Hl & _ & Hlr). unfold NumGPRegs in *.
  unfold DelayedLoad. rewrite lset_in by (rewrite Hl; unfold NumTotalRegs; lia). simpl.
  eexists. split; [done|].
  assert (H1 : regs_ok (setreg (reg m LoadReg) (reg m LoadValueReg) m)).
  { apply setreg_ok; [done|unfold NumTotalRegs; lia|by apply reg_range|unfold LoadReg in *; lia]. }
  assert (H2 : regs_ok (setreg LoadReg r (setreg (reg m LoadReg) (reg m LoadValueReg) m))).
  { apply setreg_ok; [done|by vm_compute|unfold int_range; lia|done]. }
  assert (H3 : regs_ok (setreg LoadValueReg v (setreg LoadReg r (setreg (reg m LoadReg) (reg m LoadValueReg) m)))).
  { by apply setreg_ok. }
  split; [by apply setreg_ok|]. split; [by rewrite (reg_setreg _ _ _ _ H3)|]. done.
Qed.

Lemma RaiseException_ok m a :
  regs_ok m -> int_range a ->
  exists m', RaiseException a m = Ok m' /\ regs_ok m' /\ reg m' 0 = 0 /\
    mainMemory m' = mainMemory m /\ pageTable m' = pageTable m /\ tlb m' = tlb m /\
    pageTableSize m' = pageTableSize m.
Proof.
  intros Hok Ha. unfold RaiseException.
  destruct (DelayedLoad_ok (setreg BadVAddrReg a m) 0 0) as (m' & -> & H); [|by vm_compute..|].
  - by apply setreg_ok.
  - exists m'. naive_solver.
Qed.

(** ** Memory *)

Lemma lookup_store_bytes bs a (mem : gmap Z byte) x :
  store_bytes a bs mem !! x =
    if bool_decide (a <= x < a + Z.of_nat (length bs)) then bs !! Z.to_nat (x - a) else mem !! x.
Proof.
  revert a mem. induction bs as [|b bs IH]; intros a mem; simpl.
  - by rewrite bool_decide_eq_false_2 by lia.
  - rewrite IH. repeat case_bool_decide; try lia.
    + replace (Z.to_nat (x - a)) with (S (Z.to_nat (x - (a + 1)))) by lia. done.
    + assert (x = a) as -> by lia. rewrite Z.sub_diag. by rewrite lookup_insert_eq.
    + by rewrite lookup_insert_ne by lia.
Qed.

Lemma load_store_bytes m a bs :
  load_bytes (set_memory (store_bytes a bs) m) a (length bs) = bs.
Proof.
  unfold load_bytes. apply list_eq. intros k. rewrite list_lookup_fmap.
  destruct (decide (k < length bs)%nat) as [Hk|Hk].
  - rewrite lookup_seqZ_lt by lia. simpl. unfold byte_at; simpl. rewrite lookup_store_bytes.
    rewrite bool_decide_eq_true_2 by lia. replace (Z.to_nat (a + (0 + Z.of_nat k) - a)) with k by lia.
    destruct (lookup_lt_is_Some_2 bs k Hk) as [b ->]. done.
  - rewrite lookup_seqZ_ge by lia. symmetry. apply lookup_ge_None. lia.
Qed.

(** What [ReadMem] and [WriteMem] do once the address is translated. *)
Definition fetch (m : machine) (pa size : Z) : Z :=
  if size =? 1 then charZ (byte_at m pa)
  else if size =? 2 then le_val (load_bytes m pa 2)
  else wrap32 (le_val (load_bytes m pa 4)).

Definition deposit (pa size value : Z) (mem : gmap Z byte) : gmap Z byte :=
  store_bytes pa (le_bytes (Z.to_nat size) value) mem.

(** The value a read of [size] bytes finds after a write of [value]. *)
Definition truncated (size value : Z) : Z :=
  if size =? 1 then charZ (Zbyte value)
  else if size =? 2 then value mod 2 ^ 16
  else wrap32 value.

Lemma le_bytes_mod n z w : z mod 256 ^ Z.of_nat n = w mod 256 ^ Z.of_nat n -> le_bytes n z = le_bytes n w.
Proof.
  intros H. pose proof (le_bytes_val (le_bytes n z)) as Ez. pose proof (le_bytes_val (le_bytes n w)) as Ew.
  rewrite length_le_bytes, le_val_bytes in Ez, Ew. congruence.
Qed.

Lemma ReadMem_paged m pt a size :
  paged m pt -> mem_size size ->
  ReadMem a size m =
    match resolve pt a size false with
    | inl e => m <- RaiseException a m ;; Ok (m, inl e)
    | inr pa => Ok (set_pageTable (Some (touch_page a false pt)) m, inr (fetch m pa size))
    end.
Proof.
  intros Hp Hs. unfold ReadMem. rewrite (Translate_paged _ _ _ _ _ Hp Hs). simpl.
  destruct (resolve pt a size false); [done|]. unfold fetch.
  destruct Hs as [-> | [-> | ->]]; done.
Qed.

Lemma WriteMem_paged m pt a size v :
  paged m pt -> mem_size size ->
  WriteMem a size v m =
    match resolve pt a size true with
    | inl e => m <- RaiseException a m ;; Ok (m, inl e)
    | inr pa => Ok (set_memory (deposit pa size v) (set_pageTable (Some (touch_page a true pt)) m), inr tt)
    end.
Proof.
  intros Hp Hs. unfold WriteMem. rewrite (Translate_paged _ _ _ _ _ Hp Hs). cbn -[le_bytes].
  destruct (resolve pt a size true) as [|pa]; [done|]. unfold deposit.
  destruct Hs as [-> | [-> | ->]]; cbn -[le_bytes].
  - rewrite (land_ones_mod v 8 ltac:(lia) : Z.land v 255 = v mod 256).
    rewrite (byteZ_inj (Zbyte (v mod 256)) (Zbyte v)); [done|]. rewrite !byteZ_Zbyte. apply Zmod_mod.
  - unfold ShortToMachine, ShortToHost. rewrite (land_ones_mod v 16 ltac:(lia) : Z.land v 65535 = v mod 65536).
    rewrite (le_bytes_mod 2 (v mod 65536) v) by apply Zmod_mod. done.
  - unfold WordToMachine, WordToHost. rewrite (le_bytes_mod 4 (u32 v) v) by apply Zmod_mod. done.
Qed.

Lemma resolve_touch pt a w b size w' : resolve (touch_page a w pt) b size w' = resolve pt b size w'.
Proof.
  unfold resolve, touch_page. destruct (negb _); [done|].
  destruct (decide (Z.to_nat (u32 a / PageSize) = Z.to_nat (u32 b / PageSize))) as [->|Hne].
  - rewrite list_lookup_alter_eq. by destruct (pt !! _).
  - by rewrite list_lookup_alter_ne.
Qed.

Lemma resolve_write_read pt a size pa : resolve pt a size true = inr pa -> resolve pt a size false = inr pa.
Proof.
  unfold resolve. destruct (negb _); [done|]. destruct (pt !! _) as [e|]; [|done].
  destruct (valid e); [|done]. simpl. rewrite andb_false_r. by destruct (readOnly e).
Qed.

Lemma resolve_inr pt a size w pa :
  mem_size size -> resolve pt a size w = inr pa ->
  exists e, pt !! Z.to_nat (u32 a / PageSize) = Some e /\ valid e = true /\
    (w = true -> readOnly e = false) /\ 0 <= u32 (physicalPage e) < NumPhysPages /\
    pa = u32 (physicalPage e) * PageSize + u32 a mod PageSize /\
    u32 (physicalPage e) * PageSize <= pa /\ pa + size <= (u32 (physicalPage e) + 1) * PageSize.
Proof.
  intros Hs. unfold resolve. destruct (aligned a size) eqn:Ea; [|done]. simpl.
  destruct (pt !! _) as [e|]; [|done]. destruct (valid e) eqn:Ev; [|done]. simpl.
  destruct (readOnly e && w) eqn:Er; [done|]. case_bool_decide as Hf; [done|]. intros [= <-].
  exists e. pose proof (u32_range (physicalPage e)). pose proof (aligned_fits a size Hs Ea).
  pose proof (Z.mod_pos_bound (u32 a) PageSize ltac:(done)).
  split_and!; try done; try lia. by intros ->; destruct (readOnly e).
Qed.

Lemma fetch_deposit m pa size v :
  mem_size size -> fetch (set_memory (deposit pa size v) m) pa size = truncated size v.
Proof.
  intros Hs. unfold fetch, truncated, deposit.
  destruct Hs as [-> | [-> | ->]]; cbn -[le_bytes load_bytes Z.pow].
  - unfold byte_at; simpl. by rewrite lookup_insert_eq.
  - pose proof (load_store_bytes m pa (le_bytes 2 v)) as H. rewrite length_le_bytes in H.
    change (le_val (load_bytes (set_memory (store_bytes pa (le_bytes 2 v)) m) pa 2) = v mod 2 ^ 16).
    by rewrite H, le_val_bytes.
  - pose proof (load_store_bytes m pa (le_bytes 4 v)) as H. rewrite length_le_bytes in H.
    change (wrap32 (le_val (load_bytes (set_memory (store_bytes pa (le_bytes 4 v)) m) pa 4)) = wrap32 v).
    rewrite H, le_val_bytes. apply wrap32_u32.
Qed.

Lemma fetch_frame m pa size v pb size' :
  mem_size size -> mem_size size' -> pb + size' <= pa \/ pa + size <= pb ->
  fetch (set_memory (deposit pa size v) m) pb size' = fetch m pb size'.
Proof.
  intros Hs Hs' Hd.
  assert (Hb : forall x, pb <= x < pb + size' ->
    byte_at (set_memory (deposit pa size v) m) x = byte_at m x).
  { intros x Hx. unfold byte_at, deposit; simpl. rewrite lookup_store_bytes, length_le_bytes.
    rewrite bool_decide_eq_false_2; [done|]. destruct Hs as [-> | [-> | ->]]; lia. }
  assert (Hl : forall n, Z.of_nat n <= size' ->
    load_bytes (set_memory (deposit pa size v) m) pb n = load_bytes m pb n).
  { intros n Hn. unfold load_bytes. apply list_fmap_ext. intros k x Hx.
    apply lookup_seqZ in Hx as [-> Hk]. apply Hb. lia. }
  unfold fetch. destruct Hs' as [-> | [-> | ->]]; cbn -[load_bytes]; rewrite ?Hl, ?Hb by lia; done.
Qed.

Lemma WriteMem_regs_ok m pt a size v m1 r :
  paged m pt -> mem_size size -> regs_ok m -> int_range a ->
  WriteMem a size v m = Ok (m1, r) -> regs_ok m1.
Proof.
  intros Hp Hs Hr Ha. rewrite (WriteMem_paged _ pt) by done.
  destruct (resolve pt a size true) as [e|pa]; [|by intros [= <- _]].
  destruct (RaiseException_ok m a Hr Ha) as (m' & -> & Hr' & _). by intros [= <- _].
Qed.

(** Installing a page table, as [AddrSpace::RestoreState] does. *)
Definition install (pt : list TranslationEntry) (m : machine) : machine :=
  mkM (registers m) (mainMemory m) None (Some pt) (Z.of_nat (length pt)) (singleStep m) (runUntilTime m).

Definition disjoint_frames (pt1 pt2 : list TranslationEntry) : Prop :=
  forall i j e1 e2, pt1 !! i = Some e1 -> pt2 !! j = Some e2 -> valid e1 = true -> valid e2 = true ->
    u32 (physicalPage e1) <> u32 (physicalPage e2).

Lemma install_paged pt m : paged (install pt m) pt.
Proof. done. Qed.

(** The value a read finds, without the state. *)
Definition read_value (a size : Z) (m : machine) : result (ExceptionType + Z) :=
  '(_, r) <- ReadMem a size m ;; Ok r.

Lemma writes_isolated m pt1 pt2 a size v m1 r b size' :
  disjoint_frames pt1 pt2 -> mem_size size -> mem_size size' ->
  WriteMem a size v (install pt1 m) = Ok (m1, r) ->
  regs_ok m -> int_range a -> int_range b ->
  read_value b size' (install pt2 m1) = read_value b size' (install pt2 m).
Proof.
  intros Hd Hs Hs' HW Hr Ha Hb. unfold read_value.
  pose proof (WriteMem_regs_ok _ pt1 _ _ _ _ _ (install_paged pt1 m) Hs Hr Ha HW) as Hr1.
  rewrite !(ReadMem_paged _ pt2) by done.
  destruct (resolve pt2 b size' false) as [e|pb] eqn:Eb.
  - destruct (RaiseException_ok (install pt2 m) b Hr Hb) as (? & -> & _).
    destruct (RaiseException_ok (install pt2 m1) b Hr1 Hb) as (? & -> & _). done.
  - simpl. do 2 f_equal. rewrite (WriteMem_paged _ pt1) in HW by done.
    destruct (resolve pt1 a size true) as [e|pa] eqn:Ea.
    + destruct (bind_ok (RaiseException a (install pt1 m)) (fun m => Ok (m, inl e)) (m1, r)) as [Hb1 _].
      destruct (Hb1 HW) as (m2 & Hm2 & [= <- _]). unfold RaiseException, DelayedLoad in Hm2. inv_ok. done.
    + injection HW as <- _.
      change (fetch (install pt2 ?x) pb size') with (fetch x pb size').
      destruct (resolve_inr _ _ _ _ _ Hs Ea) as (e1 & He1 & Hv1 & _ & Hf1 & _ & Hlo1 & Hhi1).
      destruct (resolve_inr _ _ _ _ _ Hs' Eb) as (e2 & He2 & Hv2 & _ & Hf2 & _ & Hlo2 & Hhi2).
      pose proof (Hd _ _ _ _ He1 He2 Hv1 Hv2) as Hne.
      assert (Hfr : fetch (set_memory (deposit pa size v) m) pb size' = fetch m pb size').
      { apply fetch_frame; [done..|]. unfold PageSize in *. lia. }
      exact Hfr.
Qed.

(** ** Properties *)

(** C36: with a page table installed, [Translate] always returns (its assertions
    hold), an exception leaves the machine unchanged and is chosen in the order
    misaligned / page beyond the table, invalid page, write to a read-only page,
    frame number out of range; otherwise the physical address lies in the
    entry's frame with the whole access inside main memory, and only the
    entry's use and dirty bits change. *)
Theorem Translate_page_table_safe m pt a size w :
  paged m pt -> mem_size size ->
  exists m' r, Translate a size w m = Ok (m', r) /\
    mainMemory m' = mainMemory m /\ registers m' = registers m /\
    match pt !! Z.to_nat (u32 a / PageSize), r with
    | _, inl AddressErrorException =>
        m' = m /\ (u32 a mod size <> 0 \/ Z.of_nat (length pt) <= u32 a / PageSize)
    | Some e, inl PageFaultException => m' = m /\ u32 a mod size = 0 /\ valid e = false
    | Some e, inl ReadOnlyException =>
        m' = m /\ u32 a mod size = 0 /\ valid e = true /\ readOnly e = true /\ w = true
    | Some e, inl BusErrorException =>
        m' = m /\ u32 a mod size = 0 /\ valid e = true /\ NumPhysPages <= u32 (physicalPage e)
    | Some e, inr pa =>
        u32 a mod size = 0 /\ valid e = true /\ (w = true -> readOnly e = false) /\
        pa = u32 (physicalPage e) * PageSize + u32 a mod PageSize /\
        0 <= pa /\ pa + size <= MemorySize /\
        pageTable m' = Some (<[Z.to_nat (u32 a / PageSize) := touch e w]> pt)
    | _, _ => False
    end.
Proof.
  intros Hp Hs. rewrite (Translate_paged m pt a size w Hp Hs).
  pose proof (vpn_nonneg a) as Hv. pose proof (resolve_inr pt a size w) as Hinr.
  destruct (resolve pt a size w) as [e|pa] eqn:Er; eexists _, _; (split; [done|]); (split; [done|]);
    (split; [done|]).
  - unfold resolve in Er. destruct (aligned a size) eqn:Ea; simpl in Er.
    + apply Z.eqb_eq in Ea.
      destruct (pt !! Z.to_nat (u32 a / PageSize)) as [te|] eqn:El.
      * destruct (valid te) eqn:Ev; simpl in Er; [|by injection Er as <-].
        destruct (readOnly te && w) eqn:Ew.
        { injection Er as <-. apply andb_true_iff in Ew as [? ?]. done. }
        case_bool_decide; by simplify_eq.
      * injection Er as <-. apply lookup_ge_None in El. split; [done|]. right. lia.
    + injection Er as <-. apply Z.eqb_neq in Ea. destruct (pt !! _); auto.
  - destruct (Hinr pa Hs eq_refl) as (te & El & Hval & Hw & Hf & -> & Hlo & Hhi). rewrite El.
    assert (Ha : aligned a size = true) by (unfold resolve in Er; by destruct (aligned a size)).
    apply Z.eqb_eq in Ha. unfold MemorySize, NumPhysPages, PageSize in *.
    split_and!; try done; try lia. simpl. unfold touch_page. by rewrite (list_alter_insert _ _ _ te El).
Qed.

(** C37: what a [WriteMem] stored is what a [ReadMem] of the same address and size
    finds, cut to the size (a single byte comes back sign-extended, two bytes
    zero-extended). *)
Theorem WriteMem_ReadMem m pt a size v m1 :
  paged m pt -> mem_size size -> WriteMem a size v m = Ok (m1, inr tt) ->
  read_value a size m1 = Ok (inr (truncated size v)).
Proof.
  intros Hp Hs. rewrite (WriteMem_paged m pt a size v Hp Hs).
  destruct (resolve pt a size true) as [e|pa] eqn:Er.
  - intros H. by inv_ok.
  - intros [= <-]. unfold read_value. rewrite (ReadMem_paged _ (touch_page a true pt)); [|destruct Hp as (? & ? & ?)|done].
    + rewrite resolve_touch, (resolve_write_read _ _ _ _ Er). simpl. by rewrite fetch_deposit.
    + split_and!; try done. unfold touch_page. by rewrite length_alter.
Qed.

(** C5: two address spaces whose valid pages use different frames are isolated:
    whatever one writes through its page table, every read the other makes
    through its own page table has the same outcome as before. *)
Theorem WriteMem_isolation m pt1 pt2 a size v m1 r b size' :
  disjoint_frames pt1 pt2 -> mem_size size -> mem_size size' ->
  WriteMem a size v (install pt1 m) = Ok (m1, r) ->
  regs_ok m -> int_range a -> int_range b ->
  read_value b size' (install pt2 m1) = read_value b size' (install pt2 m).
Proof. exact (writes_isolated m pt1 pt2 a size v m1 r b size'). Qed.

(** ** Witnesses *)

Definition frame (f : Z) : TranslationEntry := TE 0 f true false false false.
Definition example_machine : machine := Machine false 0 0.

Lemma example_regs_ok pt : regs_ok (install pt example_machine).
Proof.
  split; [done|]. split; [|done]. apply Forall_replicate. unfold int_range. lia.
Defined.

Lemma Translate_page_table_safe_witness :
  paged (install [frame 5] example_machine) [frame 5] /\ mem_size 4 /\
  exists m' r, Translate 8 4 true (install [frame 5] example_machine) = Ok (m', r).
Proof.
  split; [done|]. split; [by right; right|].
  destruct (Translate_page_table_safe (install [frame 5] example_machine) [frame 5] 8 4 true)
    as (m' & r & H & _); [done|by right; right|]. by exists m', r.
Defined.

Definition written_machine : machine :=
  match WriteMem 8 4 (-7) (install [frame 5] example_machine) with
  | Ok (m, _) => m
  | Fault _ => example_machine
  end.

Lemma WriteMem_ReadMem_witness :
  WriteMem 8 4 (-7) (install [frame 5] example_machine) = Ok (written_machine, inr tt) /\
  read_value 8 4 written_machine = Ok (inr (-7)).
Proof.
  split; [by vm_compute|].
  apply (WriteMem_ReadMem (install [frame 5] example_machine) [frame 5] 8 4 (-7) written_machine);
    [done|by right; right|by vm_compute].
Defined.

Lemma WriteMem_isolation_witness :
  disjoint_frames [frame 5] [frame 6] /\
  read_value 8 4 (install [frame 6] written_machine) = Ok (inr 0).
Proof.
  assert (Hd : disjoint_frames [frame 5] [frame 6]).
  { intros [|i] [|j] e1 e2 H1 H2 _ _; simplify_eq/=; done. }
  split; [exact Hd|].
  rewrite (WriteMem_isolation example_machine [frame 5] [frame 6] 8 4 (-7) written_machine (inr tt) 8 4);
    [by vm_compute|exact Hd|by right; right|by right; right|by vm_compute| | |].
  - exact (example_regs_ok [frame 5]).
  - unfold int_range. lia.
  - unfold int_range. lia.
Defined.
End Machine.
