(* ===== verification/Mips.v ===== *)
(** * machine/mipssim.{h,cc}: the MIPS R2/3000 instruction simulator

    Instruction decoding through the two opcode tables, the 64-bit multiply
    routine, and [Machine::OneInstruction], one definition per group of cases of
    its [switch].  The build defines SIM_FIX. *)

From S2P Require Import Prelude Machine.
From Stdlib Require Import Strings.Byte.

Module Mips.
Import Machine.

(** The OP_ constants of mipssim.h; [SPECIAL] and [BCOND] only occur in the
    first table. *)
Inductive opcode :=
  | OP_ADD | OP_ADDI | OP_ADDIU | OP_ADDU | OP_AND | OP_ANDI | OP_BEQ | OP_BGEZ
  | OP_BGEZAL | OP_BGTZ | OP_BLEZ | OP_BLTZ | OP_BLTZAL | OP_BNE
  | OP_DIV | OP_DIVU | OP_J | OP_JAL | OP_JALR | OP_JR | OP_LB | OP_LBU | OP_LH
  | OP_LHU | OP_LUI | OP_LW | OP_LWL | OP_LWR | OP_MFHI | OP_MFLO | OP_MTHI
  | OP_MTLO | OP_MULT | OP_MULTU | OP_NOR | OP_OR | OP_ORI | OP_RFE | OP_SB
  | OP_SH | OP_SLL | OP_SLLV | OP_SLT | OP_SLTI | OP_SLTIU | OP_SLTU | OP_SRA
  | OP_SRAV | OP_SRL | OP_SRLV | OP_SUB | OP_SUBU | OP_SW | OP_SWL | OP_SWR
  | OP_XOR | OP_XORI | OP_SYSCALL | OP_UNIMP | OP_RES
  | SPECIAL | BCOND.

#[export] Instance opcode_eq_dec : EqDecision opcode.
Proof. solve_decision. Defined.

Inductive format := IFMT | JFMT | RFMT.

Definition SIGN_BIT : Z := 0x80000000.
Definition R31 : Z := 31.
Definition IndexToAddr (x : Z) : Z := wrap32 (Z.shiftl x 2).

Definition opTable : list (opcode * format) := [
  (SPECIAL, RFMT); (BCOND, IFMT); (OP_J, JFMT); (OP_JAL, JFMT);
  (OP_BEQ, IFMT); (OP_BNE, IFMT); (OP_BLEZ, IFMT); (OP_BGTZ, IFMT);
  (OP_ADDI, IFMT); (OP_ADDIU, IFMT); (OP_SLTI, IFMT); (OP_SLTIU, IFMT);
  (OP_ANDI, IFMT); (OP_ORI, IFMT); (OP_XORI, IFMT); (OP_LUI, IFMT);
  (OP_UNIMP, IFMT); (OP_UNIMP, IFMT); (OP_UNIMP, IFMT); (OP_UNIMP, IFMT);
  (OP_RES, IFMT); (OP_RES, IFMT); (OP_RES, IFMT); (OP_RES, IFMT);
  (OP_RES, IFMT); (OP_RES, IFMT); (OP_RES, IFMT); (OP_RES, IFMT);
  (OP_RES, IFMT); (OP_RES, IFMT); (OP_RES, IFMT); (OP_RES, IFMT);
  (OP_LB, IFMT); (OP_LH, IFMT); (OP_LWL, IFMT); (OP_LW, IFMT);
  (OP_LBU, IFMT); (OP_LHU, IFMT); (OP_LWR, IFMT); (OP_RES, IFMT);
  (OP_SB, IFMT); (OP_SH, IFMT); (OP_SWL, IFMT); (OP_SW, IFMT);
  (OP_RES, IFMT); (OP_RES, IFMT); (OP_SWR, IFMT); (OP_RES, IFMT);
  (OP_UNIMP, IFMT); (OP_UNIMP, IFMT); (OP_UNIMP, IFMT); (OP_UNIMP, IFMT);
  (OP_RES, IFMT); (OP_RES, IFMT); (OP_RES, IFMT); (OP_RES, IFMT);
  (OP_UNIMP, IFMT); (OP_UNIMP, IFMT); (OP_UNIMP, IFMT); (OP_UNIMP, IFMT);
  (OP_RES, IFMT); (OP_RES, IFMT); (OP_RES, IFMT); (OP_RES, IFMT)].

Definition specialTable : list opcode := [
  OP_SLL; OP_RES; OP_SRL; OP_SRA; OP_SLLV; OP_RES; OP_SRLV; OP_SRAV;
  OP_JR; OP_JALR; OP_RES; OP_RES; OP_SYSCALL; OP_UNIMP; OP_RES; OP_RES;
  OP_MFHI; OP_MTHI; OP_MFLO; OP_MTLO; OP_RES; OP_RES; OP_RES; OP_RES;
  OP_MULT; OP_MULTU; OP_DIV; OP_DIVU; OP_RES; OP_RES; OP_RES; OP_RES;
  OP_ADD; OP_ADDU; OP_SUB; OP_SUBU; OP_AND; OP_OR; OP_XOR; OP_NOR;
  OP_RES; OP_RES; OP_SLT; OP_SLTU; OP_RES; OP_RES; OP_RES; OP_RES;
  OP_RES; OP_RES; OP_RES; OP_RES; OP_RES; OP_RES; OP_RES; OP_RES;
  OP_RES; OP_RES; OP_RES; OP_RES; OP_RES; OP_RES; OP_RES; OP_RES].

Record Instruction := mkI {
  value : Z;
  opCode : opcode;
  rs : Z;
  rt : Z;
  rd : Z;
  extra : Z
}.

(** The opcode of the instructions that share a first-level code. *)
Definition second_op (op : opcode) (v : Z) : result opcode :=
  match op with
  | SPECIAL => lget specialTable (Z.land v 0x3f)
  | BCOND =>
      let i := Z.land v 0x1f0000 in
      Ok (if i =? 0 then OP_BLTZ
          else if i =? 0x10000 then OP_BGEZ
          else if i =? 0x100000 then OP_BLTZAL
          else if i =? 0x110000 then OP_BGEZAL
          else OP_UNIMP)
  | _ => Ok op
  end.

(** [Instruction::Decode] of the unsigned word [v]. *)
Definition Decode (v : Z) : result Instruction :=
  '(op, fmt) <- lget opTable (Z.land (Z.shiftr v 26) 0x3f) ;;
  let ex :=
    match fmt with
    | IFMT =>
        let e := Z.land v 0xffff in
        if Z.land e 0x8000 =? 0 then e else wrap32 (Z.lor e 0xffff0000)
    | RFMT => Z.land (Z.shiftr v 6) 0x1f
    | JFMT => Z.land v 0x3ffffff
    end in
  op' <- second_op op v ;;
  Ok (mkI v op' (Z.land (Z.shiftr v 21) 0x1f) (Z.land (Z.shiftr v 16) 0x1f)
          (Z.land (Z.shiftr v 11) 0x1f) ex).

(** ** Mult *)

Definition low_bit (a : Z) : bool := negb (Z.land a 1 =? 0).

(** The [for] loop, [n] iterations from the end; the result is [(hi, lo)]. *)
Fixpoint mult_loop (n : nat) (a bLo bHi lo hi : Z) : Z * Z :=
  match n with
  | O => (hi, lo)
  | S n =>
      let lo' := if low_bit a then u32 (lo + bLo) else lo in
      let hi' :=
        if low_bit a then
          u32 ((if bool_decide (lo' < bLo) then u32 (hi + 1) else hi) + bHi)
        else hi in
      if low_bit a && (Z.land (u32 a) 0xfffffffe =? 0) then (hi', lo')
      else
        let bHi' := u32 (Z.shiftl bHi 1) in
        let bHi' := if Z.land bLo 0x80000000 =? 0 then bHi' else Z.lor bHi' 1 in
        mult_loop n (Z.shiftr a 1) (u32 (Z.shiftl bLo 1)) bHi' lo' hi'
  end.

(** The words stored through [hiPtr] and [loPtr]. *)
Definition Mult (a b : Z) (signedArith : bool) : Z * Z :=
  if (a =? 0) || (b =? 0) then (0, 0)
  else
    let negative := signedArith && xorb (bool_decide (a < 0)) (bool_decide (b < 0)) in
    let a := if signedArith && bool_decide (a < 0) then wrap32 (- a) else a in
    let b := if signedArith && bool_decide (b < 0) then wrap32 (- b) else b in
    let '(hi, lo) := mult_loop 32 a (u32 b) 0 0 0 in
    let '(hi, lo) :=
      if negative then
        let lo := u32 (u32 (Z.lnot lo) + 1) in
        let hi := u32 (Z.lnot hi) in
        (if lo =? 0 then u32 (hi + 1) else hi, lo)
      else (hi, lo) in
    (wrap32 hi, wrap32 lo).

(** ** OneInstruction *)

(** How the [switch] ends: by [break], with the pending load and the next pc, or
    by [return] after [RaiseException]. *)
Inductive outcome :=
  | Next (nextLoadReg nextLoadValue pcAfter : Z) (m : machine)
  | Raised (which : ExceptionType) (m : machine).

Definition raise (which : ExceptionType) (badVAddr : Z) (m : machine) : result outcome :=
  m <- RaiseException badVAddr m ;; Ok (Raised which m).

Definition negbit (z : Z) : bool := negb (Z.land (u32 z) SIGN_BIT =? 0).

(** [registers[NextPCReg] + 4], the default of [pcAfter]. *)
Definition fallthrough (m : machine) : Z := wrap32 (reg m NextPCReg + 4).
Definition target (i : Instruction) (m : machine) : Z :=
  wrap32 (reg m NextPCReg + IndexToAddr (extra i)).

(** [break] after writing register [r]. *)
Definition write (r v : Z) (m : machine) : result outcome :=
  Ok (Next 0 0 (fallthrough m) (setreg r v m)).

Definition exec_add (i : Instruction) (m : machine) : result outcome :=
  let a := reg m (rs i) in
  let b := reg m (rt i) in
  match opCode i with
  | OP_ADD =>
      let sum := wrap32 (a + b) in
      if negb (negbit (Z.lxor a b)) && negbit (Z.lxor a sum) then raise OverflowException 0 m
      else write (rd i) sum m
  | OP_ADDI =>
      let sum := wrap32 (a + extra i) in
      if negb (negbit (Z.lxor a (extra i))) && negbit (Z.lxor (extra i) sum)
      then raise OverflowException 0 m
      else write (rt i) sum m
  | OP_ADDIU => write (rt i) (wrap32 (a + extra i)) m
  | _ => write (rd i) (wrap32 (a + b)) m      (* OP_ADDU *)
  end.

Definition exec_sub (i : Instruction) (m : machine) : result outcome :=
  let a := reg m (rs i) in
  let b := reg m (rt i) in
  let diff := wrap32 (a - b) in
  match opCode i with
  | OP_SUB =>
      if negbit (Z.lxor a b) && negbit (Z.lxor a diff) then raise OverflowException 0 m
      else write (rd i) diff m
  | _ => write (rd i) diff m                  (* OP_SUBU *)
  end.

Definition exec_and (i : Instruction) (m : machine) : result outcome :=
  match opCode i with
  | OP_AND => write (rd i) (Z.land (reg m (rs i)) (reg m (rt i))) m
  | _ => write (rt i) (Z.land (reg m (rs i)) (Z.land (extra i) 0xffff)) m   (* OP_ANDI *)
  end.

Definition exec_or (i : Instruction) (m : machine) : result outcome :=
  match opCode i with
  | OP_NOR => write (rd i) (Z.lnot (Z.lor (reg m (rs i)) (reg m (rt i)))) m
  | OP_OR => write (rd i) (Z.lor (reg m (rs i)) (reg m (rt i))) m
  | _ => write (rt i) (Z.lor (reg m (rs i)) (Z.land (extra i) 0xffff)) m    (* OP_ORI *)
  end.

Definition exec_xor (i : Instruction) (m : machine) : result outcome :=
  match opCode i with
  | OP_XOR => write (rd i) (Z.lxor (reg m (rs i)) (reg m (rt i))) m
  | _ => write (rt i) (Z.lxor (reg m (rs i)) (Z.land (extra i) 0xffff)) m   (* OP_XORI *)
  end.

(** A conditional branch; the AL forms store the return address first, and the
    condition reads the register after that store. *)
Definition branch (c : bool) (i : Instruction) (m : machine) : result outcome :=
  Ok (Next 0 0 (if c then target i m else fallthrough m) m).

Definition link (r : Z) (m : machine) : machine := setreg r (fallthrough m) m.

Definition exec_branch (i : Instruction) (m : machine) : result outcome :=
  let a := reg m (rs i) in
  match opCode i with
  | OP_BEQ => branch (a =? reg m (rt i)) i m
  | OP_BGEZAL => let m := link R31 m in branch (negb (negbit (reg m (rs i)))) i m
  | OP_BGEZ => branch (negb (negbit a)) i m
  | OP_BGTZ => branch (bool_decide (0 < a)) i m
  | OP_BLEZ => branch (bool_decide (a <= 0)) i m
  | OP_BLTZAL => let m := link R31 m in branch (negbit (reg m (rs i))) i m
  | OP_BLTZ => branch (negbit a) i m
  | _ => branch (negb (a =? reg m (rt i))) i m                              (* OP_BNE *)
  end.

Definition exec_jump (i : Instruction) (m : machine) : result outcome :=
  let absolute m := wrap32 (Z.lor (Z.land (u32 (fallthrough m)) 0xf0000000) (u32 (IndexToAddr (extra i)))) in
  match opCode i with
  | OP_JAL => let m := link R31 m in Ok (Next 0 0 (absolute m) m)
  | OP_J => Ok (Next 0 0 (absolute m) m)
  | OP_JALR => let m := link (rd i) m in Ok (Next 0 0 (reg m (rs i)) m)
  | _ => Ok (Next 0 0 (reg m (rs i)) m)                                     (* OP_JR *)
  end.

Definition set_lohi (lo hi : Z) (m : machine) : machine := setreg HiReg hi (setreg LoReg lo m).

(** The host's [/] and [%] truncate; INT_MIN / -1 traps on the host (x86). *)
Definition exec_div (i : Instruction) (m : machine) : result outcome :=
  let a := reg m (rs i) in
  let b := reg m (rt i) in
  match opCode i with
  | OP_DIV =>
      if b =? 0 then Ok (Next 0 0 (fallthrough m) (set_lohi 0 0 m))
      else if (a =? - 2 ^ 31) && (b =? -1) then Fault ArithTrap
      else Ok (Next 0 0 (fallthrough m) (set_lohi (Z.quot a b) (Z.rem a b) m))
  | _ =>                                                                     (* OP_DIVU *)
      if u32 b =? 0 then Ok (Next 0 0 (fallthrough m) (set_lohi 0 0 m))
      else Ok (Next 0 0 (fallthrough m)
                (set_lohi (wrap32 (u32 a / u32 b)) (wrap32 (u32 a mod u32 b)) m))
  end.

(** The HI/LO moves and multiplications. *)
Definition exec_hilo (i : Instruction) (m : machine) : result outcome :=
  match opCode i with
  | OP_MFHI => write (rd i) (reg m HiReg) m
  | OP_MFLO => write (rd i) (reg m LoReg) m
  | OP_MTHI => write HiReg (reg m (rs i)) m
  | OP_MTLO => write LoReg (reg m (rs i)) m
  | op =>
      let '(hi, lo) := Mult (reg m (rs i)) (reg m (rt i)) (bool_decide (op = OP_MULT)) in
      Ok (Next 0 0 (fallthrough m) (set_lohi lo hi m))                       (* OP_MULT, OP_MULTU *)
  end.

(** [SRL] and [SRLV] shift the [int] variable [tmp]. *)
Definition exec_shift (i : Instruction) (m : machine) : result outcome :=
  let v := reg m (rt i) in
  let s := Z.land (reg m (rs i)) 0x1f in
  match opCode i with
  | OP_SLL => write (rd i) (wrap32 (Z.shiftl v (extra i))) m
  | OP_SLLV => write (rd i) (wrap32 (Z.shiftl v s)) m
  | OP_SRA => write (rd i) (Z.shiftr v (extra i)) m
  | OP_SRAV => write (rd i) (Z.shiftr v s) m
  | OP_SRL => let tmp := v in write (rd i) (Z.shiftr tmp (extra i)) m
  | _ => let tmp := v in write (rd i) (Z.shiftr tmp s) m                     (* OP_SRLV *)
  end.

Definition truth (b : bool) : Z := if b then 1 else 0.

Definition exec_slt (i : Instruction) (m : machine) : result outcome :=
  let a := reg m (rs i) in
  let b := reg m (rt i) in
  match opCode i with
  | OP_SLT => write (rd i) (truth (bool_decide (a < b))) m
  | OP_SLTI => write (rt i) (truth (bool_decide (a < extra i))) m
  | OP_SLTIU => write (rt i) (truth (bool_decide (u32 a < u32 (extra i)))) m
  | _ => write (rd i) (truth (bool_decide (u32 a < u32 b))) m                (* OP_SLTU *)
  end.

(** A memory read of an instruction: [return] when it raised. *)
Definition reading (addr size : Z) (m : machine) (k : Z -> machine -> result outcome) : result outcome :=
  '(m, r) <- ReadMem addr size m ;;
  match r with inl e => Ok (Raised e m) | inr v => k v m end.

Definition writing (addr size v : Z) (m : machine) : result outcome :=
  '(m, r) <- WriteMem addr size v m ;;
  match r with inl e => Ok (Raised e m) | inr _ => Ok (Next 0 0 (fallthrough m) m) end.

Definition address (i : Instruction) (m : machine) : Z := wrap32 (reg m (rs i) + extra i).

Definition exec_load (i : Instruction) (m : machine) : result outcome :=
  let tmp := address i m in
  let load v m := Ok (Next (rt i) v (fallthrough m) m) in
  match opCode i with
  | OP_LB | OP_LBU =>
      reading tmp 1 m (fun v m =>
        load (if negb (Z.land v 0x80 =? 0) && bool_decide (opCode i = OP_LB)
              then wrap32 (Z.lor (u32 v) 0xffffff00) else Z.land v 0xff) m)
  | OP_LH | OP_LHU =>
      if negb (Z.land tmp 1 =? 0) then raise AddressErrorException tmp m
      else reading tmp 2 m (fun v m =>
        load (if negb (Z.land v 0x8000 =? 0) && bool_decide (opCode i = OP_LH)
              then wrap32 (Z.lor (u32 v) 0xffff0000) else Z.land v 0xffff) m)
  | OP_LUI => write (rt i) (wrap32 (Z.shiftl (extra i) 16)) m
  | _ =>                                                                     (* OP_LW *)
      if negb (Z.land tmp 3 =? 0) then raise AddressErrorException tmp m
      else reading tmp 4 m load
  end.

(** The value a partial load starts from: the one still in flight for the same
    register, if any. *)
Definition in_flight (i : Instruction) (m : machine) : Z :=
  if reg m LoadReg =? rt i then reg m LoadValueReg else reg m (rt i).

Definition lwl_merge (byte old v : Z) : Z :=
  match 3 - byte with
  | 0 => v
  | 1 => Z.lor (Z.land old 0xff) (wrap32 (Z.shiftl v 8))
  | 2 => Z.lor (Z.land old 0xffff) (wrap32 (Z.shiftl v 16))
  | 3 => Z.lor (Z.land old 0xffffff) (wrap32 (Z.shiftl v 24))
  | _ => old
  end.

Definition lwr_merge (byte old v : Z) : Z :=
  match 3 - byte with
  | 0 => wrap32 (Z.lor (Z.land (u32 old) 0xffffff00) (Z.land (Z.shiftr v 24) 0xff))
  | 1 => wrap32 (Z.lor (Z.land (u32 old) 0xffff0000) (Z.land (Z.shiftr v 16) 0xffff))
  | 2 => wrap32 (Z.lor (Z.land (u32 old) 0xff000000) (Z.land (Z.shiftr v 8) 0xffffff))
  | 3 => v
  | _ => old
  end.

Definition exec_lwl (i : Instruction) (m : machine) : result outcome :=
  let tmp := address i m in
  let byte := Z.land tmp 3 in
  reading (wrap32 (tmp - byte)) 4 m (fun v m =>
    Ok (Next (rt i) (lwl_merge byte (in_flight i m) v) (fallthrough m) m)).

Definition exec_lwr (i : Instruction) (m : machine) : result outcome :=
  let tmp := address i m in
  let byte := Z.land tmp 3 in
  reading (wrap32 (tmp - byte)) 4 m (fun v m =>
    Ok (Next (rt i) (lwr_merge byte (in_flight i m) v) (fallthrough m) m)).

Definition exec_store (i : Instruction) (m : machine) : result outcome :=
  let a := address i m in
  let size := match opCode i with OP_SB => 1 | OP_SH => 2 | _ => 4 end in    (* OP_SW *)
  writing a size (reg m (rt i)) m.

Definition swl_merge (byte v r : Z) : Z :=
  match 3 - byte with
  | 0 => r
  | 1 => wrap32 (Z.lor (Z.land (u32 v) 0xff000000) (Z.land (Z.shiftr r 8) 0xffffff))
  | 2 => wrap32 (Z.lor (Z.land (u32 v) 0xffff0000) (Z.land (Z.shiftr r 16) 0xffff))
  | 3 => wrap32 (Z.lor (Z.land (u32 v) 0xffffff00) (Z.land (Z.shiftr r 24) 0xff))
  | _ => v
  end.

Definition swr_merge (byte v r : Z) : Z :=
  match 3 - byte with
  | 0 => Z.lor (Z.land v 0xffffff) (wrap32 (Z.shiftl r 24))
  | 1 => Z.lor (Z.land v 0xffff) (wrap32 (Z.shiftl r 16))
  | 2 => Z.lor (Z.land v 0xff) (wrap32 (Z.shiftl r 8))
  | 3 => r
  | _ => v
  end.

Definition exec_swl (i : Instruction) (m : machine) : result outcome :=
  let tmp := address i m in
  let byte := Z.land tmp 3 in
  reading (wrap32 (tmp - byte)) 4 m (fun v m =>
    writing (wrap32 (tmp - byte)) 4 (swl_merge byte v (reg m (rt i))) m).

Definition exec_swr (i : Instruction) (m : machine) : result outcome :=
  let tmp := address i m in
  let byte := Z.land tmp 3 in
  reading (wrap32 (tmp - byte)) 4 m (fun v m =>
    writing (wrap32 (tmp - byte)) 4 (swr_merge byte v (reg m (rt i))) m).

(** The [switch]; its [default] is [ASSERT(FALSE)]. *)
Definition execute (i : Instruction) (m : machine) : result outcome :=
  match opCode i with
  | OP_ADD | OP_ADDI | OP_ADDIU | OP_ADDU => exec_add i m
  | OP_SUB | OP_SUBU => exec_sub i m
  | OP_AND | OP_ANDI => exec_and i m
  | OP_NOR | OP_OR | OP_ORI => exec_or i m
  | OP_XOR | OP_XORI => exec_xor i m
  | OP_BEQ | OP_BGEZ | OP_BGEZAL | OP_BGTZ | OP_BLEZ | OP_BLTZ | OP_BLTZAL | OP_BNE => exec_branch i m
  | OP_J | OP_JAL | OP_JALR | OP_JR => exec_jump i m
  | OP_DIV | OP_DIVU => exec_div i m
  | OP_MFHI | OP_MFLO | OP_MTHI | OP_MTLO | OP_MULT | OP_MULTU => exec_hilo i m
  | OP_SLL | OP_SLLV | OP_SRA | OP_SRAV | OP_SRL | OP_SRLV => exec_shift i m
  | OP_SLT | OP_SLTI | OP_SLTIU | OP_SLTU => exec_slt i m
  | OP_LB | OP_LBU | OP_LH | OP_LHU | OP_LUI | OP_LW => exec_load i m
  | OP_LWL => exec_lwl i m
  | OP_LWR => exec_lwr i m
  | OP_SB | OP_SH | OP_SW => exec_store i m
  | OP_SWL => exec_swl i m
  | OP_SWR => exec_swr i m
  | OP_SYSCALL => raise SyscallException 0 m
  | OP_RES | OP_UNIMP => raise IllegalInstrException 0 m
  | OP_RFE | SPECIAL | BCOND => Fault AssertFailed
  end.

(** After the [switch]: the delayed load, then the program counters. *)
Definition retire (o : outcome) : result (machine * option ExceptionType) :=
  match o with
  | Raised which m => Ok (m, Some which)
  | Next r v pcAfter m =>
      m <- DelayedLoad r v m ;;
      let m := setreg PrevPCReg (reg m PCReg) m in
      let m := setreg PCReg (reg m NextPCReg) m in
      Ok (setreg NextPCReg pcAfter m, None)
  end.

(** One instruction; [Some which] when it ended in the exception handler, which
    the caller runs on the returned machine. *)
Definition OneInstruction (m : machine) : result (machine * option ExceptionType) :=
  '(m, raw) <- ReadMem (reg m PCReg) 4 m ;;
  match raw with
  | inl e => Ok (m, Some e)
  | inr raw =>
      i <- Decode (u32 raw) ;;
      o <- execute i m ;;
      retire o
  end.

(** ** Multiplication *)

Lemma low_bit_mod a : low_bit a = (a mod 2 =? 1).
Proof.
  unfold low_bit. rewrite (land_ones_mod a 1 ltac:(lia) : Z.land a 1 = a mod 2).
  pose proof (Z.mod_pos_bound a 2). destruct (Z.eqb_spec (a mod 2) 0), (Z.eqb_spec (a mod 2) 1); lia || done.
Qed.

(** The double word [(hi, lo)]. *)
Definition dword (hi lo : Z) : Z := hi * 2 ^ 32 + lo.

Lemma pow_S (n : nat) : 2 ^ Z.of_nat (S n) = 2 * 2 ^ Z.of_nat n.
Proof. rewrite Nat2Z.inj_succ, Z.pow_succ_r by lia. done. Qed.

Lemma mod_step a (n : nat) :
  a mod 2 ^ Z.of_nat (S n) = a mod 2 + 2 * (Z.shiftr a 1 mod 2 ^ Z.of_nat n).
Proof.
  rewrite pow_S, Z.rem_mul_r, Z.shiftr_div_pow2 by lia. f_equal.
Qed.

(** One conditional addition of [(bHi, bLo)] with carry. *)
Lemma add_dword lo hi bLo bHi :
  0 <= lo < 2 ^ 32 -> 0 <= hi < 2 ^ 32 -> 0 <= bLo < 2 ^ 32 -> 0 <= bHi < 2 ^ 32 ->
  let lo' := u32 (lo + bLo) in
  let hi' := u32 ((if bool_decide (lo' < bLo) then u32 (hi + 1) else hi) + bHi) in
  dword hi' lo' = (dword hi lo + dword bHi bLo) mod 2 ^ 64.
Proof.
  intros Hlo Hhi HbLo HbHi lo' hi'. unfold dword.
  assert (Hc : lo + bLo = (if bool_decide (lo' < bLo) then 1 else 0) * 2 ^ 32 + lo').
  { subst lo'. unfold u32. destruct (decide (lo + bLo < 2 ^ 32)) as [Hs|Hs].
    - rewrite Z.mod_small by lia. rewrite bool_decide_eq_false_2; lia.
    - rewrite <- (Z_mod_plus_full _ (-1)), Z.mod_small by lia. rewrite bool_decide_eq_true_2; lia. }
  pose proof (u32_range (lo + bLo)). fold lo' in H.
  assert (Hh : hi' = (hi + (if bool_decide (lo' < bLo) then 1 else 0) + bHi) mod 2 ^ 32).
  { subst hi'. unfold u32 at 1. case_bool_decide; [|f_equal; lia].
    unfold u32. by rewrite Zplus_mod_idemp_l. }
  clearbody lo' hi'.
  set (c := if bool_decide (lo' < bLo) then 1 else 0) in *.
  replace (hi * 2 ^ 32 + lo + (bHi * 2 ^ 32 + bLo)) with ((hi + c + bHi) * 2 ^ 32 + lo') by lia.
  rewrite Hh. pose proof (Z.div_mod (hi + c + bHi) (2 ^ 32) ltac:(lia)) as Hd.
  pose proof (Z.mod_pos_bound (hi + c + bHi) (2 ^ 32) ltac:(lia)) as Hb.
  apply (Z.mod_unique _ _ ((hi + c + bHi) / 2 ^ 32)); lia.
Qed.

Lemma top_bit_clear x :
  0 <= x < 2 ^ 32 -> (Z.land x 0x80000000 =? 0) = bool_decide (x < 2 ^ 31).
Proof.
  intros Hx. change 0x80000000 with (2 ^ 31).
  assert (Z.land x (2 ^ 31) = if Z.testbit x 31 then 2 ^ 31 else 0) as ->.
  { apply Z.bits_inj'. intros k Hk. rewrite Z.land_spec, Z.pow2_bits_eqb by lia.
    destruct (Z.testbit x 31) eqn:E; rewrite ?Z.pow2_bits_eqb, ?Z.bits_0 by lia;
      destruct (Z.eqb_spec 31 k); subst; rewrite ?E, ?andb_false_r; done. }
  rewrite Z.testbit_eqb by lia. pose proof (Z.div_mod x (2 ^ 31) ltac:(lia)).
  pose proof (Z.mod_pos_bound x (2 ^ 31) ltac:(lia)).
  assert (x / 2 ^ 31 = 0 \/ x / 2 ^ 31 = 1) as [E|E] by lia; rewrite E;
    case_bool_decide; try done; lia.
Qed.

Lemma double_dword bLo bHi :
  0 <= bLo < 2 ^ 32 -> 0 <= bHi < 2 ^ 32 ->
  let bHi' := u32 (Z.shiftl bHi 1) in
  dword (if Z.land bLo 0x80000000 =? 0 then bHi' else Z.lor bHi' 1) (u32 (Z.shiftl bLo 1)) =
  (2 * dword bHi bLo) mod 2 ^ 64.
Proof.
  intros HbLo HbHi bHi'. unfold dword.
  rewrite (top_bit_clear bLo HbLo). subst bHi'. rewrite !Z.shiftl_mul_pow2 by lia. unfold u32.
  pose proof (Z.div_mod (bHi * 2 ^ 1) (2 ^ 32) ltac:(lia)) as Hd.
  pose proof (Z.mod_pos_bound (bHi * 2 ^ 1) (2 ^ 32) ltac:(lia)) as Hb.
  case_bool_decide as Hc.
  - rewrite (Z.mod_small (bLo * 2 ^ 1)) by lia. apply (Z.mod_unique _ _ (bHi * 2 ^ 1 / 2 ^ 32)); lia.
  - assert (Hor : Z.lor (bHi * 2 ^ 1 mod 2 ^ 32) 1 = bHi * 2 ^ 1 mod 2 ^ 32 + 1).
    { set (x := bHi * 2 ^ 1 mod 2 ^ 32) in *. assert (x mod 2 = 0) as Hx.
      { set (q := bHi * 2 ^ 1 / 2 ^ 32) in *. clearbody x q.
        replace x with ((bHi - 2 ^ 31 * q) * 2) by lia. apply Z.mod_mul. lia. }
      assert (Z.land x 1 = 0) as Hl by (by rewrite (land_ones_mod x 1 ltac:(lia) : Z.land x 1 = x mod 2)).
      by rewrite <- Z.lxor_lor, <- Z.add_nocarry_lxor. }
    rewrite Hor, <- (Z_mod_plus_full (bLo * 2 ^ 1) (-1)), (Z.mod_small (bLo * 2 ^ 1 + _)) by lia.
    apply (Z.mod_unique _ _ (bHi * 2 ^ 1 / 2 ^ 32)); lia.
Qed.

Lemma last_bit a (n : nat) :
  low_bit a = true -> Z.land (u32 a) 0xfffffffe = 0 -> (n <= 32)%nat -> (0 < n)%nat -> a mod 2 ^ Z.of_nat n = 1.
Proof.
  rewrite low_bit_mod. intros Ha%Z.eqb_eq Hl Hn Hpos.
  assert (Hu : u32 a = 1).
  { pose proof (u32_range a) as Hr.
    assert (Hm : u32 a mod 2 = 1) by (by rewrite (u32_mod_pow2 a 1 ltac:(lia) : u32 a mod 2 = a mod 2)).
    assert (Hz : Z.land (Z.shiftr (u32 a) 1) 0x7fffffff = 0).
    { change 0x7fffffff with (Z.shiftr 0xfffffffe 1). by rewrite <- Z.shiftr_land, Hl. }
    rewrite (land_ones_mod _ 31 ltac:(lia) : Z.land _ 0x7fffffff = _) in Hz.
    rewrite (Z.shiftr_div_pow2 _ 1 ltac:(lia) : Z.shiftr _ 1 = _ / 2) in Hz.
    clear Hl Ha. dlia. }
  rewrite <- (u32_mod_pow2 a (Z.of_nat n)), Hu by lia. apply Z.mod_small.
  split; [lia|]. apply Z.pow_gt_1; lia.
Qed.

Lemma mult_loop_ok n a bLo bHi lo hi :
  (n <= 32)%nat ->
  0 <= lo < 2 ^ 32 -> 0 <= hi < 2 ^ 32 -> 0 <= bLo < 2 ^ 32 -> 0 <= bHi < 2 ^ 32 ->
  exists hi' lo', mult_loop n a bLo bHi lo hi = (hi', lo') /\
    0 <= lo' < 2 ^ 32 /\ 0 <= hi' < 2 ^ 32 /\
    dword hi' lo' = (dword hi lo + dword bHi bLo * (a mod 2 ^ Z.of_nat n)) mod 2 ^ 64.
Proof.
  revert a bLo bHi lo hi. induction n as [|n IH]; intros a bLo bHi lo hi Hn Hlo Hhi HbLo HbHi.
  { exists hi, lo. rewrite Z.mod_1_r, Z.mul_0_r, Z.add_0_r. split_and!; try done; try lia.
    unfold dword. rewrite Z.mod_small; lia. }
  cbn [mult_loop].
  set (lo1 := if low_bit a then u32 (lo + bLo) else lo).
  set (hi1 := if low_bit a then _ else hi).
  assert (Hlo1 : 0 <= lo1 < 2 ^ 32) by (subst lo1; destruct (low_bit a); auto with nachos).
  assert (Hhi1 : 0 <= hi1 < 2 ^ 32) by (subst hi1; destruct (low_bit a); auto with nachos).
  assert (Hd : dword hi1 lo1 = (dword hi lo + dword bHi bLo * (a mod 2)) mod 2 ^ 64).
  { subst lo1 hi1. pose proof (low_bit_mod a) as Hb. destruct (low_bit a).
    - symmetry in Hb. apply Z.eqb_eq in Hb. rewrite Hb, Z.mul_1_r. by apply add_dword.
    - symmetry in Hb. apply Z.eqb_neq in Hb.
      assert (a mod 2 = 0) as -> by (pose proof (Z.mod_pos_bound a 2); lia).
      unfold dword. rewrite Z.mul_0_r, Z.add_0_r, Z.mod_small; lia. }
  clearbody lo1 hi1.
  destruct (low_bit a && (Z.land (u32 a) 0xfffffffe =? 0)) eqn:Estop.
  - apply andb_true_iff in Estop as [Hb Hz%Z.eqb_eq]. exists hi1, lo1. split; [done|]. split; [done|].
    split; [done|]. rewrite Hd, (last_bit a (S n) Hb Hz Hn) by lia.
    rewrite low_bit_mod in Hb. apply Z.eqb_eq in Hb. by rewrite Hb.
  - set (bHi1 := if Z.land bLo 0x80000000 =? 0 then _ else _).
    pose proof (double_dword bLo bHi HbLo HbHi) as H2. cbv zeta in H2. fold bHi1 in H2.
    pose proof (u32_range (Z.shiftl bLo 1)) as HbLo1.
    assert (HbHi1 : 0 <= bHi1 < 2 ^ 32).
    { unfold dword in H2.
      pose proof (Z.mod_pos_bound (2 * (bHi * 2 ^ 32 + bLo)) (2 ^ 64) ltac:(lia)). lia. }
    destruct (IH (Z.shiftr a 1) (u32 (Z.shiftl bLo 1)) bHi1 lo1 hi1) as (hi' & lo' & Heq & Hlo' & Hhi' & Hres);
      [lia|done..|]. exists hi', lo'. split; [done|]. split; [done|]. split; [done|].
    rewrite Hres, Hd, H2, (mod_step a n), Zplus_mod_idemp_l.
    rewrite <- Zplus_mod_idemp_r, Zmult_mod_idemp_l, Zplus_mod_idemp_r. f_equal. lia.
Qed.

Lemma negate_dword hi lo :
  0 <= lo < 2 ^ 32 -> 0 <= hi < 2 ^ 32 ->
  let lo' := u32 (u32 (Z.lnot lo) + 1) in
  let hi' := if lo' =? 0 then u32 (u32 (Z.lnot hi) + 1) else u32 (Z.lnot hi) in
  0 <= lo' < 2 ^ 32 /\ 0 <= hi' < 2 ^ 32 /\ dword hi' lo' = (- dword hi lo) mod 2 ^ 64.
Proof.
  intros Hlo Hhi lo' hi'.
  assert (Hl : lo' = if lo =? 0 then 0 else 2 ^ 32 - lo).
  { subst lo'. unfold u32, Z.lnot. rewrite Zplus_mod_idemp_l. destruct (Z.eqb_spec lo 0).
    - subst. done.
    - rewrite <- (Z_mod_plus_full _ 1), Z.mod_small; lia. }
  assert (Hn : u32 (Z.lnot hi) = 2 ^ 32 - 1 - hi).
  { unfold u32, Z.lnot. rewrite <- (Z_mod_plus_full _ 1), Z.mod_small; lia. }
  assert (Hh : hi' = if lo =? 0 then (2 ^ 32 - hi) mod 2 ^ 32 else 2 ^ 32 - 1 - hi).
  { subst hi'. rewrite Hl, Hn. destruct (Z.eqb_spec lo 0); simpl.
    - unfold u32. f_equal. lia.
    - destruct (Z.eqb_spec (2 ^ 32 - lo) 0); lia. }
  rewrite Hh, Hl. pose proof (Z.mod_pos_bound (2 ^ 32 - hi) (2 ^ 32) ltac:(lia)).
  unfold dword. destruct (Z.eqb_spec lo 0) as [->|]; split_and!; try lia.
  - destruct (decide (hi = 0)) as [->|]; [done|]. rewrite Z.mod_small by lia.
    rewrite <- (Z_mod_plus_full _ 1), (Z.mod_small (_ + 1 * 2 ^ 64)); lia.
  - rewrite <- (Z_mod_plus_full _ 1), (Z.mod_small (_ + 1 * 2 ^ 64)); lia.
Qed.

Lemma u32_neg a : u32 (- a) = (- u32 a) mod 2 ^ 32.
Proof. unfold u32. rewrite <- (Z.sub_0_l (a mod _)), Zminus_mod_idemp_r. f_equal. Qed.

(** The operand [Mult] multiplies by, and its value as an unsigned word. *)
Lemma magnitude a : int_range a -> u32 (if bool_decide (a < 0) then wrap32 (- a) else a) = Z.abs a.
Proof.
  unfold int_range. intros Ha. case_bool_decide.
  - rewrite u32_wrap32, u32_small; lia.
  - rewrite u32_small; lia.
Qed.

(** The unsigned product the loop computes. *)
Lemma mult_loop_product a b :
  exists hi lo, mult_loop 32 a (u32 b) 0 0 0 = (hi, lo) /\
    0 <= lo < 2 ^ 32 /\ 0 <= hi < 2 ^ 32 /\ dword hi lo = u32 a * u32 b.
Proof.
  pose proof (u32_range a) as Ha. pose proof (u32_range b) as Hb.
  destruct (mult_loop_ok 32 a (u32 b) 0 0 0) as (hi & lo & H & Hlo & Hhi & Hd); [lia..|done|lia|].
  exists hi, lo. split_and!; try done; try lia. rewrite Hd. unfold dword.
  change (a mod 2 ^ Z.of_nat 32) with (u32 a). rewrite Z.mod_small; nia.
Qed.

Lemma sign_product a b :
  a * b = if xorb (bool_decide (a < 0)) (bool_decide (b < 0)) then - (Z.abs a * Z.abs b) else Z.abs a * Z.abs b.
Proof. repeat case_bool_decide; simpl; nia. Qed.

(** ** Values stay 32-bit integers *)

Lemma int_range_shiftr z : int_range z <-> Z.shiftr z 31 = 0 \/ Z.shiftr z 31 = -1.
Proof.
  unfold int_range. rewrite Z.shiftr_div_pow2 by lia. dlia.
Qed.

Lemma land_range a b : int_range a -> int_range b -> int_range (Z.land a b).
Proof. rewrite !int_range_shiftr, Z.shiftr_land. intros [-> | ->] [-> | ->]; simpl; auto. Qed.
Lemma lor_range a b : int_range a -> int_range b -> int_range (Z.lor a b).
Proof. rewrite !int_range_shiftr, Z.shiftr_lor. intros [-> | ->] [-> | ->]; simpl; auto. Qed.
Lemma lxor_range a b : int_range a -> int_range b -> int_range (Z.lxor a b).
Proof. rewrite !int_range_shiftr, Z.shiftr_lxor. intros [-> | ->] [-> | ->]; simpl; auto. Qed.
Lemma lnot_range a : int_range a -> int_range (Z.lnot a).
Proof. unfold int_range, Z.lnot. lia. Qed.
Lemma land_mask_range a k : 0 <= k -> k <= 31 -> 0 <= Z.land a (2 ^ k - 1) < 2 ^ k.
Proof. intros. rewrite land_ones_mod by done. apply Z.mod_pos_bound. apply Z.pow_pos_nonneg; lia. Qed.
Lemma small_range z k : 0 <= z < 2 ^ k -> 0 <= k <= 31 -> int_range z.
Proof. intros Hz Hk. pose proof (Z.pow_le_mono_r 2 k 31). unfold int_range. lia. Qed.
Lemma land16_range a : int_range (Z.land a 0xffff).
Proof. apply (small_range _ 16); [exact (land_mask_range a 16 ltac:(lia) ltac:(lia))|lia]. Qed.
Lemma land8_range a : int_range (Z.land a 0xff).
Proof. apply (small_range _ 8); [exact (land_mask_range a 8 ltac:(lia) ltac:(lia))|lia]. Qed.
Lemma land24_range a : int_range (Z.land a 0xffffff).
Proof. apply (small_range _ 24); [exact (land_mask_range a 24 ltac:(lia) ltac:(lia))|lia]. Qed.
Lemma shiftr_range a k : int_range a -> 0 <= k -> int_range (Z.shiftr a k).
Proof.
  unfold int_range. intros Ha Hk. rewrite Z.shiftr_div_pow2 by done.
  pose proof (Z.pow_pos_nonneg 2 k ltac:(lia) Hk). split.
  - apply Z.div_le_lower_bound; nia.
  - apply Z.div_lt_upper_bound; nia.
Qed.
Lemma truth_range b : int_range (truth b).
Proof. destruct b; unfold int_range; simpl; lia. Qed.
Lemma quot_range a b : int_range a -> int_range b -> b <> 0 -> ~ (a = - 2 ^ 31 /\ b = -1) -> int_range (Z.quot a b).
Proof. unfold int_range. intros. dlia || (Z.to_euclidean_division_equations; nia). Qed.
Lemma rem_range a b : int_range a -> int_range b -> b <> 0 -> int_range (Z.rem a b).
Proof.
  unfold int_range. intros Ha Hb Hne. pose proof (Z.rem_bound_abs a b Hne). lia.
Qed.

#[export] Hint Resolve land_range lor_range lxor_range lnot_range land16_range land8_range
  land24_range shiftr_range truth_range wrap32_range quot_range rem_range : nachos.

(** ** Decoding *)

(** What the [switch] relies on. *)
Definition decoded (i : Instruction) : Prop :=
  0 <= rs i < NumGPRegs /\ 0 <= rt i < NumGPRegs /\ 0 <= rd i < NumGPRegs /\
  int_range (extra i) /\
  opCode i <> SPECIAL /\ opCode i <> BCOND /\ opCode i <> OP_RFE /\
  (opCode i = OP_SLL \/ opCode i = OP_SRL \/ opCode i = OP_SRA -> 0 <= extra i < 32).

Lemma field_range v k : 0 <= Z.land (Z.shiftr v k) 0x1f < NumGPRegs.
Proof. exact (land_mask_range _ 5 ltac:(lia) ltac:(lia)). Qed.

Definition table_entry (p : opcode * format) : bool :=
  match p with
  | (SPECIAL, RFMT) | (BCOND, _) => true
  | ((SPECIAL | OP_RFE | OP_SLL | OP_SRL | OP_SRA), _) => false
  | _ => true
  end.
Definition special_entry (o : opcode) : bool :=
  match o with SPECIAL | BCOND | OP_RFE => false | _ => true end.

Lemma table_lookup {A} (P : A -> bool) l i x :
  forallb P l = true -> lget l i = Ok x -> P x = true.
Proof.
  rewrite forallb_forall. intros H [_ Hx]%lget_ok. apply H, list_elem_of_In.
  by eapply list_elem_of_lookup_2.
Qed.

Lemma Decode_ok v : exists i, Decode v = Ok i /\ decoded i /\ value i = v.
Proof.
  unfold Decode.
  destruct (lget_is_ok opTable (Z.land (Z.shiftr v 26) 0x3f)) as ([op fmt] & Hop & _).
  { exact (land_mask_range _ 6 ltac:(lia) ltac:(lia)). }
  rewrite Hop. pose proof (table_lookup table_entry opTable _ _ eq_refl Hop) as Hte. cbn [bind].
  set (ex := match fmt with IFMT => _ | JFMT => _ | RFMT => _ end).
  assert (Hex : int_range ex /\ (fmt = RFMT -> 0 <= ex < 32)).
  { subst ex. destruct fmt; (split; [|intros; try done]).
    - destruct (Z.land _ 0x8000 =? 0); auto with nachos.
    - apply (small_range _ 26); [exact (land_mask_range v 26 ltac:(lia) ltac:(lia))|lia].
    - apply (small_range _ 5); [apply field_range|lia].
    - apply field_range. }
  clearbody ex. destruct Hex as [Hex Hsh].
  destruct (lget_is_ok specialTable (Z.land v 0x3f)) as (op' & Hop' & _).
  { exact (land_mask_range v 6 ltac:(lia) ltac:(lia)). }
  pose proof (table_lookup special_entry specialTable _ _ eq_refl Hop') as Hse.
  assert (Hopc : exists o, second_op op v = Ok o /\ special_entry o = true /\
       (o = OP_SLL \/ o = OP_SRL \/ o = OP_SRA -> fmt = RFMT)).
  { destruct op; cbn in Hte; try discriminate Hte; try (eexists; split; [reflexivity|split; [reflexivity|intros; naive_solver]]).
    - unfold second_op. rewrite Hop'. exists op'. split; [done|]. split; [done|]. by destruct fmt.
    - unfold second_op. cbv zeta. eexists; split; [reflexivity|]. repeat case_match; naive_solver. }
  destruct Hopc as (o & -> & Ho & Hf). cbn [bind]. eexists. split; [reflexivity|].
  split; [|done]. unfold decoded. cbn [rs rt rd extra opCode].
  split_and!; try apply field_range; try done; [by destruct o..|]. intros H. by apply Hsh, Hf.
Qed.

(** ** What one instruction may change *)

(** The entry without the bits the hardware sets. *)
Definition mapping (e : TranslationEntry) : TranslationEntry :=
  TE (virtualPage e) (physicalPage e) (valid e) (readOnly e) false false.

(** Physical addresses in the frames of the valid, writable pages. *)
Definition writable (pt : list TranslationEntry) (pa : Z) : Prop :=
  exists k e, pt !! k = Some e /\ valid e = true /\ readOnly e = false /\
    u32 (physicalPage e) * PageSize <= pa < (u32 (physicalPage e) + 1) * PageSize.

(** From [m0] to [m], in the middle of an instruction: the program counters have
    not moved, the page table maps as before, and memory differs only in frames
    the program may write. *)
Record evolves (pt : list TranslationEntry) (m0 m : machine) : Prop := {
  ev_regs : regs_ok m;
  ev_table : exists pt', paged m pt' /\ mapping <$> pt' = mapping <$> pt;
  ev_memory : forall pa, mainMemory m !! pa <> mainMemory m0 !! pa -> writable pt pa;
  ev_pc : reg m PCReg = reg m0 PCReg;
  ev_next : reg m NextPCReg = reg m0 NextPCReg
}.

Lemma evolves_refl pt m : regs_ok m -> paged m pt -> evolves pt m m.
Proof. intros. split; try done. by exists pt. Qed.

Lemma evolves_setreg pt m0 m r v :
  evolves pt m0 m -> 0 <= r < NumTotalRegs -> r <> PCReg -> r <> NextPCReg -> int_range v ->
  (r = LoadReg -> 0 <= v < NumGPRegs) -> evolves pt m0 (setreg r v m).
Proof.
  intros [H1 H2 H3 H4 H5] Hr Hpc Hnext Hv Hl. split; [by apply setreg_ok|done|done|..].
  - rewrite reg_setreg by (done || by vm_compute). by case_decide.
  - rewrite reg_setreg by (done || by vm_compute). by case_decide.
Qed.

Lemma evolves_gpr pt m0 m r v :
  evolves pt m0 m -> 0 <= r < NumGPRegs -> int_range v -> evolves pt m0 (setreg r v m).
Proof.
  unfold NumGPRegs. intros He Hr Hv.
  apply evolves_setreg; unfold NumTotalRegs, PCReg, NextPCReg, LoadReg; done || lia.
Qed.

Lemma evolves_DelayedLoad pt m0 m r v :
  evolves pt m0 m -> 0 <= r < NumGPRegs -> int_range v ->
  exists m', DelayedLoad r v m = Ok m' /\ evolves pt m0 m' /\ reg m' 0 = 0.
Proof.
  intros He Hr Hv. pose proof (ev_regs _ _ _ He) as Hok.
  destruct (DelayedLoad_ok m r v Hok Hr Hv) as (m' & -> & _ & H0 & _ & _ & _ & _ & Hm).
  exists m'. split; [done|]. split; [|done]. subst m'.
  apply evolves_gpr; [|by vm_compute..].
  apply evolves_setreg; [|by vm_compute| | |done|]; [|by vm_compute..].
  apply evolves_setreg; [|by vm_compute..| |done]; [|unfold int_range, NumGPRegs in *; lia].
  apply evolves_gpr; [done| |by apply reg_range]. apply Hok.
Qed.

Lemma evolves_raise pt m0 m a :
  evolves pt m0 m -> int_range a ->
  exists m', RaiseException a m = Ok m' /\ evolves pt m0 m' /\ reg m' 0 = 0.
Proof.
  intros He Ha. apply evolves_DelayedLoad; [|by vm_compute..].
  by apply evolves_setreg.
Qed.

Lemma mapping_touch_page a w pt : mapping <$> touch_page a w pt = mapping <$> pt.
Proof.
  unfold touch_page. apply list_eq. intros k. rewrite !list_lookup_fmap.
  destruct (decide (Z.to_nat (u32 a / PageSize) = k)) as [<-|Hne].
  - rewrite list_lookup_alter_eq. by destruct (pt !! _).
  - by rewrite list_lookup_alter_ne.
Qed.

Lemma evolves_touch pt m0 m pt' a w :
  evolves pt m0 m -> paged m pt' -> mapping <$> pt' = mapping <$> pt ->
  evolves pt m0 (set_pageTable (Some (touch_page a w pt')) m).
Proof.
  intros [H1 H2 H3 H4 H5] (Ht & Hp & Hs) Hm. split; try done.
  exists (touch_page a w pt'). split; [|by rewrite mapping_touch_page].
  split_and!; try done. unfold touch_page. by rewrite length_alter.
Qed.

Lemma charZ_range b : int_range (charZ b).
Proof. unfold charZ, int_range. pose proof (byteZ_range b). case_bool_decide; lia. Qed.

Lemma fetch_range m pa size : mem_size size -> int_range (fetch m pa size).
Proof.
  intros [-> | [-> | ->]]; unfold fetch; simpl.
  - apply charZ_range.
  - apply (small_range _ 16); [|lia]. pose proof (le_val_range (load_bytes m pa 2)) as H.
    by unfold load_bytes in H; rewrite length_fmap, length_seqZ in H.
  - apply wrap32_range.
Qed.

Lemma evolves_ReadMem pt m0 m a size :
  evolves pt m0 m -> mem_size size -> int_range a ->
  exists m' r, ReadMem a size m = Ok (m', r) /\ evolves pt m0 m' /\
    match r with
    | inl _ => reg m' 0 = 0
    | inr v => int_range v /\ registers m' = registers m
    end.
Proof.
  intros He Hs Ha. destruct (ev_table _ _ _ He) as (pt' & Hp & Hm).
  rewrite (ReadMem_paged m pt') by done. destruct (resolve pt' a size false) as [e|pa].
  - destruct (evolves_raise pt m0 m a He Ha) as (m' & -> & ? & ?). by exists m', (inl e).
  - eexists _, _. split; [done|]. split; [by apply evolves_touch|]. split; [by apply fetch_range|done].
Qed.

Lemma mapped_writable pt pt' k e pa :
  mapping <$> pt' = mapping <$> pt -> pt' !! k = Some e -> valid e = true -> readOnly e = false ->
  u32 (physicalPage e) * PageSize <= pa < (u32 (physicalPage e) + 1) * PageSize -> writable pt pa.
Proof.
  intros Hm Hk Hv Hr Hpa.
  assert (Hk' : (mapping <$> pt) !! k = Some (mapping e)) by (by rewrite <- Hm, list_lookup_fmap, Hk).
  rewrite list_lookup_fmap in Hk'. destruct (pt !! k) as [e'|] eqn:He; [|done].
  injection Hk' as Hk'. exists k, e'. by repeat split; congruence || (destruct e, e'; naive_solver).
Qed.

Lemma evolves_WriteMem pt m0 m a size v :
  evolves pt m0 m -> mem_size size -> int_range a ->
  exists m' r, WriteMem a size v m = Ok (m', r) /\ evolves pt m0 m' /\
    match r with inl _ => reg m' 0 = 0 | inr _ => registers m' = registers m end.
Proof.
  intros He Hs Ha. destruct (ev_table _ _ _ He) as (pt' & Hp & Hm).
  rewrite (WriteMem_paged m pt') by done. destruct (resolve pt' a size true) as [e|pa] eqn:Er.
  - destruct (evolves_raise pt m0 m a He Ha) as (m' & -> & ? & ?). by exists m', (inl e).
  - eexists _, _. split; [done|]. split; [|done].
    pose proof (evolves_touch pt m0 m pt' a true He Hp Hm) as [H1 H2 H3 H4 H5]. split; try done.
    intros x Hx. destruct (resolve_inr _ _ _ _ _ Hs Er) as (e & Hk & Hv & Hro & _ & _ & Hlo & Hhi).
    destruct (decide (pa <= x < pa + size)) as [Hin|Hout].
    + apply (mapped_writable pt pt' _ e x Hm Hk Hv (Hro eq_refl)). lia.
    + apply H3. intros Heq. apply Hx. simpl. unfold deposit. rewrite lookup_store_bytes, length_le_bytes.
      rewrite bool_decide_eq_false_2; [done|]. destruct Hs as [-> | [-> | ->]]; lia.
Qed.

(** ** Every case of the switch is safe *)

Definition outcome_ok (pt : list TranslationEntry) (m0 : machine) (o : outcome) : Prop :=
  match o with
  | Next r v pc m => evolves pt m0 m /\ 0 <= r < NumGPRegs /\ int_range v /\ int_range pc
  | Raised _ m => evolves pt m0 m /\ reg m 0 = 0
  end.

Definition safe (pt : list TranslationEntry) (m0 : machine) (x : result outcome) : Prop :=
  exists o, x = Ok o /\ outcome_ok pt m0 o.

Section safety.
Context (pt : list TranslationEntry) (m0 : machine).

Lemma fallthrough_range m : int_range (fallthrough m).
Proof. apply wrap32_range. Qed.
Lemma target_range i m : int_range (target i m).
Proof. apply wrap32_range. Qed.

Lemma next_safe r v pc m :
  evolves pt m0 m -> 0 <= r < NumGPRegs -> int_range v -> int_range pc -> safe pt m0 (Ok (Next r v pc m)).
Proof. intros. eexists. by split. Qed.

Lemma continue_safe m : evolves pt m0 m -> safe pt m0 (Ok (Next 0 0 (fallthrough m) m)).
Proof. intros. apply next_safe; [done|by vm_compute|by vm_compute|apply fallthrough_range]. Qed.

Lemma write_safe r v m :
  evolves pt m0 m -> 0 <= r < NumGPRegs -> int_range v -> safe pt m0 (write r v m).
Proof.
  intros. apply next_safe; [by apply evolves_gpr|by vm_compute|by vm_compute|apply fallthrough_range].
Qed.

Lemma raise_safe e a m : evolves pt m0 m -> int_range a -> safe pt m0 (raise e a m).
Proof.
  intros He Ha. unfold raise. destruct (evolves_raise pt m0 m a He Ha) as (m' & -> & ? & ?).
  eexists. by split.
Qed.

Lemma branch_safe c i m : evolves pt m0 m -> safe pt m0 (branch c i m).
Proof.
  intros. apply next_safe; [done|by vm_compute|by vm_compute|].
  destruct c; [apply target_range|apply fallthrough_range].
Qed.

Lemma set_lohi_evolves lo hi m :
  evolves pt m0 m -> int_range lo -> int_range hi -> evolves pt m0 (set_lohi lo hi m).
Proof. intros. unfold set_lohi. by repeat apply evolves_setreg. Qed.

Lemma set_lohi_safe lo hi m :
  evolves pt m0 m -> int_range lo -> int_range hi ->
  safe pt m0 (Ok (Next 0 0 (fallthrough m) (set_lohi lo hi m))).
Proof.
  intros. apply next_safe; [by apply set_lohi_evolves|by vm_compute|by vm_compute|apply fallthrough_range].
Qed.

Lemma reading_safe a size m k :
  evolves pt m0 m -> mem_size size -> int_range a ->
  (forall v m', evolves pt m0 m' -> registers m' = registers m -> int_range v -> safe pt m0 (k v m')) ->
  safe pt m0 (reading a size m k).
Proof.
  intros He Hs Ha Hk. unfold reading.
  destruct (evolves_ReadMem pt m0 m a size He Hs Ha) as (m' & [e|v] & -> & He' & Hr); simpl.
  - eexists. by split.
  - naive_solver.
Qed.

Lemma writing_safe a size v m :
  evolves pt m0 m -> mem_size size -> int_range a -> safe pt m0 (writing a size v m).
Proof.
  intros He Hs Ha. unfold writing.
  destruct (evolves_WriteMem pt m0 m a size v He Hs Ha) as (m' & [e|[]] & -> & He' & Hr); simpl.
  - eexists. by split.
  - by apply continue_safe.
Qed.

Context (i : Instruction) (m : machine).
Hypothesis Hi : decoded i.
Hypothesis Hm : evolves pt m0 m.

Local Ltac fields := destruct Hi as (? & ? & ? & ? & ? & ? & ? & ?).

Lemma gpr_range r : 0 <= r < NumGPRegs -> int_range (reg m r).
Proof. intros. apply reg_range; [by apply Hm|]. unfold NumGPRegs, NumTotalRegs in *. lia. Qed.
Lemma rs_range : int_range (reg m (rs i)).
Proof. fields. by apply gpr_range. Qed.
Lemma rt_range : int_range (reg m (rt i)).
Proof. fields. by apply gpr_range. Qed.
Lemma lohi_range : int_range (reg m HiReg) /\ int_range (reg m LoReg).
Proof. split; (apply reg_range; [by apply Hm|by vm_compute]). Qed.

Local Hint Resolve rs_range rt_range wrap32_range fallthrough_range target_range : core.

Local Ltac ranges :=
  lazymatch goal with
  | |- int_range (wrap32 _) => apply wrap32_range
  | |- int_range (truth _) => apply truth_range
  | |- int_range (reg m (rs i)) => apply rs_range
  | |- int_range (reg m (rt i)) => apply rt_range
  | |- int_range (Z.land _ 0xffff) => apply land16_range
  | |- int_range (Z.land _ _) => apply land_range; ranges
  | |- int_range (Z.lor _ _) => apply lor_range; ranges
  | |- int_range (Z.lxor _ _) => apply lxor_range; ranges
  | |- int_range (Z.lnot _) => apply lnot_range; ranges
  | |- int_range (Z.shiftr _ _) => apply shiftr_range; [ranges|]
  | |- _ => assumption
  end.

Local Ltac finish_case :=
  lazymatch goal with
  | |- safe _ _ (raise _ _ _) => apply raise_safe; [done|by vm_compute]
  | |- safe _ _ (write _ _ _) => apply write_safe; ranges
  end.

Lemma arith_safe :
  safe pt m0 (exec_add i m) /\ safe pt m0 (exec_sub i m) /\ safe pt m0 (exec_and i m) /\
  safe pt m0 (exec_or i m) /\ safe pt m0 (exec_xor i m) /\ safe pt m0 (exec_slt i m).
Proof.
  fields. unfold exec_add, exec_sub, exec_and, exec_or, exec_xor, exec_slt. cbv zeta.
  split_and!; destruct (opCode i); repeat case_match; finish_case.
Qed.

Lemma shift_safe : opCode i = OP_SLL \/ opCode i = OP_SRL \/ opCode i = OP_SRA \/
  opCode i = OP_SLLV \/ opCode i = OP_SRLV \/ opCode i = OP_SRAV -> safe pt m0 (exec_shift i m).
Proof.
  fields. intros Hop. unfold exec_shift.
  assert (0 <= Z.land (reg m (rs i)) 31) by exact (proj1 (land_mask_range _ 5 ltac:(lia) ltac:(lia))).
  destruct Hop as [E|[E|[E|[E|[E|E]]]]]; rewrite E; finish_case; try done;
    (assert (0 <= extra i < 32) by auto); lia.
Qed.

Lemma branches_safe : safe pt m0 (exec_branch i m) /\ safe pt m0 (exec_jump i m).
Proof.
  fields. unfold exec_branch, exec_jump, link. cbv zeta.
  assert (H31 : evolves pt m0 (setreg R31 (fallthrough m) m)) by (apply evolves_gpr; [done|by vm_compute|apply fallthrough_range]).
  assert (Hrd : evolves pt m0 (setreg (rd i) (fallthrough m) m)) by (apply evolves_gpr; [done..|apply fallthrough_range]).
  assert (Hrs : forall m', evolves pt m0 m' -> int_range (reg m' (rs i))).
  { intros m' Hm'. apply reg_range; [by apply Hm'|unfold NumGPRegs, NumTotalRegs in *; lia]. }
  split.
  - destruct (opCode i); apply branch_safe; assumption.
  - destruct (opCode i); (apply next_safe; [assumption|by vm_compute|by vm_compute|]);
      (apply wrap32_range || (apply Hrs; assumption)).
Qed.

Lemma Mult_range a b s : int_range (Mult a b s).1 /\ int_range (Mult a b s).2.
Proof. unfold Mult. repeat case_match; simpl; split; try apply wrap32_range; by vm_compute. Qed.

Lemma hilo_safe : safe pt m0 (exec_hilo i m).
Proof.
  fields. destruct lohi_range as [Hhi Hlo]. unfold exec_hilo.
  assert (Hset : forall r, r = HiReg \/ r = LoReg -> safe pt m0 (write r (reg m (rs i)) m)).
  { intros r Hr. apply next_safe; [|by vm_compute|by vm_compute|auto].
    apply evolves_setreg; auto; destruct Hr as [-> | ->]; by vm_compute. }
  assert (Hmul : forall s, safe pt m0 (let '(hi, lo) := Mult (reg m (rs i)) (reg m (rt i)) s in
     Ok (Next 0 0 (fallthrough m) (set_lohi lo hi m)))).
  { intros s. pose proof (Mult_range (reg m (rs i)) (reg m (rt i)) s) as H7. destruct (Mult _ _ s).
    destruct H7. by apply set_lohi_safe. }
  destruct (opCode i);
    lazymatch goal with
    | |- safe _ _ (write HiReg _ _) => apply Hset; auto
    | |- safe _ _ (write LoReg _ _) => apply Hset; auto
    | |- safe _ _ (write _ _ _) => by apply write_safe
    | |- _ => apply Hmul
    end.
Qed.

Lemma div_safe :
  (opCode i = OP_DIV -> ~ (reg m (rs i) = - 2 ^ 31 /\ reg m (rt i) = -1)) -> safe pt m0 (exec_div i m).
Proof.
  fields. intros Htrap. unfold exec_div. cbv zeta.
  assert (Hd : safe pt m0 (if u32 (reg m (rt i)) =? 0 then Ok (Next 0 0 (fallthrough m) (set_lohi 0 0 m))
    else Ok (Next 0 0 (fallthrough m) (set_lohi (wrap32 (u32 (reg m (rs i)) / u32 (reg m (rt i))))
           (wrap32 (u32 (reg m (rs i)) mod u32 (reg m (rt i)))) m)))).
  { case_match; apply set_lohi_safe; auto; by vm_compute. }
  destruct (opCode i); try exact Hd.
  destruct (Z.eqb_spec (reg m (rt i)) 0); [apply set_lohi_safe; auto; by vm_compute|].
  destruct ((reg m (rs i) =? - 2 ^ 31) && (reg m (rt i) =? -1)) eqn:E.
  - apply andb_true_iff in E as [?%Z.eqb_eq ?%Z.eqb_eq]. exfalso. by apply Htrap.
  - apply set_lohi_safe; auto; [apply quot_range|apply rem_range]; auto.
Qed.
Lemma in_flight_range m' : evolves pt m0 m' -> registers m' = registers m -> int_range (in_flight i m').
Proof.
  fields. intros Hm' _. unfold in_flight. case_match; (apply reg_range; [by apply Hm'|]).
  - by vm_compute.
  - unfold NumGPRegs, NumTotalRegs in *. lia.
Qed.

Local Ltac on_guard :=
  lazymatch goal with |- safe _ _ (if ?c then _ else _) => destruct c end.

Lemma load_safe : safe pt m0 (exec_load i m).
Proof.
  fields. unfold exec_load, address. cbv zeta.
  assert (Hnext : forall v m', evolves pt m0 m' -> int_range v -> safe pt m0 (Ok (Next (rt i) v (fallthrough m') m'))).
  { intros. apply next_safe; [done..|apply fallthrough_range]. }
  assert (Ha : int_range (wrap32 (reg m (rs i) + extra i))) by apply wrap32_range.
  assert (mem_size 1) by by left. assert (mem_size 2) by (by right; left).
  assert (mem_size 4) by (by right; right).
  assert (Hlw : safe pt m0 (if negb (Z.land (wrap32 (reg m (rs i) + extra i)) 3 =? 0)
    then raise AddressErrorException (wrap32 (reg m (rs i) + extra i)) m
    else reading (wrap32 (reg m (rs i) + extra i)) 4 m (fun v m' => Ok (Next (rt i) v (fallthrough m') m')))).
  { on_guard; [by apply raise_safe|]. apply reading_safe; auto. }
  assert (Hlb : forall b : Z -> bool, safe pt m0 (reading (wrap32 (reg m (rs i) + extra i)) 1 m (fun v m' =>
    Ok (Next (rt i) (if b v then wrap32 (Z.lor (u32 v) 0xffffff00) else Z.land v 0xff) (fallthrough m') m')))).
  { intros b. apply reading_safe; auto. intros. apply Hnext; [done|].
    destruct (b v); [apply wrap32_range|apply land8_range]. }
  assert (Hlh : forall b : Z -> bool, safe pt m0 (if negb (Z.land (wrap32 (reg m (rs i) + extra i)) 1 =? 0)
    then raise AddressErrorException (wrap32 (reg m (rs i) + extra i)) m
    else reading (wrap32 (reg m (rs i) + extra i)) 2 m (fun v m' =>
    Ok (Next (rt i) (if b v then wrap32 (Z.lor (u32 v) 0xffff0000) else Z.land v 0xffff) (fallthrough m') m')))).
  { intros b. on_guard; [by apply raise_safe|]. apply reading_safe; auto. intros. apply Hnext; [done|].
    destruct (b v); [apply wrap32_range|apply land16_range]. }
  destruct (opCode i);
    lazymatch goal with
    | |- safe _ _ (reading _ _ _ _) => apply (Hlb (fun v => negb (Z.land v 0x80 =? 0) && bool_decide (_ = OP_LB)))
    | |- safe _ _ (write _ _ _) => apply write_safe; ranges
    | |- safe _ _ (if negb (Z.land _ 1 =? 0) then _ else _) =>
        apply (Hlh (fun v => negb (Z.land v 0x8000 =? 0) && bool_decide (_ = OP_LH)))
    | |- _ => exact Hlw
    end.
Qed.

Lemma lwl_range b old v : int_range old -> int_range v -> int_range (lwl_merge b old v).
Proof. intros. unfold lwl_merge. repeat case_match; ranges || (apply lor_range; [apply land_range; [done|by vm_compute]|ranges]). Qed.
Lemma lwr_range b old v : int_range old -> int_range v -> int_range (lwr_merge b old v).
Proof. intros. unfold lwr_merge. repeat case_match; ranges. Qed.

Lemma partial_load_safe : safe pt m0 (exec_lwl i m) /\ safe pt m0 (exec_lwr i m).
Proof.
  fields. unfold exec_lwl, exec_lwr.
  split; (apply reading_safe; [done|by right; right|apply wrap32_range|]); intros v m' Hm' Hr Hv;
    (apply next_safe; [done..| |apply fallthrough_range]).
  - apply lwl_range; [by apply in_flight_range|done].
  - apply lwr_range; [by apply in_flight_range|done].
Qed.

Lemma store_safe : safe pt m0 (exec_store i m) /\ safe pt m0 (exec_swl i m) /\ safe pt m0 (exec_swr i m).
Proof.
  unfold exec_store, exec_swl, exec_swr, address. split_and!.
  - apply writing_safe; [done| |apply wrap32_range]. unfold mem_size. destruct (opCode i); auto.
  - apply reading_safe; [done|by right; right|apply wrap32_range|]. intros.
    apply writing_safe; [done|by right; right|apply wrap32_range].
  - apply reading_safe; [done|by right; right|apply wrap32_range|]. intros.
    apply writing_safe; [done|by right; right|apply wrap32_range].
Qed.

(** The host's division traps on exactly this instruction. *)
Definition div_traps : bool :=
  bool_decide (opCode i = OP_DIV) && (reg m (rs i) =? - 2 ^ 31) && (reg m (rt i) =? -1).

Lemma execute_safe : if div_traps then execute i m = Fault ArithTrap else safe pt m0 (execute i m).
Proof.
  destruct div_traps eqn:E; unfold div_traps in E.
  - apply andb_true_iff in E as [[Ho%bool_decide_eq_true Ha]%andb_true_iff Hb].
    unfold execute, exec_div. rewrite Ho. cbv zeta. rewrite Hb, Ha.
    apply Z.eqb_eq in Hb. by rewrite Hb.
  - pose proof arith_safe as (? & ? & ? & ? & ? & ?). pose proof branches_safe as (? & ?).
    pose proof store_safe as (? & ? & ?). pose proof partial_load_safe as (? & ?).
    pose proof hilo_safe. pose proof load_safe. pose proof shift_safe as Hsh.
    assert (safe pt m0 (exec_div i m)).
    { apply div_safe. intros Ho [Ha Hb]. rewrite Ho, Ha, Hb in E. done. }
    assert (Hdec : opCode i <> SPECIAL /\ opCode i <> BCOND /\ opCode i <> OP_RFE) by (fields; done).
    unfold execute. destruct (opCode i) eqn:Ho;
      lazymatch goal with
      | |- safe _ _ (raise _ _ _) => apply raise_safe; [done|by vm_compute]
      | |- safe _ _ (exec_shift _ _) => apply Hsh; tauto
      | |- safe _ _ (Fault _) => exfalso; naive_solver
      | |- _ => assumption
      end.
Qed.
End safety.

Lemma retire_ok pt m0 o :
  outcome_ok pt m0 o ->
  exists m' e, retire o = Ok (m', e) /\ regs_ok m' /\ reg m' 0 = 0 /\
    (exists pt', paged m' pt' /\ mapping <$> pt' = mapping <$> pt) /\
    (forall pa, mainMemory m' !! pa <> mainMemory m0 !! pa -> writable pt pa) /\
    match e with
    | None => reg m' PrevPCReg = reg m0 PCReg /\ reg m' PCReg = reg m0 NextPCReg
    | Some _ => reg m' PCReg = reg m0 PCReg /\ reg m' NextPCReg = reg m0 NextPCReg
    end.
Proof.
  destruct o as [r v pc m|e m]; simpl.
  - intros (He & Hr & Hv & Hpc). destruct (evolves_DelayedLoad pt m0 m r v He Hr Hv) as (m1 & -> & He1 & H0).
    destruct He1 as [Hok (pt' & Hp & Hmap) Hmem Epc Enext]. eexists _, None. split; [done|].
    assert (Hpcr : int_range (reg m1 PCReg)) by by apply reg_range.
    assert (Hnr : int_range (reg m1 NextPCReg)) by by apply reg_range.
    assert (R1 : regs_ok (setreg PrevPCReg (reg m1 PCReg) m1)) by by apply setreg_ok.
    assert (N1 : reg (setreg PrevPCReg (reg m1 PCReg) m1) NextPCReg = reg m1 NextPCReg).
    { by rewrite (reg_setreg _ _ _ _ Hok). }
    rewrite N1.
    assert (R2 : regs_ok (setreg PCReg (reg m1 NextPCReg) (setreg PrevPCReg (reg m1 PCReg) m1))) by by apply setreg_ok.
    split; [by apply setreg_ok|]. rewrite !(reg_setreg _ _ _ _ R2), !(reg_setreg _ _ _ _ R1), !(reg_setreg _ _ _ _ Hok) by done.
    simpl. split_and!; try done. by exists pt'.
  - intros ([Hok Ht Hmem Epc Enext] & H0). by exists m, (Some e).
Qed.

(** ** Overflow tests *)

Lemma negbit_neg z : int_range z -> negbit z = bool_decide (z < 0).
Proof.
  intros Hz. unfold negbit, SIGN_BIT. pose proof (u32_range z).
  assert (Hb : (Z.land (u32 z) 0x80000000 =? 0) = bool_decide (u32 z < 2 ^ 31)) by by apply top_bit_clear.
  rewrite Hb. unfold int_range, u32 in *. destruct (decide (z < 0)).
  - rewrite <- (Z_mod_plus_full _ 1), Z.mod_small in * by lia. repeat case_bool_decide; done || lia.
  - rewrite Z.mod_small in * by lia. repeat case_bool_decide; done || lia.
Qed.

Lemma negbit_lxor a b : int_range a -> int_range b ->
  negbit (Z.lxor a b) = xorb (bool_decide (a < 0)) (bool_decide (b < 0)).
Proof.
  intros Ha Hb. rewrite negbit_neg by by apply lxor_range.
  pose proof (Z.lxor_nonneg a b). repeat case_bool_decide; simpl; lia || tauto || naive_solver lia.
Qed.

(** ** Unaligned words *)

Lemma u32_lor a b : u32 (Z.lor a b) = Z.lor (u32 a) (u32 b).
Proof. unfold u32. rewrite <- !Z.land_ones by lia. apply Z.land_lor_distr_l. Qed.
Lemma u32_land a b : u32 (Z.land a b) = Z.land (u32 a) (u32 b).
Proof.
  unfold u32. rewrite <- !Z.land_ones by lia. apply Z.bits_inj'. intros n Hn.
  rewrite !Z.land_spec. by destruct (Z.testbit a n), (Z.testbit b n), (Z.testbit (Z.ones 32) n).
Qed.

Lemma testbit_high x k n : 0 <= x < 2 ^ k -> 0 <= k <= n -> Z.testbit x n = false.
Proof.
  intros Hx Hk. apply Z.testbit_false; [lia|]. pose proof (Z.pow_le_mono_r 2 k n).
  rewrite Z.div_small; [done|lia].
Qed.

(** A word split at bit [k]: the part above and the part below. *)
Lemma lor_split hi lo k :
  0 <= k -> 0 <= lo < 2 ^ k -> Z.lor (hi * 2 ^ k) lo = hi * 2 ^ k + lo.
Proof.
  intros Hk Hlo. rewrite <- Z.lxor_lor, <- Z.add_nocarry_lxor; [done| |];
    (apply Z.bits_inj'; intros n Hn; rewrite Z.land_spec, Z.bits_0;
     destruct (decide (n < k)); [rewrite Z.mul_pow2_bits_low by lia; done|];
     rewrite (testbit_high lo k n) by lia; by rewrite andb_false_r).
Qed.

Lemma u32_shiftl v k : 0 <= k <= 32 -> u32 (Z.shiftl v k) = (u32 v mod 2 ^ (32 - k)) * 2 ^ k.
Proof.
  intros Hk. rewrite Z.shiftl_mul_pow2, u32_mod_pow2 by lia. unfold u32.
  replace (2 ^ 32) with (2 ^ (32 - k) * 2 ^ k) by (rewrite <- Z.pow_add_r by lia; f_equal; lia).
  apply Zmult_mod_distr_r.
Qed.

(** [(v >> k) & mask] of a signed word is the shift of the unsigned one. *)
Lemma land_shiftr v k : 0 <= k <= 32 -> Z.land (Z.shiftr v k) (2 ^ (32 - k) - 1) = u32 v / 2 ^ k.
Proof.
  intros Hk. rewrite land_ones_mod by lia. rewrite Z.shiftr_div_pow2 by lia. unfold u32.
  replace (2 ^ 32) with (2 ^ k * 2 ^ (32 - k)) by (rewrite <- Z.pow_add_r by lia; f_equal; lia).
  pose proof (Z.pow_pos_nonneg 2 k ltac:(lia) ltac:(lia)) as Hp.
  pose proof (Z.pow_pos_nonneg 2 (32 - k) ltac:(lia) ltac:(lia)).
  rewrite Z.rem_mul_r, (Z.mul_comm (2 ^ k)), Z.div_add by lia.
  rewrite (Z.div_small (v mod 2 ^ k)) by (by apply Z.mod_pos_bound). done.
Qed.

Lemma land_high x k : 0 <= k <= 32 -> 0 <= x < 2 ^ 32 ->
  Z.land x (2 ^ 32 - 2 ^ k) = (x / 2 ^ k) * 2 ^ k.
Proof.
  intros Hk Hx. rewrite <- Z.shiftr_div_pow2, <- Z.shiftl_mul_pow2 by lia. apply Z.bits_inj'. intros n Hn.
  replace (2 ^ 32 - 2 ^ k) with (Z.shiftl (Z.ones (32 - k)) k).
  2:{ rewrite Z.shiftl_mul_pow2, Z.ones_equiv by lia.
      replace (2 ^ 32) with (2 ^ (32 - k) * 2 ^ k) by (rewrite <- Z.pow_add_r by lia; f_equal; lia). lia. }
  rewrite Z.land_spec. destruct (decide (n < k)).
  - by rewrite !Z.shiftl_spec_low, andb_false_r by lia.
  - rewrite !Z.shiftl_spec, Z.shiftr_spec by lia. replace (n - k + k) with n by lia.
    destruct (decide (n < 32)).
    + by rewrite Z.ones_spec_low, andb_true_r by lia.
    + by rewrite (testbit_high x 32 n) by lia.
Qed.

(** The two shapes of merge, [b] bits taken from [v]: its low bits on top of
    [old]'s low bits, or its high bits under [old]'s high bits. *)
Lemma merge_top old v b :
  0 <= b <= 32 -> u32 (Z.lor (Z.land old (2 ^ (32 - b) - 1)) (wrap32 (Z.shiftl v (32 - b)))) =
    (u32 v mod 2 ^ b) * 2 ^ (32 - b) + u32 old mod 2 ^ (32 - b).
Proof.
  intros Hb. rewrite u32_lor, u32_wrap32, u32_shiftl, Z.lor_comm by lia.
  replace (32 - (32 - b)) with b by lia.
  pose proof (Z.mod_pos_bound old (2 ^ (32 - b)) ltac:(apply Z.pow_pos_nonneg; lia)).
  rewrite land_ones_mod, (u32_mod_pow2 old) by lia.
  rewrite (u32_small (old mod _)) by (pose proof (Z.pow_le_mono_r 2 (32 - b) 32); lia).
  apply lor_split; [lia|done].
Qed.

Lemma merge_bottom old v b :
  0 <= b <= 32 ->
  u32 (wrap32 (Z.lor (Z.land (u32 old) (2 ^ 32 - 2 ^ (32 - b))) (Z.land (Z.shiftr v b) (2 ^ (32 - b) - 1)))) =
    (u32 old / 2 ^ (32 - b)) * 2 ^ (32 - b) + u32 v / 2 ^ b.
Proof.
  intros Hb. pose proof (u32_range old). pose proof (u32_range v).
  rewrite u32_wrap32, land_high, land_shiftr by (lia || done).
  assert (Hp : 2 ^ 32 = 2 ^ b * 2 ^ (32 - b)) by (rewrite <- Z.pow_add_r by lia; f_equal; lia).
  pose proof (Z.pow_pos_nonneg 2 b ltac:(lia) ltac:(lia)). pose proof (Z.pow_pos_nonneg 2 (32 - b) ltac:(lia) ltac:(lia)).
  assert (0 <= u32 v / 2 ^ b < 2 ^ (32 - b)).
  { split; [apply Z.div_pos; lia|]. apply Z.div_lt_upper_bound; [lia|]. rewrite <- Hp. lia. }
  rewrite lor_split by (done || lia). apply u32_small.
  pose proof (Z.mul_div_le (u32 old) (2 ^ (32 - b)) ltac:(lia)).
  assert (u32 old / 2 ^ (32 - b) < 2 ^ b) by (apply Z.div_lt_upper_bound; lia).
  split; [assert (0 <= u32 old / 2 ^ (32 - b)) by (apply Z.div_pos; lia)|]; nia.
Qed.

Lemma word_of_dword lo hi b :
  0 < b < 32 -> 0 <= lo < 2 ^ 32 -> 0 <= hi < 2 ^ 32 ->
  dword hi lo / 2 ^ b mod 2 ^ 32 = (hi mod 2 ^ b) * 2 ^ (32 - b) + lo / 2 ^ b.
Proof.
  intros Hb Hlo Hhi. unfold dword.
  assert (Hp : 2 ^ 32 = 2 ^ (32 - b) * 2 ^ b) by (rewrite <- Z.pow_add_r by lia; f_equal; lia).
  pose proof (Z.pow_pos_nonneg 2 b ltac:(lia) ltac:(lia)). pose proof (Z.pow_pos_nonneg 2 (32 - b) ltac:(lia) ltac:(lia)).
  assert (0 <= lo / 2 ^ b < 2 ^ (32 - b)).
  { split; [apply Z.div_pos; lia|]. apply Z.div_lt_upper_bound; lia. }
  replace (hi * 2 ^ 32 + lo) with (lo + hi * 2 ^ (32 - b) * 2 ^ b) by (rewrite Hp; lia).
  rewrite Z.div_add by lia. pose proof (Z.mod_pos_bound hi (2 ^ b) ltac:(lia)).
  symmetry. apply (Z.mod_unique _ _ (hi / 2 ^ b)).
  - left. nia.
  - rewrite Hp. pose proof (Z.div_mod hi (2 ^ b) ltac:(lia)). nia.
Qed.

Lemma high_part a b n : 0 <= n -> (a * 2 ^ n + b mod 2 ^ n) / 2 ^ n = a.
Proof.
  intros Hn. pose proof (Z.pow_pos_nonneg 2 n ltac:(lia) Hn).
  rewrite Z.add_comm, Z.div_add, Z.div_small by (lia || by apply Z.mod_pos_bound). done.
Qed.

(** A field of [w] bits at bit [k]. *)
Lemma field v k w f lo :
  v mod 2 ^ (k + w) = f * 2 ^ k + lo -> 0 <= k -> 0 <= w -> 0 <= f < 2 ^ w -> 0 <= lo < 2 ^ k ->
  Z.land (Z.shiftr v k) (2 ^ w - 1) = f.
Proof.
  intros Hv Hk Hw Hf Hlo. rewrite land_ones_mod, Z.shiftr_div_pow2 by done.
  pose proof (Z.pow_pos_nonneg 2 k ltac:(lia) Hk). pose proof (Z.pow_pos_nonneg 2 w ltac:(lia) Hw).
  rewrite Z.pow_add_r in Hv by done. rewrite Z.rem_mul_r in Hv by lia.
  pose proof (Z.mod_pos_bound v (2 ^ k) ltac:(lia)). nia.
Qed.

Lemma overflow_test a b s :
  int_range a -> int_range b -> s = a + b ->
  (negb (xorb (bool_decide (a < 0)) (bool_decide (b < 0))) &&
   xorb (bool_decide (a < 0)) (bool_decide (wrap32 s < 0))) = negb (bool_decide (int_range s)).
Proof.
  intros Ha Hb ->. destruct (decide (int_range (a + b))) as [Hs|Hs].
  - rewrite wrap32_small by done. rewrite (bool_decide_eq_true_2 _ Hs).
    unfold int_range in *. repeat case_bool_decide; simpl; done || lia.
  - rewrite (bool_decide_eq_false_2 _ Hs). unfold int_range, wrap32 in *.
    destruct (decide (a + b < 0)).
    + rewrite <- (Z_mod_plus_full _ 1), Z.mod_small by lia. repeat case_bool_decide; simpl; done || lia.
    + rewrite <- (Z_mod_plus_full _ (-1)), Z.mod_small by lia. repeat case_bool_decide; simpl; done || lia.
Qed.

Lemma underflow_test a b :
  int_range a -> int_range b ->
  (xorb (bool_decide (a < 0)) (bool_decide (b < 0)) &&
   xorb (bool_decide (a < 0)) (bool_decide (wrap32 (a - b) < 0))) = negb (bool_decide (int_range (a - b))).
Proof.
  intros Ha Hb. destruct (decide (int_range (a - b))) as [Hs|Hs].
  - rewrite wrap32_small by done. rewrite (bool_decide_eq_true_2 _ Hs).
    unfold int_range in *. repeat case_bool_decide; simpl; done || lia.
  - rewrite (bool_decide_eq_false_2 _ Hs). unfold int_range, wrap32 in *.
    destruct (decide (a - b < 0)).
    + rewrite <- (Z_mod_plus_full _ 1), Z.mod_small by lia. repeat case_bool_decide; simpl; done || lia.
    + rewrite <- (Z_mod_plus_full _ (-1)), Z.mod_small by lia. repeat case_bool_decide; simpl; done || lia.
Qed.

Lemma opTable_index code p : lget opTable code = Ok p -> 0 <= code < 64.
Proof. intros [Hc Hl%lookup_lt_Some]%lget_ok. change (length opTable) with 64%nat in Hl. lia. Qed.

Lemma opTable_immediate code op v :
  lget opTable code = Ok (op, IFMT) -> op <> BCOND -> second_op op v = Ok op.
Proof.
  intros Hop%(table_lookup table_entry opTable _ _ eq_refl) Hne. by destruct op.
Qed.

Lemma sign_extend imm :
  - 2 ^ 15 <= imm < 2 ^ 15 ->
  (if Z.land (imm mod 2 ^ 16) 0x8000 =? 0 then imm mod 2 ^ 16
   else wrap32 (Z.lor (imm mod 2 ^ 16) 0xffff0000)) = imm.
Proof.
  intros Hi. set (x := imm mod 2 ^ 16). assert (0 <= x < 2 ^ 16) by (by apply Z.mod_pos_bound).
  assert (Ht : (Z.land x 0x8000 =? 0) = bool_decide (x < 2 ^ 15)).
  { pose proof (top_bit_clear (x * 2 ^ 16) ltac:(lia)) as H0.
    rewrite <- Z.shiftl_mul_pow2 in H0 by lia.
    change 0x80000000 with (Z.shiftl 0x8000 16) in H0. rewrite <- Z.shiftl_land in H0.
    rewrite !Z.shiftl_mul_pow2 in H0 by lia.
    destruct (Z.eqb_spec (Z.land x 0x8000) 0), (Z.eqb_spec (Z.land x 0x8000 * 2 ^ 16) 0);
      repeat case_bool_decide; done || lia. }
  rewrite Ht. case_bool_decide as Hx.
  - subst x. destruct (decide (imm < 0)).
    + rewrite <- (Z_mod_plus_full _ 1), Z.mod_small in Hx by lia. lia.
    + by apply Z.mod_small; lia.
  - rewrite Z.lor_comm. rewrite (lor_split 0xffff x 16 ltac:(lia) ltac:(lia) : Z.lor 0xffff0000 x = _).
    subst x. destruct (decide (imm < 0)).
    + rewrite <- (Z_mod_plus_full _ 1), (Z.mod_small (_ + _)) by lia. unfold wrap32.
      rewrite <- (Z_mod_plus_full _ (-1)), Z.mod_small; lia.
    + rewrite Z.mod_small in Hx by lia. lia.
Qed.


(** ** The logical right shift *)

(** SRL and SRLV copy the register to the variable [tmp], an [int]: on a
    negative word the copies of the sign come in from the left, where MIPS (and
    the names of the instructions) ask for zeros. *)
Lemma SRL_is_arithmetic i m :
  opCode i = OP_SRL -> 0 < extra i < 32 -> - 2 ^ 31 <= reg m (rt i) < 0 ->
  exists v, execute i m = write (rd i) v m /\ v < 0 /\ v <> u32 (reg m (rt i)) / 2 ^ extra i.
Proof.
  intros Ho Hx Hv. exists (Z.shiftr (reg m (rt i)) (extra i)). unfold execute, exec_shift. rewrite Ho.
  split; [done|]. pose proof (Z.shiftr_neg (reg m (rt i)) (extra i)). split; [lia|].
  assert (0 <= u32 (reg m (rt i)) / 2 ^ extra i); [|lia].
  apply Z.div_pos; [apply u32_range|apply Z.pow_pos_nonneg; lia].
Qed.

Lemma OneInstruction_ok m pt :
  regs_ok m -> paged m pt ->
  match OneInstruction m with
  | Ok (m', e) =>
      regs_ok m' /\ reg m' 0 = 0 /\
      (exists pt', paged m' pt' /\ mapping <$> pt' = mapping <$> pt) /\
      (forall pa, mainMemory m' !! pa <> mainMemory m !! pa -> writable pt pa) /\
      match e with
      | None => reg m' PrevPCReg = reg m PCReg /\ reg m' PCReg = reg m NextPCReg
      | Some _ => reg m' PCReg = reg m PCReg /\ reg m' NextPCReg = reg m NextPCReg
      end
  | Fault f =>
      f = ArithTrap /\
      exists m1 raw i, ReadMem (reg m PCReg) 4 m = Ok (m1, inr raw) /\ Decode (u32 raw) = Ok i /\
        opCode i = OP_DIV /\ reg m (rs i) = - 2 ^ 31 /\ reg m (rt i) = -1
  end.
Proof.
  intros Hr Hp. unfold OneInstruction.
  destruct (evolves_ReadMem pt m m (reg m PCReg) 4) as (m1 & r & Hread & He & Hres);
    [by apply evolves_refl|by right; right|by apply reg_range|].
  rewrite Hread. cbn [bind]. destruct r as [e|raw].
  - destruct (retire_ok pt m (Raised e m1)) as (m' & e' & Heq & H); [done|]. injection Heq as <- <-. exact H.
  - destruct Hres as [_ Hregs]. destruct (Decode_ok (u32 raw)) as (i & Hdec & Hi & _). rewrite Hdec. cbn [bind].
    pose proof (execute_safe pt m i m1 Hi He) as Hsafe. destruct (div_traps i m1) eqn:Etrap.
    + rewrite Hsafe. cbn [bind]. split; [done|]. exists m1, raw, i. split; [done|]. split; [done|].
      unfold div_traps in Etrap. apply andb_true_iff in Etrap as [[Ho%bool_decide_eq_true Ha%Z.eqb_eq]%andb_true_iff Hb%Z.eqb_eq].
      unfold reg in *. rewrite Hregs in Ha, Hb. done.
    + destruct Hsafe as (o & -> & Ho). cbn [bind]. destruct (retire_ok pt m o Ho) as (m' & e & -> & H). exact H.
Qed.

(** ** Properties *)

(** C31: [Mult] computes the exact 64-bit product, for signed and for unsigned
    operands, over the whole range of both (the most negative integer, whose
    negation wraps, included). *)
Theorem Mult_exact a b signedArith :
  int_range a -> int_range b ->
  let '(hi, lo) := Mult a b signedArith in
  int_range hi /\ int_range lo /\
  u32 hi * 2 ^ 32 + u32 lo = (if signedArith then a * b else u32 a * u32 b) mod 2 ^ 64.
Proof.
  intros Ha Hb. unfold Mult.
  destruct ((a =? 0) || (b =? 0)) eqn:Ez.
  { split_and!; try (unfold int_range; lia). apply orb_true_iff in Ez as [->%Z.eqb_eq | ->%Z.eqb_eq];
      destruct signedArith; rewrite ?Z.mul_0_r; done. }
  set (a' := if signedArith && _ then wrap32 (- a) else a).
  set (b' := if signedArith && _ then wrap32 (- b) else b).
  destruct (mult_loop_product a' b') as (hi & lo & -> & Hlo & Hhi & Hd).
  destruct (signedArith && xorb (bool_decide (a < 0)) (bool_decide (b < 0))) eqn:Eneg.
  - apply andb_true_iff in Eneg as [-> Ex]. simpl in a', b'. subst a' b'. rewrite !magnitude in Hd by done.
    destruct (negate_dword hi lo Hlo Hhi) as (Hl2 & Hh2 & Hd2).
    cbv zeta in *. split_and!; [apply wrap32_range..|]. rewrite !u32_wrap32, (u32_small _ Hl2), (u32_small _ Hh2).
    rewrite (sign_product a b), Ex, <- Hd. exact Hd2.
  - split_and!; [apply wrap32_range..|]. rewrite !u32_wrap32, !u32_small by done.
    unfold dword in Hd. rewrite Hd. destruct signedArith; simpl in Eneg; subst a' b'; simpl in *.
    + rewrite !magnitude by done. rewrite (sign_product a b), Eneg, Z.mod_small; [done|].
      unfold int_range in *. nia.
    + pose proof (u32_range a). pose proof (u32_range b). rewrite Z.mod_small; [done|]. nia.
Qed.


(** the pair of unaligned loads, LWL at [a + 3] and LWR at [a], leaves in the
    register exactly the four bytes that start at [a]: bytes [k..k+3] of the two
    aligned words [hi:lo] around it, whatever the register held before; for an
    aligned address ([k = 0]) both name the word [lo]. *)
Theorem LWL_LWR_unaligned k old lo hi :
  0 <= k <= 3 ->
  let first := lwl_merge ((k + 3) mod 4) old (if k =? 0 then lo else hi) in
  u32 (lwr_merge k first lo) = dword (u32 hi) (u32 lo) / 2 ^ (8 * k) mod 2 ^ 32.
Proof.
  intros Hk. cbv zeta. pose proof (u32_range lo). pose proof (u32_range hi).
  assert (k = 0 \/ k = 1 \/ k = 2 \/ k = 3) as [-> | [-> | [-> | ->]]] by lia.
  - change (u32 lo = dword (u32 hi) (u32 lo) / 1 mod 2 ^ 32). rewrite Z.div_1_r. unfold dword.
    by rewrite (Z.add_comm (_ * _)), Z_mod_plus_full, Z.mod_small.
  - rewrite word_of_dword by lia. change (u32 (lwr_merge 1 (lwl_merge 0 old hi) lo) = u32 hi mod 2 ^ 8 * 2 ^ (32 - 8) + u32 lo / 2 ^ 8).
    rewrite (merge_bottom (lwl_merge 0 old hi) lo 8 ltac:(lia) : u32 (lwr_merge 1 _ lo) = _).
    by rewrite (merge_top old hi 8 ltac:(lia) : u32 (lwl_merge 0 old hi) = _), high_part by lia.
  - rewrite word_of_dword by lia. change (u32 (lwr_merge 2 (lwl_merge 1 old hi) lo) = u32 hi mod 2 ^ 16 * 2 ^ (32 - 16) + u32 lo / 2 ^ 16).
    rewrite (merge_bottom (lwl_merge 1 old hi) lo 16 ltac:(lia) : u32 (lwr_merge 2 _ lo) = _).
    by rewrite (merge_top old hi 16 ltac:(lia) : u32 (lwl_merge 1 old hi) = _), high_part by lia.
  - rewrite word_of_dword by lia. change (u32 (lwr_merge 3 (lwl_merge 2 old hi) lo) = u32 hi mod 2 ^ 24 * 2 ^ (32 - 24) + u32 lo / 2 ^ 24).
    rewrite (merge_bottom (lwl_merge 2 old hi) lo 24 ltac:(lia) : u32 (lwr_merge 3 _ lo) = _).
    by rewrite (merge_top old hi 24 ltac:(lia) : u32 (lwl_merge 2 old hi) = _), high_part by lia.
Qed.

(** C38: the overflow tests of ADD, ADDI and SUB are exact: the instruction raises
    [OverflowException] without writing its target register when the true result
    does not fit in 32 bits, and otherwise writes the true result. *)
Theorem overflow_exact m i :
  int_range (reg m (rs i)) -> int_range (reg m (rt i)) -> int_range (extra i) ->
  let exact r v := if bool_decide (int_range v) then write r v m else raise OverflowException 0 m in
  (opCode i = OP_ADD -> execute i m = exact (rd i) (reg m (rs i) + reg m (rt i))) /\
  (opCode i = OP_ADDI -> execute i m = exact (rt i) (reg m (rs i) + extra i)) /\
  (opCode i = OP_SUB -> execute i m = exact (rd i) (reg m (rs i) - reg m (rt i))).
Proof.
  intros Ha Hb Hx exact. subst exact. cbv beta.
  split_and!; intros Ho; unfold execute, exec_add, exec_sub; rewrite Ho; cbv zeta;
    rewrite !negbit_lxor by (done || apply wrap32_range).
  - rewrite (overflow_test _ _ _ Ha Hb eq_refl). case_bool_decide; simpl; [|done]. by rewrite wrap32_small.
  - rewrite xorb_comm, (overflow_test _ _ _ Hx Ha (Z.add_comm _ _)). case_bool_decide; simpl; [|done]. by rewrite wrap32_small.
  - rewrite (underflow_test _ _ Ha Hb). case_bool_decide; simpl; [|done]. by rewrite wrap32_small.
Qed.

(** decoding undoes the encoding of an I-format word: the opcode of the
    table, both register fields, and the 16-bit immediate sign-extended. *)
Theorem Decode_encode code op r t imm :
  lget opTable code = Ok (op, IFMT) -> op <> BCOND ->
  0 <= r < 32 -> 0 <= t < 32 -> - 2 ^ 15 <= imm < 2 ^ 15 ->
  let v := code * 2 ^ 26 + r * 2 ^ 21 + t * 2 ^ 16 + imm mod 2 ^ 16 in
  Decode v = Ok (mkI v op r t (imm mod 2 ^ 16 / 2 ^ 11) imm).
Proof.
  intros Hop Hne Hr Ht Himm v. pose proof (opTable_index _ _ Hop) as Hc.
  pose proof (Z.mod_pos_bound imm (2 ^ 16) ltac:(lia)) as Hi. set (im := imm mod 2 ^ 16) in *.
  unfold Decode.
  assert (Ef : Z.land (Z.shiftr v 26) 0x3f = code).
  { apply (field v 26 6 code (r * 2 ^ 21 + t * 2 ^ 16 + im)); try lia. rewrite Z.mod_small; subst v; lia. }
  assert (Er : Z.land (Z.shiftr v 21) 0x1f = r).
  { apply (field v 21 5 r (t * 2 ^ 16 + im)); try lia. symmetry. apply (Z.mod_unique _ _ code); subst v; lia. }
  assert (Et : Z.land (Z.shiftr v 16) 0x1f = t).
  { apply (field v 16 5 t im); try lia. symmetry. apply (Z.mod_unique _ _ (code * 2 ^ 5 + r)); subst v; lia. }
  assert (Ei : Z.land v 0xffff = im).
  { rewrite (land_ones_mod v 16 ltac:(lia) : Z.land v 0xffff = _). symmetry.
    apply (Z.mod_unique _ _ (code * 2 ^ 10 + r * 2 ^ 5 + t)); subst v; lia. }
  assert (Ed : Z.land (Z.shiftr v 11) 0x1f = im / 2 ^ 11).
  { pose proof (Z.div_mod im (2 ^ 11) ltac:(lia)). pose proof (Z.mod_pos_bound im (2 ^ 11) ltac:(lia)).
    apply (field v 11 5 (im / 2 ^ 11) (im mod 2 ^ 11)); try lia.
    symmetry. apply (Z.mod_unique _ _ (code * 2 ^ 10 + r * 2 ^ 5 + t)); subst v; lia. }
  clearbody v. rewrite Ef, Hop. cbn [bind]. rewrite (opTable_immediate _ _ _ Hop Hne). cbn [bind].
  rewrite Er, Et, Ed, Ei. subst im. by rewrite sign_extend.
Qed.

(** C1: one instruction of any program, run from a well-formed machine with a
    page table: it always completes, except for the one division the host traps
    on; register 0 stays zero and every register a 32-bit integer; the page
    table maps what it mapped; memory changes only inside frames the program may
    write; on an exception the program counters have not moved, so that the
    instruction can be restarted, and otherwise they have advanced. *)
Theorem OneInstruction_safe m pt :
  regs_ok m -> paged m pt ->
  match OneInstruction m with
  | Ok (m', e) =>
      regs_ok m' /\ reg m' 0 = 0 /\
      (exists pt', paged m' pt' /\ mapping <$> pt' = mapping <$> pt) /\
      (forall pa, mainMemory m' !! pa <> mainMemory m !! pa -> writable pt pa) /\
      match e with
      | None => reg m' PrevPCReg = reg m PCReg /\ reg m' PCReg = reg m NextPCReg
      | Some _ => reg m' PCReg = reg m PCReg /\ reg m' NextPCReg = reg m NextPCReg
      end
  | Fault f =>
      f = ArithTrap /\
      exists m1 raw i, ReadMem (reg m PCReg) 4 m = Ok (m1, inr raw) /\ Decode (u32 raw) = Ok i /\
        opCode i = OP_DIV /\ reg m (rs i) = - 2 ^ 31 /\ reg m (rt i) = -1
  end.
Proof. exact (OneInstruction_ok m pt). Qed.

(** ** Witnesses *)

Lemma Mult_exact_witness :
  int_range (- 2 ^ 31) /\ int_range (-3) /\
  let '(hi, lo) := Mult (- 2 ^ 31) (-3) true in u32 hi * 2 ^ 32 + u32 lo = 3 * 2 ^ 31.
Proof.
  assert (H1 : int_range (- 2 ^ 31)) by (unfold int_range; lia).
  assert (H2 : int_range (-3)) by (unfold int_range; lia).
  split; [exact H1|]. split; [exact H2|].
  pose proof (Mult_exact (- 2 ^ 31) (-3) true H1 H2) as H.
  destruct (Mult (- 2 ^ 31) (-3) true) as [hi lo]. destruct H as (_ & _ & H). exact H.
Defined.

Lemma LWL_LWR_unaligned_witness :
  0 <= 1 <= 3 /\
  u32 (lwr_merge 1 (lwl_merge 0 0x11223344 0x08070605) 0x04030201) = 0x05040302.
Proof.
  split; [lia|].
  exact (LWL_LWR_unaligned 1 0x11223344 0x04030201 0x08070605 ltac:(lia)).
Defined.

(** ADDI r8, r0, 7 *)
Definition addi_word : Z := 8 * 2 ^ 26 + 0 * 2 ^ 21 + 8 * 2 ^ 16 + 7 mod 2 ^ 16.

Lemma Decode_encode_witness :
  lget opTable 8 = Ok (OP_ADDI, IFMT) /\
  Decode addi_word = Ok (mkI addi_word OP_ADDI 0 8 0 7).
Proof.
  split; [reflexivity|].
  apply (Decode_encode 8 OP_ADDI 0 8 7); [reflexivity|discriminate|lia..].
Defined.

(** The largest integer in register 8. *)
Definition brink : machine := setreg 8 (2 ^ 31 - 1) example_machine.

Lemma overflow_exact_witness :
  int_range (reg brink 8) /\
  execute (mkI 0 OP_ADDI 8 9 0 1) brink = raise OverflowException 0 brink.
Proof.
  split; [by vm_compute|].
  apply (overflow_exact brink (mkI 0 OP_ADDI 8 9 0 1)); [by vm_compute..|reflexivity].
Defined.

Definition loaded : machine :=
  set_memory (store_bytes 2560 (le_bytes 4 addi_word)) (install [frame 5] example_machine).

Lemma OneInstruction_safe_witness :
  regs_ok loaded /\ paged loaded [frame 5] /\
  match OneInstruction loaded with Ok (m', _) => reg m' 0 = 0 | Fault _ => False end.
Proof.
  assert (Hr : regs_ok loaded) by exact (example_regs_ok [frame 5]).
  assert (Hp : paged loaded [frame 5]) by done.
  split; [exact Hr|]. split; [exact Hp|].
  pose proof (OneInstruction_safe loaded [frame 5] Hr Hp) as H.
  assert (Hok : match OneInstruction loaded with Ok _ => true | Fault _ => false end = true) by by vm_compute.
  destruct (OneInstruction loaded) as [[m' e]|f]; [apply H|discriminate Hok].
Defined.
End Mips.
