(* ===== verification/LibList.v ===== *)
(** * lib/list.{h,cc}: singly linked lists and sorted lists

    [List<T>] over an explicit store of list elements, so that the pointers
    [first], [last] and [next], the allocation of an element and its [delete]
    are the code's.  [LinkedList.repr] relates a list object to the sequence of
    its items; the theorems show that every operation, assertion failures
    included, implements the operation of module [Seq] on that sequence.  The
    clients (ready list, wait queues, pending interrupts, hash buckets) are
    modelled over [Seq]. *)

From S2P Require Import Prelude.

(** ** The abstract lists *)

Module Seq.
Section ops.
Context {A : Type} `{EqDecision A}.

(** The items never repeat: [Append], [Prepend] and [Insert] assert it. *)
Definition IsInList (x : A) (xs : list A) : bool := bool_decide (x ∈ xs).
Definition Append (x : A) (xs : list A) : result (list A) :=
  assert (negb (IsInList x xs)) ;; Ok (xs ++ [x]).
Definition Prepend (x : A) (xs : list A) : result (list A) :=
  assert (negb (IsInList x xs)) ;; Ok (x :: xs).
Definition RemoveFront (xs : list A) : result (A * list A) :=
  match xs with [] => Fault AssertFailed | x :: xs => Ok (x, xs) end.
Definition Front (xs : list A) : result A :=
  match xs with [] => Fault NullPointer | x :: _ => Ok x end.
Definition Remove (x : A) (xs : list A) : result (list A) :=
  assert (IsInList x xs) ;; Ok (filter (fun y => y <> x) xs).

(** The new item goes before the first greater one: after its equals. *)
Fixpoint place (compare : A -> A -> Z) (x : A) (xs : list A) : list A :=
  match xs with
  | [] => [x]
  | y :: ys => if bool_decide (compare x y < 0) then x :: xs else y :: place compare x ys
  end.
Definition Insert (compare : A -> A -> Z) (x : A) (xs : list A) : result (list A) :=
  assert (negb (IsInList x xs)) ;; Ok (place compare x xs).

Definition sorted (compare : A -> A -> Z) : list A -> Prop :=
  StronglySorted (fun x y => compare x y <= 0).
End ops.
End Seq.

Abbreviation last_of := last.

Module LinkedList.
Section LinkedList.
Context {A : Type} `{EqDecision A}.

Abbreviation loc := positive.

(** [ListElement<T>]; the store of the elements of one list. *)
Record ListElement := mkElement { item : A; next : option loc }.
Abbreviation store := (gmap positive ListElement).

Record t := mkList {
  elements : store;
  first : option loc;
  last : option loc;
  numInList : Z
}.

Definition deref (h : store) (p : option loc) : result ListElement :=
  match p with
  | None => Fault NullPointer
  | Some l => match h !! l with Some e => Ok e | None => Fault DanglingPointer end
  end.

(** [p->next = q] *)
Definition set_next (h : store) (p q : option loc) : result store :=
  match p with
  | None => Fault NullPointer
  | Some l => match h !! l with
              | Some e => Ok (<[l := mkElement (item e) q]> h)
              | None => Fault DanglingPointer
              end
  end.

(** [new ListElement<T>(itm)] at an address not in use. *)
Definition new_element (itm : A) (h : store) : loc * store :=
  let l := fresh (dom h) in (l, <[l := mkElement itm None]> h).

Definition List : t := mkList ∅ None None 0.

Definition IsEmpty (s : t) : bool := numInList s =? 0.
Definition NumInList (s : t) : Z := u32 (numInList s).
Definition Front (s : t) : result A := e <- deref (elements s) (first s) ;; Ok (item e).

(** A [for] over the pointers; the bound on its iterations is the number of
    elements of the store (a longer walk has entered a cycle). *)
Fixpoint find_loop (n : nat) (h : store) (ptr : option loc) (x : A) : result bool :=
  match ptr with
  | None => Ok false
  | Some _ =>
      match n with
      | O => Fault OutOfFuel
      | S n => e <- deref h ptr ;;
               if bool_decide (x = item e) then Ok true else find_loop n h (next e) x
      end
  end.
Definition IsInList (x : A) (s : t) : result bool :=
  find_loop (size (elements s)) (elements s) (first s) x.

Definition assert_in (expected : bool) (x : A) (s : t) : result unit :=
  b <- IsInList x s ;; assert (Bool.eqb b expected).

Definition Append (x : A) (s : t) : result t :=
  let '(element, h) := new_element x (elements s) in
  assert_in false x s ;;
  s <- (if IsEmpty s then Ok (mkList h (Some element) (Some element) (numInList s + 1))
        else h <- set_next h (last s) (Some element) ;;
             Ok (mkList h (first s) (Some element) (numInList s + 1))) ;;
  assert_in true x s ;;
  Ok s.

Definition Prepend (x : A) (s : t) : result t :=
  let '(element, h) := new_element x (elements s) in
  assert_in false x s ;;
  s <- (if IsEmpty s then Ok (mkList h (Some element) (Some element) (numInList s + 1))
        else h <- set_next h (Some element) (first s) ;;
             Ok (mkList h (Some element) (last s) (numInList s + 1))) ;;
  assert_in true x s ;;
  Ok s.

Definition RemoveFront (s : t) : result (A * t) :=
  assert (negb (IsEmpty s)) ;;
  e <- deref (elements s) (first s) ;;
  let h := match first s with Some l => delete l (elements s) | None => elements s end in
  Ok (item e, if bool_decide (first s = last s) then mkList h None None (numInList s - 1)
              else mkList h (next e) (last s) (numInList s - 1)).

(** The loop of [Remove]; [None] when [ptr] ran off the list. *)
Fixpoint remove_loop (n : nat) (s : t) (prev ptr : option loc) (x : A) : result (option t) :=
  match ptr with
  | None => Ok None
  | Some l =>
      match n with
      | O => Fault OutOfFuel
      | S n =>
          e <- deref (elements s) ptr ;;
          if bool_decide (x = item e) then
            h <- set_next (elements s) prev (next e) ;;
            Ok (Some (mkList (delete l h) (first s) (match next e with None => prev | Some _ => last s end)
                             (numInList s - 1)))
          else remove_loop n s ptr (next e) x
      end
  end.

Definition Remove (x : A) (s : t) : result t :=
  assert_in true x s ;;
  e <- deref (elements s) (first s) ;;
  s <- (if bool_decide (x = item e) then
          '(removed, s) <- RemoveFront s ;;
          assert (bool_decide (x = removed)) ;;
          Ok s
        else
          r <- remove_loop (size (elements s)) s (first s) (next e) x ;;
          match r with Some s => Ok s | None => Fault AssertFailed end) ;;
  assert_in false x s ;;
  Ok s.

(** [Apply]: the calls of [func], in order. *)
Fixpoint apply_loop {S} (n : nat) (h : store) (ptr : option loc) (func : A -> S -> result S) (st : S) : result S :=
  match ptr with
  | None => Ok st
  | Some _ =>
      match n with
      | O => Fault OutOfFuel
      | S n => e <- deref h ptr ;; st <- func (item e) st ;; apply_loop n h (next e) func st
      end
  end.
Definition Apply {S} (func : A -> S -> result S) (s : t) (st : S) : result S :=
  apply_loop (size (elements s)) (elements s) (first s) func st.

(** [List<T>::SanityCheck]: count from [first] to [last]. *)
Fixpoint count_loop (n : nat) (h : store) (ptr stop : option loc) (numFound num : Z) : result Z :=
  if bool_decide (ptr = stop) then Ok numFound
  else match n with
       | O => Fault OutOfFuel
       | S n =>
           let numFound := numFound + 1 in
           assert (bool_decide (numFound <= num)) ;;
           e <- deref h ptr ;;
           count_loop n h (next e) stop numFound num
       end.

Definition SanityCheck (s : t) : result unit :=
  match first s with
  | None => assert ((numInList s =? 0) && bool_decide (last s = None))
  | Some _ =>
      if bool_decide (first s = last s) then
        e <- deref (elements s) (last s) ;;
        assert ((numInList s =? 1) && bool_decide (next e = None))
      else
        numFound <- count_loop (size (elements s)) (elements s) (first s) (last s) 1 (numInList s) ;;
        assert (numFound =? numInList s) ;;
        e <- deref (elements s) (last s) ;;
        assert (bool_decide (next e = None))
  end.

(** ** ListIterator *)

Definition ListIterator (s : t) : option loc := first s.
Definition IsDone (current : option loc) : bool := bool_decide (current = None).
Definition Item (h : store) (current : option loc) : result A :=
  assert (negb (IsDone current)) ;; e <- deref h current ;; Ok (item e).
Definition Next (h : store) (current : option loc) : result (option loc) :=
  e <- deref h current ;; Ok (next e).

(** ** SortedList *)

Section sorted.
Context (compare : A -> A -> Z).

Fixpoint insert_loop (n : nat) (s : t) (h : store) (element : loc) (ptr : option loc) (x : A) : result t :=
  match n with
  | O => Fault OutOfFuel
  | S n =>
      e <- deref h ptr ;;
      match next e with
      | None =>
          (* the loop ends: the item goes at the end of the list *)
          h <- set_next h (last s) (Some element) ;;
          let s := mkList h (first s) (Some element) (numInList s + 1) in
          assert_in true x s ;;
          Ok s
      | Some _ =>
          f <- deref h (next e) ;;
          if bool_decide (compare x (item f) < 0) then
            h <- set_next h (Some element) (next e) ;;
            h <- set_next h ptr (Some element) ;;
            Ok (mkList h (first s) (last s) (numInList s + 1))
          else insert_loop n s h element (next e) x
      end
  end.

Definition Insert (x : A) (s : t) : result t :=
  let '(element, h) := new_element x (elements s) in
  assert_in false x s ;;
  if IsEmpty s then
    let s := mkList h (Some element) (Some element) (numInList s + 1) in
    assert_in true x s ;;
    Ok s
  else
    e <- deref h (first s) ;;
    if bool_decide (compare x (item e) < 0) then
      h <- set_next h (Some element) (first s) ;;
      let s := mkList h (Some element) (last s) (numInList s + 1) in
      assert_in true x s ;;
      Ok s
    else insert_loop (size h) s h element (first s) x.

Fixpoint sorted_loop (n : nat) (h : store) (prev ptr : option loc) : result unit :=
  match ptr with
  | None => Ok tt
  | Some _ =>
      match n with
      | O => Fault OutOfFuel
      | S n =>
          e <- deref h prev ;;
          f <- deref h ptr ;;
          assert (bool_decide (compare (item e) (item f) <= 0)) ;;
          sorted_loop n h ptr (next f)
      end
  end.

Definition SortedSanityCheck (s : t) : result unit :=
  SanityCheck s ;;
  if bool_decide (first s = last s) then Ok tt
  else e <- deref (elements s) (first s) ;;
       sorted_loop (size (elements s)) (elements s) (first s) (next e).
End sorted.

(** ** SelfTest

    [Append] and [SanityCheck] are virtual: a sorted list runs this with its own
    [Insert] and sorted check. *)

Section selftest.
Context (append : A -> t -> result t) (sanity : t -> result unit).

Fixpoint put_all (p : list A) (s : t) : result t :=
  match p with
  | [] => Ok s
  | x :: p =>
      s <- append x s ;;
      assert_in true x s ;;
      assert (negb (IsEmpty s)) ;;
      put_all p s
  end.

Fixpoint remove_all (p : list A) (s : t) : result t :=
  match p with
  | [] => Ok s
  | x :: p =>
      s <- Remove x s ;;
      assert_in false x s ;;
      remove_all p s
  end.

Definition SelfTest (p : list A) (s : t) : result t :=
  sanity s ;;
  assert (IsEmpty s && bool_decide (first s = None)) ;;
  assert (IsDone (ListIterator s)) ;;
  s <- put_all p s ;;
  sanity s ;;
  s <- remove_all p s ;;
  assert (IsEmpty s) ;;
  sanity s ;;
  Ok s.
End selftest.

Section sorted_selftest.
Context (compare : A -> A -> Z).

Fixpoint insert_all (p : list A) (s : t) : result t :=
  match p with
  | [] => Ok s
  | x :: p =>
      s <- Insert compare x s ;;
      assert_in true x s ;;
      insert_all p s
  end.

(** The items in the order [RemoveFront] gives them back. *)
Fixpoint drain (n : nat) (s : t) : result (list A * t) :=
  match n with
  | O => Ok ([], s)
  | S n =>
      '(x, s) <- RemoveFront s ;;
      assert_in false x s ;;
      '(q, s) <- drain n s ;;
      Ok (x :: q, s)
  end.

Fixpoint in_order (q : list A) : result unit :=
  match q with
  | [] => Ok tt
  | x :: q' =>
      match q' with
      | [] => Ok tt
      | y :: _ => assert (bool_decide (compare x y <= 0)) ;; in_order q'
      end
  end.

Definition SortedSelfTest (p : list A) (s : t) : result t :=
  s <- SelfTest (Insert compare) (SortedSanityCheck compare) p s ;;
  s <- insert_all p s ;;
  SortedSanityCheck compare s ;;
  '(q, s) <- drain (length p) s ;;
  assert (IsEmpty s) ;;
  in_order q ;;
  SortedSanityCheck compare s ;;
  Ok s.
End sorted_selftest.

(** ** Representation *)

(** [cs]: the elements from [p] up to [q], with their addresses. *)
Fixpoint chain (h : store) (p : option loc) (cs : list (loc * A)) (q : option loc) : Prop :=
  match cs with
  | [] => p = q
  | (l, x) :: cs => p = Some l /\ exists n, h !! l = Some (mkElement x n) /\ chain h n cs q
  end.

Record shape (s : t) (cs : list (loc * A)) : Prop := {
  sh_chain : chain (elements s) (first s) cs None;
  sh_last : last s = fst <$> last_of cs;
  sh_num : numInList s = Z.of_nat (length cs);
  sh_locs : NoDup cs.*1;
  sh_dom : dom (elements s) = list_to_set cs.*1
}.

(** The list object [s] holds the items [xs], in order. *)
Definition repr (s : t) (xs : list A) : Prop := exists cs, shape s cs /\ cs.*2 = xs /\ NoDup xs.

(** A list operation implements an operation on sequences. *)
Definition implements (r : result t) (spec : result (list A)) : Prop :=
  match spec with
  | Ok xs => exists s, r = Ok s /\ repr s xs
  | Fault f => r = Fault f
  end.

Lemma chain_app h p q cs1 cs2 :
  chain h p (cs1 ++ cs2) q <-> exists r, chain h p cs1 r /\ chain h r cs2 q.
Proof.
  revert p. induction cs1 as [|[l x] cs1 IH]; intros p; simpl.
  - naive_solver.
  - setoid_rewrite IH. naive_solver.
Qed.

Lemma chain_frame h h' p q cs :
  (forall l, l ∈ cs.*1 -> h' !! l = h !! l) -> chain h p cs q -> chain h' p cs q.
Proof.
  revert p. induction cs as [|[l x] cs IH]; intros p Hl; simpl; [done|].
  intros (-> & n & Hn & Hc). split; [done|]. exists n. split.
  - rewrite Hl; [done|]. simpl. by left.
  - apply IH; [|done]. intros l' Hl'. apply Hl. simpl. by right.
Qed.

Lemma chain_insert_fresh h p q cs l e : l ∉ cs.*1 -> chain h p cs q -> chain (<[l := e]> h) p cs q.
Proof. intros Hl. apply chain_frame. intros l' Hl'. rewrite lookup_insert_ne; [done|]. by intros ->. Qed.

Lemma chain_delete h p q cs l : l ∉ cs.*1 -> chain h p cs q -> chain (delete l h) p cs q.
Proof. intros Hl. apply chain_frame. intros l' Hl'. rewrite lookup_delete_ne; [done|]. by intros ->. Qed.

(** Redirecting the [next] of the last element of a segment. *)
Lemma chain_relink h p q r cs k y :
  k ∉ cs.*1 -> chain h p (cs ++ [(k, y)]) q -> chain (<[k := mkElement y r]> h) p (cs ++ [(k, y)]) r.
Proof.
  intros Hk. rewrite !chain_app. intros (o & Hc & -> & n & Hn & _). exists (Some k).
  split; [by apply chain_insert_fresh|]. split; [done|]. exists r. by rewrite lookup_insert_eq.
Qed.

Lemma chain_head_lookup h p q l x cs : chain h p ((l, x) :: cs) q -> p = Some l /\ exists n, h !! l = Some (mkElement x n) /\ chain h n cs q.
Proof. done. Qed.

Lemma chain_last_lookup h p q cs k y :
  chain h p (cs ++ [(k, y)]) q -> h !! k = Some (mkElement y q).
Proof. rewrite chain_app. intros (o & _ & _ & n & Hn & Hq). simpl in Hq. by subst. Qed.

Lemma shape_size s cs : shape s cs -> size (elements s) = length cs.
Proof.
  intros [_ _ _ Hnd Hdom]. rewrite <- size_dom, Hdom, size_list_to_set by done. apply length_fmap.
Qed.

Lemma IsEmpty_shape s cs : shape s cs -> IsEmpty s = match cs with [] => true | _ => false end.
Proof. intros Hs. unfold IsEmpty. rewrite (sh_num _ _ Hs). by destruct cs. Qed.

Lemma first_shape s cs : shape s cs -> first s = match cs with [] => None | (l, _) :: _ => Some l end.
Proof. intros Hs. pose proof (sh_chain _ _ Hs) as Hc. destruct cs as [|[l x] cs]; [done|]. by destruct Hc. Qed.

Lemma deref_Some h l e : h !! l = Some e -> deref h (Some l) = Ok e.
Proof. intros H. simpl. by rewrite H. Qed.

Lemma find_loop_ok n h p cs x :
  chain h p cs None -> (length cs <= n)%nat -> find_loop n h p x = Ok (bool_decide (x ∈ cs.*2)).
Proof.
  revert n p. induction cs as [|[l y] cs IH]; intros n p Hc Hn; simpl in *.
  - subst. by destruct n.
  - destruct Hc as (-> & nx & Hl & Hc). destruct n as [|n]; [lia|]. cbn [find_loop].
    rewrite (deref_Some _ _ _ Hl). cbn [bind item next]. destruct (decide (x = y)) as [->|Hx].
    + rewrite !bool_decide_eq_true_2; [done|by left|done].
    + rewrite bool_decide_eq_false_2, IH by (done || lia). f_equal. apply bool_decide_ext.
      rewrite elem_of_cons. naive_solver.
Qed.

Lemma IsInList_shape s cs x : shape s cs -> IsInList x s = Ok (bool_decide (x ∈ cs.*2)).
Proof.
  intros Hs. unfold IsInList. apply find_loop_ok; [by apply Hs|]. by rewrite (shape_size _ _ Hs).
Qed.

Lemma assert_in_shape b s cs x :
  shape s cs -> assert_in b x s = assert (Bool.eqb (bool_decide (x ∈ cs.*2)) b).
Proof. intros Hs. unfold assert_in. by rewrite (IsInList_shape _ _ _ Hs). Qed.

Lemma assert_in_true s cs x : shape s cs -> x ∈ cs.*2 -> assert_in true x s = Ok tt.
Proof. intros Hs Hx. rewrite (assert_in_shape _ _ _ _ Hs). by rewrite bool_decide_eq_true_2. Qed.
Lemma assert_in_false s cs x : shape s cs -> x ∉ cs.*2 -> assert_in false x s = Ok tt.
Proof. intros Hs Hx. rewrite (assert_in_shape _ _ _ _ Hs). by rewrite bool_decide_eq_false_2. Qed.

Lemma IsInList_repr s xs x : repr s xs -> IsInList x s = Ok (Seq.IsInList x xs).
Proof. intros (cs & Hs & <- & _). by apply IsInList_shape. Qed.

Lemma List_repr : repr List [].
Proof. exists []. split; [|split; [done|constructor]]. by split; try constructor. Qed.

Lemma fresh_not_in s cs : shape s cs -> fresh (dom (elements s)) ∉ cs.*1.
Proof.
  intros Hs. rewrite <- (elem_of_list_to_set (C:=gset loc)), <- (sh_dom _ _ Hs). apply is_fresh.
Qed.

(** ** Adding an element *)

Lemma shape_snoc s cs l x :
  shape s cs -> l ∉ cs.*1 ->
  exists h, (if IsEmpty s then Ok (mkList (<[l := mkElement x None]> (elements s)) (Some l) (Some l) (numInList s + 1))
        else h <- set_next (<[l := mkElement x None]> (elements s)) (last s) (Some l) ;;
             Ok (mkList h (first s) (Some l) (numInList s + 1))) =
    Ok (mkList h (match cs with [] => Some l | _ => first s end) (Some l) (numInList s + 1)) /\
  shape (mkList h (match cs with [] => Some l | _ => first s end) (Some l) (numInList s + 1)) (cs ++ [(l, x)]).
Proof.
  intros Hs Hl. pose proof Hs as [Hc Hla Hnum Hnd Hdom]. rewrite (IsEmpty_shape _ _ Hs).
  destruct (snoc_cases cs) as [-> | (cs0 & [k y] & ->)].
  - eexists. split; [done|]. split; simpl; try done.
    + split; [done|]. exists None. by rewrite lookup_insert_eq.
    + by rewrite Hnum.
    + apply NoDup_singleton.
    + rewrite dom_insert_L, Hdom. set_solver.
  - rewrite last_snoc in Hla. simpl in Hla. rewrite fmap_app in *. simpl in *.
    pose proof (chain_last_lookup _ _ _ _ _ _ Hc) as Hk.
    assert (Hne : k <> l) by set_solver.
    assert (Hkn : k ∉ cs0.*1) by (apply NoDup_app in Hnd as (_ & H & _); set_solver).
    exists (<[k := mkElement y (Some l)]> (<[l := mkElement x None]> (elements s))).
    split.
    + rewrite Hla. cbn [set_next]. rewrite lookup_insert_ne, Hk by done. cbn [bind item]. by destruct cs0.
    + destruct (cs0 ++ [(k, y)]) as [|c cs1] eqn:E; [by destruct cs0|]. rewrite <- E in *. clear E. split; simpl.
      * apply chain_app. exists (Some l). split.
        { eapply chain_relink; [done|]. apply chain_insert_fresh; [by rewrite fmap_app|done]. }
        split; [done|]. exists None. by rewrite lookup_insert_ne, lookup_insert_eq.
      * by rewrite last_snoc.
      * rewrite Hnum, !length_app. simpl. lia.
      * rewrite !fmap_app. simpl. apply NoDup_app. split; [done|]. split; [set_solver|apply NoDup_singleton].
      * rewrite !dom_insert_L, Hdom, !fmap_app, !list_to_set_app_L. simpl. set_solver.
Qed.
Lemma shape_repr s cs : shape s cs -> NoDup cs.*2 -> repr s cs.*2.
Proof. intros. by exists cs. Qed.

Lemma Append_repr s xs x : repr s xs -> implements (Append x s) (Seq.Append x xs).
Proof.
  intros (cs & Hs & <- & Hx). unfold Append, Seq.Append, Seq.IsInList, new_element.
  rewrite (assert_in_shape _ _ _ _ Hs). case_bool_decide as Hin; simpl; [done|].
  destruct (shape_snoc s cs _ x Hs (fresh_not_in s cs Hs)) as (h & -> & Hs'). cbn [bind].
  rewrite (assert_in_true _ _ _ Hs') by (rewrite fmap_app; set_solver). cbn [bind].
  eexists. split; [done|]. exists (cs ++ [(fresh (dom (elements s)), x)]).
  rewrite fmap_app. split_and!; [done..|]. apply NoDup_app.
  split; [done|]. split; [set_solver|apply NoDup_singleton].
Qed.

Lemma shape_cons s cs l x :
  shape s cs -> l ∉ cs.*1 ->
  shape (mkList (<[l := mkElement x (first s)]> (elements s)) (Some l)
           (match cs with [] => Some l | _ => last s end) (numInList s + 1)) ((l, x) :: cs).
Proof.
  intros Hs Hl. pose proof Hs as [Hc Hla Hnum Hnd Hdom]. split; simpl.
  - split; [done|]. exists (first s). rewrite lookup_insert_eq. split; [done|]. by apply chain_insert_fresh.
  - destruct cs as [|c cs]; [done|]. by rewrite Hla.
  - rewrite Hnum. lia.
  - by constructor.
  - rewrite dom_insert_L, Hdom. set_solver.
Qed.

Lemma insert_insert_same (h : store) l e e' : <[l := e]> (<[l := e']> h) = <[l := e]> h.
Proof. apply insert_insert_eq. Qed.

Lemma Prepend_repr s xs x : repr s xs -> implements (Prepend x s) (Seq.Prepend x xs).
Proof.
  intros (cs & Hs & <- & Hx). unfold Prepend, Seq.Prepend, Seq.IsInList, new_element.
  rewrite (assert_in_shape _ _ _ _ Hs). case_bool_decide as Hin; cbn [Bool.eqb assert negb bind implements]; [done|].
  pose proof (shape_cons s cs _ x Hs (fresh_not_in s cs Hs)) as Hs'.
  set (l := fresh _) in *. rewrite (IsEmpty_shape _ _ Hs).
  destruct cs as [|c cs].
  - cbn [bind]. rewrite (first_shape _ _ Hs) in Hs'.
    rewrite (assert_in_true _ _ _ Hs') by set_solver. cbn [bind].
    eexists. split; [done|]. exists [(l, x)]. split; [done|]. split; [done|apply NoDup_singleton].
  - unfold set_next. rewrite lookup_insert_eq. cbn [bind item]. rewrite insert_insert_same.
    rewrite (assert_in_true _ _ _ Hs') by set_solver. cbn [bind].
    eexists. split; [done|]. exists ((l, x) :: c :: cs). split; [done|]. split; [done|]. by constructor.
Qed.

(** ** Removing an element *)

Lemma RemoveFront_shape s l x cs :
  shape s ((l, x) :: cs) -> exists s', RemoveFront s = Ok (x, s') /\ shape s' cs.
Proof.
  intros Hs. pose proof Hs as [Hc Hla Hnum Hnd Hdom]. destruct Hc as (Hf & n & Hl & Hc).
  apply NoDup_cons in Hnd as [Hlc Hnd]. unfold RemoveFront. rewrite (IsEmpty_shape _ _ Hs). cbn [negb assert bind].
  rewrite Hf. rewrite (deref_Some _ _ _ Hl). cbn [bind item next].
  assert (Hdom' : dom (delete l (elements s)) = list_to_set cs.*1).
  { rewrite dom_delete_L, Hdom. simpl. set_solver. }
  eexists. split; [done|]. destruct (snoc_cases cs) as [-> | (cs0 & [k y] & ->)].
  - rewrite Hla. rewrite bool_decide_eq_true_2 by done. split; try done; simpl. by rewrite Hnum.
  - change ((l, x) :: cs0 ++ [(k, y)]) with (((l, x) :: cs0) ++ [(k, y)]) in Hla. rewrite last_snoc in Hla.
    rewrite Hla. rewrite bool_decide_eq_false_2.
    + split; try done; simpl.
      * by apply chain_delete.
      * by rewrite last_snoc.
      * rewrite Hnum. simpl. lia.
    + assert (Hlc' : l ∉ (cs0 ++ [(k, y)]).*1) by exact Hlc. rewrite fmap_app in Hlc'. simpl. intros [= ->]. set_solver.
Qed.

Lemma shape_nil_front s : shape s [] -> RemoveFront s = Fault AssertFailed.
Proof. intros Hs. unfold RemoveFront. by rewrite (IsEmpty_shape _ _ Hs). Qed.

Lemma RemoveFront_repr s xs :
  repr s xs ->
  match Seq.RemoveFront xs with
  | Ok (x, xs') => exists s', RemoveFront s = Ok (x, s') /\ repr s' xs'
  | Fault f => RemoveFront s = Fault f
  end.
Proof.
  intros (cs & Hs & <- & Hx). destruct cs as [|[l x] cs]; simpl.
  - by apply shape_nil_front.
  - destruct (RemoveFront_shape _ _ _ _ Hs) as (s' & -> & Hs'). exists s'. split; [done|].
    exists cs. apply NoDup_cons in Hx as [_ Hx]. done.
Qed.

(** The loop reaches the item and unlinks it. *)
Lemma remove_loop_ok n s cs1 k y cs2 ptr x :
  shape s (cs1 ++ (k, y) :: cs2) -> (length cs2 <= n)%nat ->
  chain (elements s) ptr cs2 None -> x ∈ cs2.*2 ->
  exists s' ca l cb, cs2 = ca ++ (l, x) :: cb /\ x ∉ ca.*2 /\
    remove_loop n s (Some k) ptr x = Ok (Some s') /\ shape s' (cs1 ++ (k, y) :: ca ++ cb).
Proof.
  revert cs1 k y ptr n. induction cs2 as [|[l z] cs2 IH]; intros cs1 k y ptr n Hs Hn Hp Hx; [by apply elem_of_nil in Hx|].
  destruct Hp as (-> & nx & Hl & Hp). simpl in Hn. destruct n as [|n]; [lia|]. cbn [remove_loop].
  rewrite (deref_Some _ _ _ Hl). cbn [bind item next]. case_bool_decide as Hz.
  - subst z. clear IH. pose proof Hs as [Hc Hla Hnum Hnd Hdom].
    assert (Hks : elements s !! k = Some (mkElement y (Some l))).
    { clear - Hc. apply chain_app in Hc as (r & _ & -> & m & Hm & Hr). simpl in Hr. destruct Hr as [-> _]. done. }
    rewrite !fmap_app in Hnd. simpl in Hnd.
    assert (Hnd' : NoDup (cs1.*1 ++ k :: cs2.*1) /\ l ∉ cs1.*1 /\ l <> k /\ l ∉ cs2.*1 /\ k ∉ cs1.*1).
    { by apply NoDup_drop. }
    destruct Hnd' as (Hnd' & Hl1 & Hlk & Hl2 & Hk1).
    eexists _, [], l, cs2. split; [done|]. split; [by apply not_elem_of_nil|].
    unfold set_next. rewrite Hks. cbn [bind item]. split; [done|]. simpl.
    split; simpl.
    + apply chain_delete; [rewrite fmap_app; set_solver|].
      change (cs1 ++ (k, y) :: cs2) with (cs1 ++ [(k, y)] ++ cs2). rewrite app_assoc. apply chain_app.
      exists nx. split.
      * rewrite (cons_middle _ cs1), app_assoc in Hc. apply chain_app in Hc as (r & Hc & _).
        by eapply chain_relink.
      * apply chain_insert_fresh; [|done]. apply NoDup_app in Hnd' as (_ & _ & H). by apply NoDup_cons in H as [H _].
    + destruct cs2 as [|[l' z'] cs2].
      * simpl in Hp. subst nx. by rewrite last_snoc.
      * destruct Hp as [-> _]. rewrite Hla, !last_app. done.
    + rewrite Hnum, !length_app. simpl. lia.
    + by rewrite fmap_app.
    + rewrite dom_delete_L, dom_insert_L, Hdom, !fmap_app, !list_to_set_app_L. simpl. set_solver.
  - destruct (IH (cs1 ++ [(k, y)]) l z nx n) as (s' & ca & l' & cb & -> & Hca & Heq & Hs'); [|lia|done|set_solver|].
    { by rewrite <- app_assoc. }
    exists s', ((l, z) :: ca), l', cb. split; [done|]. split; [set_solver|]. split; [done|].
    by rewrite <- app_assoc in Hs'.
Qed.

Lemma filter_unique (ca cb : list A) x : x ∉ ca -> x ∉ cb -> filter (fun y => y <> x) (ca ++ x :: cb) = ca ++ cb.
Proof.
  intros Ha Hb. rewrite filter_app, filter_cons_False by tauto.
  rewrite !lfilter_all; [done|..]; intros z Hz ->; done.
Qed.

Lemma Remove_repr s xs x : repr s xs -> implements (Remove x s) (Seq.Remove x xs).
Proof.
  intros (cs & Hs & <- & Hx). unfold Remove, Seq.Remove, Seq.IsInList.
  rewrite (assert_in_shape _ _ _ _ Hs). case_bool_decide as Hin; cbn [Bool.eqb assert bind implements]; [|done].
  destruct cs as [|[l y] cs]; [by apply elem_of_nil in Hin|].
  pose proof (sh_chain _ _ Hs) as (Hf & n & Hl & Hc). rewrite Hf. rewrite (deref_Some _ _ _ Hl). cbn [bind item next].
  change (((l, y) :: cs).*2) with (y :: cs.*2) in *. apply NoDup_cons in Hx as [Hy Hx]. case_bool_decide as Hxy.
  - subst y. destruct (RemoveFront_shape _ _ _ _ Hs) as (s' & -> & Hs'). cbn [bind].
    rewrite bool_decide_eq_true_2 by done. cbn [assert bind].
    rewrite (assert_in_false _ _ _ Hs') by done. cbn [bind]. exists s'. split; [done|].
    rewrite filter_cons_False by tauto. rewrite lfilter_all by (intros z Hz ->; done). by exists cs.
  - destruct (remove_loop_ok (size (elements s)) s [] l y cs n x) as (s' & ca & l' & cb & -> & Hca & Heq & Hs');
      [done|rewrite (shape_size _ _ Hs); simpl; lia|done|set_solver|].
    rewrite Heq. cbn [bind]. rewrite fmap_app in *. change (((l', x) :: cb).*2) with (x :: cb.*2) in *.
    apply NoDup_app in Hx as (Ha & Hab & Hb). apply NoDup_cons in Hb as [Hxb Hb].
    rewrite (assert_in_false _ _ _ Hs') by (simpl; rewrite fmap_app; set_solver). cbn [bind].
    exists s'. split; [done|]. rewrite filter_cons_True by congruence. rewrite filter_unique by done.
    exists ((l, y) :: ca ++ cb). split; [done|]. simpl. rewrite fmap_app. split; [done|].
    constructor; [set_solver|]. apply NoDup_app. set_solver.
Qed.

(** ** Sorted insertion *)

Definition head_loc (cs : list (loc * A)) : option loc := match cs with [] => None | (l, _) :: _ => Some l end.

Lemma chain_head h p cs : chain h p cs None -> p = head_loc cs.
Proof. destruct cs as [|[l x] cs]; [done|]. by intros [-> _]. Qed.

Lemma chain_next h p cs1 k y cs2 :
  chain h p (cs1 ++ (k, y) :: cs2) None ->
  h !! k = Some (mkElement y (head_loc cs2)) /\ chain h (head_loc cs2) cs2 None.
Proof.
  rewrite chain_app. intros (r & _ & -> & n & Hn & Hc). pose proof (chain_head _ _ _ Hc) as ->. done.
Qed.

Lemma shape_link s cs1 k y cs2 el x :
  shape s (cs1 ++ (k, y) :: cs2) -> el ∉ (cs1 ++ (k, y) :: cs2).*1 ->
  shape (mkList (<[k := mkElement y (Some el)]> (<[el := mkElement x (head_loc cs2)]> (elements s)))
           (first s) (match cs2 with [] => Some el | _ => last s end) (numInList s + 1))
        (cs1 ++ (k, y) :: (el, x) :: cs2).
Proof.
  intros [Hc Hla Hnum Hnd Hdom] Hel. pose proof (chain_next _ _ _ _ _ _ Hc) as [Hk Hc2].
  rewrite fmap_app in *. change (((k, y) :: cs2).*1) with (k :: cs2.*1) in *.
  assert (Hek : el <> k) by set_solver.
  assert (Hd : k ∉ cs1.*1 /\ k ∉ cs2.*1).
  { apply NoDup_app in Hnd as (_ & H1 & H2). apply NoDup_cons in H2 as [H2 _]. set_solver. }
  split; cbn [elements first last numInList].
  - rewrite (cons_middle _ cs1), app_assoc in Hc |- *. apply chain_app in Hc as (r & Hc & _).
    apply chain_app. exists (Some el). split.
    + eapply chain_relink; [apply Hd|]. apply chain_insert_fresh; [|exact Hc].
      rewrite fmap_app. set_solver.
    + split; [done|]. exists (head_loc cs2). rewrite lookup_insert_ne, lookup_insert_eq by done. split; [done|].
      apply chain_insert_fresh; [apply Hd|]. apply chain_insert_fresh; [set_solver|done].
  - rewrite last_app_cons in *. destruct cs2 as [|c cs2]; [done|]. rewrite Hla. done.
  - rewrite Hnum, !length_app. simpl. lia.
  - rewrite fmap_app. change (((k, y) :: (el, x) :: cs2).*1) with (k :: el :: cs2.*1).
    by apply NoDup_insert_after.
  - rewrite !dom_insert_L, Hdom, !fmap_app, !list_to_set_app_L. simpl. set_solver.
Qed.

Section insert.
Context (compare : A -> A -> Z).

Lemma insert_loop_ok n s el x cs1 k y cs2 :
  shape s (cs1 ++ (k, y) :: cs2) -> el ∉ (cs1 ++ (k, y) :: cs2).*1 -> (length cs2 < n)%nat ->
  exists s' cs', insert_loop compare n s (<[el := mkElement x None]> (elements s)) el (Some k) x = Ok s' /\
    shape s' (cs1 ++ (k, y) :: cs') /\ cs'.*2 = Seq.place compare x cs2.*2.
Proof.
  revert cs1 k y cs2. induction n as [|n IH]; intros cs1 k y cs2 Hs Hel Hn; [lia|].
  pose proof (chain_next _ _ _ _ _ _ (sh_chain _ _ Hs)) as [Hk Hc2].
  assert (Hek : el <> k) by (rewrite fmap_app in Hel; set_solver).
  pose proof (shape_link s cs1 k y cs2 el x Hs Hel) as Hlink.
  cbn [insert_loop]. rewrite (deref_Some _ k (mkElement y (head_loc cs2))) by by rewrite lookup_insert_ne.
  cbn [bind next item]. destruct cs2 as [|[l z] cs2]; cbn [head_loc].
  - rewrite (sh_last _ _ Hs), last_snoc. cbn [fmap option_fmap option_map fst set_next].
    rewrite lookup_insert_ne, Hk by done. cbn [bind item head_loc] in *.
    rewrite (assert_in_true _ _ _ Hlink) by (rewrite fmap_app; set_solver). cbn [bind].
    by exists (mkList (<[k:=mkElement y (Some el)]> (<[el:=mkElement x None]> (elements s)))
      (first s) (Some el) (numInList s + 1)), [(el, x)].
  - pose proof Hc2 as (_ & nx & Hl & _).
    assert (Hel' : el <> l) by (rewrite fmap_app in Hel; set_solver).
    rewrite (deref_Some _ l (mkElement z nx)) by by rewrite lookup_insert_ne. cbn [bind item].
    change (Seq.place compare x (((l, z) :: cs2).*2)) with (if bool_decide (compare x z < 0) then x :: z :: cs2.*2 else z :: Seq.place compare x cs2.*2).
    case_bool_decide as Hz.
    + cbn [set_next]. rewrite lookup_insert_eq. cbn [item bind]. rewrite insert_insert_same.
      rewrite lookup_insert_ne, Hk by done. cbn [bind item]. eexists _, ((el, x) :: (l, z) :: cs2). done.
    + rewrite (cons_middle _ cs1), app_assoc in Hs, Hel.
      destruct (IH (cs1 ++ [(k, y)]) l z cs2 Hs Hel) as (s' & cs' & Heq & Hs' & Hp); [simpl in Hn; lia|].
      exists s', ((l, z) :: cs'). rewrite Heq. split; [done|]. rewrite (cons_middle _ cs1), app_assoc.
      split; [done|]. rewrite <- Hp. done.
Qed.

Lemma elem_of_place x xs z : z ∈ Seq.place compare x xs <-> z = x \/ z ∈ xs.
Proof.
  induction xs as [|y xs IH]; simpl; [rewrite elem_of_cons; done|].
  case_bool_decide; rewrite !elem_of_cons, ?IH; tauto.
Qed.

Lemma place_perm x xs : Seq.place compare x xs ≡ₚ x :: xs.
Proof.
  induction xs as [|y xs IH]; simpl; [done|]. case_bool_decide; [done|]. rewrite IH. constructor.
Qed.

Lemma Insert_repr s xs x : repr s xs -> implements (Insert compare x s) (Seq.Insert compare x xs).
Proof.
  intros (cs & Hs & <- & Hx). unfold Insert, Seq.Insert, Seq.IsInList, new_element.
  rewrite (assert_in_shape _ _ _ _ Hs). case_bool_decide as Hin; cbn [Bool.eqb assert negb bind implements]; [done|].
  pose proof (fresh_not_in s cs Hs) as Hf. set (l := fresh _) in *. rewrite (IsEmpty_shape _ _ Hs).
  assert (Hnd : NoDup (Seq.place compare x cs.*2)) by (rewrite place_perm; by constructor).
  pose proof (shape_cons s cs l x Hs Hf) as Hfront. destruct cs as [|[k y] cs].
  - rewrite (first_shape _ _ Hs) in Hfront.
    rewrite (assert_in_true _ _ _ Hfront) by set_solver. cbn [bind].
    eexists. split; [done|]. by exists [(l, x)].
  - pose proof (chain_next _ _ [] _ _ _ (sh_chain _ _ Hs)) as [Hk _].
    assert (Hlk : l <> k) by set_solver.
    change (Seq.place compare x (((k, y) :: cs).*2)) with (if bool_decide (compare x y < 0) then x :: y :: cs.*2 else y :: Seq.place compare x cs.*2) in *.
    rewrite (first_shape _ _ Hs) in Hfront |- *.
    rewrite (deref_Some _ k (mkElement y (head_loc cs))) by by rewrite lookup_insert_ne. cbn [bind item].
    case_bool_decide as Hy.
    + cbn [set_next]. rewrite lookup_insert_eq. cbn [item bind]. rewrite insert_insert_same.
      rewrite (assert_in_true _ _ _ Hfront) by set_solver. cbn [bind].
      eexists. split; [done|]. by exists ((l, x) :: (k, y) :: cs).
    + destruct (insert_loop_ok (size (<[l:=mkElement x None]> (elements s))) s l x [] k y cs Hs Hf) as (s' & cs' & Heq & Hs' & Hp).
      { rewrite map_size_insert_None, (shape_size _ _ Hs); [simpl; lia|].
        apply not_elem_of_dom. apply is_fresh. }
      rewrite Heq. exists s'. split; [done|]. exists ((k, y) :: cs'). split; [done|].
      split; [|done]. by rewrite <- Hp.
Qed.
End insert.

(** ** Traversals and checks *)

Lemma apply_loop_ok {S} n h p cs (func : A -> S -> result S) st :
  chain h p cs None -> (length cs <= n)%nat ->
  apply_loop n h p func st = foldl (fun r x => st <- r ;; func x st) (Ok st) cs.*2.
Proof.
  revert n p st. induction cs as [|[l x] cs IH]; intros n p st Hc Hn.
  - simpl in Hc. subst. by destruct n.
  - destruct Hc as (-> & nx & Hl & Hc). simpl in Hn. destruct n as [|n]; [lia|]. cbn [apply_loop].
    rewrite (deref_Some _ _ _ Hl). cbn [bind item next fmap list_fmap foldl fst snd].
    change (snd (l, x)) with x. cbn [bind]. destruct (func x st) as [st'|f]; cbn [bind].
    + by apply (IH _ _ _ Hc); lia.
    + clear. by induction cs as [|[??] cs IH].
Qed.

Lemma count_loop_ok n h p cs k y q found num :
  chain h p (cs ++ [(k, y)]) q -> k ∉ cs.*1 -> (length cs <= n)%nat ->
  found + Z.of_nat (length cs) <= num ->
  count_loop n h p (Some k) found num = Ok (found + Z.of_nat (length cs)).
Proof.
  revert n p found. induction cs as [|[l x] cs IH]; intros n p found Hc Hk Hn Hle.
  - destruct Hc as [-> _]. assert (found + Z.of_nat (length (@nil (loc * A))) = found) as -> by (simpl; lia).
    destruct n; cbn [count_loop]; by rewrite bool_decide_eq_true_2.
  - destruct Hc as (-> & nx & Hl & Hc). simpl in Hn. destruct n as [|n]; [lia|]. cbn [count_loop].
    change (((l, x) :: cs).*1) with (l :: cs.*1) in Hk. apply not_elem_of_cons in Hk as [Hkl Hk].
    rewrite bool_decide_eq_false_2 by congruence. simpl in Hle.
    rewrite bool_decide_eq_true_2 by lia. cbn [assert bind]. rewrite (deref_Some _ _ _ Hl). cbn [bind next].
    rewrite (IH n nx (found + 1)) by (done || lia). f_equal. simpl. lia.
Qed.

Lemma first_last_eq s c cs : shape s (c :: cs) -> first s = last s -> cs = [].
Proof.
  intros Hs He. rewrite (first_shape _ _ Hs), (sh_last _ _ Hs) in He. pose proof (sh_locs _ _ Hs) as Hnd.
  destruct (snoc_cases cs) as [-> | (cs0 & [k y] & ->)]; [done|]. exfalso. destruct c as [l x].
  rewrite (last_snoc (k, y) ((l, x) :: cs0) : last_of ((l, x) :: cs0 ++ [(k, y)]) = _) in He.
  injection He as ->. apply NoDup_cons in Hnd as [Hn _]. apply Hn.
  change (k ∈ (cs0 ++ [(k, y)]).*1). rewrite fmap_app. apply elem_of_app. right. by left.
Qed.

Lemma SanityCheck_shape s cs : shape s cs -> SanityCheck s = Ok tt.
Proof.
  intros Hs. unfold SanityCheck. rewrite (sh_num _ _ Hs). pose proof (first_shape _ _ Hs) as Hf.
  destruct cs as [|[l x] cs]; rewrite Hf; [by rewrite (sh_last _ _ Hs)|].
  case_bool_decide as He.
  - rewrite <- Hf in He. pose proof (first_last_eq _ _ _ Hs He) as ->.
    rewrite (sh_last _ _ Hs). pose proof (sh_chain _ _ Hs) as (_ & nx & Hl & Hn). simpl in Hn. subst nx.
    cbn [fmap option_fmap option_map last_of fst]. by rewrite (deref_Some _ _ _ Hl).
  - destruct (snoc_cases ((l, x) :: cs)) as [?|(cs0 & [k y] & E)]; [done|]. rewrite E in *.
    pose proof Hs as [Hc Hla Hnum Hnd Hdom]. rewrite last_snoc in Hla. rewrite Hla, <- Hf. cbn [fmap option_fmap option_map fst].
    assert (Hk : k ∉ cs0.*1).
    { rewrite fmap_app in Hnd. apply NoDup_app in Hnd as (_ & H & _). intros Hin. apply (H k Hin). by left. }
    rewrite (count_loop_ok _ _ _ cs0 k y None) by
      (done || rewrite ?(shape_size _ _ Hs), ?length_app; simpl; lia).
    rewrite (deref_Some _ _ _ (chain_last_lookup _ _ _ _ _ _ Hc)). cbn [bind next].
    rewrite (proj2 (Z.eqb_eq _ _)); [by rewrite bool_decide_eq_true_2|]. rewrite length_app. simpl. lia.
Qed.

Section sortedness.
Context (compare : A -> A -> Z).
Hypothesis compare_flip : forall x y, 0 <= compare x y -> compare y x <= 0.
Hypothesis compare_trans : forall x y z, compare x y <= 0 -> compare y z <= 0 -> compare x z <= 0.

Lemma place_sorted x xs : Seq.sorted compare xs -> Seq.sorted compare (Seq.place compare x xs).
Proof using compare_flip compare_trans.
  induction 1 as [|y xs Hs IH Hall]; simpl; [repeat constructor|].
  case_bool_decide as Hy.
  - constructor; [by constructor|]. constructor; [lia|].
    eapply Forall_impl; [exact Hall|]. intros z Hz. apply (compare_trans x y z); [lia|done].
  - constructor; [done|]. apply Forall_forall. intros z [-> | Hz]%elem_of_place.
    + apply compare_flip. lia.
    + by apply (proj1 (Forall_forall _ _) Hall).
Qed.

Lemma sorted_loop_ok n h k y cs p :
  h !! k = Some (mkElement y p) -> chain h p cs None -> (length cs <= n)%nat ->
  Seq.sorted compare (y :: cs.*2) -> sorted_loop compare n h (Some k) p = Ok tt.
Proof using Type.
  revert n k y p. induction cs as [|[l x] cs IH]; intros n k y p Hk Hc Hn Hs.
  - simpl in Hc. subst. by destruct n.
  - destruct Hc as (-> & nx & Hl & Hc). simpl in Hn. destruct n as [|n]; [lia|]. cbn [sorted_loop].
    rewrite (deref_Some _ _ _ Hk), (deref_Some _ _ _ Hl). cbn [bind item next].
    inversion Hs as [|? ? Hs' Hall]; subst. inversion Hall; subst.
    rewrite bool_decide_eq_true_2 by done. cbn [assert bind]. by apply (IH n l x nx); [..|lia|].
Qed.

Lemma SortedSanityCheck_repr s xs : repr s xs -> Seq.sorted compare xs -> SortedSanityCheck compare s = Ok tt.
Proof using Type.
  intros (cs & Hs & <- & _) Hxs. unfold SortedSanityCheck. rewrite (SanityCheck_shape _ _ Hs). cbn [bind].
  case_bool_decide as He; [done|]. destruct cs as [|[l x] cs].
  { exfalso. apply He. by rewrite (first_shape _ _ Hs), (sh_last _ _ Hs). }
  pose proof (chain_next _ _ [] _ _ _ (sh_chain _ _ Hs)) as [Hl Hc].
  rewrite (first_shape _ _ Hs), (deref_Some _ _ _ Hl). cbn [bind next].
  eapply sorted_loop_ok; [exact Hl|exact Hc| |done]. rewrite (shape_size _ _ Hs). simpl. lia.
Qed.

Lemma in_order_ok q : Seq.sorted compare q -> in_order compare q = Ok tt.
Proof using Type.
  induction 1 as [|x q Hs IH Hall]; [done|]. cbn [in_order]. destruct q as [|y q]; [done|].
  inversion Hall; subst. by rewrite bool_decide_eq_true_2.
Qed.
End sortedness.

(** ** SelfTest *)

Lemma repr_NoDup s xs : repr s xs -> NoDup xs.
Proof. by intros (cs & _ & <- & H). Qed.
Lemma repr_IsEmpty s xs : repr s xs -> IsEmpty s = bool_decide (xs = []).
Proof. intros (cs & Hs & <- & _). rewrite (IsEmpty_shape _ _ Hs). by destruct cs. Qed.
Lemma repr_first s : repr s [] -> first s = None.
Proof. intros (cs & Hs & Hx & _). rewrite (first_shape _ _ Hs). by destruct cs as [|[??]?]. Qed.
Lemma repr_assert_in b s xs x : repr s xs -> assert_in b x s = assert (Bool.eqb (bool_decide (x ∈ xs)) b).
Proof. intros (cs & Hs & <- & _). by apply assert_in_shape. Qed.
Lemma repr_SanityCheck s xs : repr s xs -> SanityCheck s = Ok tt.
Proof. intros (cs & Hs & _). by eapply SanityCheck_shape. Qed.

Lemma Remove_all_repr s xs p :
  repr s xs -> xs ≡ₚ p -> exists s', remove_all p s = Ok s' /\ repr s' [].
Proof.
  revert s xs. induction p as [|x p IH]; intros s xs Hs Hp; cbn [remove_all].
  - apply Permutation_nil_r in Hp as ->. by exists s.
  - pose proof (Remove_repr s xs x Hs) as Hrem. unfold Seq.Remove, Seq.IsInList in Hrem.
    rewrite bool_decide_eq_true_2 in Hrem by (rewrite Hp; left).
    cbn [assert bind implements] in Hrem. destruct Hrem as (s' & -> & Hs'). cbn [bind].
    rewrite (repr_assert_in _ _ _ _ Hs'), bool_decide_eq_false_2 by (rewrite list_elem_of_filter; naive_solver).
    cbn [Bool.eqb assert bind]. apply (IH _ _ Hs'). rewrite Hp.
    pose proof (repr_NoDup _ _ Hs) as Hnd. rewrite Hp in Hnd. apply NoDup_cons in Hnd as [Hx _].
    rewrite filter_cons_False by tauto. rewrite lfilter_all; [done|]. by intros z Hz ->.
Qed.

Section selftest_ok.
Context (append : A -> t -> result t) (sanity : t -> result unit) (I : list A -> Prop).
Hypothesis I_nil : I [].
Hypothesis append_ok : forall s xs x, repr s xs -> I xs -> x ∉ xs ->
  exists s' xs', append x s = Ok s' /\ repr s' xs' /\ I xs' /\ xs' ≡ₚ x :: xs.
Hypothesis sanity_ok : forall s xs, repr s xs -> I xs -> sanity s = Ok tt.

Lemma put_all_repr p s xs :
  repr s xs -> I xs -> NoDup (p ++ xs) ->
  exists s' xs', put_all append p s = Ok s' /\ repr s' xs' /\ I xs' /\ xs' ≡ₚ p ++ xs.
Proof using append_ok.
  revert s xs. induction p as [|x p IH]; intros s xs Hs Hi Hnd; cbn [put_all].
  - by exists s, xs.
  - simpl in Hnd. apply NoDup_cons in Hnd as [Hx Hnd]. apply not_elem_of_app in Hx as [Hxp Hx].
    destruct (append_ok s xs x Hs Hi Hx) as (s1 & xs1 & -> & Hs1 & Hi1 & Hp1). cbn [bind].
    rewrite (repr_assert_in _ _ _ _ Hs1), bool_decide_eq_true_2 by (rewrite Hp1; left). cbn [Bool.eqb assert bind].
    rewrite (repr_IsEmpty _ _ Hs1), bool_decide_eq_false_2.
    2:{ intros ->. by apply Permutation_nil_cons in Hp1. }
    cbn [negb assert bind]. destruct (IH s1 xs1 Hs1 Hi1) as (s2 & xs2 & -> & Hs2 & Hi2 & Hp2).
    + rewrite Hp1. rewrite <- Permutation_middle. constructor; [|done]. by rewrite not_elem_of_app.
    + exists s2, xs2. split_and!; try done. rewrite Hp2, Hp1. by rewrite <- Permutation_middle.
Qed.

Lemma SelfTest_repr p s :
  repr s [] -> NoDup p -> exists s', SelfTest append sanity p s = Ok s' /\ repr s' [].
Proof using append_ok sanity_ok I_nil.
  intros Hs Hp. unfold SelfTest. rewrite (sanity_ok _ _ Hs I_nil). cbn [bind].
  rewrite (repr_IsEmpty _ _ Hs), (repr_first _ Hs). unfold ListIterator, IsDone. rewrite (repr_first _ Hs).
  rewrite !bool_decide_eq_true_2 by done. cbn [andb assert bind].
  destruct (put_all_repr p s [] Hs I_nil) as (s1 & xs1 & -> & Hs1 & Hi1 & Hp1); [by rewrite app_nil_r|].
  cbn [bind]. rewrite (sanity_ok _ _ Hs1 Hi1). cbn [bind]. rewrite app_nil_r in Hp1.
  destruct (Remove_all_repr s1 xs1 p Hs1 Hp1) as (s2 & -> & Hs2). cbn [bind].
  rewrite (repr_IsEmpty _ _ Hs2), bool_decide_eq_true_2 by done. cbn [assert bind].
  rewrite (sanity_ok _ _ Hs2 I_nil). cbn [bind]. by exists s2.
Qed.
End selftest_ok.

Lemma drain_repr s xs : repr s xs -> exists s', drain (length xs) s = Ok (xs, s') /\ repr s' [].
Proof.
  revert s. induction xs as [|x xs IH]; intros s Hs; cbn [drain length]; [by exists s|].
  destruct (RemoveFront_repr _ _ Hs) as (s1 & -> & Hs1). cbn [bind].
  pose proof (repr_NoDup _ _ Hs) as [Hx _]%NoDup_cons.
  rewrite (repr_assert_in _ _ _ _ Hs1), bool_decide_eq_false_2 by done. cbn [Bool.eqb assert bind].
  destruct (IH s1 Hs1) as (s2 & -> & Hs2). cbn [bind]. by exists s2.
Qed.

Lemma Front_repr s xs : repr s xs -> Front s = Seq.Front xs.
Proof.
  intros (cs & Hs & <- & _). unfold Front. rewrite (first_shape _ _ Hs).
  destruct cs as [|[l x] cs]; [done|]. destruct (sh_chain _ _ Hs) as (_ & n & Hl & _).
  by rewrite (deref_Some _ _ _ Hl).
Qed.

Lemma Append_selftest s xs x : repr s xs -> True -> x ∉ xs ->
  exists s' xs', Append x s = Ok s' /\ repr s' xs' /\ True /\ xs' ≡ₚ x :: xs.
Proof.
  intros Hs _ Hx. pose proof (Append_repr s xs x Hs) as H. unfold Seq.Append, Seq.IsInList in H.
  rewrite bool_decide_eq_false_2 in H by done. destruct H as (s' & -> & Hs').
  exists s', (xs ++ [x]). split_and!; try done. by rewrite Permutation_app_comm.
Qed.

Section insert_ok.
Context (compare : A -> A -> Z).
Hypothesis compare_flip : forall x y, 0 <= compare x y -> compare y x <= 0.
Hypothesis compare_trans : forall x y z, compare x y <= 0 -> compare y z <= 0 -> compare x z <= 0.

Lemma Insert_selftest s xs x : repr s xs -> Seq.sorted compare xs -> x ∉ xs ->
  exists s' xs', Insert compare x s = Ok s' /\ repr s' xs' /\ Seq.sorted compare xs' /\ xs' ≡ₚ x :: xs.
Proof using compare_flip compare_trans.
  intros Hs Hi Hx. pose proof (Insert_repr compare s xs x Hs) as H. unfold Seq.Insert, Seq.IsInList in H.
  rewrite bool_decide_eq_false_2 in H by done. destruct H as (s' & -> & Hs').
  exists s', (Seq.place compare x xs). split_and!; [done|done|by apply place_sorted|apply place_perm].
Qed.

Lemma insert_all_repr p s xs :
  repr s xs -> Seq.sorted compare xs -> NoDup (p ++ xs) ->
  exists s' xs', insert_all compare p s = Ok s' /\ repr s' xs' /\ Seq.sorted compare xs' /\ xs' ≡ₚ p ++ xs.
Proof using compare_flip compare_trans.
  revert s xs. induction p as [|x p IH]; intros s xs Hs Hi Hnd; cbn [insert_all]; [by exists s, xs|].
  simpl in Hnd. apply NoDup_cons in Hnd as [Hx Hnd]. apply not_elem_of_app in Hx as [Hxp Hx].
  destruct (Insert_selftest s xs x Hs Hi Hx) as (s1 & xs1 & -> & Hs1 & Hi1 & Hp1). cbn [bind].
  rewrite (repr_assert_in _ _ _ _ Hs1), bool_decide_eq_true_2 by (rewrite Hp1; left). cbn [Bool.eqb assert bind].
  destruct (IH s1 xs1 Hs1 Hi1) as (s2 & xs2 & -> & Hs2 & Hi2 & Hp2).
  - rewrite Hp1. rewrite <- Permutation_middle. constructor; [|done]. by rewrite not_elem_of_app.
  - exists s2, xs2. split_and!; try done. rewrite Hp2, Hp1. by rewrite <- Permutation_middle.
Qed.
End insert_ok.

Lemma place_split compare (x : A) xs : exists before after,
  Seq.place compare x xs = before ++ x :: after /\ xs = before ++ after /\
  Forall (fun y => 0 <= compare x y) before /\
  match after with y :: _ => compare x y < 0 | [] => True end.
Proof.
  induction xs as [|y xs (b & a & Hp & -> & Hb & Ha)]; simpl; [by exists [], []|].
  case_bool_decide as Hy; [by exists [], (y :: b ++ a)|].
  exists (y :: b), a. rewrite Hp. split_and!; try done. constructor; [lia|done].
Qed.

(** ** Properties *)

(** C26: a linked list implements a duplicate-free sequence: from any list object
    that represents [xs], each operation has the outcome of the sequence
    operation (the same result, or the same failed assertion), its result
    represents the resulting sequence, and the sanity check passes. *)
Theorem LinkedList_implements_Seq compare s xs x :
  repr s xs ->
  implements (Append x s) (Seq.Append x xs) /\
  implements (Prepend x s) (Seq.Prepend x xs) /\
  implements (Remove x s) (Seq.Remove x xs) /\
  implements (Insert compare x s) (Seq.Insert compare x xs) /\
  match Seq.RemoveFront xs with
  | Ok (y, ys) => exists s', RemoveFront s = Ok (y, s') /\ repr s' ys
  | Fault f => RemoveFront s = Fault f
  end /\
  IsInList x s = Ok (Seq.IsInList x xs) /\ Front s = Seq.Front xs /\
  IsEmpty s = bool_decide (xs = []) /\ SanityCheck s = Ok tt.
Proof.
  intros Hs. split_and!; [by apply Append_repr|by apply Prepend_repr|by apply Remove_repr|by apply Insert_repr
    |by apply RemoveFront_repr|by apply IsInList_repr|by apply Front_repr|by apply repr_IsEmpty|by eapply repr_SanityCheck].
Qed.

(** [SortedList::Insert] keeps a sorted list sorted, adds exactly the new
    item, and puts it after every item it does not precede (so that equal items
    come out first in, first out). *)
Theorem Insert_sorted compare s xs x :
  (forall x y, 0 <= compare x y -> compare y x <= 0) ->
  (forall x y z, compare x y <= 0 -> compare y z <= 0 -> compare x z <= 0) ->
  repr s xs -> Seq.sorted compare xs -> x ∉ xs ->
  exists s' before after, Insert compare x s = Ok s' /\ repr s' (before ++ x :: after) /\
    xs = before ++ after /\ Seq.sorted compare (before ++ x :: after) /\
    Forall (fun y => 0 <= compare x y) before /\
    match after with y :: _ => compare x y < 0 | [] => True end.
Proof.
  intros Hf Ht Hs Hi Hx. pose proof (Insert_repr compare s xs x Hs) as H. unfold Seq.Insert, Seq.IsInList in H.
  rewrite bool_decide_eq_false_2 in H by done. destruct H as (s' & -> & Hs').
  destruct (place_split compare x xs) as (b & a & Hp & Hxs & Hb & Ha).
  exists s', b, a. rewrite <- Hp. split_and!; try done. by apply place_sorted.
Qed.

(** the self tests of both list classes pass, for any duplicate-free test
    data, and leave the list empty. *)
Theorem SelfTests_pass compare p s :
  (forall x y, 0 <= compare x y -> compare y x <= 0) ->
  (forall x y z, compare x y <= 0 -> compare y z <= 0 -> compare x z <= 0) ->
  NoDup p -> repr s [] ->
  (exists s', SelfTest Append SanityCheck p s = Ok s' /\ repr s' []) /\
  (exists s', SortedSelfTest compare p s = Ok s' /\ repr s' []).
Proof.
  intros Hf Ht Hp Hs. split.
  - apply (SelfTest_repr _ _ (fun _ => True)); try done; [apply Append_selftest|].
    intros ? ? H _. by eapply repr_SanityCheck.
  - unfold SortedSelfTest.
    destruct (SelfTest_repr (Insert compare) (SortedSanityCheck compare) (Seq.sorted compare) ltac:(constructor)
      ltac:(by apply Insert_selftest) ltac:(intros; by eapply SortedSanityCheck_repr) p s Hs Hp) as (s1 & -> & Hs1).
    cbn [bind]. destruct (insert_all_repr compare Hf Ht p s1 []) as (s2 & xs2 & -> & Hs2 & Hi2 & Hp2);
      [done|constructor|by rewrite app_nil_r|]. cbn [bind]. rewrite (SortedSanityCheck_repr _ _ _ Hs2 Hi2). cbn [bind].
    rewrite app_nil_r in Hp2. rewrite <- (Permutation_length Hp2).
    destruct (drain_repr _ _ Hs2) as (s3 & -> & Hs3). cbn [bind]. rewrite (repr_IsEmpty _ _ Hs3), bool_decide_eq_true_2 by done.
    cbn [assert bind]. rewrite (in_order_ok _ _ Hi2). cbn [bind].
    rewrite (SortedSanityCheck_repr compare _ [] Hs3) by constructor. cbn [bind]. by exists s3.
Qed.
End LinkedList.

(** ** Witnesses *)

Lemma sub_flip (x y : Z) : 0 <= x - y -> y - x <= 0.
Proof. lia. Defined.
Lemma sub_trans (x y z : Z) : x - y <= 0 -> y - z <= 0 -> x - z <= 0.
Proof. lia. Defined.

Lemma LinkedList_implements_Seq_witness :
  repr List ([] : list Z) /\ implements (Append 5 List) (Ok [5]).
Proof. split; [exact List_repr|]. exact (proj1 (LinkedList_implements_Seq Z.sub List [] 5 List_repr)). Defined.

Lemma Insert_sorted_witness :
  repr List ([] : list Z) /\ exists s', Insert Z.sub 5 List = Ok s'.
Proof.
  split; [exact List_repr|].
  destruct (Insert_sorted Z.sub List [] 5 sub_flip sub_trans List_repr) as (s' & _ & _ & H & _);
    [constructor|apply not_elem_of_nil|by exists s'].
Defined.

Lemma SelfTests_pass_witness :
  NoDup [9; 5; 7] /\ exists s', SortedSelfTest Z.sub [9; 5; 7] List = Ok s'.
Proof.
  assert (Hp : NoDup [9; 5; 7]) by (apply (bool_decide_unpack _); by vm_compute).
  split; [exact Hp|].
  destruct (SelfTests_pass Z.sub [9; 5; 7] List sub_flip sub_trans Hp List_repr) as [_ (s' & H & _)].
  by exists s'.
Defined.
End LinkedList.
