(* ===== verification/LibHash.v ===== *)
(** * lib/hash.{h,cc}: chained hash tables

    [HashTable<Key,T>] over buckets that are the sequences of LibList.  The
    table implements a finite map from keys to items: [Hash.contents] is that
    map, and every operation is shown to act on it. *)

From S2P Require Import Prelude LibList.

Module Hash.
Definition InitialBuckets : Z := 4.
Definition ResizeRatio : Z := 3.
Definition IncreaseSizeBy : Z := 4.

Section Hash.
Context {Key T : Type} `{Countable Key} `{EqDecision T}.
(** The two function pointers given to the constructor; [hash] returns an
    [unsigned]. *)
Context (getKey : T -> Key) (hash : Key -> Z).

Record t := mkHash {
  buckets : list (list T);
  numBuckets : Z;
  numItems : Z
}.

Definition InitBuckets (sz : Z) : list (list T) * Z := (replicate (Z.to_nat sz) [], sz).

Definition HashTable : t :=
  let '(b, n) := InitBuckets InitialBuckets in mkHash b n 0.

Definition IsEmpty (h : t) : bool := numItems h =? 0.

Definition HashValue (key : Key) (n : Z) : result Z :=
  let r := wrap32 (u32 (hash key) mod u32 n) in
  assert (bool_decide (0 <= r) && bool_decide (r < n)) ;;
  Ok r.

(** [*itemPtr]: [None] is the [NULL] of an item not found. *)
Fixpoint find_key (key : Key) (bucket : list T) : option T :=
  match bucket with
  | [] => None
  | x :: xs => if bool_decide (key = getKey x) then Some x else find_key key xs
  end.

Definition FindInBucket (bucket : Z) (key : Key) (h : t) : result (option T) :=
  b <- lget (buckets h) bucket ;; Ok (find_key key b).

Definition Find (key : Key) (h : t) : result (option T) :=
  bucket <- HashValue key (numBuckets h) ;; FindInBucket bucket key h.

Definition IsInTable (key : Key) (h : t) : result bool :=
  r <- Find key h ;; Ok (isSome r).

(** [buckets[HashValue(getKey(item))]->Append(item)] *)
Definition put (item : T) (bs : list (list T)) (n : Z) : result (list (list T)) :=
  i <- HashValue (getKey item) n ;;
  b <- lget bs i ;;
  b <- Seq.Append item b ;;
  lset bs i b.

Fixpoint check_items (i : Z) (n : Z) (b : list T) : result unit :=
  match b with
  | [] => Ok tt
  | x :: b => j <- HashValue (getKey x) n ;; assert (i =? j) ;; check_items i n b
  end.

Fixpoint check_buckets (i n : Z) (bs : list (list T)) (numFound : Z) : result Z :=
  match bs with
  | [] => Ok numFound
  | b :: bs => check_items i n b ;; check_buckets (i + 1) n bs (numFound + Z.of_nat (length b))
  end.

Definition SanityCheck (h : t) : result unit :=
  numFound <- check_buckets 0 (numBuckets h) (buckets h) 0 ;;
  assert (numItems h =? numFound).

(** The [while] loop of [ReHash]: items leave the front of an old bucket. *)
Fixpoint move_bucket (old : list T) (bs : list (list T)) (n : Z) : result (list (list T)) :=
  match old with
  | [] => Ok bs
  | item :: old => bs <- put item bs n ;; move_bucket old bs n
  end.

Fixpoint move_all (olds bs : list (list T)) (n : Z) : result (list (list T)) :=
  match olds with
  | [] => Ok bs
  | old :: olds => bs <- move_bucket old bs n ;; move_all olds bs n
  end.

Definition ReHash (h : t) : result t :=
  SanityCheck h ;;
  let '(bs, n) := InitBuckets (numBuckets h * IncreaseSizeBy) in
  bs <- move_all (buckets h) bs n ;;
  let h := mkHash bs n (numItems h) in
  SanityCheck h ;;
  Ok h.

Definition assert_in (expected : bool) (key : Key) (h : t) : result unit :=
  b <- IsInTable key h ;; assert (Bool.eqb b expected).

Definition Insert (item : T) (h : t) : result t :=
  let key := getKey item in
  assert_in false key h ;;
  h <- (if bool_decide (ResizeRatio <= Z.quot (numItems h) (numBuckets h)) then ReHash h else Ok h) ;;
  bs <- put item (buckets h) (numBuckets h) ;;
  let h := mkHash bs (numBuckets h) (numItems h + 1) in
  assert_in true key h ;;
  Ok h.

Definition Remove (key : Key) (h : t) : result (T * t) :=
  bucket <- HashValue key (numBuckets h) ;;
  found <- FindInBucket bucket key h ;;
  match found with
  | None => Fault AssertFailed
  | Some item =>
      b <- lget (buckets h) bucket ;;
      b <- Seq.Remove item b ;;
      bs <- lset (buckets h) bucket b ;;
      let h := mkHash bs (numBuckets h) (numItems h - 1) in
      assert_in false key h ;;
      Ok (item, h)
  end.

(** [Apply]: [func] on every item, bucket by bucket. *)
Definition Apply {S} (func : T -> S -> result S) (h : t) (st : S) : result S :=
  foldl (fun r b => foldl (fun r x => st <- r ;; func x st) r b) (Ok st) (buckets h).

(** ** HashIterator *)

Fixpoint next_full (bs : list (list T)) (bucket : Z) : Z :=
  match bs with
  | [] => bucket
  | [] :: bs => next_full bs (bucket + 1)
  | _ => bucket
  end.
Definition FindNextFullBucket (h : t) (bucket : Z) : Z :=
  next_full (drop (Z.to_nat bucket) (buckets h)) bucket.

(** The bucket, and the items [bucketIter] has still to give, the current one
    first ([None] for its [NULL]). *)
Record iterator := mkIter { bucket : Z; bucketIter : option (list T) }.

Definition start (h : t) (bucket : Z) : result iterator :=
  if bool_decide (bucket < numBuckets h) then
    b <- lget (buckets h) bucket ;; Ok (mkIter bucket (Some b))
  else Ok (mkIter bucket None).

Definition HashIterator (h : t) : result iterator := start h (FindNextFullBucket h 0).
Definition IsDone (h : t) (it : iterator) : bool := bucket it =? numBuckets h.
Definition Item (h : t) (it : iterator) : result T :=
  assert (negb (IsDone h it)) ;;
  match bucketIter it with
  | None => Fault NullPointer
  | Some [] => Fault AssertFailed
  | Some (x :: _) => Ok x
  end.
Definition Next (h : t) (it : iterator) : result iterator :=
  match bucketIter it with
  | None => Fault NullPointer
  | Some b =>
      match b with
      | [] => Fault NullPointer
      | _ :: [] => start h (FindNextFullBucket h (bucket it + 1))
      | _ :: b => Ok (mkIter (bucket it) (Some b))
      end
  end.

(** [for (; !iter.IsDone(); iter.Next()) ... iter.Item() ...] *)
Fixpoint iterate (n : nat) (h : t) (it : iterator) : result (list T) :=
  if IsDone h it then Ok []
  else match n with
       | O => Fault OutOfFuel
       | S n => x <- Item h it ;; it <- Next h it ;; xs <- iterate n h it ;; Ok (x :: xs)
       end.

(** ** SelfTest *)

Fixpoint insert_all (p : list T) (h : t) : result t :=
  match p with
  | [] => Ok h
  | x :: p =>
      h <- Insert x h ;;
      assert_in true (getKey x) h ;;
      assert (negb (IsEmpty h)) ;;
      insert_all p h
  end.

Fixpoint remove_all (p : list T) (h : t) : result t :=
  match p with
  | [] => Ok h
  | x :: p =>
      '(y, h) <- Remove (getKey x) h ;;
      assert (bool_decide (y = x)) ;;
      remove_all p h
  end.

Definition SelfTest (p : list T) (h : t) : result t :=
  it <- HashIterator h ;;
  SanityCheck h ;;
  assert (IsEmpty h) ;;
  assert (IsDone h it) ;;
  h <- insert_all p h ;;
  h <- remove_all p h ;;
  assert (IsEmpty h) ;;
  SanityCheck h ;;
  Ok h.

(** ** Representation invariant *)

(** The bucket of a key in a table of [n] buckets. *)
Definition home (key : Key) (n : Z) : Z := u32 (hash key) mod n.

(** [n] buckets, each item in its own. *)
Definition homed (bs : list (list T)) (n : Z) : Prop :=
  n = Z.of_nat (length bs) /\ 0 < n < 2 ^ 31 /\
  forall i b x, bs !! i = Some b -> x ∈ b -> home (getKey x) n = Z.of_nat i.

Record wf (h : t) : Prop := {
  wf_homed : homed (buckets h) (numBuckets h);
  wf_num : numItems h = Z.of_nat (length (concat (buckets h)));
  wf_keys : NoDup (getKey <$> concat (buckets h))
}.

(** The finite map a list of items with distinct keys stands for. *)
Definition as_map (xs : list T) : gmap Key T := list_to_map ((fun x => (getKey x, x)) <$> xs).
Definition contents (h : t) : gmap Key T := as_map (concat (buckets h)).

Lemma keys_pairs xs : ((fun x => (getKey x, x)) <$> xs).*1 = getKey <$> xs.
Proof. rewrite <- list_fmap_compose. by apply list_fmap_ext. Qed.

Lemma as_map_lookup xs k x :
  NoDup (getKey <$> xs) -> as_map xs !! k = Some x <-> x ∈ xs /\ getKey x = k.
Proof.
  intros Hnd. unfold as_map. rewrite <- elem_of_list_to_map by by rewrite keys_pairs.
  rewrite list_elem_of_fmap. naive_solver.
Qed.

Lemma as_map_none xs k : as_map xs !! k = None <-> k ∉ getKey <$> xs.
Proof. unfold as_map. rewrite <- keys_pairs. symmetry. apply not_elem_of_list_to_map. Qed.

Lemma as_map_perm xs ys : NoDup (getKey <$> xs) -> xs ≡ₚ ys -> as_map xs = as_map ys.
Proof.
  intros Hnd Hp. apply list_to_map_proper; [by rewrite keys_pairs|]. by rewrite Hp.
Qed.

Lemma as_map_cons x xs : as_map (x :: xs) = <[getKey x := x]> (as_map xs).
Proof. done. Qed.

(** ** Buckets *)

Lemma home_range key n : 0 < n -> 0 <= home key n < n.
Proof. intros. by apply Z.mod_pos_bound. Qed.

Lemma HashValue_ok key n : 0 < n < 2 ^ 31 -> HashValue key n = Ok (home key n).
Proof.
  intros Hn. unfold HashValue. rewrite (u32_small n) by lia. pose proof (home_range key n ltac:(lia)) as Hr.
  fold (home key n). rewrite wrap32_small by (unfold int_range; lia).
  by rewrite !bool_decide_eq_true_2 by lia.
Qed.

Lemma homed_bucket bs n key :
  homed bs n -> exists b, lget bs (home key n) = Ok b /\ bs !! Z.to_nat (home key n) = Some b.
Proof.
  intros (Hn & Hb & _). apply lget_is_ok. rewrite <- Hn. apply home_range. lia.
Qed.

Lemma elem_of_concat (bs : list (list T)) x : x ∈ concat bs <-> exists i b, bs !! i = Some b /\ x ∈ b.
Proof.
  rewrite list_elem_of_In, in_concat. split.
  - intros (b & Hb%list_elem_of_In & Hx%list_elem_of_In). apply list_elem_of_lookup_1 in Hb as [i Hi]. eauto.
  - intros (i & b & Hi%list_elem_of_lookup_2 & Hx). exists b. by rewrite <- !list_elem_of_In.
Qed.

Lemma concat_insert (bs : list (list T)) i b b' :
  bs !! i = Some b -> concat (<[i := b']> bs) ++ b ≡ₚ concat bs ++ b'.
Proof.
  intros Hi. apply lookup_lt_Some in Hi as Hl. rewrite <- (take_drop_middle _ _ _ Hi) at 2.
  rewrite insert_take_drop by done. rewrite !concat_app. simpl. rewrite <- !app_assoc.
  apply Permutation_app_head. rewrite !app_assoc, Permutation_app_comm, <- app_assoc.
  apply Permutation_app_head. apply Permutation_app_comm.
Qed.

Lemma homed_insert bs n i b' :
  homed bs n -> (forall x, x ∈ b' -> home (getKey x) n = Z.of_nat i) -> homed (<[i := b']> bs) n.
Proof.
  intros (Hn & Hb & Hh) Hb'. split; [by rewrite length_insert|]. split; [done|].
  intros j b x [(<- & <- & _) | [Hne Hj]]%list_lookup_insert_Some Hx; eauto.
Qed.

Lemma homed_elem bs n x b :
  homed bs n -> x ∈ concat bs -> bs !! Z.to_nat (home (getKey x) n) = Some b -> x ∈ b.
Proof.
  intros (_ & _ & Hh) (i & b' & Hi & Hx)%elem_of_concat Hb.
  rewrite (Hh _ _ _ Hi Hx), Nat2Z.id in Hb. congruence.
Qed.

Lemma find_key_spec key b :
  match find_key key b with
  | Some x => x ∈ b /\ getKey x = key
  | None => forall x, x ∈ b -> getKey x <> key
  end.
Proof.
  induction b as [|y b IH]; simpl; [by intros x ?%elem_of_nil|]. case_bool_decide as Hk.
  - split; [by left|done].
  - destruct (find_key key b) as [x|]; [split; [right|]; naive_solver|].
    intros x [-> | Hx]%elem_of_cons; [congruence|auto].
Qed.

Lemma Find_ok h key : wf h -> Find key h = Ok (contents h !! key).
Proof.
  intros [Hh _ Hk]. unfold Find. pose proof Hh as (_ & Hn & _). rewrite HashValue_ok by done. cbn [bind].
  unfold FindInBucket. destruct (homed_bucket _ _ key Hh) as (b & -> & Hb). cbn [bind]. f_equal.
  pose proof (find_key_spec key b) as Hf. destruct (find_key key b) as [x|].
  - destruct Hf as [Hx <-]. symmetry. apply as_map_lookup; [done|]. split; [|done].
    apply elem_of_concat. eauto.
  - symmetry. apply as_map_none. intros (x & -> & Hx)%list_elem_of_fmap.
    by apply (Hf x); [eapply homed_elem|].
Qed.

Lemma IsInTable_ok h key : wf h -> IsInTable key h = Ok (isSome (contents h !! key)).
Proof. intros Hw. unfold IsInTable. by rewrite Find_ok. Qed.

Lemma assert_in_ok h e key : wf h -> assert_in e key h = assert (Bool.eqb (isSome (contents h !! key)) e).
Proof. intros Hw. unfold assert_in. by rewrite IsInTable_ok. Qed.

Lemma put_ok x bs n :
  homed bs n -> x ∉ concat bs ->
  exists bs', put x bs n = Ok bs' /\ homed bs' n /\ concat bs' ≡ₚ x :: concat bs.
Proof.
  intros Hh Hx. pose proof Hh as (Hlen & Hn & Hhome). unfold put. rewrite HashValue_ok by done. cbn [bind].
  destruct (homed_bucket _ _ (getKey x) Hh) as (b & -> & Hb). cbn [bind].
  assert (Hxb : x ∉ b) by (intros Hxb; apply Hx, elem_of_concat; eauto).
  unfold Seq.Append, Seq.IsInList. rewrite bool_decide_eq_false_2 by done. cbn [negb assert bind].
  pose proof (home_range (getKey x) n ltac:(lia)) as Hr. rewrite lset_in by lia.
  eexists. split; [done|]. split.
  - apply homed_insert; [done|]. intros y [Hy | ->%list_elem_of_singleton]%elem_of_app; [|lia].
    by rewrite (Hhome _ _ _ Hb Hy).
  - pose proof (concat_insert bs _ b (b ++ [x]) Hb) as Hp.
    apply (Permutation_app_inv_r b). rewrite Hp. by rewrite app_assoc, (Permutation_app_comm _ [x]).
Qed.

(** ** SanityCheck and ReHash *)

Lemma check_items_ok i n b :
  0 < n < 2 ^ 31 -> (forall x, x ∈ b -> home (getKey x) n = i) -> check_items i n b = Ok tt.
Proof.
  intros Hn. induction b as [|x b IH]; intros Hb; [done|]. cbn [check_items]. rewrite HashValue_ok by done.
  cbn [bind]. rewrite (Hb x) by left. rewrite Z.eqb_refl. cbn [assert bind]. apply IH. intros. apply Hb. by right.
Qed.

Lemma check_buckets_ok i n bs found :
  0 < n < 2 ^ 31 -> (forall j b x, bs !! j = Some b -> x ∈ b -> home (getKey x) n = i + Z.of_nat j) ->
  check_buckets i n bs found = Ok (found + Z.of_nat (length (concat bs))).
Proof.
  intros Hn. revert i found. induction bs as [|b bs IH]; intros i found Hb; cbn [check_buckets concat].
  - f_equal. simpl. lia.
  - rewrite check_items_ok; [|done|]. 2:{ intros x Hx. pose proof (Hb 0%nat b x eq_refl Hx). lia. }
    cbn [bind]. rewrite IH.
    + f_equal. rewrite length_app. lia.
    + intros j b' x Hj Hx. pose proof (Hb (S j) b' x Hj Hx). lia.
Qed.

Lemma SanityCheck_ok h : homed (buckets h) (numBuckets h) -> numItems h = Z.of_nat (length (concat (buckets h))) ->
  SanityCheck h = Ok tt.
Proof.
  intros (Hl & Hn & Hh) Hi. unfold SanityCheck. rewrite check_buckets_ok by done. cbn [bind].
  rewrite Hi, Z.add_0_l. by rewrite Z.eqb_refl.
Qed.

Lemma move_bucket_ok old bs n :
  homed bs n -> NoDup (old ++ concat bs) ->
  exists bs', move_bucket old bs n = Ok bs' /\ homed bs' n /\ concat bs' ≡ₚ old ++ concat bs.
Proof.
  revert bs. induction old as [|x old IH]; intros bs Hh Hnd; cbn [move_bucket]; [by exists bs|].
  simpl in Hnd. apply NoDup_cons in Hnd as [Hx Hnd]. apply not_elem_of_app in Hx as [Hxo Hx].
  destruct (put_ok x bs n Hh Hx) as (bs1 & -> & Hh1 & Hp1). cbn [bind].
  destruct (IH bs1 Hh1) as (bs2 & -> & Hh2 & Hp2).
  - rewrite Hp1, <- Permutation_middle. constructor; [|done]. by apply not_elem_of_app.
  - exists bs2. split; [done|]. split; [done|]. rewrite Hp2, Hp1. by rewrite <- Permutation_middle.
Qed.

Lemma move_all_ok olds bs n :
  homed bs n -> NoDup (concat olds ++ concat bs) ->
  exists bs', move_all olds bs n = Ok bs' /\ homed bs' n /\ concat bs' ≡ₚ concat olds ++ concat bs.
Proof.
  revert bs. induction olds as [|old olds IH]; intros bs Hh Hnd; cbn [move_all]; [by exists bs|].
  cbn [concat] in Hnd |- *. rewrite <- app_assoc in Hnd.
  assert (Hp : old ++ concat olds ++ concat bs ≡ₚ concat olds ++ old ++ concat bs).
  { rewrite !app_assoc. by rewrite (Permutation_app_comm old). }
  rewrite Hp in Hnd. destruct (move_bucket_ok old bs n Hh) as (bs1 & -> & Hh1 & Hp1).
  { by apply NoDup_app in Hnd as (_ & _ & Hnd). }
  cbn [bind]. destruct (IH bs1 Hh1) as (bs2 & -> & Hh2 & Hp2); [by rewrite Hp1|].
  exists bs2. split; [done|]. split; [done|]. by rewrite Hp2, Hp1, <- app_assoc, Hp.
Qed.

Lemma concat_replicate_nil n : concat (replicate n ([] : list T)) = [].
Proof. by induction n. Qed.

Lemma homed_empty n : 0 < n < 2 ^ 31 -> homed (replicate (Z.to_nat n) []) n.
Proof.
  intros Hn. split; [rewrite length_replicate; lia|]. split; [done|].
  intros i b x [-> _]%lookup_replicate Hx. by apply elem_of_nil in Hx.
Qed.

Lemma wf_NoDup h : wf h -> NoDup (concat (buckets h)).
Proof. intros [_ _ Hk]. by eapply NoDup_fmap_1. Qed.

Lemma ReHash_ok h :
  wf h -> numBuckets h * IncreaseSizeBy < 2 ^ 31 ->
  exists h', ReHash h = Ok h' /\ wf h' /\ numBuckets h' = numBuckets h * IncreaseSizeBy /\
    numItems h' = numItems h /\ concat (buckets h') ≡ₚ concat (buckets h).
Proof.
  intros Hw Hmax. pose proof Hw as [Hh Hi Hk]. pose proof Hh as (_ & Hn & _).
  unfold ReHash. rewrite SanityCheck_ok by done. cbn [bind InitBuckets].
  assert (Hn' : 0 < numBuckets h * IncreaseSizeBy < 2 ^ 31) by (unfold IncreaseSizeBy in *; lia).
  destruct (move_all_ok (buckets h) _ _ (homed_empty _ Hn')) as (bs & -> & Hh' & Hp).
  { rewrite concat_replicate_nil, app_nil_r. by apply wf_NoDup. }
  rewrite concat_replicate_nil, app_nil_r in Hp. cbn [bind].
  assert (Hw' : wf (mkHash bs (numBuckets h * IncreaseSizeBy) (numItems h))).
  { split; simpl; [done|by rewrite Hp|by rewrite Hp]. }
  rewrite (SanityCheck_ok (mkHash _ _ _) (wf_homed _ Hw') (wf_num _ Hw')). cbn [bind]. eexists. split; [done|]. by split_and!.
Qed.

(** ** Insert, Remove *)

(** The table is grown before three items per bucket on average become four. *)
Definition loaded (h : t) : Prop := numItems h <= ResizeRatio * numBuckets h.

Lemma wf_nonneg h : wf h -> 0 <= numItems h /\ 0 < numBuckets h < 2 ^ 31.
Proof. intros [(_ & Hn & _) Hi _]. lia. Qed.

Lemma put_wf h x :
  wf h -> contents h !! getKey x = None ->
  exists bs, put x (buckets h) (numBuckets h) = Ok bs /\
    wf (mkHash bs (numBuckets h) (numItems h + 1)) /\ as_map (concat bs) = <[getKey x := x]> (contents h).
Proof.
  intros [Hh Hi Hk] Hx. apply as_map_none in Hx.
  destruct (put_ok x (buckets h) (numBuckets h) Hh) as (bs & -> & Hh' & Hp).
  { intros Hin. apply Hx, list_elem_of_fmap. eauto. }
  assert (Hnd : NoDup (getKey <$> concat bs)) by (rewrite Hp; by constructor).
  exists bs. split; [done|]. split.
  - split; simpl; [done| |done]. rewrite Hp. simpl. lia.
  - by rewrite (as_map_perm _ _ Hnd Hp).
Qed.

Lemma Insert_ok h x :
  wf h -> loaded h -> numBuckets h * IncreaseSizeBy < 2 ^ 31 ->
  match contents h !! getKey x with
  | Some _ => Insert x h = Fault AssertFailed
  | None => exists h', Insert x h = Ok h' /\ wf h' /\ loaded h' /\
              contents h' = <[getKey x := x]> (contents h) /\ numItems h' = numItems h + 1 /\
              (numBuckets h' = numBuckets h \/
               numBuckets h' = numBuckets h * IncreaseSizeBy /\ ResizeRatio * numBuckets h <= numItems h)
  end.
Proof.
  intros Hw Hl Hmax. unfold Insert. rewrite (assert_in_ok _ _ _ Hw).
  destruct (contents h !! getKey x) as [y|] eqn:Hx; cbn [isSome Bool.eqb assert bind]; [done|].
  destruct (wf_nonneg _ Hw) as [Hi Hn].
  assert (Hgrow : exists h1, (if bool_decide (ResizeRatio <= Z.quot (numItems h) (numBuckets h)) then ReHash h else Ok h) = Ok h1 /\
    wf h1 /\ contents h1 = contents h /\ numItems h1 < ResizeRatio * numBuckets h1 /\ numItems h1 = numItems h /\
    (numBuckets h1 = numBuckets h \/
     numBuckets h1 = numBuckets h * IncreaseSizeBy /\ ResizeRatio * numBuckets h <= numItems h)).
  { rewrite Z.quot_div_nonneg by lia. pose proof (Z.div_mod (numItems h) (numBuckets h) ltac:(lia)).
    pose proof (Z.mod_pos_bound (numItems h) (numBuckets h) ltac:(lia)). unfold loaded, ResizeRatio in *.
    case_bool_decide as Hr.
    - destruct (ReHash_ok h Hw Hmax) as (h1 & -> & Hw1 & Hn1 & Hi1 & Hp). exists h1.
      split_and!; [done|done| |unfold IncreaseSizeBy in *; lia|done|right; unfold ResizeRatio; split; [done|nia]].
      unfold contents. apply as_map_perm; [apply Hw1|done].
    - exists h. split_and!; try done; [nia|by left]. }
  destruct Hgrow as (h1 & -> & Hw1 & Hc1 & Hl1 & Hi1 & Hn1). cbn [bind]. rewrite <- Hc1 in Hx.
  destruct (put_wf h1 x Hw1 Hx) as (bs & -> & Hw2 & Hc2). cbn [bind].
  rewrite (assert_in_ok _ _ _ Hw2). unfold contents at 1. cbn [buckets].
  rewrite Hc2, lookup_insert_eq. cbn [isSome Bool.eqb assert bind]. eexists. split; [done|].
  split; [done|]. split; [unfold loaded; simpl; lia|].
  split; [unfold contents at 1; simpl; by rewrite Hc2, Hc1|]. split; [by simpl; rewrite Hi1|done].
Qed.

Lemma Remove_ok h key :
  wf h ->
  match contents h !! key with
  | None => Remove key h = Fault AssertFailed
  | Some x => exists h', Remove key h = Ok (x, h') /\ wf h' /\ contents h' = delete key (contents h) /\
                numBuckets h' = numBuckets h /\ numItems h' = numItems h - 1
  end.
Proof.
  intros Hw. pose proof (Find_ok h key Hw) as Hf. pose proof Hw as [Hh Hi Hk]. pose proof Hh as (Hlen & Hn & Hhome).
  unfold Remove. unfold Find in Hf. rewrite HashValue_ok in * by done. cbn [bind] in *. rewrite Hf. cbn [bind].
  destruct (contents h !! key) as [x|] eqn:Hx; [|done].
  apply as_map_lookup in Hx as [Hx <-]; [|done].
  destruct (homed_bucket _ _ (getKey x) Hh) as (b & -> & Hb). cbn [bind].
  pose proof (homed_elem _ _ _ _ Hh Hx Hb) as Hxb. pose proof (wf_NoDup _ Hw) as Hnd.
  assert (Hndb : NoDup b).
  { rewrite <- (take_drop_middle _ _ _ Hb), concat_app in Hnd. apply NoDup_app in Hnd as (_ & _ & Hnd).
    simpl in Hnd. by apply NoDup_app in Hnd as [Hnd _]. }
  unfold Seq.Remove, Seq.IsInList. rewrite bool_decide_eq_true_2 by done. cbn [assert bind].
  pose proof (home_range (getKey x) (numBuckets h) ltac:(lia)) as Hr. rewrite lset_in by lia. cbn [bind].
  set (i := Z.to_nat (home (getKey x) (numBuckets h))) in *. set (b' := filter _ b).
  assert (Hpb : b ≡ₚ x :: b') by by apply filter_out_perm.
  assert (Hp : concat (buckets h) ≡ₚ x :: concat (<[i := b']> (buckets h))).
  { pose proof (concat_insert (buckets h) i b b' Hb) as Hp. rewrite Hpb in Hp at 1.
    apply (Permutation_app_inv_r b'). rewrite <- Hp. by rewrite <- Permutation_middle. }
  assert (Hkn : getKey x ∉ getKey <$> concat (<[i := b']> (buckets h)) /\ NoDup (getKey <$> concat (<[i := b']> (buckets h)))).
  { rewrite Hp in Hk. by apply NoDup_cons in Hk. }
  destruct Hkn as [Hkx Hkn].
  assert (Hw' : wf (mkHash (<[i := b']> (buckets h)) (numBuckets h) (numItems h - 1))).
  { split; simpl; [|rewrite Hi, Hp; simpl; lia|done].
    apply homed_insert; [done|]. intros y Hy. apply (Hhome _ _ _ Hb). rewrite Hpb. by right. }
  rewrite (assert_in_ok _ _ _ Hw'). unfold contents at 1. cbn [buckets].
  rewrite (proj2 (as_map_none _ _) Hkx). cbn [isSome Bool.eqb assert bind]. eexists. split; [done|].
  split; [done|]. split; [|done]. unfold contents. cbn [buckets]. rewrite (as_map_perm _ _ Hk Hp), as_map_cons.
  rewrite delete_insert_id; [done|]. by apply as_map_none.
Qed.

(** ** Iteration *)

Lemma next_full_spec bs k :
  exists j, next_full bs k = k + Z.of_nat j /\ (j <= length bs)%nat /\ concat (drop j bs) = concat bs /\
    match bs !! j with Some b => b <> [] | None => j = length bs end.
Proof.
  revert k. induction bs as [|[|x b] bs IH]; intros k; cbn [next_full].
  - exists 0%nat. simpl. split_and!; try done; lia.
  - destruct (IH (k + 1)) as (j & -> & Hj & Hc & Hm). exists (S j). split; [lia|]. split; [simpl; lia|].
    split; [done|]. simpl. by destruct (bs !! j); [|lia].
  - exists 0%nat. simpl. split_and!; try done; lia.
Qed.

(** The items the iterator has still to give. *)
Definition pending (h : t) (it : iterator) (xs : list T) : Prop :=
  match bucketIter it with
  | None => xs = [] /\ bucket it = numBuckets h
  | Some b => b <> [] /\ 0 <= bucket it < numBuckets h /\ xs = b ++ concat (drop (Z.to_nat (bucket it + 1)) (buckets h))
  end.

Lemma start_pending h k :
  wf h -> 0 <= k <= numBuckets h ->
  exists it, start h (FindNextFullBucket h k) = Ok it /\ pending h it (concat (drop (Z.to_nat k) (buckets h))).
Proof.
  intros [(Hl & Hn & _) _ _] Hk. unfold FindNextFullBucket, start.
  destruct (next_full_spec (drop (Z.to_nat k) (buckets h)) k) as (j & -> & Hj & <- & Hm).
  rewrite length_drop in Hj. rewrite lookup_drop in Hm.
  destruct (buckets h !! (Z.to_nat k + j)%nat) as [b|] eqn:Hb.
  - apply lookup_lt_Some in Hb as Hlt. rewrite bool_decide_eq_true_2 by lia.
    rewrite (proj2 (lget_ok _ _ b)). 2:{ split; [lia|]. by replace (Z.to_nat (k + Z.of_nat j)) with (Z.to_nat k + j)%nat by lia. }
    cbn [bind]. eexists. split; [done|]. split; [done|]. cbn [bucket]. split; [lia|].
    rewrite drop_drop. rewrite (drop_S _ b) by done. cbn [concat]. do 3 f_equal. lia.
  - rewrite length_drop in Hm. apply lookup_ge_None in Hb. rewrite bool_decide_eq_false_2 by lia.
    eexists. split; [done|]. split; [|simpl; lia]. by rewrite drop_drop, drop_ge by lia.
Qed.

Lemma pending_done h it xs : wf h -> pending h it xs -> IsDone h it = bool_decide (xs = []).
Proof.
  intros Hw Hp. unfold IsDone, pending in *. destruct (bucketIter it) as [b|].
  - destruct Hp as (Hb & Hk & ->). rewrite (proj2 (Z.eqb_neq _ _)) by lia.
    rewrite bool_decide_eq_false_2; [done|]. intros [-> _]%app_eq_nil. done.
  - destruct Hp as [-> ->]. by rewrite Z.eqb_refl.
Qed.

Lemma iterate_ok n h it xs :
  wf h -> pending h it xs -> (length xs <= n)%nat -> iterate n h it = Ok xs.
Proof.
  intros Hw. revert it xs. induction n as [|n IH]; intros it xs Hp Hn; cbn [iterate];
    rewrite (pending_done _ _ _ Hw Hp); destruct xs as [|x xs]; try done; [simpl in Hn; lia|].
  rewrite bool_decide_eq_false_2 by done. unfold Item. rewrite (pending_done _ _ _ Hw Hp), bool_decide_eq_false_2 by done.
  unfold pending, Next in *. destruct (bucketIter it) as [b|] eqn:Eb; [|by destruct Hp].
  destruct Hp as (Hb & Hk & Hx). destruct b as [|y b]; [done|]. injection Hx as -> Hx. cbn [negb assert bind].
  simpl in Hn. assert (Hnext : exists it', match b with [] => start h (FindNextFullBucket h (bucket it + 1))
      | _ :: _ => Ok (mkIter (bucket it) (Some b)) end = Ok it' /\ pending h it' xs).
  { destruct b as [|z b].
    - subst xs. simpl. apply start_pending; [done|lia].
    - eexists. split; [done|]. split; [done|]. by subst xs. }
  destruct Hnext as (it' & -> & Hp'). cbn [bind]. rewrite (IH it' xs Hp') by lia. done.
Qed.

Lemma HashTable_ok : wf HashTable /\ loaded HashTable /\ contents HashTable = ∅.
Proof. split; [|by vm_compute]. split; [by apply homed_empty; vm_compute|done|constructor]. Qed.

(** ** SelfTest *)

(** Grown tables are not sparse: an insertion sequence cannot outgrow [int]. *)
Definition dense (h : t) : Prop := numBuckets h <= 4 \/ 3 * numBuckets h <= 4 * numItems h.

Lemma insert_all_ok p h :
  wf h -> loaded h -> dense h -> NoDup (getKey <$> p) -> numItems h + Z.of_nat (length p) < 2 ^ 28 ->
  (forall x, x ∈ p -> contents h !! getKey x = None) ->
  exists h', insert_all p h = Ok h' /\ wf h' /\ contents h' = as_map p ∪ contents h /\
    numItems h' = numItems h + Z.of_nat (length p).
Proof.
  revert h. induction p as [|x p IH]; intros h Hw Hl Hd Hnd Hmax Hp; cbn [insert_all].
  { exists h. split_and!; [done|done| |simpl; lia]. unfold as_map. simpl. by rewrite (left_id_L ∅ (∪)). }
  assert (Hnb : numBuckets h * IncreaseSizeBy < 2 ^ 31).
  { unfold IncreaseSizeBy, dense in *. destruct (wf_nonneg _ Hw). simpl in Hmax. lia. }
  pose proof (Insert_ok h x Hw Hl Hnb) as Hins. rewrite (Hp x) in Hins by left.
  destruct Hins as (h1 & -> & Hw1 & Hl1 & Hc1 & Hi1 & Hn1). cbn [bind].
  rewrite (assert_in_ok _ _ _ Hw1), Hc1, lookup_insert_eq. cbn [isSome Bool.eqb assert bind].
  unfold IsEmpty. rewrite (proj2 (Z.eqb_neq _ _)) by (destruct (wf_nonneg _ Hw); lia). cbn [negb assert bind].
  change (getKey <$> x :: p) with (getKey x :: (getKey <$> p)) in Hnd. apply NoDup_cons in Hnd as [Hx Hnd].
  destruct (IH h1 Hw1 Hl1) as (h2 & -> & Hw2 & Hc2 & Hi2).
  - unfold dense, IncreaseSizeBy, ResizeRatio in *. destruct Hn1 as [-> | [-> ?]]; lia.
  - done.
  - simpl in Hmax. lia.
  - intros y Hy. rewrite Hc1, lookup_insert_ne; [apply Hp; by right|].
    intros He. apply Hx. rewrite He. apply list_elem_of_fmap. eauto.
  - exists h2. split_and!; [done|done| |simpl; lia]. rewrite Hc2, Hc1, as_map_cons, <- insert_union_l.
    by rewrite insert_union_r by by apply as_map_none.
Qed.

Lemma remove_all_ok p h :
  wf h -> NoDup (getKey <$> p) -> contents h = as_map p -> numItems h = Z.of_nat (length p) ->
  exists h', remove_all p h = Ok h' /\ wf h' /\ contents h' = ∅ /\ numItems h' = 0.
Proof.
  revert h. induction p as [|x p IH]; intros h Hw Hnd Hc Hi; cbn [remove_all]; [by exists h|].
  change (getKey <$> x :: p) with (getKey x :: (getKey <$> p)) in Hnd. apply NoDup_cons in Hnd as [Hx Hnd].
  pose proof (Remove_ok h (getKey x) Hw) as Hrem. rewrite Hc, as_map_cons, lookup_insert_eq in Hrem.
  destruct Hrem as (h1 & -> & Hw1 & Hc1 & _ & Hi1). cbn [bind]. rewrite bool_decide_eq_true_2 by done. cbn [assert bind].
  apply IH; [done|done| |simpl in Hi; lia]. rewrite Hc1, delete_insert_id; [done|]. by apply as_map_none.
Qed.

(** ** Properties *)

(** C32: a hash table implements a finite map: [Find] returns the map's value,
    [Insert] of a new key adds it (growing the table when it is loaded, and never
    losing an item), [Remove] returns and removes the value; inserting a present
    key and removing an absent one stop at the assertion.  The representation
    (every item in the bucket of its key, the item count, the load factor) is
    preserved. *)
Theorem HashTable_implements_map h x key :
  wf h -> loaded h -> numBuckets h * IncreaseSizeBy < 2 ^ 31 ->
  Find key h = Ok (contents h !! key) /\ SanityCheck h = Ok tt /\
  match contents h !! getKey x with
  | Some _ => Insert x h = Fault AssertFailed
  | None => exists h', Insert x h = Ok h' /\ wf h' /\ loaded h' /\
              contents h' = <[getKey x := x]> (contents h)
  end /\
  match contents h !! key with
  | None => Remove key h = Fault AssertFailed
  | Some y => exists h', Remove key h = Ok (y, h') /\ wf h' /\ loaded h' /\
                contents h' = delete key (contents h)
  end.
Proof.
  intros Hw Hl Hn. split_and!; [by apply Find_ok|apply SanityCheck_ok; apply Hw| |].
  - pose proof (Insert_ok h x Hw Hl Hn) as Hi. destruct (contents h !! getKey x); [done|].
    destruct Hi as (h' & ? & ? & ? & ? & _). eauto 10.
  - pose proof (Remove_ok h key Hw) as Hr. destruct (contents h !! key); [|done].
    destruct Hr as (h' & ? & ? & ? & Hn' & Hi'). exists h'. split_and!; try done. unfold loaded in *. lia.
Qed.

(** stepping a [HashIterator] to its end visits every item of the table
    exactly once and nothing else, and the walk ends. *)
Theorem HashIterator_complete h :
  wf h ->
  exists it xs, HashIterator h = Ok it /\
    (forall n, (length xs <= n)%nat -> iterate n h it = Ok xs) /\
    NoDup xs /\ forall x, x ∈ xs <-> contents h !! getKey x = Some x.
Proof.
  intros Hw. destruct (start_pending h 0 Hw) as (it & Hit & Hp); [destruct (wf_nonneg _ Hw); lia|].
  exists it, (concat (buckets h)). split; [done|]. split; [intros; by apply iterate_ok|].
  split; [by apply wf_NoDup|]. intros x. pose proof (as_map_lookup (concat (buckets h)) (getKey x) x) as Hx.
  rewrite Hx by apply Hw. tauto.
Qed.

(** The self test of a new table passes for any items with distinct keys, and
    leaves the table empty. *)
Theorem HashSelfTest_passes p :
  NoDup (getKey <$> p) -> Z.of_nat (length p) < 2 ^ 28 ->
  exists h, SelfTest p HashTable = Ok h /\ wf h /\ contents h = ∅.
Proof.
  intros Hnd Hmax. destruct HashTable_ok as (Hw & Hl & Hc). unfold SelfTest.
  destruct (start_pending HashTable 0 Hw ltac:(by vm_compute)) as (it & Hit & Hp).
  unfold HashIterator. rewrite Hit. cbn [bind]. rewrite SanityCheck_ok by apply Hw. cbn [bind].
  change (IsEmpty HashTable) with true. cbn [assert bind].
  rewrite (pending_done _ _ _ Hw Hp). cbn [assert bind].
  destruct (insert_all_ok p HashTable Hw Hl) as (h1 & -> & Hw1 & Hc1 & Hi1).
  { left. by vm_compute. } { done. } { done. } { intros. by rewrite Hc, lookup_empty. }
  cbn [bind]. rewrite Hc, (right_id_L ∅ (∪)) in Hc1.
  destruct (remove_all_ok p h1 Hw1 Hnd Hc1 Hi1) as (h2 & -> & Hw2 & Hc2 & Hi2). cbn [bind].
  unfold IsEmpty. rewrite Hi2. cbn [assert bind]. rewrite SanityCheck_ok by apply Hw2. cbn [bind]. by exists h2.
Qed.
End Hash.

(** ** Witnesses *)

(** A table of pairs hashed by their first component. *)
Definition key_of (p : Z * Z) : Z := p.1.
Definition table1 : @t (Z * Z) :=
  match Insert key_of id (7, 70) HashTable with Ok h => h | Fault _ => HashTable end.

Lemma table1_ok : wf key_of id table1 /\ loaded table1.
Proof.
  split; [|by vm_compute]. split; [|by vm_compute|].
  - split; [by vm_compute|]. split; [by vm_compute|].
    intros i b x Hi Hx. do 4 (try destruct i as [|i]); vm_compute in Hi; try discriminate Hi;
      injection Hi as <-; try (by apply elem_of_nil in Hx).
    apply list_elem_of_singleton in Hx as ->. by vm_compute.
  - apply (bool_decide_unpack _). by vm_compute.
Defined.

Lemma HashTable_implements_map_witness :
  wf key_of id table1 /\ Find key_of id 7 table1 = Ok (Some (7, 70)).
Proof.
  destruct table1_ok as [Hw Hl]. split; [exact Hw|].
  rewrite (proj1 (HashTable_implements_map key_of id table1 (8, 80) 7 Hw Hl ltac:(by vm_compute))).
  by vm_compute.
Defined.

Lemma HashIterator_complete_witness :
  wf key_of id table1 /\ exists it, HashIterator table1 = Ok it.
Proof.
  split; [exact (proj1 table1_ok)|].
  destruct (HashIterator_complete key_of id table1 (proj1 table1_ok)) as (it & _ & H & _). by exists it.
Defined.

Lemma HashSelfTest_passes_witness :
  NoDup (key_of <$> [(3, 0); (7, 1); (11, 2)]) /\
  exists h, SelfTest key_of id [(3, 0); (7, 1); (11, 2)] HashTable = Ok h.
Proof.
  assert (Hnd : NoDup (key_of <$> [(3, 0); (7, 1); (11, 2)])) by (apply (bool_decide_unpack _); by vm_compute).
  split; [exact Hnd|].
  destruct (HashSelfTest_passes key_of id [(3, 0); (7, 1); (11, 2)] Hnd) as (h & H & _); [by vm_compute|by exists h].
Defined.
End Hash.
