(* ===== verification/Interrupt.v ===== *)
(** * machine/interrupt.{h,cc}, machine/stats.{h,cc}: simulated time and interrupts

    The kernel state the interrupt simulation works on, the sorted list of
    pending interrupts, and the routines that advance the clock and deliver
    interrupts.  The virtual [CallBack] of a pending interrupt's object and
    [currentThread->Yield()] are arguments; the class [Handlers] states what the
    delivery loop relies on, and devices provide instances of it. *)

From S2P Require Import Prelude LibList Machine.

Module Interrupt.

Inductive IntStatus := IntOff | IntOn.
Inductive MachineStatus := IdleMode | SystemMode | UserMode.
Inductive IntType :=
  | TimerInt | DiskInt | ConsoleWriteInt | ConsoleReadInt | NetworkSendInt | NetworkRecvInt.

#[export] Instance IntStatus_eq_dec : EqDecision IntStatus.
Proof. solve_decision. Defined.
#[export] Instance MachineStatus_eq_dec : EqDecision MachineStatus.
Proof. solve_decision. Defined.
#[export] Instance IntType_eq_dec : EqDecision IntType.
Proof. solve_decision. Defined.

Definition UserTick : Z := 1.
Definition SystemTick : Z := 10.
Definition RotationTime : Z := 500.
Definition SeekTime : Z := 500.
Definition ConsoleTime : Z := 100.
Definition NetworkTime : Z := 100.
Definition TimerTicks : Z := 100.

Record Statistics := mkStats {
  totalTicks : Z;
  idleTicks : Z;
  systemTicks : Z;
  userTicks : Z;
  numDiskReads : Z;
  numDiskWrites : Z;
  numConsoleCharsRead : Z;
  numConsoleCharsWritten : Z;
  numPageFaults : Z;
  numPacketsSent : Z;
  numPacketsRecvd : Z
}.

(** [Statistics::Statistics()] *)
Definition zero_stats : Statistics := mkStats 0 0 0 0 0 0 0 0 0 0 0.

(** The four tick counters are [int]s. *)
Definition set_ticks (total idle sys user : Z) (s : Statistics) : Statistics :=
  mkStats (wrap32 total) (wrap32 idle) (wrap32 sys) (wrap32 user) (numDiskReads s) (numDiskWrites s)
    (numConsoleCharsRead s) (numConsoleCharsWritten s) (numPageFaults s) (numPacketsSent s)
    (numPacketsRecvd s).

Section Interrupt.
(** [C]: the objects with a [CallBack]; [D]: the state of the devices and of the
    rest of the kernel. *)
Context {C D : Type} `{EqDecision C}.

(** [self] is the object's address, which [pending] compares. *)
Record PendingInterrupt := mkPending {
  self : Z;
  callOnInterrupt : C;
  when : Z;
  type : IntType
}.

#[export] Instance PendingInterrupt_eq_dec : EqDecision PendingInterrupt.
Proof. solve_decision. Defined.

(** The fields of [Interrupt], and what it reaches through [kernel->]:
    [allocated] numbers the [PendingInterrupt]s created so far. *)
Record kernel := mkKernel {
  level : IntStatus;
  pending : list PendingInterrupt;
  inHandler : bool;
  yieldOnReturn : bool;
  status : MachineStatus;
  stats : Statistics;
  machine : option Machine.machine;
  allocated : Z;
  dev : D
}.

Definition set_level l k := mkKernel l (pending k) (inHandler k) (yieldOnReturn k) (status k) (stats k) (machine k) (allocated k) (dev k).
Definition set_pending p k := mkKernel (level k) p (inHandler k) (yieldOnReturn k) (status k) (stats k) (machine k) (allocated k) (dev k).
Definition set_inHandler b k := mkKernel (level k) (pending k) b (yieldOnReturn k) (status k) (stats k) (machine k) (allocated k) (dev k).
Definition set_yieldOnReturn b k := mkKernel (level k) (pending k) (inHandler k) b (status k) (stats k) (machine k) (allocated k) (dev k).
Definition setStatus s k := mkKernel (level k) (pending k) (inHandler k) (yieldOnReturn k) s (stats k) (machine k) (allocated k) (dev k).
Definition set_stats s k := mkKernel (level k) (pending k) (inHandler k) (yieldOnReturn k) (status k) s (machine k) (allocated k) (dev k).
Definition set_machine m k := mkKernel (level k) (pending k) (inHandler k) (yieldOnReturn k) (status k) (stats k) m (allocated k) (dev k).
Definition set_allocated a k := mkKernel (level k) (pending k) (inHandler k) (yieldOnReturn k) (status k) (stats k) (machine k) a (dev k).
Definition set_dev d k := mkKernel (level k) (pending k) (inHandler k) (yieldOnReturn k) (status k) (stats k) (machine k) (allocated k) d.

Definition now (k : kernel) : Z := totalTicks (stats k).

Definition PendingCompare (x y : PendingInterrupt) : Z :=
  if bool_decide (when x < when y) then -1
  else if bool_decide (when y < when x) then 1
  else 0.

(** [Interrupt::Interrupt()], in a kernel with the given rest. *)
Definition Interrupt (m : option Machine.machine) (d : D) : kernel :=
  mkKernel IntOff [] false false SystemMode zero_stats m 0 d.

Definition ChangeLevel (old nw : IntStatus) (k : kernel) : kernel := set_level nw k.

Definition getLevel (k : kernel) : IntStatus := level k.
Definition getStatus (k : kernel) : MachineStatus := status k.

Definition YieldOnReturn (k : kernel) : result kernel :=
  assert (inHandler k) ;; Ok (set_yieldOnReturn true k).

Definition Schedule (toCall : C) (fromNow : Z) (ty : IntType) (k : kernel) : result kernel :=
  let toOccur := mkPending (allocated k) toCall (wrap32 (now k + fromNow)) ty in
  assert (bool_decide (0 < fromNow)) ;;
  p <- Seq.Insert PendingCompare toOccur (pending k) ;;
  Ok (set_pending p (set_allocated (allocated k + 1) k)).

Section delivery.
Context (CallBack : C -> kernel -> result kernel).
Context (Yield : kernel -> result kernel).

(** The [do ... while] loop of [CheckIfDue], at most [n] times around. *)
Fixpoint fire (n : nat) (k : kernel) : result kernel :=
  match n with
  | O => Fault OutOfFuel
  | S n =>
      '(next, p) <- Seq.RemoveFront (pending k) ;;
      k <- CallBack (callOnInterrupt next) (set_pending p k) ;;
      match pending k with
      | [] => Ok k
      | next :: _ => if bool_decide (when next <= now k) then fire n k else Ok k
      end
  end.

(** [advanceClock]: jump to the first pending interrupt. *)
Definition roll_forward (next : PendingInterrupt) (k : kernel) : kernel :=
  let s := stats k in
  set_stats (set_ticks (when next) (idleTicks s + wrap32 (when next - totalTicks s)) (systemTicks s) (userTicks s) s) k.

Definition settle_load (k : kernel) : result kernel :=
  match machine k with
  | None => Ok k
  | Some m => m <- Machine.DelayedLoad 0 0 m ;; Ok (set_machine (Some m) k)
  end.

Definition CheckIfDue (advanceClock : bool) (k : kernel) : result (bool * kernel) :=
  assert (bool_decide (level k = IntOff)) ;;
  match pending k with
  | [] => Ok (false, k)
  | next :: _ =>
      let late := bool_decide (now k < when next) in
      if late && negb advanceClock then Ok (false, k)
      else
        let k := if late then roll_forward next k else k in
        k <- settle_load k ;;
        k <- fire (length (pending k)) (set_inHandler true k) ;;
        Ok (true, set_inHandler false k)
  end.

Definition tick (k : kernel) : kernel :=
  let s := stats k in
  set_stats
    (match status k with
     | SystemMode => set_ticks (totalTicks s + SystemTick) (idleTicks s) (systemTicks s + SystemTick) (userTicks s) s
     | _ => set_ticks (totalTicks s + UserTick) (idleTicks s) (systemTicks s) (userTicks s + UserTick) s
     end) k.

Definition OneTick (k : kernel) : result kernel :=
  let oldStatus := status k in
  let k := ChangeLevel IntOn IntOff (tick k) in
  '(_, k) <- CheckIfDue false k ;;
  let k := ChangeLevel IntOff IntOn k in
  if yieldOnReturn k then
    k <- Yield (setStatus SystemMode (set_yieldOnReturn false k)) ;;
    Ok (setStatus oldStatus k)
  else Ok k.

Definition SetLevel (nw : IntStatus) (k : kernel) : result (IntStatus * kernel) :=
  let old := level k in
  assert (bool_decide (nw = IntOff) || negb (inHandler k)) ;;
  let k := ChangeLevel old nw k in
  if bool_decide (nw = IntOn) && bool_decide (old = IntOff) then k <- OneTick k ;; Ok (old, k)
  else Ok (old, k).

Definition Enable (k : kernel) : result kernel := '(_, k) <- SetLevel IntOn k ;; Ok k.

(** [Idle]: [None] when it goes on to [Halt], which never returns. *)
Definition Idle (k : kernel) : result (option kernel) :=
  '(b, k) <- CheckIfDue true (setStatus IdleMode k) ;;
  if b then Ok (Some (setStatus SystemMode k)) else Ok None.
End delivery.

(** ** Well-formedness *)

Definition by_time (x y : PendingInterrupt) : Prop := PendingCompare x y <= 0.

(** The list is sorted, its elements are distinct objects, the clock has not
    overflowed, and every tick is accounted for. *)
Record wf (k : kernel) : Prop := {
  wf_sorted : Seq.sorted PendingCompare (pending k);
  wf_distinct : NoDup (self <$> pending k);
  wf_allocated : forall p, p ∈ pending k -> self p < allocated k;
  wf_when : forall p, p ∈ pending k -> 0 <= when p < 2 ^ 31;
  wf_ticks : 0 <= idleTicks (stats k) /\ 0 <= systemTicks (stats k) /\ 0 <= userTicks (stats k);
  wf_clock : now k = idleTicks (stats k) + systemTicks (stats k) + userTicks (stats k)
}.

(** The interrupts whose time has come, in delivery order. *)
Definition is_due (t : Z) (p : PendingInterrupt) : Prop := when p <= t.
#[export] Instance is_due_dec t p : Decision (is_due t p).
Proof. unfold is_due. apply _. Defined.
Definition due (k : kernel) : list PendingInterrupt := filter (is_due (now k)) (pending k).

(** Time bound below which no schedule can overflow [int]. *)
Definition horizon : Z := 2 ^ 30.

(** What a handler, run with interrupts off, may do: anything to the devices,
    schedule interrupts in the future, ask for a yield; it does not move the
    clock, change the interrupt level, touch the interrupts already due or run
    the processor. *)
Record handled (k k' : kernel) : Prop := {
  h_ticks : now k' = now k /\ idleTicks (stats k') = idleTicks (stats k) /\
            systemTicks (stats k') = systemTicks (stats k) /\ userTicks (stats k') = userTicks (stats k);
  h_level : level k' = level k;
  h_inHandler : inHandler k' = inHandler k;
  h_status : status k' = status k;
  h_due : due k' = due k;
  h_machine : machine k' = machine k
}.

(** The contract of the [CallBack]s, with an invariant [inv] relating the pending
    interrupts and the device state (a device waits for the interrupt it
    scheduled). *)
Class Handlers (CallBack : C -> kernel -> result kernel) (inv : list PendingInterrupt -> D -> Prop) : Prop := {
  handler_ok : forall p ps k,
    pending k = p :: ps -> wf k -> inv (pending k) (dev k) ->
    inHandler k = true -> level k = IntOff -> when p <= now k -> 0 <= now k < horizon ->
    exists k', CallBack (callOnInterrupt p) (set_pending ps k) = Ok k' /\
      wf k' /\ inv (pending k') (dev k') /\ handled (set_pending ps k) k'
}.

Lemma by_time_le x y : by_time x y <-> when x <= when y.
Proof. unfold by_time, PendingCompare. repeat case_bool_decide; lia. Qed.

Lemma compare_lt x y : PendingCompare x y < 0 <-> when x < when y.
Proof. unfold PendingCompare. repeat case_bool_decide; lia. Qed.

Lemma due_none t ps : Seq.sorted PendingCompare ps -> match ps with [] => True | p :: _ => t < when p end ->
  filter (is_due t) ps = [].
Proof.
  intros Hs Hp. apply lfilter_none. intros x Hx. unfold is_due. destruct ps as [|p ps]; [by apply elem_of_nil in Hx|].
  apply elem_of_cons in Hx as [-> | Hx]; [lia|]. inversion Hs as [|? ? _ Hall]; subst.
  pose proof (proj1 (Forall_forall _ _) Hall x Hx) as Hle%by_time_le. lia.
Qed.

Lemma due_head k : wf k ->
  match due k with
  | [] => match pending k with [] => True | p :: _ => now k < when p end
  | q :: _ => exists ps, pending k = q :: ps /\ when q <= now k
  end.
Proof.
  intros [Hs _ _ _ _ _]. unfold due. destruct (pending k) as [|p ps]; [done|].
  rewrite filter_cons. unfold is_due at 1. case_decide as Hp; [by exists ps|].
  inversion Hs; subst. rewrite due_none; [lia|done|]. destruct ps as [|q ps]; [done|].
  match goal with H : Forall _ (q :: _) |- _ => inversion H as [|? ? Hq%by_time_le _]; subst end. lia.
Qed.

Lemma place_filter (P : PendingInterrupt -> Prop) `{forall x, Decision (P x)} x xs :
  ~ P x -> filter P (Seq.place PendingCompare x xs) = filter P xs.
Proof.
  intros Hx. induction xs as [|y xs IH]; simpl; [by rewrite filter_cons_False|].
  case_bool_decide; [by rewrite filter_cons_False|]. rewrite !filter_cons. by rewrite IH.
Qed.

Lemma pop_wf k p ps : wf k -> pending k = p :: ps -> wf (set_pending ps k).
Proof.
  intros [Hs Hd Ha Hw Ht Hc] Hp. rewrite Hp in *. inversion Hs; subst.
  change (self <$> p :: ps) with (self p :: (self <$> ps)) in Hd. apply NoDup_cons in Hd as [_ Hd].
  split; simpl; try done; intros q Hq; [apply Ha|apply Hw]; by right.
Qed.

Lemma pop_due k p ps : pending k = p :: ps -> when p <= now k -> due k = p :: due (set_pending ps k).
Proof. intros Hp Hle. unfold due. rewrite Hp. by rewrite filter_cons_True. Qed.

(** ** Scheduling *)

Lemma Schedule_ok k c d ty :
  wf k -> 0 <= now k < horizon -> 0 < d < horizon ->
  exists k', Schedule c d ty k = Ok k' /\ wf k' /\ handled k k' /\ dev k' = dev k /\
    inHandler k' = inHandler k /\ machine k' = machine k /\ yieldOnReturn k' = yieldOnReturn k /\
    pending k' = Seq.place PendingCompare (mkPending (allocated k) c (now k + d) ty) (pending k).
Proof.
  intros [Hs Hd Ha Hw Ht Hc] Hn Hd0. unfold Schedule, Seq.Insert, horizon in *.
  rewrite bool_decide_eq_true_2 by lia. rewrite wrap32_small by (unfold int_range; lia). cbn [assert bind].
  set (x := mkPending _ _ _ _).
  assert (Hx : x ∉ pending k) by (intros Hin%Ha; simpl in Hin; lia).
  unfold Seq.IsInList. rewrite bool_decide_eq_false_2 by done. cbn [negb assert bind].
  eexists. split; [done|]. cbn [dev pending set_pending].
  assert (Hperm : Seq.place PendingCompare x (pending k) ≡ₚ x :: pending k) by apply LinkedList.place_perm.
  split; [|split; [|done]].
  - split; cbn -[Z.pow]; try done.
    + apply LinkedList.place_sorted; [intros ? ?|intros ? ? ?|done]; unfold PendingCompare; repeat case_bool_decide; lia.
    + rewrite Hperm. constructor; [|done]. intros (y & Hy1 & Hy2%Ha)%list_elem_of_fmap. simpl in Hy1. lia.
    + intros p [-> | Hp%Ha]%LinkedList.elem_of_place; simpl; lia.
    + intros p [-> | Hp%Hw]%LinkedList.elem_of_place; simpl; lia.
  - split; try done. unfold due. cbn [pending set_pending stats set_allocated now]. apply place_filter.
    unfold is_due. simpl. unfold now in *. simpl. lia.
Qed.

(** ** Delivery *)

Section contract.
Context (CallBack : C -> kernel -> result kernel) (inv : list PendingInterrupt -> D -> Prop).
Context `{HH : Handlers CallBack inv}.

(** [ps] are delivered one after the other. *)
Inductive fired : list PendingInterrupt -> kernel -> kernel -> Prop :=
  | fired_nil k : fired [] k k
  | fired_cons p ps rest k k1 k2 :
      pending k = p :: rest -> CallBack (callOnInterrupt p) (set_pending rest k) = Ok k1 ->
      fired ps k1 k2 -> fired (p :: ps) k k2.

Definition same_clock (k k' : kernel) : Prop :=
  now k' = now k /\ idleTicks (stats k') = idleTicks (stats k) /\
  systemTicks (stats k') = systemTicks (stats k) /\ userTicks (stats k') = userTicks (stats k) /\
  status k' = status k /\ machine k' = machine k.

Lemma fire_ok n k :
  wf k -> inv (pending k) (dev k) -> inHandler k = true -> level k = IntOff -> 0 <= now k < horizon ->
  due k <> [] -> (length (due k) <= n)%nat ->
  exists k', fire CallBack n k = Ok k' /\ fired (due k) k k' /\ wf k' /\ inv (pending k') (dev k') /\
    inHandler k' = true /\ level k' = IntOff /\ due k' = [] /\ same_clock k k'.
Proof using HH.
  revert k. induction n as [|n IH]; intros k Hw Hi Hh Hl Hn Hne Hlen; [destruct (due k); [done|simpl in Hlen; lia]|].
  pose proof (due_head k Hw) as Hhd. destruct (due k) as [|p ds] eqn:Ed; [done|]. destruct Hhd as (ps & Hp & Hle).
  pose proof (pop_due k p ps Hp Hle) as Hpop. rewrite Ed in Hpop. injection Hpop as Hds.
  cbn [fire]. rewrite Hp. cbn [Seq.RemoveFront bind].
  destruct (handler_ok p ps k Hp Hw Hi Hh Hl Hle Hn) as (k1 & Hcb & Hw1 & Hi1 & [(Ht1 & Ht2 & Ht3 & Ht4) H2 H3 H4 H5 H6]).
  rewrite Hcb. cbn [bind]. simpl in H2, H3, H4, H6.
  assert (Hn1 : now k1 = now k) by exact Ht1. rewrite <- Hds in H5.
  pose proof (due_head k1 Hw1) as Hhd1. rewrite H5 in Hhd1.
  destruct ds as [|q ds].
  - exists k1. split.
    { destruct (pending k1) as [|q qs]; [done|]. by rewrite bool_decide_eq_false_2 by lia. }
    split; [by econstructor; [..|constructor]|]. split_and!; try done; by rewrite ?H3, ?H2.
  - destruct Hhd1 as (qs & Hq & Hqle). rewrite Hq. rewrite bool_decide_eq_true_2 by done.
    destruct (IH k1 Hw1 Hi1) as (k2 & -> & Hf & Hw2 & Hi2 & Hh2 & Hl2 & Hd2 & (Hc1 & Hc2 & Hc3 & Hc4 & Hc5 & Hc6));
      [by rewrite H3|by rewrite H2|lia|by rewrite H5|rewrite H5; simpl in *; lia|].
    exists k2. split; [done|]. rewrite H5 in Hf. split; [by econstructor|].
    split_and!; try done; unfold same_clock; cbn in Ht2, Ht3, Ht4; split_and!; congruence.
Qed.

Definition machine_ok (k : kernel) : Prop :=
  match machine k with Some m => Machine.regs_ok m | None => True end.

(** An interrupt completes the processor's delayed load, and nothing else of it. *)
Definition settled (k k' : kernel) : Prop :=
  match machine k with
  | None => machine k' = None
  | Some m => exists m', Machine.DelayedLoad 0 0 m = Ok m' /\ machine k' = Some m'
  end.

Lemma settle_load_ok k : machine_ok k -> exists k', settle_load k = Ok k' /\
  pending k' = pending k /\ dev k' = dev k /\ stats k' = stats k /\ level k' = level k /\
  status k' = status k /\ allocated k' = allocated k /\ inHandler k' = inHandler k /\
  yieldOnReturn k' = yieldOnReturn k /\ machine_ok k' /\ settled k k'.
Proof using Type.
  unfold machine_ok, settle_load, settled. destruct (machine k) as [m|] eqn:Hk; [|exists k; by rewrite Hk].
  intros Hm. destruct (Machine.DelayedLoad_ok m 0 0 Hm) as (m' & -> & Hm' & _); [by vm_compute|by vm_compute|].
  cbn [bind]. eexists. do 9 (split; [done|]). split; [done|]. by exists m'.
Qed.

(** The parts of the state [wf] depends on. *)
Lemma wf_ext k k' :
  wf k -> pending k' = pending k -> allocated k' = allocated k -> stats k' = stats k -> wf k'.
Proof using Type. intros [? ? ? ? ? ?] Hp Ha Hs. unfold now in *. split; unfold now; rewrite ?Hp, ?Ha, ?Hs; done. Qed.

Lemma wf_now k : wf k -> 0 <= now k.
Proof using Type. intros [_ _ _ _ (? & ? & ?) ->]. lia. Qed.

Lemma roll_forward_wf p k :
  wf k -> now k < when p < 2 ^ 31 -> wf (roll_forward p k) /\ now (roll_forward p k) = when p /\
    idleTicks (stats (roll_forward p k)) = idleTicks (stats k) + (when p - now k).
Proof using Type.
  intros Hw Hp. pose proof (wf_now k Hw) as Hn. destruct Hw as [? ? ? ? (? & ? & ?) Hc]. unfold roll_forward, now, set_ticks in *. cbn -[Z.pow] in *.
  assert (wrap32 (when p - totalTicks (stats k)) = when p - totalTicks (stats k)) as -> by (apply wrap32_small; unfold int_range; lia).
  rewrite !wrap32_small by (unfold int_range; lia). split; [|done].
  split; unfold now; cbn -[Z.pow]; rewrite ?wrap32_small by (unfold int_range; lia); done || lia.
Qed.

Lemma tick_wf k :
  wf k -> now k < horizon -> wf (tick k) /\
  now (tick k) = now k + (if bool_decide (status k = SystemMode) then SystemTick else UserTick).
Proof using Type.
  intros Hw Hn. pose proof (wf_now k Hw) as H0. destruct Hw as [? ? ? ? (? & ? & ?) Hc].
  unfold tick, now, set_ticks, horizon, SystemTick, UserTick in *.
  destruct (status k); rewrite ?bool_decide_eq_true_2, ?bool_decide_eq_false_2 by done; cbn -[Z.pow] in *;
    rewrite !wrap32_small by (unfold int_range; lia); (split; [|done]);
    split; unfold now; cbn -[Z.pow]; rewrite ?wrap32_small by (unfold int_range; lia); done || lia.
Qed.

(** The state in which the first handler runs. *)
Definition delivering (adv : bool) (k k0 : kernel) (t : Z) : Prop :=
  pending k0 = pending k /\ dev k0 = dev k /\ now k0 = t /\ inHandler k0 = true /\ level k0 = IntOff /\
  status k0 = status k /\ yieldOnReturn k0 = yieldOnReturn k /\ machine_ok k0.

Lemma CheckIfDue_ok adv k p ps :
  wf k -> inv (pending k) (dev k) -> machine_ok k -> level k = IntOff -> pending k = p :: ps ->
  adv = true \/ when p <= now k -> Z.max (now k) (when p) < horizon ->
  exists k0 k1 k', CheckIfDue CallBack adv k = Ok (true, k') /\
    delivering adv k k0 (Z.max (now k) (when p)) /\
    fired (filter (is_due (Z.max (now k) (when p))) (pending k)) k0 k1 /\ k' = set_inHandler false k1 /\
    wf k' /\ inv (pending k') (dev k') /\ due k' = [] /\ now k' = Z.max (now k) (when p) /\
    level k' = IntOff /\ status k' = status k /\ settled k k' /\
    idleTicks (stats k') = idleTicks (stats k) + (now k' - now k).
Proof using HH.
  intros Hw Hi Hm Hl Hp Hadv Hmax. unfold CheckIfDue. rewrite bool_decide_eq_true_2 by done. cbn [assert bind].
  rewrite Hp. pose proof (wf_now k Hw) as H0.
  assert (Hnb : bool_decide (now k < when p) && negb adv = false).
  { destruct Hadv as [-> | Hle]; [apply andb_false_r|]. by rewrite bool_decide_eq_false_2 by lia. }
  rewrite Hnb. clear Hnb.
  set (k1 := if bool_decide (now k < when p) then roll_forward p k else k).
  assert (Hk1 : wf k1 /\ now k1 = Z.max (now k) (when p) /\ pending k1 = pending k /\ dev k1 = dev k /\
    level k1 = level k /\ status k1 = status k /\ machine k1 = machine k /\ yieldOnReturn k1 = yieldOnReturn k /\
    idleTicks (stats k1) = idleTicks (stats k) + (now k1 - now k)).
  { subst k1. unfold horizon in Hmax. case_bool_decide as Hlt.
    - destruct (roll_forward_wf p k Hw) as (Hw1 & Hn1 & Hi1); [lia|]. rewrite Hn1. split_and!; try done; lia.
    - split_and!; try done; lia. }
  clearbody k1. destruct Hk1 as (Hw1 & Hn1 & Hp1 & Hd1 & Hl1 & Hs1 & Hma1 & Hy1 & Hid1).
  destruct (settle_load_ok k1) as (k2 & -> & Hp2 & Hd2 & Hst2 & Hl2 & Hs2 & Ha2 & Hh2 & Hy2 & Hm2 & Hset); [by unfold machine_ok; rewrite Hma1|].
  cbn [bind]. pose proof (wf_ext k1 k2 Hw1 Hp2 Ha2 Hst2) as Hw2.
  set (k3 := set_inHandler true k2). assert (Hw3 : wf k3) by by apply (wf_ext k2).
  assert (Hn3 : now k3 = Z.max (now k) (when p)) by (rewrite <- Hn1; unfold now; by rewrite <- Hst2).
  assert (Hp3 : pending k3 = pending k) by (simpl; congruence).
  assert (Hdue : due k3 = filter (is_due (Z.max (now k) (when p))) (pending k)) by (unfold due; by rewrite Hn3, Hp3).
  destruct (fire_ok (length (pending k2)) k3) as (k4 & Hf & Hfired & Hw4 & Hi4 & Hh4 & Hl4 & Hdue4 & (Hc1 & Hc2 & _ & _ & Hc5 & Hc6)).
  { done. } { rewrite Hp3. simpl. by rewrite Hd2, Hd1. } { done. } { simpl. congruence. } { lia. }
  { rewrite Hdue, Hp, filter_cons_True by (unfold is_due; lia). done. }
  { unfold due. change (pending k3) with (pending k2). apply length_filter. }
  rewrite Hf. cbn [bind]. exists k3, k4, (set_inHandler false k4). split; [done|].
  split. { split_and!; simpl; try congruence. exact Hm2. }
  split; [by rewrite <- Hp, <- Hdue|]. split; [done|]. split; [by apply (wf_ext k4)|].
  simpl in *. split_and!; try done.
  - change (now k4 = Z.max (now k) (when p)). congruence.
  - congruence.
  - unfold settled in *. rewrite Hma1 in Hset. change (machine k4 = machine k2) in Hc6.
    change (machine (set_inHandler false k4)) with (machine k4). by rewrite Hc6.
  - change (now (set_inHandler false k4)) with (now k4). rewrite Hc2, Hst2, Hid1. congruence.
Qed.

Lemma CheckIfDue_quiet adv k :
  level k = IntOff -> match pending k with [] => True | p :: _ => adv = false /\ now k < when p end ->
  CheckIfDue CallBack adv k = Ok (false, k).
Proof using Type.
  intros Hl Hp. unfold CheckIfDue. rewrite bool_decide_eq_true_2 by done. cbn [assert bind].
  destruct (pending k) as [|p ps]; [done|]. destruct Hp as [-> Hlt]. by rewrite bool_decide_eq_true_2.
Qed.

(** One call, whatever is pending. *)
Lemma CheckIfDue_false_ok k :
  wf k -> inv (pending k) (dev k) -> machine_ok k -> level k = IntOff -> now k < horizon ->
  exists b k', CheckIfDue CallBack false k = Ok (b, k') /\ wf k' /\ inv (pending k') (dev k') /\
    due k' = [] /\ now k' = now k /\ level k' = IntOff /\ status k' = status k /\
    (machine k' = machine k \/ settled k k') /\ (inHandler k = false -> inHandler k' = false).
Proof using HH.
  intros Hw Hi Hm Hl Hn. pose proof (due_head k Hw) as Hd. destruct (due k) as [|p ds] eqn:Ed.
  - exists false, k. split; [|split_and!; try done; by left]. apply CheckIfDue_quiet; [done|]. by destruct (pending k).
  - destruct Hd as (ps & Hp & Hle).
    destruct (CheckIfDue_ok false k p ps Hw Hi Hm Hl Hp) as (k0 & k1 & k' & -> & _ & _ & Hk' & Hw' & Hi' & Hd' & Hn' & Hl' & Hs' & Hset & _);
      [by right|lia|]. exists true, k'. split_and!; try done; [lia|by right|by rewrite Hk'].
Qed.

(** A tick: what is due has been delivered when a yield is considered. *)
Lemma OneTick_ok Yield k :
  wf k -> inv (pending k) (dev k) -> machine_ok k -> inHandler k = false -> now k + SystemTick < horizon ->
  exists k1, wf k1 /\ inv (pending k1) (dev k1) /\ due k1 = [] /\ level k1 = IntOn /\ status k1 = status k /\
    now k1 = now k + (if bool_decide (status k = SystemMode) then SystemTick else UserTick) /\
    inHandler k1 = false /\ (machine k1 = machine k \/ settled k k1) /\
    OneTick CallBack Yield k =
      (if yieldOnReturn k1
       then k2 <- Yield (setStatus SystemMode (set_yieldOnReturn false k1)) ;; Ok (setStatus (status k) k2)
       else Ok k1).
Proof using HH.
  intros Hw Hi Hm Hh Hn. unfold OneTick, ChangeLevel. set (kt := set_level IntOff (tick k)).
  destruct (tick_wf k Hw) as [Hwt Hnt]; [unfold SystemTick in *; lia|].
  assert (Hwk : wf kt) by by apply (wf_ext (tick k)).
  destruct (CheckIfDue_false_ok kt Hwk) as (b & k1 & Hc & Hw1 & Hi1 & Hd1 & Hn1 & Hl1 & Hs1 & Hma & Hh1); [done|done|done| |].
  { change (now (tick k) < horizon). rewrite Hnt. unfold SystemTick, UserTick in *. case_match; lia. }
  exists (set_level IntOn k1). split; [by apply (wf_ext k1)|]. split_and!; try done; [|by apply Hh1|].
  - transitivity (now kt); [exact Hn1|exact Hnt].
  - rewrite Hc. cbn [bind]. change (yieldOnReturn (set_level IntOn k1)) with (yieldOnReturn k1). done.
Qed.

(** ** Properties *)

(** C9: [CheckIfDue] delivers exactly the interrupts whose time has come.  With
    nothing due (and no permission to advance the clock) it changes nothing and
    returns FALSE.  Otherwise a delayed load is completed, the clock ends at the later of now and the first
    pending time, the loop terminates after running the handlers of all pending
    interrupts due at that time, each once, in order of time and of scheduling,
    no due interrupt is left, the skipped time is accounted as idle, and
    interrupts are off throughout. *)
Theorem CheckIfDue_delivers adv k :
  wf k -> inv (pending k) (dev k) -> machine_ok k -> level k = IntOff ->
  match pending k with
  | [] => CheckIfDue CallBack adv k = Ok (false, k)
  | p :: _ =>
      if bool_decide (now k < when p) && negb adv then CheckIfDue CallBack adv k = Ok (false, k)
      else
        Z.max (now k) (when p) < horizon ->
        exists k0 k1 k', CheckIfDue CallBack adv k = Ok (true, k') /\
          delivering adv k k0 (Z.max (now k) (when p)) /\
          fired (filter (is_due (Z.max (now k) (when p))) (pending k)) k0 k1 /\ k' = set_inHandler false k1 /\
          wf k' /\ inv (pending k') (dev k') /\ due k' = [] /\ now k' = Z.max (now k) (when p) /\
          level k' = IntOff /\ status k' = status k /\ settled k k' /\
          idleTicks (stats k') = idleTicks (stats k) + (now k' - now k)
  end.
Proof using HH.
  intros Hw Hi Hm Hl. destruct (pending k) as [|p ps] eqn:Hp.
  - apply CheckIfDue_quiet; [done|by rewrite Hp].
  - destruct (bool_decide (now k < when p) && negb adv) eqn:E.
    + apply andb_true_iff in E as [E%bool_decide_eq_true Ha%negb_true_iff].
      apply CheckIfDue_quiet; [done|by rewrite Hp].
    + intros Hmax. rewrite <- Hp in Hi |- *. apply (CheckIfDue_ok adv k p ps); try done.
      apply andb_false_iff in E as [E%bool_decide_eq_false | Ha%negb_false_iff]; [right; lia|by left].
Qed.

(** [SetLevel] asserts when an interrupt handler enables interrupts; disabling
    (or setting the level that holds) moves no clock; enabling disabled
    interrupts advances time by one system tick (a user tick in user mode) and
    delivers all that is then due, with interrupts off, before it turns them on;
    the running thread yields afterwards exactly when a handler asked for it. *)
Theorem SetLevel_advances_time Yield k :
  wf k -> inv (pending k) (dev k) -> machine_ok k -> now k + SystemTick < horizon ->
  (inHandler k = true -> SetLevel CallBack Yield IntOn k = Fault AssertFailed) /\
  SetLevel CallBack Yield IntOff k = Ok (level k, set_level IntOff k) /\
  (inHandler k = false -> level k = IntOn -> SetLevel CallBack Yield IntOn k = Ok (IntOn, set_level IntOn k)) /\
  (inHandler k = false -> level k = IntOff ->
   exists k1, wf k1 /\ inv (pending k1) (dev k1) /\ due k1 = [] /\ level k1 = IntOn /\ status k1 = status k /\
     now k1 = now k + (if bool_decide (status k = SystemMode) then SystemTick else UserTick) /\
     SetLevel CallBack Yield IntOn k =
       (k2 <- (if yieldOnReturn k1
               then k2 <- Yield (setStatus SystemMode (set_yieldOnReturn false k1)) ;; Ok (setStatus (status k) k2)
               else Ok k1) ;;
        Ok (IntOff, k2))).
Proof using HH.
  intros Hw Hi Hm Hn. unfold SetLevel. split_and!.
  - intros ->. done.
  - done.
  - intros -> ->. done.
  - intros Hh ->. rewrite Hh. cbn [negb orb]. rewrite orb_true_r. cbn [assert bind].
    change (bool_decide (IntOn = IntOn) && bool_decide (IntOff = IntOff)) with true. cbv iota.
    destruct (OneTick_ok Yield (set_level IntOn k)) as (k1 & Hw1 & Hi1 & Hd1 & Hl1 & Hs1 & Hn1 & _ & _ & Ho); try done.
    { by apply (wf_ext k). }
    exists k1. split_and!; try done. unfold ChangeLevel. rewrite Ho. by destruct (yieldOnReturn k1); [destruct (Yield _)|].
Qed.
End contract.
End Interrupt.
End Interrupt.
