(* ===== verification/Timer.v ===== *)
(** * machine/timer.{h,cc}, threads/alarm.{h,cc}: the timer device and time slicing

    The timer is the one device with pending interrupts in this model's kernel,
    next to the state [E] of everything else, so that the class [Handlers] has a
    complete instance: the timer reschedules itself from its own interrupt and the
    alarm asks the interrupted thread to yield. *)

From S2P Require Import Prelude LibList Machine Interrupt.

Module Timer.
Import Interrupt.

(** The object with a [CallBack]: the one [Timer], whose [callPeriodically] is
    the [Alarm] that created it. *)
Inductive device := TheTimer.
#[export] Instance device_eq_dec : EqDecision device.
Proof. solve_decision. Defined.

(** [draws]: how many random numbers were taken. *)
Record timer := mkTimer { randomize : bool; disable : bool; draws : nat }.

Abbreviation kernel E := (@Interrupt.kernel device (timer * E)).

Section Timer.
Context {E : Type}.
Implicit Types k : kernel E.

Definition the_timer k : timer := fst (dev k).
Definition set_timer (t : timer) k : kernel E := set_dev (t, snd (dev k)) k.

(** [RandomNumber()] is the host's [rand]: its successive values. *)
Context (RandomNumber : nat -> Z).

Definition SetInterrupt k : result (kernel E) :=
  let d := the_timer k in
  if disable d then Ok k
  else
    let '(delay, k) :=
      if randomize d then
        (1 + Z.rem (RandomNumber (draws d)) (TimerTicks * 2),
         set_timer (mkTimer (randomize d) (disable d) (S (draws d))) k)
      else (TimerTicks, k) in
    Schedule TheTimer delay TimerInt k.

(** [Alarm::CallBack()] *)
Definition AlarmCallBack k : result (kernel E) :=
  if bool_decide (getStatus k <> IdleMode) then YieldOnReturn k else Ok k.

(** [Timer::CallBack()] *)
Definition CallBack (c : device) k : result (kernel E) :=
  k <- AlarmCallBack k ;; SetInterrupt k.

(** [Timer::Timer(doRandom, toCall)], called by [Alarm::Alarm(doRandom)]. *)
Definition Timer (doRandom : bool) k : result (kernel E) :=
  SetInterrupt (set_timer (mkTimer doRandom false 0) k).

Definition Disable k : kernel E :=
  set_timer (mkTimer (randomize (the_timer k)) true (draws (the_timer k))) k.

(** The documented range of [rand]. *)
Hypothesis RandomNumber_nonneg : forall i, 0 <= RandomNumber i.

(** A timer that is not disabled has its interrupt pending. *)
Definition armed (ps : list (@PendingInterrupt device)) (d : timer * E) : Prop := disable (fst d) = true \/ ps <> [].

Lemma SetInterrupt_ok k :
  wf k -> 0 <= now k < horizon -> disable (the_timer k) = false ->
  exists k' t, SetInterrupt k = Ok k' /\ wf k' /\ handled k k' /\
    yieldOnReturn k' = yieldOnReturn k /\ machine k' = machine k /\ disable (the_timer k') = false /\ snd (dev k') = snd (dev k) /\
    now k < t <= now k + 2 * TimerTicks /\
    pending k' = Seq.place PendingCompare (mkPending (allocated k) TheTimer t TimerInt) (pending k).
Proof using RandomNumber_nonneg.
  intros Hw Hn Hd. unfold SetInterrupt. rewrite Hd. destruct (randomize (the_timer k)).
  - pose proof (Z.rem_bound_pos (RandomNumber (draws (the_timer k))) (TimerTicks * 2) (RandomNumber_nonneg _) ltac:(done)) as Hr.
    set (k0 := set_timer _ k). assert (Hw0 : wf k0) by by apply (wf_ext k).
    set (r := Z.rem _ _) in *. unfold TimerTicks in *.
    destruct (Schedule_ok k0 TheTimer (1 + r) TimerInt) as (k' & -> & Hw' & Hh & Hd' & _ & Hm' & Hy' & Hp');
      [done|done|unfold horizon; lia|].
    exists k', (now k + (1 + r)). unfold the_timer in *. rewrite Hd'. split_and!; try done; try lia. by destruct Hh.
  - destruct (Schedule_ok k TheTimer TimerTicks TimerInt) as (k' & -> & Hw' & Hh & Hd' & _ & Hm' & Hy' & Hp'); [done..|].
    exists k', (now k + TimerTicks). unfold the_timer in *. rewrite Hd', Hd. unfold TimerTicks in *. split_and!; try done; lia.
Qed.

Lemma place_nonempty (x : @PendingInterrupt device) ps : Seq.place PendingCompare x ps <> [].
Proof using Type. destruct ps; simpl; [done|]. by case_bool_decide. Qed.

(** The timer's interrupt leaves the rest of the kernel alone. *)
Lemma CallBack_ok p ps k :
  pending k = p :: ps -> wf k -> armed (pending k) (dev k) -> inHandler k = true -> level k = IntOff -> when p <= now k -> 0 <= now k < horizon ->
  exists k', CallBack (callOnInterrupt p) (set_pending ps k) = Ok k' /\
    wf k' /\ armed (pending k') (dev k') /\ handled (set_pending ps k) k' /\ snd (dev k') = snd (dev k).
Proof using RandomNumber_nonneg.
  intros Hp Hw Ha Hh Hl Hle Hn. unfold CallBack, AlarmCallBack, YieldOnReturn.
  pose proof (pop_wf k p ps Hw Hp) as Hwp.
  assert (Hy : exists b, (if bool_decide (getStatus (set_pending ps k) <> IdleMode)
      then assert (inHandler (set_pending ps k)) ;; Ok (set_yieldOnReturn true (set_pending ps k))
      else Ok (set_pending ps k)) = Ok (set_yieldOnReturn b (set_pending ps k))).
  { case_bool_decide; [exists true; simpl; by rewrite Hh|]. exists (yieldOnReturn k). done. }
  destruct Hy as (b & ->). cbn [bind]. set (k1 := set_yieldOnReturn b (set_pending ps k)).
  assert (Hw1 : wf k1) by by apply (wf_ext (set_pending ps k)).
  destruct (disable (the_timer k)) eqn:Hd.
  - exists k1. unfold SetInterrupt. change (the_timer k1) with (the_timer k). rewrite Hd. split_and!; try done. by left.
  - destruct (SetInterrupt_ok k1 Hw1 Hn Hd) as (k' & t & -> & Hw' & [H1 H2 H3 H4 H5 H6] & _ & _ & _ & He & _ & Hp').
    exists k'. split_and!; try done. right. rewrite Hp'. apply place_nonempty.
Qed.

#[export] Instance Timer_handlers : Handlers CallBack armed.
Proof using RandomNumber_nonneg.
  split. intros p ps k Hp Hw Ha Hh Hl Hle Hn. destruct (CallBack_ok p ps k Hp Hw Ha Hh Hl Hle Hn) as (k' & H1 & H2 & H3 & H4 & _). by exists k'.
Qed.

(** [e]: the rest of the kernel. *)
Lemma Timer_handlers_rest (e : E) : Handlers CallBack (fun ps d => armed ps d /\ snd d = e).
Proof using RandomNumber_nonneg.
  split. intros p ps k Hp Hw [Ha He] Hh Hl Hle Hn. destruct (CallBack_ok p ps k Hp Hw Ha Hh Hl Hle Hn) as (k' & H1 & H2 & H3 & H4 & H5).
  exists k'. by rewrite H5.
Qed.

Lemma Timer_armed r k :
  wf k -> 0 <= now k < horizon -> exists k', Timer r k = Ok k' /\ wf k' /\ armed (pending k') (dev k').
Proof using RandomNumber_nonneg.
  intros Hw Hn. unfold Timer. destruct (SetInterrupt_ok (set_timer (mkTimer r false 0) k)) as (k' & t & -> & Hw' & _ & _ & _ & _ & _ & _ & Hp');
    [by apply (wf_ext k)|done|done|].
  exists k'. split_and!; try done. right. rewrite Hp'. apply place_nonempty.
Qed.

(** The tick in which the timer's interrupt falls due. *)
Lemma tick_forces_yield Yield k p :
  wf k -> pending k = [p] -> machine_ok k -> disable (the_timer k) = false -> inHandler k = false -> status k <> IdleMode ->
  when p <= now (tick k) -> now k + SystemTick < horizon ->
  exists k1 q, OneTick CallBack Yield k = (k2 <- Yield k1 ;; Ok (setStatus (status k) k2)) /\
    status k1 = SystemMode /\ level k1 = IntOn /\ inHandler k1 = false /\ yieldOnReturn k1 = false /\
    now k1 = now (tick k) /\ pending k1 = [q] /\ callOnInterrupt q = TheTimer /\ now k1 < when q <= now k1 + 2 * TimerTicks /\
    settled k k1 /\ snd (dev k1) = snd (dev k) /\ wf k1.
Proof using RandomNumber_nonneg.
  intros Hw Hp Hm Hd Hh Hs Hle Hn. unfold OneTick, ChangeLevel. set (kt := set_level IntOff (tick k)).
  destruct (tick_wf k Hw) as [Hwt Hnt]; [unfold SystemTick in *; lia|].
  assert (Hwk : wf kt) by by apply (wf_ext (tick k)).
  unfold CheckIfDue. change (level kt) with IntOff. rewrite bool_decide_eq_true_2 by done.
  assert (Hpk : pending kt = [p]) by exact Hp. rewrite Hpk. cbn [assert bind]. change (now kt) with (now (tick k)).
  rewrite bool_decide_eq_false_2 by lia. cbn [andb].
  destruct (settle_load_ok kt Hm) as (k1 & -> & Hp1 & Hd1 & Hst1 & Hl1 & Hs1 & Ha1 & Hh1 & Hy1 & _ & Hset). cbn [bind].
  rewrite Hp1, Hpk. cbn [length fire]. set (k2 := set_inHandler true k1). change (pending k2) with (pending k1).
  rewrite Hp1, Hpk. cbn [Seq.RemoveFront bind]. unfold CallBack, AlarmCallBack, YieldOnReturn, getStatus.
  change (status (set_pending [] k2)) with (status k1). rewrite Hs1. change (status kt) with (status k).
  rewrite bool_decide_eq_true_2 by done. change (inHandler (set_pending [] k2)) with true. cbn [assert bind].
  set (k3 := set_yieldOnReturn true (set_pending [] k2)).
  assert (Hw3 : wf k3) by (apply (wf_ext (set_pending [] kt)); [by apply (pop_wf kt p [])|done..]).
  assert (Hn3 : now k3 = now (tick k)) by (unfold now; simpl; by rewrite Hst1).
  destruct (SetInterrupt_ok k3 Hw3) as (k4 & t & -> & Hw4 & [(H1 & _) H2 H3 H4 H5 H6] & Hy4 & Hm4 & Hd4 & He4 & Ht & Hp4).
  { rewrite Hn3, Hnt. pose proof (wf_now k Hw). unfold SystemTick, UserTick in *. case_match; lia. }
  { change (the_timer k3) with (fst (dev k1)). by rewrite Hd1. }
  cbn [bind]. change (pending k3) with (@nil (@PendingInterrupt device)) in Hp4. cbn [Seq.place] in Hp4. rewrite Hp4.
  rewrite bool_decide_eq_false_2 by (simpl; lia). cbn [bind].
  change (yieldOnReturn (set_level IntOn (set_inHandler false k4))) with (yieldOnReturn k4). rewrite Hy4.
  change (yieldOnReturn k3) with true. cbv iota.
  exists (setStatus SystemMode (set_yieldOnReturn false (set_level IntOn (set_inHandler false k4)))),
    (mkPending (allocated k3) TheTimer t TimerInt). split; [done|].
  assert (Hn4 : now k4 = now (tick k)) by congruence.
  split_and!; try done; try (change (now (setStatus SystemMode _)) with (now k4)); [..|by apply (wf_ext k4)].
  - change (now k4 < t). lia.
  - change (t <= now k4 + 2 * TimerTicks). lia.
  - unfold settled in *. change (machine (setStatus SystemMode _)) with (machine k4). rewrite Hm4. exact Hset.
  - change (snd (dev k4) = snd (dev k)). rewrite He4. change (snd (dev k1) = snd (dev k)). by rewrite Hd1.
Qed.

(** ** Properties *)

(** while the timer is enabled the idle machine never halts: [Idle] always
    finds the timer's interrupt, moves the clock to it, delivers it without
    asking for a yield (nothing runs), and the timer is armed again. *)
Theorem Idle_never_halts_with_timer k p ps :
  wf k -> armed (pending k) (dev k) -> machine_ok k -> level k = IntOff ->
  disable (the_timer k) = false -> pending k = p :: ps -> Z.max (now k) (when p) < horizon ->
  exists k', Idle CallBack k = Ok (Some k') /\ now k' = Z.max (now k) (when p) /\
    status k' = SystemMode /\ wf k' /\ armed (pending k') (dev k') /\ due k' = [].
Proof using RandomNumber_nonneg.
  intros Hw Ha Hm Hl Hd Hp Hn. unfold Idle. set (k0 := setStatus IdleMode k).
  assert (Hw0 : wf k0) by by apply (wf_ext k).
  destruct (CheckIfDue_ok CallBack armed true k0 p ps Hw0 Ha Hm Hl Hp) as
    (k1 & k2 & k3 & -> & _ & _ & _ & Hw3 & Ha3 & Hdue & Hn3 & _); [by left|done|].
  cbn [bind]. eexists. split; [done|]. split_and!; try done. by apply (wf_ext k3).
Qed.

(** time slicing: when the timer's interrupt falls due in the tick that ends a
    critical section, the running thread is made to yield, in system mode, once
    the handlers are done; the timer's next interrupt is then pending at most
    two time slices later. *)
Theorem timer_forces_yield Yield k p :
  wf k -> pending k = [p] -> callOnInterrupt p = TheTimer -> machine_ok k ->
  disable (the_timer k) = false -> inHandler k = false -> level k = IntOff -> status k = SystemMode ->
  when p <= now k + SystemTick -> now k + SystemTick < horizon ->
  exists k1 q, SetLevel CallBack Yield IntOn k =
      (k2 <- Yield k1 ;; Ok (IntOff, setStatus SystemMode k2)) /\
    status k1 = SystemMode /\ level k1 = IntOn /\ inHandler k1 = false /\ yieldOnReturn k1 = false /\
    now k1 = now k + SystemTick /\ pending k1 = [q] /\ callOnInterrupt q = TheTimer /\
    now k1 < when q <= now k1 + 2 * TimerTicks.
Proof using RandomNumber_nonneg.
  intros Hw Hp Hc Hm Hd Hh Hl Hs Hle Hn. unfold SetLevel. rewrite Hh, Hl.
  change (bool_decide (IntOn = IntOn) && bool_decide (IntOff = IntOff)) with true. cbn [negb]. rewrite orb_true_r. cbn [assert bind].
  assert (Ht : now (tick (set_level IntOn k)) = now k + SystemTick).
  { assert (Hn0 : now (set_level IntOn k) < horizon) by (change (now k < horizon); unfold SystemTick in *; lia).
    destruct (tick_wf (set_level IntOn k)) as [_ ->]; [by apply (wf_ext k)|done|]. change (status (set_level IntOn k)) with (status k). by rewrite Hs. }
  destruct (tick_forces_yield Yield (set_level IntOn k) p) as (k1 & q & Ho & H1 & H2 & H3 & H4 & H5 & H6 & H7 & H8 & _); try done.
  { by apply (wf_ext k). }
  { change (status k <> IdleMode). by rewrite Hs. }
  { by rewrite Ht. }
  exists k1, q. unfold ChangeLevel. rewrite Ho. change (status (set_level IntOn k)) with (status k). rewrite Hs.
  split; [by destruct (Yield _)|]. split_and!; try done; try lia.
Qed.
End Timer.

(** ** Witnesses *)

(** A timer with a fixed slice, started at time 0. *)
Definition started : kernel unit :=
  let k0 := Interrupt None (mkTimer false false 0, tt) in match Timer (fun _ => 0) false k0 with Ok k => k | Fault _ => k0 end.

Definition first_slice : @PendingInterrupt device := mkPending 0 TheTimer 100 TimerInt.

Lemma one_pending_wf {E} (k : kernel E) p :
  pending k = [p] -> self p < allocated k -> 0 <= when p < 2 ^ 31 ->
  0 <= idleTicks (stats k) /\ 0 <= systemTicks (stats k) /\ 0 <= userTicks (stats k) ->
  now k = idleTicks (stats k) + systemTicks (stats k) + userTicks (stats k) -> wf k.
Proof.
  intros Hp Ha Hw Ht Hc. split; rewrite ?Hp; try done; [by repeat constructor|apply NoDup_singleton|..];
    by intros q ->%list_elem_of_singleton.
Qed.

Lemma started_wf : wf started /\ pending started = [first_slice].
Proof.
  split; [|reflexivity]. by apply (one_pending_wf _ first_slice).
Defined.

(** The clock just before the first slice ends. *)
Definition near_slice : kernel unit := set_stats (set_ticks 95 0 95 0 zero_stats) started.

Lemma near_slice_wf : wf near_slice.
Proof.
  by apply (one_pending_wf _ first_slice).
Defined.

Lemma CheckIfDue_delivers_witness :
  wf started /\ exists k', CheckIfDue (CallBack (fun _ => 0)) true started = Ok (true, k') /\ now k' = 100.
Proof.
  split; [exact (proj1 started_wf)|].
  destruct (CheckIfDue_delivers (CallBack (fun _ => 0)) armed
    (HH := Timer_handlers (fun _ => 0) (fun _ => Z.le_refl 0)) true started) as (_ & _ & k' & H & _ & _ & _ & _ & _ & _ & Hn & _);
    [exact (proj1 started_wf)|by right|done|done|by vm_compute|]. by exists k'.
Defined.

Lemma SetLevel_advances_time_witness :
  wf started /\ SetLevel (CallBack (fun _ => 0)) Ok IntOff started = Ok (IntOff, started).
Proof.
  split; [exact (proj1 started_wf)|].
  apply (SetLevel_advances_time (CallBack (fun _ => 0)) armed
    (HH := Timer_handlers (fun _ => 0) (fun _ => Z.le_refl 0)) Ok started);
    [exact (proj1 started_wf)|by right|done|by vm_compute].
Defined.

Lemma Idle_never_halts_with_timer_witness :
  wf started /\ exists k', Idle (CallBack (fun _ => 0)) started = Ok (Some k') /\ now k' = 100.
Proof.
  split; [exact (proj1 started_wf)|].
  destruct (Idle_never_halts_with_timer (fun _ => 0) (fun _ => Z.le_refl 0) started first_slice [])
    as (k' & H & Hn & _); [exact (proj1 started_wf)|by right|done..|]. by exists k'.
Defined.

Lemma timer_forces_yield_witness :
  wf near_slice /\ exists k1, SetLevel (CallBack (fun _ => 0)) Ok IntOn near_slice = Ok (IntOff, setStatus SystemMode k1).
Proof.
  split; [exact near_slice_wf|].
  destruct (timer_forces_yield (fun _ => 0) (fun _ => Z.le_refl 0) Ok near_slice first_slice) as (k1 & q & H & _);
    [exact near_slice_wf|reflexivity..|by vm_compute|by vm_compute|]. by exists k1.
Defined.
End Timer.
