(* ===== verification/ContextSwitch.v ===== *)
(** * threads/switch.{h,S}, threads/thread.cc: stacks and the context switch

    The x86 code of [SWITCH] and [ThreadRoot], the build's, as instructions of a
    small processor over a memory of words; and what [Thread] keeps in memory for
    it: the stack with its fence post and the saved registers, as
    [StackAllocate] makes them. *)

From S2P Require Import Prelude.

Module ContextSwitch.

(** ** The processor of the host *)

Inductive reg := EAX | EBX | ECX | EDX | EBP | ESI | EDI | ESP.

Record registers := mkRegs { eax : Z; ebx : Z; ecx : Z; edx : Z; ebp : Z; esi : Z; edi : Z; esp : Z }.

Definition get (r : reg) (g : registers) : Z :=
  match r with EAX => eax g | EBX => ebx g | ECX => ecx g | EDX => edx g | EBP => ebp g | ESI => esi g | EDI => edi g | ESP => esp g end.
Definition set (r : reg) (v : Z) (g : registers) : registers :=
  let '(mkRegs a b c d bp si di sp) := g in
  match r with
  | EAX => mkRegs v b c d bp si di sp | EBX => mkRegs a v c d bp si di sp | ECX => mkRegs a b v d bp si di sp | EDX => mkRegs a b c v bp si di sp
  | EBP => mkRegs a b c d v si di sp | ESI => mkRegs a b c d bp v di sp | EDI => mkRegs a b c d bp si v sp | ESP => mkRegs a b c d bp si di v
  end.

(** Memory as 32-bit words at their addresses; what is not there faults. *)
Abbreviation memory := (gmap Z Z).
Definition peek (a : Z) (m : memory) : result Z := match m !! a with Some v => Ok v | None => Fault OutOfBounds end.
Definition poke (a v : Z) (m : memory) : result memory := match m !! a with Some _ => Ok (<[a := v]> m) | None => Fault OutOfBounds end.

Record cpu := mkCpu { regs : registers; words : memory }.

(** A register, a word at a distance from one, a word at a symbol. *)
Inductive operand := Reg (r : reg) | At (d : Z) (r : reg) | Sym (a : Z).

Definition address (o : operand) (g : registers) : Z :=
  match o with At d r => u32 (get r g + d) | Sym a => a | Reg _ => 0 end.
Definition load (o : operand) (c : cpu) : result Z :=
  match o with Reg r => Ok (get r (regs c)) | _ => peek (address o (regs c)) (words c) end.
Definition store (o : operand) (v : Z) (c : cpu) : result cpu :=
  match o with
  | Reg r => Ok (mkCpu (set r v (regs c)) (words c))
  | _ => m <- poke (address o (regs c)) v (words c) ;; Ok (mkCpu (regs c) m)
  end.

(** [movl src,dst]; [pushl src]; [popl r]; [ret], which gives the address where the
    processor goes on. *)
Definition movl (src dst : operand) (c : cpu) : result cpu := v <- load src c ;; store dst v c.
Definition push (v : Z) (c : cpu) : result cpu :=
  let sp := u32 (esp (regs c) - 4) in
  m <- poke sp v (words c) ;; Ok (mkCpu (set ESP sp (regs c)) m).
Definition pushl (src : operand) (c : cpu) : result cpu := v <- load src c ;; push v c.
Definition popl (r : reg) (c : cpu) : result cpu :=
  v <- peek (esp (regs c)) (words c) ;; Ok (mkCpu (set r v (set ESP (u32 (esp (regs c) + 4)) (regs c))) (words c)).
Definition ret (c : cpu) : result (Z * cpu) :=
  v <- peek (esp (regs c)) (words c) ;; Ok (v, mkCpu (set ESP (u32 (esp (regs c) + 4)) (regs c)) (words c)).

(** ** switch.h: where a Thread keeps its registers *)

Definition _ESP : Z := 0.
Definition _EAX : Z := 4.
Definition _EBX : Z := 8.
Definition _ECX : Z := 12.
Definition _EDX : Z := 16.
Definition _EBP : Z := 20.
Definition _ESI : Z := 24.
Definition _EDI : Z := 28.
Definition _PC : Z := 32.

Definition PCState : Z := _PC / 4 - 1.
Definition InitialPCState : Z := _ESI / 4 - 1.
Definition InitialArgState : Z := _EDX / 4 - 1.
Definition WhenDonePCState : Z := _EDI / 4 - 1.
Definition StartupPCState : Z := _ECX / 4 - 1.

(** ** switch.S *)

Section code.
(** The address of [_eax_save]. *)
Context (eax_save : Z).

(** The instructions of [SWITCH] before its [ret]. *)
Definition save_code : list (operand * operand) :=
  [(Reg EAX, Sym eax_save);
   (At 4 ESP, Reg EAX);
   (Reg EBX, At _EBX EAX);
   (Reg ECX, At _ECX EAX);
   (Reg EDX, At _EDX EAX);
   (Reg ESI, At _ESI EAX);
   (Reg EDI, At _EDI EAX);
   (Reg EBP, At _EBP EAX);
   (Reg ESP, At _ESP EAX);
   (Sym eax_save, Reg EBX);
   (Reg EBX, At _EAX EAX);
   (At 0 ESP, Reg EBX);
   (Reg EBX, At _PC EAX)].
Definition restore_code : list (operand * operand) :=
  [(At 8 ESP, Reg EAX);
   (At _EAX EAX, Reg EBX);
   (Reg EBX, Sym eax_save);
   (At _EBX EAX, Reg EBX);
   (At _ECX EAX, Reg ECX);
   (At _EDX EAX, Reg EDX);
   (At _ESI EAX, Reg ESI);
   (At _EDI EAX, Reg EDI);
   (At _EBP EAX, Reg EBP);
   (At _ESP EAX, Reg ESP);
   (At _PC EAX, Reg EAX);
   (Reg EAX, At 4 ESP);
   (Sym eax_save, Reg EAX)].

Fixpoint movs (l : list (operand * operand)) (c : cpu) : result cpu :=
  match l with [] => Ok c | (src, dst) :: l => c <- movl src dst c ;; movs l c end.

(** [SWITCH]: where it returns, and with what. *)
Definition SWITCH (c : cpu) : result (Z * cpu) := c <- movs save_code c ;; c <- movs restore_code c ;; ret c.

(** *** What the two halves do *)

Lemma poke_ok a v (m : memory) : is_Some (m !! a) -> poke a v m = Ok (<[a := v]> m).
Proof using Type. intros [x Hx]. unfold poke. by rewrite Hx. Qed.
Lemma peek_ok a v (m : memory) : m !! a = Some v -> peek a m = Ok v.
Proof using Type. intros Hx. unfold peek. by rewrite Hx. Qed.
Lemma mapped_insert a b v (m : memory) : is_Some (m !! a) -> is_Some (<[b := v]> m !! a).
Proof using Type. intros H. destruct (decide (b = a)) as [->|E]; [rewrite lookup_insert_eq|rewrite lookup_insert_ne by done]; [by eexists|done]. Qed.

(** The nine words of a Thread that [SWITCH] uses. *)
Record thread_at (t : Z) (m : memory) : Prop := {
  th_range : 0 <= t /\ t + 36 <= 2 ^ 32;
  th_mapped : forall k, 0 <= k <= 8 -> is_Some (m !! (t + 4 * k));
  th_apart : eax_save < t \/ t + 36 <= eax_save
}.

(** The memory after the first half. *)
Definition saved (t : Z) (g : registers) (pc : Z) (m : memory) : memory :=
  <[t + _PC := pc]> (<[t + _EAX := eax g]> (<[t + _ESP := esp g]> (<[t + _EBP := ebp g]> (<[t + _EDI := edi g]> (<[t + _ESI := esi g]>
    (<[t + _EDX := edx g]> (<[t + _ECX := ecx g]> (<[t + _EBX := ebx g]> (<[eax_save := eax g]> m))))))))).

(** The words on the stack of a caller: the return address and the arguments. *)
Record called (sp pc t1 t2 : Z) (m : memory) : Prop := {
  ca_range : 0 <= sp /\ sp + 12 <= 2 ^ 32;
  ca_pc : m !! sp = Some pc;
  ca_t1 : m !! (sp + 4) = Some t1;
  ca_t2 : m !! (sp + 8) = Some t2;
  ca_apart : eax_save < sp \/ sp + 12 <= eax_save
}.

Definition away (sp t : Z) : Prop := sp + 12 <= t \/ t + 36 <= sp.

Ltac offsets := unfold _ESP, _EAX, _EBX, _ECX, _EDX, _EBP, _ESI, _EDI, _PC, away in *.
(** A word of the memory through the writes before. *)
Ltac look := offsets; repeat first [rewrite lookup_insert_eq | rewrite lookup_insert_ne by lia].

(** One instruction: its load or its store of a word that is there. *)
Ltac step :=
  cbn [movs movl load store address get set regs words eax ebx ecx edx ebp esi edi esp bind];
  first
  [ rewrite u32_small by lia; rewrite poke_ok by (repeat apply mapped_insert; assumption)
  | rewrite u32_small by lia; erewrite peek_ok by (look; first [eassumption | reflexivity])
  | rewrite poke_ok by (repeat apply mapped_insert; assumption)
  | erewrite peek_ok by (look; first [eassumption | reflexivity]) ];
  cbn [bind].

Lemma save_ok g m pc t1 t2 : called (esp g) pc t1 t2 m -> thread_at t1 m -> away (esp g) t1 -> is_Some (m !! eax_save) ->
  movs save_code (mkCpu g m) = Ok (mkCpu (set EBX pc (set EAX t1 g)) (saved t1 g pc m)).
Proof using Type.
  intros [C1 C2 C3 C4 C5] [T1 T2 T3] Ha Hs. destruct g as [a b c d bp si di sp]. cbn [esp] in *. unfold save_code.
  pose proof (T2 0 ltac:(lia)) as F0. pose proof (T2 1 ltac:(lia)) as F1. pose proof (T2 2 ltac:(lia)) as F2. pose proof (T2 3 ltac:(lia)) as F3.
  pose proof (T2 4 ltac:(lia)) as F4. pose proof (T2 5 ltac:(lia)) as F5. pose proof (T2 6 ltac:(lia)) as F6. pose proof (T2 7 ltac:(lia)) as F7.
  pose proof (T2 8 ltac:(lia)) as F8. assert (C2' : m !! (sp + 0) = Some pc) by (by rewrite Z.add_0_r).
  offsets. repeat step. reflexivity.
Qed.

(** The second half, and the return: [f] is what the thread to go to has saved. *)
Definition resumes (f : Z -> Z) : registers :=
  mkRegs (f _EAX) (f _EBX) (f _ECX) (f _EDX) (f _EBP) (f _ESI) (f _EDI) (f _ESP + 4).

(** The words at the top of its stack. *)
Record can_return (sp pc : Z) (m : memory) : Prop := {
  cr_range : 0 <= sp /\ sp + 8 <= 2 ^ 32;
  cr_pc : m !! sp = Some pc;
  cr_slot : is_Some (m !! (sp + 4));
  cr_apart : eax_save < sp \/ sp + 8 <= eax_save
}.

Lemma restore_ok g m t f pc : 0 <= esp g /\ esp g + 12 <= 2 ^ 32 -> m !! (esp g + 8) = Some t -> thread_at t m ->
  (forall k, 0 <= k <= 8 -> m !! (t + 4 * k) = Some (f (4 * k))) -> is_Some (m !! eax_save) -> can_return (f _ESP) pc m ->
  (c <- movs restore_code (mkCpu g m) ;; ret c) =
  Ok (pc, mkCpu (resumes f) (<[f _ESP + 4 := f _PC]> (<[eax_save := f _EAX]> m))).
Proof using Type.
  intros Hsp Ht [T1 _ T3] Hf Hs [R1 R2 R3 R4]. destruct g as [a b c d bp si di sp]. cbn [esp] in *. unfold restore_code, resumes.
  pose proof (Hf 0 ltac:(lia)) as F0. pose proof (Hf 1 ltac:(lia)) as F1. pose proof (Hf 2 ltac:(lia)) as F2. pose proof (Hf 3 ltac:(lia)) as F3.
  pose proof (Hf 4 ltac:(lia)) as F4. pose proof (Hf 5 ltac:(lia)) as F5. pose proof (Hf 6 ltac:(lia)) as F6. pose proof (Hf 7 ltac:(lia)) as F7.
  pose proof (Hf 8 ltac:(lia)) as F8. change (4 * 0) with 0 in F0. change (4 * 1) with 4 in F1. change (4 * 2) with 8 in F2. change (4 * 3) with 12 in F3.
  change (4 * 4) with 16 in F4. change (4 * 5) with 20 in F5. change (4 * 6) with 24 in F6. change (4 * 7) with 28 in F7. change (4 * 8) with 32 in F8.
  clear Hf. offsets. repeat step.
  unfold ret. cbn [regs words esp]. erewrite peek_ok by (look; eassumption). cbn [bind set]. by rewrite u32_small by lia.
Qed.

(** What the first half leaves in the Thread, by offset. *)
Definition image (g : registers) (pc o : Z) : Z :=
  if o =? _ESP then esp g else if o =? _EAX then eax g else if o =? _EBX then ebx g else if o =? _ECX then ecx g
  else if o =? _EDX then edx g else if o =? _EBP then ebp g else if o =? _ESI then esi g else if o =? _EDI then edi g else pc.

Lemma saved_at t g pc m k : 0 <= k <= 8 -> saved t g pc m !! (t + 4 * k) = Some (image g pc (4 * k)).
Proof using Type.
  intros Hk. assert (H : k = 0 \/ k = 1 \/ k = 2 \/ k = 3 \/ k = 4 \/ k = 5 \/ k = 6 \/ k = 7 \/ k = 8) by lia.
  unfold saved. destruct H as [->|[->|[->|[->|[->|[->|[->|[->| ->]]]]]]]]; look; reflexivity.
Qed.
Lemma saved_other t g pc m a : a < t \/ t + 36 <= a -> a <> eax_save -> saved t g pc m !! a = m !! a.
Proof using Type. intros Ha Hs. unfold saved. look. done. Qed.
Lemma saved_mapped t g pc m a : is_Some (m !! a) -> is_Some (saved t g pc m !! a).
Proof using Type. intros Ha. unfold saved. by repeat apply mapped_insert. Qed.
Lemma thread_at_saved t t' g pc m : thread_at t m -> thread_at t (saved t' g pc m).
Proof using Type. intros [H1 H2 H3]. split; try done. intros k Hk. by apply saved_mapped, H2. Qed.

(** A call of [SWITCH(t1, t2)] with the registers [g], which would return to
    [pc]. *)
Record switching (g : registers) (pc t1 t2 : Z) (m : memory) : Prop := {
  sw_called : called (esp g) pc t1 t2 m;
  sw_t1 : thread_at t1 m;
  sw_t2 : thread_at t2 m;
  sw_away : away (esp g) t1;
  sw_apart : t1 + 36 <= t2 \/ t2 + 36 <= t1;
  sw_save : is_Some (m !! eax_save)
}.

Lemma SWITCH_ok g pc t1 t2 m f pc2 : switching g pc t1 t2 m -> (forall k, 0 <= k <= 8 -> m !! (t2 + 4 * k) = Some (f (4 * k))) ->
  can_return (f _ESP) pc2 m -> f _ESP + 8 <= t1 \/ t1 + 36 <= f _ESP ->
  SWITCH (mkCpu g m) = Ok (pc2, mkCpu (resumes f) (<[f _ESP + 4 := f _PC]> (<[eax_save := f _EAX]> (saved t1 g pc m)))).
Proof using Type.
  intros [Hc H1 H2 Ha Hd Hs] Hf [R1 R2 R3 R4] Hr. unfold SWITCH. rewrite (save_ok g m pc t1 t2 Hc H1 Ha Hs). cbn [bind].
  destruct Hc as [C1 C2 C3 C4 C5]. pose proof H2 as [[T0 T1] _ T3]. unfold away in Ha.
  apply (restore_ok _ _ t2 f pc2).
  - by destruct g.
  - assert (E : esp (set EBX pc (set EAX t1 g)) = esp g) by by destruct g. rewrite E, saved_other by lia. exact C4.
  - by apply thread_at_saved.
  - intros k Hk. rewrite saved_other by lia. by apply Hf.
  - by apply saved_mapped.
  - split; try done; [rewrite saved_other by lia; exact R2|by apply saved_mapped].
Qed.

Lemma resumes_image g pc : resumes (image g pc) = set ESP (esp g + 4) g.
Proof using Type. by destruct g. Qed.

(** A thread that is not running: its registers are in its Thread, the address
    where it goes on is at the top of its stack. *)
Record parked (t sp pc : Z) (m : memory) : Prop := {
  pk_thread : thread_at t m;
  pk_sp : m !! (t + _ESP) = Some sp;
  pk_return : can_return sp pc m
}.
Definition stack_apart (sp t : Z) : Prop := sp + 8 <= t \/ t + 36 <= sp.

(** What a Thread holds, by offset. *)
Definition holds (t : Z) (m : memory) (o : Z) : Z := default 0 (m !! (t + o)).

Lemma holds_at t m k : thread_at t m -> 0 <= k <= 8 -> m !! (t + 4 * k) = Some (holds t m (4 * k)).
Proof using Type. intros [_ H _] Hk. destruct (H k Hk) as [v Hv]. unfold holds. by rewrite Hv. Qed.
Lemma parked_sp t sp pc m : parked t sp pc m -> holds t m _ESP = sp.
Proof using Type. intros [_ H _]. unfold holds. by rewrite H. Qed.

Lemma SWITCH_parked g pc t1 t2 m sp2 pc2 : switching g pc t1 t2 m -> parked t2 sp2 pc2 m -> stack_apart sp2 t1 ->
  SWITCH (mkCpu g m) = Ok (pc2, mkCpu (resumes (holds t2 m)) (<[sp2 + 4 := holds t2 m _PC]> (<[eax_save := holds t2 m _EAX]> (saved t1 g pc m)))).
Proof using Type.
  intros Hw Hp Ha. pose proof (parked_sp _ _ _ _ Hp) as E. destruct Hp as [P1 P2 P3].
  rewrite (SWITCH_ok g pc t1 t2 m (holds t2 m) pc2 Hw); rewrite ?E; try done. intros k Hk. by apply holds_at.
Qed.

(** The registers of a thread that is switched to are those it was switched from
    with: what its Thread holds is their image. *)
Lemma SWITCH_back h pc' t t' m g pc : switching h pc' t' t m -> (forall k, 0 <= k <= 8 -> m !! (t + 4 * k) = Some (image g pc (4 * k))) ->
  can_return (esp g) pc m -> stack_apart (esp g) t' ->
  SWITCH (mkCpu h m) = Ok (pc, mkCpu (set ESP (esp g + 4) g) (<[esp g + 4 := pc]> (<[eax_save := eax g]> (saved t' h pc' m)))).
Proof using Type.
  intros Hw Hi Hr Ha. rewrite (SWITCH_ok h pc' t' t m (image g pc) pc Hw Hi); [|done|done]. by rewrite resumes_image.
Qed.

Lemma after_SWITCH_at t1 g pc m sp2 v w k : thread_at t1 m -> stack_apart sp2 t1 -> 0 <= k <= 8 ->
  <[sp2 + 4 := v]> (<[eax_save := w]> (saved t1 g pc m)) !! (t1 + 4 * k) = Some (image g pc (4 * k)).
Proof using Type.
  intros [_ _ T3] Ha Hk. unfold stack_apart in Ha. rewrite !lookup_insert_ne by lia. by apply saved_at.
Qed.

End code.

(** ** The memory of the host: blocks of words *)

(** [new], at the address the host gives, and [delete]. *)
Definition new_block (junk : Z -> Z) (ptr n : Z) (m : memory) : memory := foldr (fun i m => <[ptr + 4 * i := junk i]> m) m (seqZ 0 n).
Definition free_block (ptr n : Z) (m : memory) : memory := foldr (fun i m => delete (ptr + 4 * i) m) m (seqZ 0 n).

(** [AllocBoundedArray], under NO_MPROT as the build for Linux has it. *)
Definition AllocBoundedArray (junk : Z -> Z) (ptr size : Z) (m : memory) : Z * memory := (ptr, new_block junk ptr (size / 4) m).
Definition DeallocBoundedArray (ptr size : Z) (m : memory) : memory := free_block ptr (size / 4) m.

Lemma new_block_in junk ptr n m i : 0 <= i < n -> new_block junk ptr n m !! (ptr + 4 * i) = Some (junk i).
Proof.
  intros Hi. assert (Hin : i ∈ seqZ 0 n) by (apply elem_of_seqZ; lia). unfold new_block. revert Hin.
  generalize (seqZ 0 n). intros l. induction l as [|j l IH]; cbn [foldr]; intros Hin; [by apply elem_of_nil in Hin|].
  destruct (decide (i = j)) as [->|E]; [by rewrite lookup_insert_eq|].
  rewrite lookup_insert_ne by lia. apply IH. by apply elem_of_cons in Hin as [?|?].
Qed.
Lemma new_block_out junk ptr n m a : a < ptr \/ ptr + 4 * n <= a -> new_block junk ptr n m !! a = m !! a.
Proof.
  intros Ha. unfold new_block. assert (Hl : forall i, i ∈ seqZ 0 n -> 0 <= i < n) by (intros i Hi; apply elem_of_seqZ in Hi; lia).
  revert Hl. generalize (seqZ 0 n). intros l. induction l as [|j l IH]; cbn [foldr]; intros Hl; [done|].
  pose proof (Hl j ltac:(by left)). rewrite lookup_insert_ne by lia. apply IH. intros i Hi. apply Hl. by right.
Qed.
Lemma free_new_block junk ptr n m a : (forall i, 0 <= i < n -> m !! (ptr + 4 * i) = None) -> free_block ptr n (new_block junk ptr n m) !! a = m !! a.
Proof.
  intros Hm. unfold free_block. assert (Hl : forall i, i ∈ seqZ 0 n -> 0 <= i < n) by (intros i Hi; apply elem_of_seqZ in Hi; lia).
  assert (Hd : (exists i, i ∈ seqZ 0 n /\ a = ptr + 4 * i) \/ forall i, i ∈ seqZ 0 n -> a <> ptr + 4 * i).
  { clear. induction (seqZ 0 n) as [|j l IH]; [right; intros i Hi; by apply elem_of_nil in Hi|].
    destruct (decide (a = ptr + 4 * j)) as [->|E]; [left; exists j; split; [by left|done]|].
    destruct IH as [(i & Hi & Ha)|IH]; [left; exists i; split; [by right|done]|right].
    intros i Hi. apply elem_of_cons in Hi as [->|Hi]; [done|by apply IH]. }
  destruct Hd as [(i & Hi & ->)|Hd].
  - rewrite Hm by by apply Hl. clear Hm Hl. generalize (new_block junk ptr n m). induction (seqZ 0 n) as [|j l IH]; cbn [foldr]; intros m0; [by apply elem_of_nil in Hi|].
    destruct (decide (j = i)) as [->|E]; [by rewrite lookup_delete_eq|]. rewrite lookup_delete_ne by lia. apply IH. by apply elem_of_cons in Hi as [?|?].
  - assert (E : foldr (fun i m => delete (ptr + 4 * i) m) (new_block junk ptr n m) (seqZ 0 n) !! a = new_block junk ptr n m !! a).
    { clear Hm Hl. generalize (new_block junk ptr n m). induction (seqZ 0 n) as [|j l IH]; cbn [foldr]; intros m0; [done|].
      rewrite lookup_delete_ne by (intros H; apply (Hd j); [by left|done]). apply IH. intros i Hi. apply Hd. by right. }
    rewrite E. unfold new_block. clear E Hm Hl. induction (seqZ 0 n) as [|j l IH]; cbn [foldr]; [done|].
    rewrite lookup_insert_ne by (intros H; apply (Hd j); [by left|done]). apply IH. intros i Hi. apply Hd. by right.
Qed.

(** ** thread.h, thread.cc: a Thread in memory *)

Definition STACK_FENCEPOST : Z := 0xdedbeef.
Definition StackSize : Z := 8 * 1024.
Definition MachineStateSize : Z := 75.

(** The fields, in the order of their declaration. *)
Definition o_stackTop : Z := 0.
Definition o_machineState (i : Z) : Z := 4 + 4 * i.
Definition o_processID : Z := 4 + 4 * MachineStateSize.
Definition o_exitStatus : Z := o_processID + 4.
Definition o_stack : Z := o_exitStatus + 4.
Definition o_status : Z := o_stack + 4.
Definition o_name : Z := o_status + 4.
Definition o_userRegisters : Z := o_name + 4.
Definition o_space : Z := o_userRegisters + 4 * 40.
Definition sizeof_Thread : Z := o_space + 4.

Definition JUST_CREATED : Z := 0.

Fixpoint clear_state (n : nat) (i t : Z) (m : memory) : result memory :=
  match n with O => Ok m | S n => m <- poke (t + o_machineState i) 0 m ;; clear_state n (i + 1) t m end.

(** The constructor, at [t]. *)
Definition Thread_init (threadName t : Z) (m : memory) : result memory :=
  m <- poke (t + o_name) threadName m ;;
  m <- poke (t + o_stackTop) 0 m ;;
  m <- poke (t + o_stack) 0 m ;;
  m <- poke (t + o_status) JUST_CREATED m ;;
  m <- clear_state (Z.to_nat MachineStateSize) 0 t m ;;
  m <- poke (t + o_processID) 0 m ;;
  m <- poke (t + o_exitStatus) 0 m ;;
  poke (t + o_space) 0 m.

(** The destructor, of the thread at [t] while the one at [current] runs. *)
Definition Thread_delete (current t : Z) (m : memory) : result memory :=
  _ <- assert (negb (t =? current)) ;;
  stack <- peek (t + o_stack) m ;;
  Ok (if stack =? 0 then m else DeallocBoundedArray stack (StackSize * 4) m).

Definition CheckOverflow (t : Z) (m : memory) : result unit :=
  stack <- peek (t + o_stack) m ;;
  if stack =? 0 then Ok tt else v <- peek stack m ;; assert (v =? STACK_FENCEPOST).

Section thread.
(** The addresses of the routines. *)
Context (ThreadRoot_ ThreadBegin ThreadFinish : Z).

(** [StackAllocate]; [ptr] is where the host puts the stack. *)
Definition StackAllocate (junk : Z -> Z) (ptr func arg t : Z) (m : memory) : result memory :=
  let '(stack, m) := AllocBoundedArray junk ptr (StackSize * 4) m in
  m <- poke (t + o_stack) stack m ;;
  let stackTop := stack + 4 * (StackSize - 4) in
  m <- poke (t + o_stackTop) stackTop m ;;
  let stackTop := stackTop - 4 in
  m <- poke (t + o_stackTop) stackTop m ;;
  m <- poke stackTop ThreadRoot_ m ;;
  m <- poke stack STACK_FENCEPOST m ;;
  m <- poke (t + o_machineState PCState) ThreadRoot_ m ;;
  m <- poke (t + o_machineState StartupPCState) ThreadBegin m ;;
  m <- poke (t + o_machineState InitialPCState) func m ;;
  m <- poke (t + o_machineState InitialArgState) arg m ;;
  poke (t + o_machineState WhenDonePCState) ThreadFinish m.

End thread.

(** ** switch.S: ThreadRoot *)

Section root.
(** What the code at an address does when it is called, and the addresses after
    the three calls. *)
Context (enter : Z -> cpu -> result cpu) (back1 back2 back3 : Z).

Definition call (o : operand) (back : Z) (c : cpu) : result cpu := f <- load o c ;; c <- push back c ;; enter f c.

Definition ThreadRoot_exit (c : cpu) : result (Z * cpu) :=
  c <- movl (Reg EBP) (Reg ESP) c ;; c <- popl EBP c ;; ret c.
Definition ThreadRoot (c : cpu) : result (Z * cpu) :=
  c <- pushl (Reg EBP) c ;;
  c <- movl (Reg ESP) (Reg EBP) c ;;
  c <- pushl (Reg EDX) c ;;
  c <- call (Reg ECX) back1 c ;;
  c <- call (Reg ESI) back2 c ;;
  c <- call (Reg EDI) back3 c ;;
  ThreadRoot_exit c.

End root.

(** ** A thread from its construction to its first instruction *)

(** The memory of a Thread is there. *)
Record object (t : Z) (m : memory) : Prop := {
  ob_range : 0 < t /\ t + sizeof_Thread <= 2 ^ 32;
  ob_mapped : forall k, 0 <= k < sizeof_Thread / 4 -> is_Some (m !! (t + 4 * k))
}.

(** Writing loses no word. *)
Definition keeps (m m' : memory) : Prop := forall a, is_Some (m !! a) -> is_Some (m' !! a).

Lemma keeps_insert a v m m' : keeps m m' -> keeps m (<[a := v]> m').
Proof. intros H b Hb. by apply mapped_insert, H. Qed.
Lemma object_keeps t m m' : object t m -> keeps m m' -> object t m'.
Proof. intros [H1 H2] H. split; [done|]. intros k Hk. by apply H, H2. Qed.
Lemma object_at t m o k : object t m -> o = 4 * k -> 0 <= k < 122 -> is_Some (m !! (t + o)).
Proof. intros [_ H] -> Hk. by apply H. Qed.

Ltac fields :=
  change PCState with 7 in *; change StartupPCState with 2 in *; change InitialPCState with 5 in *; change InitialArgState with 3 in *;
  change WhenDonePCState with 6 in *;
  unfold o_stackTop, o_machineState, o_space, o_userRegisters, o_name, o_status, o_stack, o_exitStatus, o_processID, MachineStateSize, StackSize,
    _ESP, _EAX, _EBX, _ECX, _EDX, _EBP, _ESI, _EDI, _PC in *.
Lemma lookup_written a b v (m : memory) : a = b -> <[a := v]> m !! b = Some v.
Proof. intros ->. by rewrite lookup_insert_eq. Qed.
Ltac look := repeat first [rewrite lookup_written by lia | rewrite lookup_insert_ne by lia].
(** A write to a word that is there. *)
Ltac put := rewrite poke_ok by (repeat apply mapped_insert; assumption); cbn [bind].

Lemma clear_state_ok t n : forall i m, 0 <= i -> i + Z.of_nat n <= MachineStateSize -> object t m ->
  exists m', clear_state n i t m = Ok m' /\ (forall j, i <= j < i + Z.of_nat n -> m' !! (t + o_machineState j) = Some 0) /\
    (forall a, a < t + o_machineState i \/ t + o_machineState (i + Z.of_nat n) <= a -> m' !! a = m !! a) /\ keeps m m'.
Proof.
  unfold MachineStateSize, o_machineState. induction n as [|n IH]; intros i m Hi Hn Ho; cbn [clear_state]; [exists m; split_and!; [done|intros; lia|done|by intros ?]|].
  pose proof (object_at t m (o_machineState i) (i + 1) Ho ltac:(unfold o_machineState; lia) ltac:(lia)) as F. unfold o_machineState in *.
  rewrite poke_ok by done. cbn [bind].
  destruct (IH (i + 1) (<[t + (4 + 4 * i) := 0]> m)) as (m' & E & Hz & Hf & Hk); [lia|lia|by apply (object_keeps _ m); [|apply keeps_insert; intros ?]|].
  exists m'. split; [done|]. split_and!.
  - intros j Hj. destruct (decide (j = i)) as [->|]; [|by apply Hz; lia]. rewrite Hf by lia. by rewrite lookup_insert_eq.
  - intros a Ha. rewrite Hf by lia. by rewrite lookup_insert_ne by lia.
  - intros a Ha. by apply Hk, mapped_insert.
Qed.

Lemma Thread_init_ok name t m : object t m ->
  exists m', Thread_init name t m = Ok m' /\ (forall k, 0 <= k <= MachineStateSize -> m' !! (t + 4 * k) = Some 0) /\ m' !! (t + o_stack) = Some 0 /\
    (forall a, a < t \/ t + sizeof_Thread <= a -> m' !! a = m !! a) /\ keeps m m'.
Proof.
  intros Ho. unfold Thread_init.
  pose proof (object_at t m o_name 80 Ho eq_refl ltac:(lia)) as F1. pose proof (object_at t m o_stackTop 0 Ho eq_refl ltac:(lia)) as F2.
  pose proof (object_at t m o_stack 78 Ho eq_refl ltac:(lia)) as F3. pose proof (object_at t m o_status 79 Ho eq_refl ltac:(lia)) as F4.
  do 4 put.
  set (m1 := <[t + o_status := JUST_CREATED]> _). assert (K1 : keeps m m1) by (unfold m1; repeat apply keeps_insert; by intros ?).
  destruct (clear_state_ok t (Z.to_nat MachineStateSize) 0 m1) as (m2 & E & Hz & Hf & Hk); [lia|done|by apply (object_keeps _ m)|].
  rewrite E. cbn [bind].
  pose proof (Hk _ (K1 _ (object_at t m o_processID 76 Ho eq_refl ltac:(lia)))) as F5. pose proof (Hk _ (K1 _ (object_at t m o_exitStatus 77 Ho eq_refl ltac:(lia)))) as F6.
  pose proof (Hk _ (K1 _ (object_at t m o_space 121 Ho eq_refl ltac:(lia)))) as F7.
  do 2 put. rewrite poke_ok by (repeat apply mapped_insert; assumption). eexists. split; [reflexivity|].
  change (0 + Z.of_nat (Z.to_nat MachineStateSize)) with 75 in *. unfold sizeof_Thread. fields. split_and!.
  - intros k Hk'. look. destruct (decide (k = 0)) as [->|].
    + rewrite Hf by lia. unfold m1. fields. by look.
    + pose proof (Hz (k - 1) ltac:(lia)) as Hz1. by replace (t + (4 + 4 * (k - 1))) with (t + 4 * k) in Hz1 by lia.
  - look. rewrite Hf by lia. unfold m1. fields. by look.
  - intros a Ha. look. rewrite Hf by lia. unfold m1. fields. by look.
  - repeat apply keeps_insert. intros a Ha. by apply Hk, K1.
Qed.

Section fork.
Context (eax_save ThreadRoot_ ThreadBegin ThreadFinish : Z).

(** The registers of a thread that has not run yet, as if [ThreadRoot] had called
    [SWITCH] with them. *)
Definition forked (func arg ptr : Z) : registers := mkRegs 0 0 ThreadBegin arg 0 func ThreadFinish (ptr + 4 * (StackSize - 5)).

(** The place of the stack, away from the Thread. *)
Definition stack_at (ptr t : Z) : Prop :=
  0 < ptr /\ ptr + 4 * StackSize <= 2 ^ 32 /\ (t + sizeof_Thread <= ptr \/ ptr + 4 * StackSize <= t).

(** The memory of a thread that has been forked and has not run. *)
Record fresh (func arg ptr t : Z) (m : memory) : Prop := {
  fr_saved : forall k, 0 <= k <= 8 -> m !! (t + 4 * k) = Some (image (forked func arg ptr) ThreadRoot_ (4 * k));
  fr_stack : m !! (t + o_stack) = Some ptr;
  fr_root : m !! (ptr + 4 * (StackSize - 5)) = Some ThreadRoot_;
  fr_fence : m !! ptr = Some STACK_FENCEPOST;
  fr_mapped : forall i, 0 <= i < StackSize -> is_Some (m !! (ptr + 4 * i))
}.

Lemma StackAllocate_ok junk ptr func arg t m : object t m -> (forall k, 0 <= k <= MachineStateSize -> m !! (t + 4 * k) = Some 0) -> stack_at ptr t ->
  exists m', StackAllocate ThreadRoot_ ThreadBegin ThreadFinish junk ptr func arg t m = Ok m' /\ fresh func arg ptr t m' /\
    (forall a, (a < t \/ t + sizeof_Thread <= a) -> (a < ptr \/ ptr + 4 * StackSize <= a) -> m' !! a = m !! a) /\ object t m'.
Proof.
  intros Ho Hz (P1 & P2 & P3). unfold StackAllocate, AllocBoundedArray. change (StackSize * 4 / 4) with StackSize.
  set (m1 := new_block junk ptr StackSize m).
  assert (Ht : forall a, t <= a < t + sizeof_Thread -> m1 !! a = m !! a) by (intros a Ha; apply new_block_out; lia).
  assert (Hs : forall i, 0 <= i < StackSize -> m1 !! (ptr + 4 * i) = Some (junk i)) by (intros; by apply new_block_in).
  assert (Ho1 : object t m1). { destruct Ho as [O1 O2]. split; [done|]. intros k Hk. rewrite Ht; [by apply O2|]. change (sizeof_Thread / 4) with 122 in Hk. change sizeof_Thread with 488. lia. }
  assert (Hm1 : forall a, (a < ptr \/ ptr + 4 * StackSize <= a) -> m1 !! a = m !! a) by (intros; by apply new_block_out).
  clearbody m1.
  pose proof (object_at t m1 o_stack 78 Ho1 eq_refl ltac:(lia)) as F1. pose proof (object_at t m1 o_stackTop 0 Ho1 eq_refl ltac:(lia)) as F2.
  pose proof (object_at t m1 (o_machineState PCState) 8 Ho1 eq_refl ltac:(lia)) as F3. pose proof (object_at t m1 (o_machineState StartupPCState) 3 Ho1 eq_refl ltac:(lia)) as F4.
  pose proof (object_at t m1 (o_machineState InitialPCState) 6 Ho1 eq_refl ltac:(lia)) as F5. pose proof (object_at t m1 (o_machineState InitialArgState) 4 Ho1 eq_refl ltac:(lia)) as F6.
  pose proof (object_at t m1 (o_machineState WhenDonePCState) 7 Ho1 eq_refl ltac:(lia)) as F7.
  assert (F8 : is_Some (m1 !! (ptr + 4 * (StackSize - 4) - 4))).
  { rewrite (ltac:(lia) : ptr + 4 * (StackSize - 4) - 4 = ptr + 4 * (StackSize - 5)). rewrite Hs by (unfold StackSize; lia). by eexists. }
  assert (F9 : is_Some (m1 !! ptr)). { pose proof (Hs 0 ltac:(unfold StackSize; lia)) as E. rewrite Z.mul_0_r, Z.add_0_r in E. rewrite E. by eexists. }
  do 9 put. rewrite poke_ok by (repeat apply mapped_insert; assumption). eexists. split; [reflexivity|].
  unfold sizeof_Thread in *. fields. change (8 * 1024) with 8192 in *. split_and!.
  - split.
    + intros k Hk. assert (Hk' : k = 0 \/ k = 1 \/ k = 2 \/ k = 3 \/ k = 4 \/ k = 5 \/ k = 6 \/ k = 7 \/ k = 8) by lia.
      pose proof (Ht (t + 4 * k) ltac:(cbn; lia)) as E. rewrite Hz in E by lia.
      destruct Hk' as [->|[->|[->|[->|[->|[->|[->|[->| ->]]]]]]]]; look; first [reflexivity | exact E | apply f_equal; change (image _ _ _) with (ptr + 4 * (8192 - 5)); lia].
    + fields. by look.
    + fields. by look.
    + by look.
    + intros i Hi. repeat apply mapped_insert. rewrite Hs by done. by eexists.
  - intros a H1 H2. rewrite <- Hm1 by lia. by look.
  - apply (object_keeps _ m1); [done|]. repeat apply keeps_insert. by intros ?.
Qed.

Definition stack_words (ptr : Z) (m : memory) : Prop := forall i, 0 <= i < StackSize -> is_Some (m !! (ptr + 4 * i)).

(** What a routine of the host's compiler leaves when it returns: its return
    address popped, the registers it has to keep, and, but for its [n] arguments,
    the frames of its callers. *)
Record returned (ptr n : Z) (c c' : cpu) : Prop := {
  re_esp : esp (regs c') = esp (regs c) + 4;
  re_ebp : ebp (regs c') = ebp (regs c);
  re_esi : esi (regs c') = esi (regs c);
  re_edi : edi (regs c') = edi (regs c);
  re_words : stack_words ptr (words c) -> stack_words ptr (words c');
  re_frames : forall a, esp (regs c) + 4 + 4 * n <= a < ptr + 4 * StackSize -> words c' !! a = words c !! a
}.

Lemma push_ok v c ptr i : 0 < ptr -> ptr + 4 * StackSize <= 2 ^ 32 -> 0 <= i < StackSize -> esp (regs c) = ptr + 4 * (i + 1) -> stack_words ptr (words c) ->
  push v c = Ok (mkCpu (set ESP (ptr + 4 * i) (regs c)) (<[ptr + 4 * i := v]> (words c))).
Proof using Type.
  intros H1 H2 Hi He Hw. unfold push. rewrite He. rewrite (ltac:(lia) : ptr + 4 * (i + 1) - 4 = ptr + 4 * i). unfold StackSize in *.
  rewrite u32_small by lia. rewrite poke_ok by (by apply Hw). done.
Qed.
Lemma stack_words_insert ptr a v m : stack_words ptr m -> stack_words ptr (<[a := v]> m).
Proof using Type. intros H i Hi. by apply mapped_insert, H. Qed.

Definition at_root (func arg ptr : Z) (m : memory) : cpu := mkCpu (set ESP (ptr + 4 * (StackSize - 4)) (forked func arg ptr)) m.

(** [ThreadRoot] calls the three routines it was given, the second one with the
    argument on top of its stack. *)
Lemma ThreadRoot_ok enter back1 back2 back3 func arg ptr m : 0 < ptr -> ptr + 4 * StackSize <= 2 ^ 32 -> stack_words ptr m ->
  (forall c c', enter ThreadBegin c = Ok c' -> returned ptr 0 c c') -> (forall c c', enter func c = Ok c' -> returned ptr 1 c c') ->
  exists c1, peek (esp (regs c1)) (words c1) = Ok back1 /\ forall c1', enter ThreadBegin c1 = Ok c1' ->
  exists c2, peek (esp (regs c2)) (words c2) = Ok back2 /\ peek (esp (regs c2) + 4) (words c2) = Ok arg /\ forall c2', enter func c2 = Ok c2' ->
  exists c3, peek (esp (regs c3)) (words c3) = Ok back3 /\
    ThreadRoot enter back1 back2 back3 (at_root func arg ptr m) = (c <- enter ThreadFinish c3 ;; ThreadRoot_exit c).
Proof using Type.
  intros H1 H2 Hw HB HF.
  assert (E1 : forall v c i, 0 <= i < StackSize -> esp (regs c) = ptr + 4 * (i + 1) -> stack_words ptr (words c) ->
    push v c = Ok (mkCpu (set ESP (ptr + 4 * i) (regs c)) (<[ptr + 4 * i := v]> (words c)))) by (intros; by apply push_ok).
  unfold ThreadRoot, pushl, call, at_root, forked. cbn [load get set regs ebp bind].
  rewrite (E1 _ _ (StackSize - 5)) by (first [done | cbn; unfold StackSize; lia]).
  cbn [movl load store get set regs esp ebp edx bind words].
  rewrite (E1 _ _ (StackSize - 6)) by (first [by apply stack_words_insert | cbn; unfold StackSize; lia]).
  cbn [load get set regs ecx bind words].
  rewrite (E1 _ _ (StackSize - 7)) by (first [by repeat apply stack_words_insert | cbn; unfold StackSize; lia]).
  cbn [set regs bind words]. set (c1 := mkCpu _ _). exists c1. split; [unfold c1; cbn [regs esp words]; apply peek_ok; by rewrite lookup_insert_eq|].
  intros c1' R1. pose proof (HB _ _ R1) as [B1 B2 B3 B4 B5 B6]. rewrite R1. cbn [bind load get]. unfold c1 in B1, B2, B3, B4, B5, B6. cbn [regs words esp esi edi] in B1, B3, B4, B5, B6.
  assert (W1 : stack_words ptr (words c1')) by (apply B5; by repeat apply stack_words_insert).
  assert (A1 : words c1' !! (ptr + 4 * (StackSize - 6)) = Some arg).
  { rewrite B6 by (unfold StackSize; lia). rewrite lookup_insert_ne by lia. by rewrite lookup_insert_eq. }
  rewrite (E1 _ _ (StackSize - 7)) by (first [done | cbn; unfold StackSize in *; lia]). cbn [bind]. set (c2 := mkCpu _ _). exists c2.
  assert (S2 : esp (regs c2) = ptr + 4 * (StackSize - 7)) by (unfold c2; cbn [regs]; by destruct (regs c1')). rewrite S2.
  split; [apply peek_ok; cbn [c2 words]; by rewrite lookup_insert_eq|].
  split; [apply peek_ok; cbn [c2 words]; rewrite lookup_insert_ne by lia; by rewrite (ltac:(lia) : ptr + 4 * (StackSize - 7) + 4 = ptr + 4 * (StackSize - 6))|].
  rewrite B3. intros c2' R2. pose proof (HF _ _ R2) as [F1 F2 F3 F4 F5 F6]. rewrite R2. cbn [bind load get].
  rewrite S2 in F1. assert (D2 : edi (regs c2) = edi (regs c1')) by (unfold c2; cbn [regs]; by destruct (regs c1')).
  assert (W2 : stack_words ptr (words c2')) by (apply F5; by apply stack_words_insert).
  rewrite (E1 _ _ (StackSize - 7)) by (first [done | cbn; unfold StackSize in *; lia]). cbn [bind]. rewrite F4, D2, B4. eexists. split; [|reflexivity].
  apply peek_ok. cbn [words regs]. assert (S3 : forall v g, esp (set ESP v g) = v) by (intros v []; done). rewrite S3. by rewrite lookup_insert_eq.
Qed.

Lemma fresh_can_return func arg ptr t m : stack_at ptr t -> fresh func arg ptr t m -> (eax_save < ptr \/ ptr + 4 * StackSize <= eax_save) ->
  can_return eax_save (esp (forked func arg ptr)) ThreadRoot_ m.
Proof using Type.
  intros (P1 & P2 & P3) [S1 S2 S3 S4 S5] He. unfold StackSize in *. cbn [forked esp]. unfold StackSize. split.
  - lia.
  - done.
  - rewrite (ltac:(lia) : ptr + 4 * (8 * 1024 - 5) + 4 = ptr + 4 * (8 * 1024 - 4)). apply S5. lia.
  - lia.
Qed.

(** Another Thread, or a word, is neither in the Thread nor in its stack. *)
Definition beside (ptr t t' size : Z) : Prop :=
  (t' + size <= ptr \/ ptr + 4 * StackSize <= t') /\ (t' + size <= t \/ t + sizeof_Thread <= t').

(** The first switch to a thread. *)
Lemma SWITCH_fresh func arg ptr t m h pc t' : stack_at ptr t -> fresh func arg ptr t m ->
  switching eax_save h pc t' t m -> beside ptr t t' sizeof_Thread -> beside ptr t eax_save 4 ->
  exists m', SWITCH eax_save (mkCpu h m) = Ok (ThreadRoot_, at_root func arg ptr m') /\ CheckOverflow t m' = Ok tt /\ stack_words ptr m' /\
    forall a, a <> eax_save -> a <> ptr + 4 * (StackSize - 4) -> a < t' \/ t' + 36 <= a -> m' !! a = m !! a.
Proof using Type.
  intros Hs Hf Hw [B1 B2] [B3 B4]. pose proof (fresh_can_return _ _ _ _ _ Hs Hf ltac:(unfold sizeof_Thread in *; fields; lia)) as Hr. pose proof Hw as [_ [[W1 W2] _ W3] [_ _ W4] _ W5 _].
  destruct Hs as (P1 & P2 & P3). pose proof Hf as [S1 S2 S3 S4 S5].
  rewrite (SWITCH_back eax_save h pc t t' m (forked func arg ptr) ThreadRoot_ Hw S1 Hr) by (unfold stack_apart, sizeof_Thread in *; cbn [forked esp]; fields; lia).
  cbn [forked esp eax set]. rewrite (ltac:(lia) : ptr + 4 * (StackSize - 5) + 4 = ptr + 4 * (StackSize - 4)).
  eexists. split; [reflexivity|].
  assert (Hfr : forall a, a <> eax_save -> a <> ptr + 4 * (StackSize - 4) -> a < t' \/ t' + 36 <= a ->
    <[ptr + 4 * (StackSize - 4) := ThreadRoot_]> (<[eax_save := 0]> (saved eax_save t' h pc m)) !! a = m !! a).
  { intros a A1 A2 A3. rewrite !lookup_insert_ne by done. by apply saved_other. }
  split; [|split; [|exact Hfr]].
  - unfold CheckOverflow. unfold sizeof_Thread in *. fields.
    rewrite (peek_ok _ ptr) by (rewrite Hfr by lia; done). cbn [bind]. rewrite (proj2 (Z.eqb_neq ptr 0)) by lia.
    rewrite (peek_ok _ STACK_FENCEPOST) by (rewrite Hfr by lia; done). done.
  - intros i Hi. do 2 apply mapped_insert. by apply saved_mapped, S5.
Qed.

(** Two memories with the same Thread and the same stack. *)
Definition same_thread (ptr t : Z) (m m' : memory) : Prop :=
  forall a, t <= a < t + sizeof_Thread \/ ptr <= a < ptr + 4 * StackSize -> m' !! a = m !! a.

Lemma fresh_same func arg ptr t m m' : fresh func arg ptr t m -> same_thread ptr t m m' -> fresh func arg ptr t m'.
Proof using Type.
  intros [S1 S2 S3 S4 S5] H. unfold same_thread, sizeof_Thread in H. fields. split; fields.
  - intros k Hk. rewrite H by lia. by apply S1.
  - rewrite H by lia. done.
  - rewrite H by lia. done.
  - rewrite H by lia. done.
  - intros i Hi. fields. rewrite H by lia. by apply S5.
Qed.
Lemma CheckOverflow_fresh func arg ptr t m : 0 < ptr -> fresh func arg ptr t m -> CheckOverflow t m = Ok tt.
Proof using Type.
  intros Hp [_ S2 _ S4 _]. unfold CheckOverflow. rewrite (peek_ok _ _ _ S2). cbn [bind]. rewrite (proj2 (Z.eqb_neq ptr 0)) by lia.
  rewrite (peek_ok _ _ _ S4). done.
Qed.
Lemma thread_at_object t m : object t m -> eax_save < t \/ t + sizeof_Thread <= eax_save -> thread_at eax_save t m.
Proof using Type.
  intros [O1 O2] H. change sizeof_Thread with 488 in *. split; [lia| |lia]. intros k Hk. apply O2. change (488 / 4) with 122. lia.
Qed.

End fork.

(** ** An example: two threads *)

Definition example_regs (k sp : Z) : registers := mkRegs k (k + 1) (k + 2) (k + 3) (k + 4) (k + 5) (k + 6) sp.
(** The word at 4 is [_eax_save]; thread 1 is at 1000, with its stack at 100, and
    thread 2 at 2000, stopped in a call of [SWITCH] with its stack at 200. *)
Definition example_memory : memory :=
  foldr (fun '(a, v) m => <[a := v]> m) (new_block (fun _ => 0) 1000 122 (new_block (fun _ => 0) 2000 122 ∅))
    [(4, 0); (100, 7777); (104, 1000); (108, 2000); (200, 8888); (204, 2000); (208, 1000); (2000, 200); (2032, 8888)].

Lemma example_mapped t k : t = 1000 \/ t = 2000 -> 0 <= k < 122 -> is_Some (example_memory !! (t + 4 * k)).
Proof.
  intros Ht Hk. unfold example_memory. cbn [foldr]. do 9 apply mapped_insert. destruct Ht as [->| ->].
  - rewrite new_block_in by done. by eexists.
  - rewrite new_block_out by lia. rewrite new_block_in by done. by eexists.
Qed.
Lemma example_object t : t = 1000 \/ t = 2000 -> object t example_memory.
Proof. intros Ht. split; [change sizeof_Thread with 488; lia|]. intros k Hk. by apply example_mapped. Qed.
Lemma example_called : called 4 100 7777 1000 2000 example_memory.
Proof. split; [lia|reflexivity..|lia]. Qed.
Lemma example_switching : switching 4 (example_regs 10 100) 7777 1000 2000 example_memory.
Proof.
  split; [exact example_called| | |unfold away; cbn; lia|lia|by eexists].
  - apply thread_at_object; [apply example_object; lia|lia].
  - apply thread_at_object; [apply example_object; lia|lia].
Qed.
Lemma example_parked : parked 4 2000 200 8888 example_memory.
Proof. split; [apply (sw_t2 _ _ _ _ _ _ example_switching)|reflexivity|]. split; [lia|reflexivity|by eexists|lia]. Qed.

(** ** Properties *)

(** C8: a thread that calls [SWITCH] comes back from it with every register as it
    was.  [SWITCH(t1, t2)] returns to where [t2] stopped, and leaves [t1] parked;
    whatever runs then, when a thread calls [SWITCH(t3, t1)] and the nine words of
    [t1] and the return address on its stack are still there, that call returns to
    where the first one was made, all eight registers are those of the first call
    but for the return address popped, and memory changes only in [t3], in
    [_eax_save] and in the word above the return address, where the code writes it
    again. *)
Theorem SWITCH_resumes eax_save g pc t1 t2 m sp2 pc2 (Hw : switching eax_save g pc t1 t2 m) (Hp : parked eax_save t2 sp2 pc2 m)
    (Ha : stack_apart sp2 t1) (Hs : esp g + 8 <= sp2 \/ sp2 + 8 <= esp g) :
  exists c1, SWITCH eax_save (mkCpu g m) = Ok (pc2, c1) /\ esp (regs c1) = sp2 + 4 /\ parked eax_save t1 (esp g) pc (words c1) /\
  keeps m (words c1) /\ (forall a, a <> eax_save -> a <> sp2 + 4 -> a < t1 \/ t1 + 36 <= a -> words c1 !! a = m !! a) /\
  forall h pc' t3 m2, (forall k, 0 <= k <= 8 -> m2 !! (t1 + 4 * k) = words c1 !! (t1 + 4 * k)) -> can_return eax_save (esp g) pc m2 ->
    switching eax_save h pc' t3 t1 m2 -> stack_apart (esp g) t3 ->
  exists m3, SWITCH eax_save (mkCpu h m2) = Ok (pc, mkCpu (set ESP (esp g + 4) g) m3) /\
    forall a, a <> eax_save -> a <> esp g + 4 -> a < t3 \/ t3 + 36 <= a -> m3 !! a = m2 !! a.
Proof.
  rewrite (SWITCH_parked eax_save g pc t1 t2 m sp2 pc2 Hw Hp Ha). eexists. split; [reflexivity|]. cbn [regs words].
  pose proof (parked_sp _ _ _ _ _ Hp) as E. destruct Hp as [_ _ [R1 R2 R3 R4]]. destruct Hw as [[C1 C2 C3 C4 C5] T1 T2 A1 A2 A3].
  pose proof (fun k => after_SWITCH_at eax_save t1 g pc m sp2 (holds t2 m _PC) (holds t2 m _EAX) k T1 Ha) as Hi. unfold away, stack_apart in *.
  split; [by cbn [resumes esp]; rewrite E|]. split; [split|].
  - destruct T1 as [T11 T12 T13]. split; [done| |done]. intros k Hk. rewrite Hi by done. by eexists.
  - exact (Hi 0 ltac:(lia)).
  - split; [lia| | |lia].
    + rewrite !lookup_insert_ne by lia. by rewrite saved_other by lia.
    + rewrite !lookup_insert_ne by lia. rewrite saved_other by lia. by eexists.
  - split; [intros a H; do 2 apply mapped_insert; by apply saved_mapped|].
    split; [intros a H1 H2 H3; rewrite !lookup_insert_ne by done; by apply saved_other|]. intros h pc' t3 m2 Hm Hr Hw3 Ha3.
    rewrite (SWITCH_back eax_save h pc' t1 t3 m2 g pc Hw3); [|intros k Hk; rewrite Hm by done; by apply Hi|done|done].
    eexists. split; [reflexivity|]. intros a H1 H2 H3. rewrite !lookup_insert_ne by done. by apply saved_other.
Qed.

(** C24: a forked thread starts where and with what [Fork] said.  The constructor
    and [StackAllocate] succeed on the memory of a new Thread; whatever runs before
    the first [SWITCH] to the thread, as long as its Thread and its stack are left
    alone, that [SWITCH] returns to [ThreadRoot], on the thread's own stack, with
    its fence post intact; and [ThreadRoot] then calls [ThreadBegin], the function
    of [Fork] with its argument on the stack, and [ThreadFinish], in this order,
    whatever else the first two do as long as they return the way the compiler's
    routines do. *)
Theorem forked_thread_starts eax_save ThreadRoot_ ThreadBegin ThreadFinish name junk ptr func arg t m
    (Ho : object t m) (Hs : stack_at ptr t) :
  exists m1 m2, Thread_init name t m = Ok m1 /\ StackAllocate ThreadRoot_ ThreadBegin ThreadFinish junk ptr func arg t m1 = Ok m2 /\
    CheckOverflow t m2 = Ok tt /\
  forall m3 h pc t', same_thread ptr t m2 m3 -> switching eax_save h pc t' t m3 -> beside ptr t t' sizeof_Thread -> beside ptr t eax_save 4 ->
  exists m4, SWITCH eax_save (mkCpu h m3) = Ok (ThreadRoot_, at_root ThreadBegin ThreadFinish func arg ptr m4) /\ CheckOverflow t m4 = Ok tt /\
    (forall a, a <> eax_save -> a <> ptr + 4 * (StackSize - 4) -> a < t' \/ t' + 36 <= a -> m4 !! a = m3 !! a) /\
  forall enter back1 back2 back3, (forall c c', enter ThreadBegin c = Ok c' -> returned ptr 0 c c') -> (forall c c', enter func c = Ok c' -> returned ptr 1 c c') ->
  exists c1, peek (esp (regs c1)) (words c1) = Ok back1 /\ forall c1', enter ThreadBegin c1 = Ok c1' ->
  exists c2, peek (esp (regs c2)) (words c2) = Ok back2 /\ peek (esp (regs c2) + 4) (words c2) = Ok arg /\ forall c2', enter func c2 = Ok c2' ->
  exists c3, peek (esp (regs c3)) (words c3) = Ok back3 /\
    ThreadRoot enter back1 back2 back3 (at_root ThreadBegin ThreadFinish func arg ptr m4) = (c <- enter ThreadFinish c3 ;; ThreadRoot_exit c).
Proof.
  destruct (Thread_init_ok name t m Ho) as (m1 & E1 & Hz & _ & _ & K1). pose proof (object_keeps _ _ _ Ho K1) as Ho1.
  destruct (StackAllocate_ok ThreadRoot_ ThreadBegin ThreadFinish junk ptr func arg t m1 Ho1 Hz Hs) as (m2 & E2 & Hf & _).
  exists m1, m2. do 2 (split; [done|]). pose proof Hs as (P1 & P2 & _).
  split; [by apply (CheckOverflow_fresh _ _ _ _ _ _ _ _ P1 Hf)|]. intros m3 h pc t' Hsame Hw B1 B2.
  destruct (SWITCH_fresh eax_save _ _ _ _ _ _ _ m3 h pc t' Hs (fresh_same _ _ _ _ _ _ _ _ _ Hf Hsame) Hw B1 B2) as (m4 & E4 & Hc & Hst & Hfr).
  exists m4. do 3 (split; [done|]). intros enter back1 back2 back3 HB HF. by apply ThreadRoot_ok.
Qed.

Lemma SWITCH_resumes_witness :
  switching 4 (example_regs 10 100) 7777 1000 2000 example_memory /\
  exists c1, SWITCH 4 (mkCpu (example_regs 10 100) example_memory) = Ok (8888, c1) /\
(** Thread 2 calls [SWITCH(2, 1)] from the same place on its stack. *)
    exists m3, SWITCH 4 (mkCpu (example_regs 50 200) (<[200 := 8889]> (<[204 := 2000]> (<[208 := 1000]> (words c1))))) =
      Ok (7777, mkCpu (example_regs 10 104) m3).
Proof.
  split; [exact example_switching|].
  destruct (SWITCH_resumes 4 (example_regs 10 100) 7777 1000 2000 example_memory 200 8888 example_switching example_parked)
    as (c1 & E & _ & [P1 P2 P3] & K & _ & H); [unfold stack_apart; lia|cbn; lia|].
  exists c1. split; [exact E|]. clear E. destruct P1 as [T1 T2 T3].
  destruct (H (example_regs 50 200) 8889 2000 (<[200 := 8889]> (<[204 := 2000]> (<[208 := 1000]> (words c1))))) as (m3 & E3 & _).
  - intros k Hk. by rewrite !lookup_insert_ne by lia.
  - destruct P3 as [Q1 Q2 Q3 Q4]. cbn [esp example_regs] in *. split; [done| |by do 3 apply mapped_insert|done]. by rewrite !lookup_insert_ne by lia.
  - split.
    + cbn [esp example_regs]. split; [lia|by look..|lia].
    + split; [lia| |lia]. intros k Hk. do 3 apply mapped_insert. apply K, example_mapped; lia.
    + split; [done| |done]. intros k Hk. do 3 apply mapped_insert. by apply T2.
    + unfold away; cbn; lia.
    + lia.
    + do 3 apply mapped_insert. apply K. by eexists.
  - unfold stack_apart; cbn; lia.
  - exists m3. exact E3.
Defined.

(** A new Thread at 4000 whose stack the host puts at 8192. *)
Lemma example_fork : object 4000 (new_block (fun _ => 0) 4000 122 example_memory) /\ stack_at 8192 4000.
Proof.
  split; [|unfold stack_at; change sizeof_Thread with 488; unfold StackSize; lia].
  split; [change sizeof_Thread with 488; lia|]. intros k Hk. rewrite new_block_in by done. by eexists.
Qed.

Lemma forked_thread_starts_witness :
  object 4000 (new_block (fun _ => 0) 4000 122 example_memory) /\
  exists m1 m2, Thread_init 9000 4000 (new_block (fun _ => 0) 4000 122 example_memory) = Ok m1 /\
    StackAllocate 5001 5002 5003 (fun i => i * i) 8192 6000 42 4000 m1 = Ok m2 /\
    exists m4, SWITCH 4 (mkCpu (example_regs 10 100) (<[108 := 4000]> m2)) = Ok (5001, at_root 5002 5003 6000 42 8192 m4) /\ CheckOverflow 4000 m4 = Ok tt.
Proof.
  destruct example_fork as [Ho Hs]. split; [exact Ho|].
  destruct (forked_thread_starts 4 5001 5002 5003 9000 (fun i => i * i) 8192 6000 42 4000 _ Ho Hs) as (m1 & m2 & E1 & E2 & _ & H).
  exists m1, m2. do 2 (split; [assumption|]).
  destruct (Thread_init_ok 9000 4000 _ Ho) as (m1' & E1' & Z1 & _ & F1 & K1). rewrite E1 in E1'. injection E1' as <-.
  destruct (StackAllocate_ok 5001 5002 5003 (fun i => i * i) 8192 6000 42 4000 m1 (object_keeps _ _ _ Ho K1) Z1 Hs) as (m2' & E2' & _ & F2 & Ho2).
  rewrite E2 in E2'. injection E2' as <-.
  assert (F : forall a, a < 3000 -> m2 !! a = example_memory !! a).
  { change sizeof_Thread with 488 in *. unfold StackSize in *. intros a Ha. rewrite F2, F1, new_block_out by lia. reflexivity. }
  destruct (H (<[108 := 4000]> m2) (example_regs 10 100) 7777 1000) as (m4 & E4 & C4 & _).
  - intros a Ha. change sizeof_Thread with 488 in *. unfold StackSize in *. by rewrite lookup_insert_ne by lia.
  - split.
    + cbn [esp example_regs]. split; [lia|by look; rewrite F by lia..|by look|lia].
    + split; [lia| |lia]. intros k Hk. apply mapped_insert. rewrite F by lia. apply example_mapped; lia.
    + apply thread_at_object; [|change sizeof_Thread with 488; lia]. apply (object_keeps _ m2); [done|]. apply keeps_insert. by intros ?.
    + unfold away; cbn; lia.
    + lia.
    + apply mapped_insert. rewrite F by done. by eexists.
  - unfold beside, StackSize. change sizeof_Thread with 488. lia.
  - unfold beside, StackSize. change sizeof_Thread with 488. lia.
  - exists m4. split; [exact E4|exact C4].
Defined.

End ContextSwitch.
