(* ===== verification/Threads.v ===== *)
(** * threads/{thread,scheduler,synch}.{h,cc}: scheduling and synchronization

    The state of the scheduler and of the synchronization objects, the routines
    that act on it, and a step relation in which the running thread executes its
    program one atomic section at a time, may be preempted between any two of
    them, and devices signal semaphores.  An atomic section is the code between
    two points where interrupts can be enabled; splitting finer only adds
    interleavings. *)

From S2P Require Import Prelude LibList Machine.

Module Threads.

Inductive ThreadStatus := JUST_CREATED | RUNNING | READY | BLOCKED.
#[export] Instance ThreadStatus_eq_dec : EqDecision ThreadStatus.
Proof. solve_decision. Defined.

#[export] Instance ThreadStatus_inhabited : Inhabited ThreadStatus := populate JUST_CREATED.

(** A thread is named by its index in the table of threads ever created. *)
Abbreviation tid := nat.

(** Semaphores: free-standing, the one a [Lock] allocates, and those that
    [Condition::Wait] allocates. *)
Inductive sem_id := User (n : nat) | OfLock (l : nat) | Waiter (n : nat).
#[export] Instance sem_id_eq_dec : EqDecision sem_id.
Proof. solve_decision. Defined.

(** [value] is an [int] in the code; a count never comes near its bounds, so it
    is an unbounded integer here. *)
Record Semaphore := mkSem { value : Z; queue : list tid }.

(** What a thread executes: the atomic sections of the synchronization
    routines.  [MFork] carries the program of the new thread; [MData] is a section
    of a client's own code, which synchronizes nothing: what it does to the
    client's data is said by the client's model (SynchList.v). *)
#[warnings="-register-all"]
Inductive op :=
  | MP (s : sem_id)
  | MV (s : sem_id)
  | MHold (l : nat)
  | MUnhold (l : nat)
  | MWait (c l : nat)
  | MSignal (c : nat)
  | MBroadcast (c : nat)
  | MYield
  | MFork (prog : list op)
  | MData (obj action arg : nat).

Definition Acquire (l : nat) : list op := [MP (OfLock l); MHold l].
Definition Release (l : nat) : list op := [MUnhold l; MV (OfLock l)].
Definition Wait (c l : nat) : list op := [MWait c l].
Definition Signal (c : nat) : list op := [MSignal c].
Definition Broadcast (c : nat) : list op := [MBroadcast c].

(** [sleeping]: the current thread is in the loop of [Sleep(finishing)] that
    waits for a ready thread. *)
Record sys := mkSys {
  currentThread : tid;
  sleeping : option bool;
  readyList : list tid;
  toBeDestroyed : option tid;
  status : list ThreadStatus;
  code : list (list op);
  sems : sem_id -> Semaphore;
  lockHolder : nat -> option tid;
  waitQueue : nat -> list sem_id;
  waiters : nat
}.

Definition set_current t b s := mkSys t b (readyList s) (toBeDestroyed s) (status s) (code s) (sems s) (lockHolder s) (waitQueue s) (waiters s).
Definition set_ready r s := mkSys (currentThread s) (sleeping s) r (toBeDestroyed s) (status s) (code s) (sems s) (lockHolder s) (waitQueue s) (waiters s).
Definition set_destroy d s := mkSys (currentThread s) (sleeping s) (readyList s) d (status s) (code s) (sems s) (lockHolder s) (waitQueue s) (waiters s).
Definition set_status f s := mkSys (currentThread s) (sleeping s) (readyList s) (toBeDestroyed s) (f (status s)) (code s) (sems s) (lockHolder s) (waitQueue s) (waiters s).
Definition set_code f s := mkSys (currentThread s) (sleeping s) (readyList s) (toBeDestroyed s) (status s) (f (code s)) (sems s) (lockHolder s) (waitQueue s) (waiters s).
Definition set_sem i x s := mkSys (currentThread s) (sleeping s) (readyList s) (toBeDestroyed s) (status s) (code s) (<[i := x]> (sems s)) (lockHolder s) (waitQueue s) (waiters s).
Definition set_sems m s := mkSys (currentThread s) (sleeping s) (readyList s) (toBeDestroyed s) (status s) (code s) m (lockHolder s) (waitQueue s) (waiters s).
Definition set_holder l h s := mkSys (currentThread s) (sleeping s) (readyList s) (toBeDestroyed s) (status s) (code s) (sems s) (<[l := h]> (lockHolder s)) (waitQueue s) (waiters s).
Definition set_waitQueue c q s := mkSys (currentThread s) (sleeping s) (readyList s) (toBeDestroyed s) (status s) (code s) (sems s) (lockHolder s) (<[c := q]> (waitQueue s)) (waiters s).
Definition set_waiters n s := mkSys (currentThread s) (sleeping s) (readyList s) (toBeDestroyed s) (status s) (code s) (sems s) (lockHolder s) (waitQueue s) n.

Definition setStatus (t : tid) (st : ThreadStatus) (s : sys) : sys := set_status (<[t := st]>) s.
Definition statusOf (s : sys) (t : tid) : ThreadStatus := status s !!! t.
Definition program (s : sys) (t : tid) : list op := code s !!! t.
Definition set_program (t : tid) (p : list op) (s : sys) : sys := set_code (<[t := p]>) s.

(** ** Scheduler *)

Definition ReadyToRun (t : tid) (s : sys) : result sys :=
  let s := setStatus t READY s in
  r <- Seq.Append t (readyList s) ;;
  Ok (set_ready r s).

Definition FindNextToRun (s : sys) : option tid * sys :=
  match readyList s with
  | [] => (None, s)
  | t :: r => (Some t, set_ready r s)
  end.

(** [Thread::~Thread] asserts that the thread is not the current one. *)
Definition CheckToBeDestroyed (s : sys) : result sys :=
  match toBeDestroyed s with
  | None => Ok s
  | Some t => assert (negb (bool_decide (t = currentThread s))) ;; Ok (set_destroy None s)
  end.

(** [Run], up to the first instructions of the thread that is switched in:
    coming back from SWITCH or starting in [Thread::Begin], it calls
    [CheckToBeDestroyed]. *)
Definition Run (nextThread : tid) (finishing : bool) (s : sys) : result sys :=
  let oldThread := currentThread s in
  s <- (if finishing then
          assert (bool_decide (toBeDestroyed s = None)) ;; Ok (set_destroy (Some oldThread) s)
        else Ok s) ;;
  let s := setStatus nextThread RUNNING (set_current nextThread None s) in
  CheckToBeDestroyed s.

(** [Thread::Begin] of the thread at [t]; the interrupts it enables are those of
    Interrupt.v. *)
Definition Begin (t : tid) (s : sys) : result sys :=
  assert (bool_decide (t = currentThread s)) ;; CheckToBeDestroyed s.

(** A thread that starts in [Begin] does what one that comes back from SWITCH
    does. *)
Lemma Run_Begin nextThread finishing s :
  Run nextThread finishing s =
  (s' <- (if finishing then assert (bool_decide (toBeDestroyed s = None)) ;; Ok (set_destroy (Some (currentThread s)) s) else Ok s) ;;
   Begin nextThread (setStatus nextThread RUNNING (set_current nextThread None s'))).
Proof.
  assert (H : forall s', Begin nextThread (setStatus nextThread RUNNING (set_current nextThread None s')) =
    CheckToBeDestroyed (setStatus nextThread RUNNING (set_current nextThread None s'))) by (intros s'; unfold Begin; by rewrite bool_decide_eq_true_2).
  unfold Run. destruct finishing; cbn [bind]; [|by rewrite H]. destruct (assert _); cbn [bind]; [by rewrite H|done].
Qed.

(** ** Thread *)

(** One turn of the loop of [Sleep]: with nothing ready the machine idles. *)
Definition Dispatch (finishing : bool) (s : sys) : result sys :=
  match FindNextToRun s with
  | (None, s) => Ok (set_current (currentThread s) (Some finishing) s)
  | (Some t, s) => Run t finishing s
  end.

Definition Sleep (finishing : bool) (s : sys) : result sys :=
  Dispatch finishing (setStatus (currentThread s) BLOCKED s).

Definition Finish (s : sys) : result sys := Sleep true s.

Definition Yield (s : sys) : result sys :=
  match FindNextToRun s with
  | (None, s) => Ok s
  | (Some nextThread, s) =>
      s <- ReadyToRun (currentThread s) s ;; Run nextThread false s
  end.

Definition Fork (prog : list op) (s : sys) : result sys :=
  let t := length (status s) in
  let s := set_code (fun c => c ++ [prog]) (set_status (fun st => st ++ [JUST_CREATED]) s) in
  ReadyToRun t s.

(** ** Semaphore *)

(** One turn of [P]: TRUE when it returned, FALSE when the thread went to sleep
    (it will test the value again when it next runs). *)
Definition P (i : sem_id) (s : sys) : result (bool * sys) :=
  let m := sems s i in
  if value m =? 0 then
    q <- Seq.Append (currentThread s) (queue m) ;;
    s <- Sleep false (set_sem i (mkSem (value m) q) s) ;;
    Ok (false, s)
  else Ok (true, set_sem i (mkSem (value m - 1) (queue m)) s).

Definition V (i : sem_id) (s : sys) : result sys :=
  let m := sems s i in
  s <- match queue m with
       | [] => Ok s
       | t :: q => ReadyToRun t (set_sem i (mkSem (value m) q) s)
       end ;;
  let m := sems s i in
  Ok (set_sem i (mkSem (value m + 1) (queue m)) s).

(** ** Lock and Condition, one section at a time *)

(** Declared in synch.h, where its body is commented out together with every use
    of it: this is what that body says. *)
Definition IsHeldByCurrentThread (l : nat) (s : sys) : bool :=
  bool_decide (lockHolder s l = Some (currentThread s)).

(** [Wait] up to [conditionLock->Release()]: a new semaphore of value 0 joins
    the queue; the rest of the routine is what the thread goes on with. *)
Definition StartWait (c : nat) (s : sys) : result (sem_id * sys) :=
  let waiter := Waiter (waiters s) in
  let s := set_waiters (S (waiters s)) (set_sem waiter (mkSem 0 []) s) in
  q <- Seq.Append waiter (waitQueue s c) ;;
  Ok (waiter, set_waitQueue c q s).

(** The running thread executes the first section of its program, or, at its
    end, [Finish]. *)
Definition exec (s : sys) : result sys :=
  let t := currentThread s in
  match program s t with
  | [] => Finish s
  | o :: rest =>
      let done := set_program t rest in
      match o with
      | MP i => '(b, s) <- P i s ;; Ok (if b then done s else s)
      | MV i => s <- V i s ;; Ok (done s)
      | MHold l => Ok (done (set_holder l (Some t) s))
      | MUnhold l => Ok (done (set_holder l None s))
      | MWait c l =>
          '(w, s) <- StartWait c s ;;
          Ok (set_program t (Release l ++ [MP w] ++ Acquire l ++ rest) s)
      | MSignal c =>
          match waitQueue s c with
          | [] => Ok (done s)
          | w :: q => Ok (set_program t (MV w :: rest) (set_waitQueue c q s))
          end
      | MBroadcast c =>
          match waitQueue s c with
          | [] => Ok (done s)
          | w :: q => Ok (set_program t (MV w :: MBroadcast c :: rest) (set_waitQueue c q s))
          end
      | MYield => Yield (done s)
      | MFork prog => s <- Fork prog s ;; Ok (done s)
      | MData _ _ _ => Ok (done s)
      end
  end.

(** ** The self tests of the classes, as programs *)

Definition SelfTestHelper (ping pong : sem_id) : list op := concat (replicate 10 [MP ping; MV pong]).
Definition SemaphoreSelfTest (ping this : sem_id) : list op :=
  MFork (SelfTestHelper ping this) :: concat (replicate 10 [MV ping; MP this]).
Definition SimpleThread : list op := replicate 5 MYield.
Definition ThreadSelfTest : list op := MFork SimpleThread :: MYield :: SimpleThread.

(** ** Steps *)

Inductive event :=
  | Execute                      (* the current thread runs its next section *)
  | Preempt                      (* the timer makes it yield *)
  | Signalled (n : nat)          (* a device's interrupt handler calls V *)
  | Resume.                      (* the idle loop finds a ready thread *)

(** [None]: the event cannot happen in this state. *)
Definition react (e : event) (s : sys) : option (result sys) :=
  match e, sleeping s with
  | Execute, None => Some (exec s)
  | Preempt, None => Some (Yield s)
  | Signalled n, _ => Some (V (User n) s)
  | Resume, Some finishing => Some (Dispatch finishing s)
  | _, _ => None
  end.

Inductive step : sys -> sys -> Prop :=
  | step_react e s s' : react e s = Some (Ok s') -> step s s'.

(** The main thread of a kernel with the given initial values of its
    semaphores; locks start free. *)
Definition initial (init : nat -> Z) (main : list op) : sys :=
  mkSys 0 None [] None [RUNNING] [main]
    (fun i => match i with
              | User n => mkSem (init n) []
              | OfLock _ => mkSem 1 []
              | Waiter _ => mkSem 0 []
              end)
    (fun _ => None) (fun _ => []) 0.

(** ** User registers across a context switch *)

Definition SaveUserState (m : Machine.machine) : result (list Z) :=
  foldr (fun i r => x <- Machine.ReadRegister m i ;; xs <- r ;; Ok (x :: xs)) (Ok []) (seqZ 0 Machine.NumTotalRegs).

Fixpoint restore_from (i : Z) (regs : list Z) (m : Machine.machine) : result Machine.machine :=
  match regs with
  | [] => Ok m
  | x :: xs => m <- Machine.WriteRegister i x m ;; restore_from (i + 1) xs m
  end.
Definition RestoreUserState (regs : list Z) (m : Machine.machine) : result Machine.machine :=
  restore_from 0 regs m.

(** ** The scheduling invariant *)

Definition at_P (s : sys) (i : sem_id) (t : tid) : Prop :=
  match program s t with MP j :: _ => i = j | _ => False end.
#[export] Instance at_P_dec s i t : Decision (at_P s i t).
Proof. unfold at_P. repeat case_match; apply _. Defined.

(** A program names only the wait semaphores allocated so far. *)
Fixpoint scoped (n : nat) (o : op) : bool :=
  match o with
  | MP (Waiter k) | MV (Waiter k) => bool_decide (k < n)%nat
  | MFork prog => forallb (scoped n) prog
  | _ => true
  end.

Lemma scoped_mono n m : (n <= m)%nat -> forall o, scoped n o = true -> scoped m o = true.
Proof.
  intros Hnm. fix IH 1. intros [[| |k]|[| |k]| | | | | | |prog| ]; try (simpl; done).
  - simpl. rewrite !bool_decide_eq_true. lia.
  - simpl. rewrite !bool_decide_eq_true. lia.
  - simpl. induction prog as [|o prog IHp]; [done|]. simpl. rewrite !andb_true_iff. intros [H1 H2].
    split; [by apply IH|by apply IHp].
Qed.

Definition scoped_all (n : nat) (p : list op) : bool := forallb (scoped n) p.

Lemma scoped_all_mono n m p : (n <= m)%nat -> scoped_all n p = true -> scoped_all m p = true.
Proof. unfold scoped_all. rewrite !forallb_forall. intros Hnm H o Ho. by eapply scoped_mono, H. Qed.

(** The threads that can run and whose next section is a [P] of [i]: they will
    test its value without being woken. *)
Definition count (s : sys) (i : sem_id) : Z :=
  Z.of_nat (length (filter (at_P s i) (readyList s))) +
  match sleeping s with
  | None => if decide (at_P s i (currentThread s)) then 1 else 0
  | Some _ => 0
  end.

Definition threads (s : sys) : nat := length (status s).

Record wf (s : sys) : Prop := {
  w_len : length (code s) = threads s;
  w_cur : (currentThread s < threads s)%nat;
  w_ready_nodup : NoDup (readyList s);
  w_ready : forall t, t ∈ readyList s <-> (t < threads s)%nat /\ statusOf s t = READY;
  w_running : forall t, (t < threads s)%nat -> statusOf s t = RUNNING <-> sleeping s = None /\ t = currentThread s;
  w_queue_nodup : forall i, NoDup (queue (sems s i));
  w_queue : forall i t, t ∈ queue (sems s i) -> (t < threads s)%nat /\ statusOf s t = BLOCKED /\ at_P s i t;
  w_blocked : forall t, (t < threads s)%nat -> statusOf s t = BLOCKED ->
    program s t = [] \/ exists i, t ∈ queue (sems s i);
  w_created : forall t, (t < threads s)%nat -> statusOf s t <> JUST_CREATED;
  w_finishing : sleeping s = Some true -> statusOf s (currentThread s) = BLOCKED /\ program s (currentThread s) = [];
  w_destroy : toBeDestroyed s = None;
  w_wait_nodup : forall c, NoDup (waitQueue s c);
  w_wait : forall c w, w ∈ waitQueue s c -> exists k, w = Waiter k /\ (k < waiters s)%nat;
  w_scope : Forall (fun p => scoped_all (waiters s) p = true) (code s);
  w_value : forall i, 0 <= value (sems s i);
  w_wake : forall i, queue (sems s i) <> [] -> value (sems s i) <= count s i
}.

(** An assertion-free outcome in an invariant state. *)
Definition fine (r : result sys) : Prop := exists s, r = Ok s /\ wf s.

Lemma statusOf_set s t st u :
  (t < threads s)%nat -> statusOf (setStatus t st s) u = if decide (t = u) then st else statusOf s u.
Proof.
  intros Ht. unfold statusOf, setStatus; simpl. case_decide as E.
  - subst. by apply list_lookup_total_insert_eq.
  - by apply list_lookup_total_insert_ne.
Qed.

Lemma threads_setStatus s t st : threads (setStatus t st s) = threads s.
Proof. unfold threads, setStatus; simpl. apply length_insert. Qed.

Lemma program_set s t p u :
  (t < length (code s))%nat -> program (set_program t p s) u = if decide (t = u) then p else program s u.
Proof.
  intros Ht. unfold program, set_program; simpl. case_decide as E.
  - subst. by apply list_lookup_total_insert_eq.
  - by apply list_lookup_total_insert_ne.
Qed.

Lemma sems_set s i x j : sems (set_sem i x s) j = if decide (i = j) then x else sems s j.
Proof. simpl. case_decide; [subst; apply fn_lookup_insert|by apply fn_lookup_insert_ne]. Qed.

Lemma running_current s : wf s -> sleeping s = None -> statusOf s (currentThread s) = RUNNING.
Proof. intros Hw Hs. apply (w_running _ Hw); [apply (w_cur _ Hw)|done]. Qed.

Lemma current_not_queued s i : wf s -> sleeping s = None -> currentThread s ∉ queue (sems s i).
Proof.
  intros Hw Hs Hin. pose proof (running_current s Hw Hs). destruct (w_queue _ Hw _ _ Hin) as (_ & Hb & _). congruence.
Qed.

Lemma current_not_ready s : wf s -> sleeping s = None -> currentThread s ∉ readyList s.
Proof.
  intros Hw Hs Hin. pose proof (running_current s Hw Hs). apply (w_ready _ Hw) in Hin as [_ Hr]. congruence.
Qed.

(** The components of the invariant an operation does not touch. *)
Ltac wf_same Hw :=
  first [exact (w_len _ Hw) | exact (w_cur _ Hw) | exact (w_ready_nodup _ Hw) | exact (w_ready _ Hw)
        | exact (w_queue_nodup _ Hw) | exact (w_queue _ Hw) | exact (w_blocked _ Hw) | exact (w_created _ Hw)
        | exact (w_finishing _ Hw) | exact (w_destroy _ Hw) | exact (w_wait_nodup _ Hw) | exact (w_wait _ Hw)
        | exact (w_value _ Hw) | exact (w_running _ Hw) | exact (w_scope _ Hw)].

(** ** Dispatching from the idle loop *)

Lemma Dispatch_sleeping f s : Dispatch f (set_current (currentThread s) (Some f) s) = Dispatch f s.
Proof.
  unfold Dispatch, FindNextToRun. cbn [readyList set_current]. destruct (readyList s); [done|].
  unfold Run. destruct f; [|done]. simpl. by case_bool_decide.
Qed.

Lemma Dispatch_ok f s : wf s -> sleeping s = Some f -> fine (Dispatch f s).
Proof.
  intros Hw Hs. unfold Dispatch, FindNextToRun. destruct (readyList s) as [|t r] eqn:Hr.
  - exists s. split; [|done]. destruct s; simpl in *. by subst.
  - assert (Ht : t ∈ readyList s) by (rewrite Hr; left). apply (w_ready _ Hw) in Ht as [Htn Hts].
    assert (Hrun : Run t f (set_ready r s) =
      Ok (setStatus t RUNNING (set_current t None (set_ready r s)))).
    { unfold Run. pose proof (w_destroy _ Hw) as Hd. destruct f; simpl; rewrite ?Hd; cbn [bind].
      - rewrite bool_decide_eq_true_2 by done. cbn [assert bind]. unfold CheckToBeDestroyed. simpl.
        rewrite bool_decide_eq_false_2.
        + simpl. unfold set_destroy, setStatus, set_current, set_ready, set_status. simpl. by rewrite Hd.
        + intros E. destruct (w_finishing _ Hw Hs) as [Hb _]. congruence.
      - unfold CheckToBeDestroyed. simpl. by rewrite Hd. }
    rewrite Hrun. eexists. split; [done|]. set (s' := setStatus t RUNNING _).
    assert (Hst : forall u, statusOf s' u = if decide (t = u) then RUNNING else statusOf s u).
    { intros u. unfold s'. by rewrite statusOf_set. }
    assert (Hth : threads s' = threads s) by (unfold s'; by rewrite threads_setStatus).
    pose proof (w_ready_nodup _ Hw) as Hnd. rewrite Hr in Hnd. apply NoDup_cons in Hnd as [Hnt Hnd].
    split; rewrite ?Hth; try wf_same Hw; try done.
    + intros u. rewrite Hst. simpl. pose proof (w_ready _ Hw u) as Hu. rewrite Hr, elem_of_cons in Hu.
      case_decide; [subst; naive_solver|]. naive_solver.
    + intros u Hu. rewrite Hst. simpl. case_decide; [naive_solver|].
      rewrite (w_running _ Hw u Hu), Hs. naive_solver.
    + intros i u Hu. rewrite Hst. destruct (w_queue _ Hw i u Hu) as (H1 & H2 & H3).
      case_decide; [subst; congruence|]. done.
    + intros u Hu. rewrite Hst. case_decide; [done|]. by apply (w_blocked _ Hw).
    + intros u Hu. rewrite Hst. case_decide; [done|]. by apply (w_created _ Hw).
    + intros i Hq. pose proof (w_wake _ Hw i Hq) as Hwk. unfold count in *. rewrite Hs, Hr in Hwk.
      change (value (sems s' i)) with (value (sems s i)). simpl.
      change (filter (at_P s' i) r) with (filter (at_P s i) r). rewrite filter_cons in Hwk.
      change (at_P s' i t) with (at_P s i t) in *. repeat case_decide; simpl in Hwk; try lia; done.
Qed.

Lemma Sleep_ok f s :
  wf (set_current (currentThread s) (Some f) (setStatus (currentThread s) BLOCKED s)) -> fine (Sleep f s).
Proof. intros Hw. unfold Sleep. rewrite <- Dispatch_sleeping. by apply Dispatch_ok. Qed.

(** ** The running thread goes on with its program *)

Lemma count_set_program s p i :
  wf s -> sleeping s = None ->
  count (set_program (currentThread s) p s) i =
    Z.of_nat (length (filter (at_P s i) (readyList s))) +
    (if decide (at_P (set_program (currentThread s) p s) i (currentThread s)) then 1 else 0).
Proof.
  intros Hw Hs. unfold count. simpl. rewrite Hs. do 3 f_equal. apply lfilter_ext. intros t Ht.
  unfold at_P. rewrite program_set by (rewrite (w_len _ Hw); apply Hw).
  case_decide; [|done]. subst. by destruct (current_not_ready s Hw Hs).
Qed.

(** The current thread's program and the semaphores' values change. *)
Lemma proceed_wf s p (m : sem_id -> Semaphore) :
  wf s -> sleeping s = None -> scoped_all (waiters s) p = true ->
  (forall i, queue (m i) = queue (sems s i)) -> (forall i, 0 <= value (m i)) ->
  (forall i, queue (sems s i) <> [] -> value (m i) <= count (set_program (currentThread s) p s) i) ->
  wf (set_program (currentThread s) p (set_sems m s)).
Proof.
  intros Hw Hs Hsc Hmq Hmv Hwake. pose proof (w_cur _ Hw) as Hcur. pose proof (w_len _ Hw) as Hlen.
  set (s' := set_program _ _ _).
  assert (Hp : forall t, t <> currentThread s -> program s' t = program s t).
  { intros t Ht. unfold s'. rewrite program_set by (simpl; lia). by case_decide. }
  split; try wf_same Hw; try done.
  - simpl. by rewrite length_insert.
  - intros i. simpl. rewrite Hmq. apply (w_queue_nodup _ Hw).
  - intros i t Ht. simpl in Ht. rewrite Hmq in Ht.
    destruct (w_queue _ Hw i t Ht) as (H1 & H2 & H3). split; [done|]. split; [done|].
    unfold at_P. rewrite Hp; [done|]. intros ->. by destruct (current_not_queued s i Hw Hs).
  - intros t Ht Hb. rewrite Hp.
    + destruct (w_blocked _ Hw t Ht Hb) as [?|[i Hi]]; [by left|]. right. exists i. simpl. by rewrite Hmq.
    + intros ->. pose proof (running_current s Hw Hs). change (statusOf s (currentThread s) = BLOCKED) in Hb. congruence.
  - intros Hf. change (sleeping s = Some true) in Hf. congruence.
  - simpl. apply Forall_insert; [apply (w_scope _ Hw)|done].
  - intros i Hq. simpl in Hq |- *. rewrite Hmq in Hq. by apply Hwake.
Qed.

Lemma set_program_wf s p :
  wf s -> sleeping s = None -> scoped_all (waiters s) p = true ->
  (forall i, queue (sems s i) <> [] -> value (sems s i) <= count (set_program (currentThread s) p s) i) ->
  wf (set_program (currentThread s) p s).
Proof.
  intros Hw Hs Hsc Hwake.
  assert (He : set_program (currentThread s) p (set_sems (sems s) s) = set_program (currentThread s) p s) by done.
  rewrite <- He. apply proceed_wf; try done. by apply w_value.
Qed.

(** Any section but a [P] can be stepped over. *)
Lemma advance_wf s p :
  wf s -> sleeping s = None -> scoped_all (waiters s) p = true -> (forall i, ~ at_P s i (currentThread s)) ->
  wf (set_program (currentThread s) p s).
Proof.
  intros Hw Hs Hsc Hn. apply set_program_wf; [done..|]. intros i Hq. rewrite count_set_program by done.
  pose proof (w_wake _ Hw i Hq) as Hwk. unfold count in Hwk. rewrite Hs in Hwk.
  rewrite decide_False in Hwk by done. case_decide; lia.
Qed.

(** ** Semaphores *)

Lemma at_P_head s i rest : program s (currentThread s) = MP i :: rest ->
  forall j, at_P s j (currentThread s) <-> j = i.
Proof. intros Hp j. unfold at_P. by rewrite Hp. Qed.

Lemma set_sem_sems s i x : set_sem i x s = set_sems (<[i := x]> (sems s)) s.
Proof. done. Qed.

Lemma program_scoped s t : wf s -> (t < threads s)%nat -> scoped_all (waiters s) (program s t) = true.
Proof.
  intros Hw Ht. apply (Forall_lookup_1 (fun p => scoped_all (waiters s) p = true) (code s) t); [apply (w_scope _ Hw)|].
  apply list_lookup_lookup_total_lt. by rewrite (w_len _ Hw).
Qed.

Lemma rest_scoped s o rest : wf s -> program s (currentThread s) = o :: rest ->
  scoped (waiters s) o = true /\ scoped_all (waiters s) rest = true.
Proof.
  intros Hw Hp. pose proof (program_scoped s (currentThread s) Hw (w_cur _ Hw)) as H. rewrite Hp in H.
  unfold scoped_all in *. simpl in H. by apply andb_true_iff in H.
Qed.

Lemma P_done_wf s i rest :
  wf s -> sleeping s = None -> program s (currentThread s) = MP i :: rest -> value (sems s i) <> 0 ->
  wf (set_program (currentThread s) rest (set_sem i (mkSem (value (sems s i) - 1) (queue (sems s i))) s)).
Proof.
  intros Hw Hs Hp Hv. pose proof (at_P_head s i rest Hp) as Hat. rewrite set_sem_sems. apply proceed_wf; try done; [by apply (rest_scoped s _ rest Hw Hp)|..].
  - intros j. destruct (decide (i = j)) as [->|Hne]; [by rewrite fn_lookup_insert|by rewrite fn_lookup_insert_ne].
  - intros j. pose proof (w_value _ Hw j). destruct (decide (i = j)) as [->|Hne];
      [rewrite fn_lookup_insert; simpl; lia|by rewrite fn_lookup_insert_ne].
  - intros j Hq. rewrite count_set_program by done. pose proof (w_wake _ Hw j Hq) as Hwk. unfold count in Hwk. rewrite Hs in Hwk.
    destruct (decide (i = j)) as [->|Hne].
    + rewrite fn_lookup_insert. simpl. rewrite decide_True in Hwk by by apply Hat. case_decide; lia.
    + rewrite fn_lookup_insert_ne by done. rewrite decide_False in Hwk by (rewrite Hat; congruence). case_decide; lia.
Qed.

Lemma P_sleep_ok s i rest :
  wf s -> sleeping s = None -> program s (currentThread s) = MP i :: rest -> value (sems s i) = 0 ->
  exists s', P i s = Ok (false, s') /\ wf s'.
Proof.
  intros Hw Hs Hp Hv. unfold P. rewrite Hv. cbn [Z.eqb]. unfold Seq.Append, Seq.IsInList.
  pose proof (current_not_queued s i Hw Hs) as Hnq. rewrite bool_decide_eq_false_2 by done. cbn [negb assert bind].
  set (s1 := set_sem i _ s). destruct (Sleep_ok false s1) as (s' & -> & Hw'); [|by exists s'].
  pose proof (w_cur _ Hw) as Hcur. set (s2 := set_current _ _ _).
  assert (Hst : forall t, statusOf s2 t = if decide (currentThread s = t) then BLOCKED else statusOf s t).
  { intros t. change (statusOf s2 t) with (statusOf (setStatus (currentThread s) BLOCKED s) t). by rewrite statusOf_set. }
  assert (Hth : threads s2 = threads s) by (change (threads (setStatus (currentThread s) BLOCKED s) = threads s); apply threads_setStatus).
  assert (Hq : forall j, queue (sems s2 j) = if decide (i = j) then queue (sems s i) ++ [currentThread s] else queue (sems s j)).
  { intros j. change (sems s2 j) with (sems s1 j). unfold s1. rewrite sems_set. by case_decide. }
  assert (Hval : forall j, value (sems s2 j) = value (sems s j)).
  { intros j. change (sems s2 j) with (sems s1 j). unfold s1. rewrite sems_set. case_decide; [by subst|done]. }
  pose proof (running_current s Hw Hs) as Hrun. pose proof (at_P_head s i rest Hp) as Hat.
  split; rewrite ?Hth; try wf_same Hw; try done.
  - intros t. rewrite Hst. change (readyList s2) with (readyList s). rewrite (w_ready _ Hw t). case_decide as E; [|done].
    split; [intros [_ ?]; congruence|intros [_ ?]; done].
  - intros t Ht. rewrite Hst. simpl. case_decide; [naive_solver|]. rewrite (w_running _ Hw t Ht). naive_solver.
  - intros j. rewrite Hq. case_decide; [|apply Hw]. apply NoDup_app. split; [apply Hw|].
    split; [|apply NoDup_singleton]. intros t Ht ->%list_elem_of_singleton. done.
  - intros j t. rewrite Hq, Hst. intros Ht. change (at_P s2 j t) with (at_P s j t).
    destruct (decide (i = j)) as [<-|Hne].
    + apply elem_of_app in Ht as [Ht | ->%list_elem_of_singleton].
      * destruct (w_queue _ Hw i t Ht) as (? & ? & ?). by case_decide.
      * rewrite decide_True by done. by rewrite Hat.
    + destruct (w_queue _ Hw j t Ht) as (? & ? & ?). by case_decide.
  - intros t Ht. rewrite Hst. change (program s2 t) with (program s t). case_decide as E.
    + intros _. right. exists i. rewrite Hq, decide_True by done. subst t. apply elem_of_app. right. by left.
    + intros Hb. destruct (w_blocked _ Hw t Ht Hb) as [?|[j Hj]]; [by left|]. right. exists j. rewrite Hq.
      case_decide; [subst; apply elem_of_app; by left|done].
  - intros t Ht. rewrite Hst. case_decide; [done|]. by apply (w_created _ Hw).
  - intros j. rewrite Hval. apply Hw.
  - intros j Hj. rewrite Hval. unfold count. simpl. destruct (decide (i = j)) as [<-|Hne]; [rewrite Hv; lia|].
    rewrite Hq, decide_False in Hj by done. pose proof (w_wake _ Hw j Hj) as Hwk. unfold count in Hwk. rewrite Hs in Hwk.
    rewrite decide_False in Hwk by (rewrite Hat; congruence). exact Hwk.
Qed.

Lemma ReadyToRun_eq t s : t ∉ readyList s ->
  ReadyToRun t s = Ok (set_ready (readyList s ++ [t]) (setStatus t READY s)).
Proof.
  intros Ht. unfold ReadyToRun, Seq.Append, Seq.IsInList. simpl. by rewrite bool_decide_eq_false_2.
Qed.

Lemma V_ok i s : wf s -> exists s', V i s = Ok s' /\ wf s' /\ currentThread s' = currentThread s /\
  sleeping s' = sleeping s /\ code s' = code s /\ waiters s' = waiters s.
Proof.
  intros Hw. unfold V. destruct (queue (sems s i)) as [|t q] eqn:Hq.
  - cbn [bind]. eexists. split; [done|]. split; [|done].
    assert (Hqq : forall j, queue (sems (set_sem i (mkSem (value (sems s i) + 1) []) s) j) = queue (sems s j)).
    { intros j. rewrite sems_set. case_decide; [by subst|done]. }
    rewrite Hq. split; try wf_same Hw; try done.
    + intros j. rewrite Hqq. apply Hw.
    + intros j u Hu. rewrite Hqq in Hu. by apply (w_queue _ Hw).
    + intros u Hu Hb. destruct (w_blocked _ Hw u Hu Hb) as [?|[j Hj]]; [by left|]. right. exists j. by rewrite Hqq.
    + intros j. rewrite sems_set. pose proof (w_value _ Hw i). case_decide; [simpl; lia|apply Hw].
    + intros j Hj. rewrite Hqq in Hj. rewrite sems_set. case_decide; [by subst|]. by apply (w_wake _ Hw).
  - assert (Hin : t ∈ queue (sems s i)) by (rewrite Hq; left).
    destruct (w_queue _ Hw i t Hin) as (Htn & Htb & Hta).
    set (s1 := set_sem i (mkSem (value (sems s i)) q) s).
    assert (Hnr : t ∉ readyList s1) by (intros Hr; apply (w_ready _ Hw) in Hr as [_ Hr]; congruence).
    rewrite (ReadyToRun_eq t s1 Hnr). cbn [bind]. eexists. split; [done|]. split; [|done].
    set (s2 := set_sem i _ _).
    assert (Hst : forall u, statusOf s2 u = if decide (t = u) then READY else statusOf s u).
    { intros u. change (statusOf s2 u) with (statusOf (setStatus t READY s) u). by rewrite statusOf_set. }
    assert (Hth : threads s2 = threads s) by (change (threads (setStatus t READY s) = threads s); apply threads_setStatus).
    assert (Hqq : forall j, queue (sems s2 j) = if decide (i = j) then q else queue (sems s j)).
    { intros j. unfold s2. rewrite sems_set. change (sems (set_ready (readyList s1 ++ [t]) (setStatus t READY s1))) with (sems s1).
      unfold s1. rewrite !sems_set. repeat case_decide; done. }
    assert (Hval : forall j, value (sems s2 j) = if decide (i = j) then value (sems s j) + 1 else value (sems s j)).
    { intros j. unfold s2. rewrite sems_set. change (sems (set_ready (readyList s1 ++ [t]) (setStatus t READY s1))) with (sems s1).
      unfold s1. rewrite !sems_set. repeat case_decide; subst; done. }
    pose proof (w_queue_nodup _ Hw i) as Hnd. rewrite Hq in Hnd. apply NoDup_cons in Hnd as [Htq Hnd].
    change (readyList s1) with (readyList s) in *.
    split; rewrite ?Hth; try wf_same Hw; try done.
    + simpl. apply NoDup_app. split; [apply Hw|]. split; [|apply NoDup_singleton]. by intros u Hu ->%list_elem_of_singleton.
    + intros u. rewrite Hst. simpl. rewrite elem_of_app, list_elem_of_singleton, (w_ready _ Hw u). case_decide; naive_solver.
    + intros u Hu. rewrite Hst. change (sleeping s2) with (sleeping s). change (currentThread s2) with (currentThread s).
      rewrite <- (w_running _ Hw u Hu). case_decide; [subst; rewrite Htb; naive_solver|done].
    + intros j. rewrite Hqq. case_decide; [done|apply Hw].
    + intros j u Hu. rewrite Hqq in Hu. rewrite Hst. change (at_P s2 j u) with (at_P s j u).
      assert (Hu' : u ∈ queue (sems s j)) by (case_decide; [subst; rewrite Hq; by right|done]).
      destruct (w_queue _ Hw j u Hu') as (H1 & H2 & H3). split; [done|]. split; [|done]. destruct (decide (t = u)) as [<-|]; [|done].
      exfalso. unfold at_P in Hta, H3. destruct (program s t) as [|[]]; try done. subst. rewrite decide_True in Hu by done. done.
    + intros u Hu. rewrite Hst. case_decide as E; [done|]. intros Hb. change (program s2 u) with (program s u).
      destruct (w_blocked _ Hw u Hu Hb) as [?|[j Hj]]; [by left|]. right. exists j. rewrite Hqq.
      case_decide; [|done]. subst. rewrite Hq in Hj. apply elem_of_cons in Hj as [->|]; done.
    + intros u Hu. rewrite Hst. case_decide; [done|]. by apply (w_created _ Hw).
    + intros Hf. rewrite Hst. change (currentThread s2) with (currentThread s). change (program s2) with (program s).
      destruct (w_finishing _ Hw Hf) as [Hb He]. split; [|done].
      case_decide as E; [|done]. subst t. unfold at_P in Hta. by rewrite He in Hta.
    + intros j. rewrite Hval. pose proof (w_value _ Hw j). case_decide; lia.
    + intros j Hj. rewrite Hqq in Hj. rewrite Hval.
      assert (Hj' : queue (sems s j) <> []) by (case_decide; [subst; by rewrite Hq|done]).
      pose proof (w_wake _ Hw j Hj') as Hwk. unfold count in *. simpl.
      change (at_P s2 j (currentThread s)) with (at_P s j (currentThread s)).
      change (filter (at_P s2 j) (readyList s ++ [t])) with (filter (at_P s j) (readyList s ++ [t])).
      rewrite filter_app, length_app, filter_cons, filter_nil.
      assert (Hj1 : at_P s j t <-> i = j).
      { unfold at_P in *. destruct (program s t) as [|[]]; try done. subst. naive_solver. }
      repeat case_decide; simpl; try lia; tauto.
Qed.

(** ** The remaining operations *)

Lemma Yield_ok s : wf s -> sleeping s = None -> fine (Yield s).
Proof.
  intros Hw Hs. unfold Yield, FindNextToRun. destruct (readyList s) as [|t r] eqn:Hr; [by exists s|].
  set (cur := currentThread s).
  set (s3 := set_current cur (Some false) (set_ready ((t :: r) ++ [cur]) (setStatus cur READY s))).
  pose proof (current_not_ready s Hw Hs) as Hnr. rewrite Hr, not_elem_of_cons in Hnr. destruct Hnr as [_ Hnr].
  change (currentThread (set_ready r s)) with cur.
  rewrite (ReadyToRun_eq cur (set_ready r s)) by done. cbn [bind].
  change (Run t false (set_ready (readyList (set_ready r s) ++ [cur]) (setStatus cur READY (set_ready r s)))) with (Dispatch false s3).
  apply Dispatch_ok; [|done].
  assert (Hst : forall u, statusOf s3 u = if decide (cur = u) then READY else statusOf s u).
  { intros u. change (statusOf s3 u) with (statusOf (setStatus cur READY s) u). rewrite statusOf_set; [done|apply Hw]. }
  assert (Hth : threads s3 = threads s) by (change (threads (setStatus cur READY s) = threads s); apply threads_setStatus).
  pose proof (running_current s Hw Hs) as Hrun. fold cur in Hrun. pose proof (w_cur _ Hw) as Hcur.
  split; rewrite ?Hth; try wf_same Hw; try done.
  - change (readyList s3) with ((t :: r) ++ [cur]). rewrite <- Hr. apply NoDup_app. split; [apply Hw|].
    split; [|apply NoDup_singleton]. intros u Hu ->%list_elem_of_singleton. by apply (current_not_ready s Hw Hs).
  - intros u. change (readyList s3) with ((t :: r) ++ [cur]). rewrite <- Hr, elem_of_app, list_elem_of_singleton, Hst, (w_ready _ Hw u).
    unfold cur in *. case_decide; naive_solver.
  - intros u Hu. rewrite Hst. change (sleeping s3) with (Some false). case_decide as E; [naive_solver|].
    rewrite (w_running _ Hw u Hu). unfold cur in *. naive_solver.
  - intros i u Hu. destruct (w_queue _ Hw i u Hu) as (H1 & H2 & H3). rewrite Hst. split; [done|]. split; [|done].
    case_decide; [congruence|done].
  - intros u Hu. rewrite Hst. case_decide; [done|]. by apply (w_blocked _ Hw).
  - intros u Hu. rewrite Hst. case_decide; [done|]. by apply (w_created _ Hw).
  - intros i Hq. pose proof (w_wake _ Hw i Hq) as Hwk. unfold count in *. rewrite Hs, Hr in Hwk.
    change (sleeping s3) with (Some false). change (readyList s3) with ((t :: r) ++ [cur]).
    change (filter (at_P s3 i) ((t :: r) ++ [cur])) with (filter (at_P s i) ((t :: r) ++ [cur])).
    rewrite filter_app, length_app, (filter_cons (at_P s i) cur []), filter_nil. fold cur in Hwk.
    change (value (sems s3 i)) with (value (sems s i)).
    case_decide; simpl; lia.
Qed.

Lemma lookup_total_snoc_lt {A} `{Inhabited A} (l : list A) x i : (i < length l)%nat -> (l ++ [x]) !!! i = l !!! i.
Proof. intros Hi. by rewrite lookup_total_app_l. Qed.
Lemma lookup_total_snoc_eq {A} `{Inhabited A} (l : list A) x : (l ++ [x]) !!! length l = x.
Proof. by rewrite lookup_total_app_r, Nat.sub_diag. Qed.

Lemma Fork_ok prog s : wf s -> scoped_all (waiters s) prog = true ->
  exists s', Fork prog s = Ok s' /\ wf s' /\ currentThread s' = currentThread s /\ sleeping s' = sleeping s /\
    code s' = code s ++ [prog] /\ waiters s' = waiters s.
Proof.
  intros Hw Hprog. unfold Fork. set (n := length (status s)).
  set (s0 := set_code _ _).
  assert (Hnr : n ∉ readyList s0) by (intros Hin%(w_ready _ Hw); unfold threads, n in *; lia).
  rewrite (ReadyToRun_eq n s0 Hnr). eexists. split; [done|]. split; [|done].
  set (s' := set_ready _ _).
  assert (Hth : threads s' = S n).
  { change (threads s') with (threads (setStatus n READY s0)). rewrite threads_setStatus. unfold threads, s0. simpl. rewrite length_app. simpl. unfold n. lia. }
  assert (Hst : forall u, (u < S n)%nat -> statusOf s' u = if decide (n = u) then READY else statusOf s u).
  { intros u Hu. change (statusOf s' u) with (statusOf (setStatus n READY s0) u).
    rewrite statusOf_set by (unfold threads, s0; simpl; rewrite length_app; simpl; unfold n; lia).
    case_decide; [done|]. unfold statusOf, s0. simpl. apply lookup_total_snoc_lt. unfold n in *. lia. }
  assert (Hpr : forall u, (u < n)%nat -> program s' u = program s u).
  { intros u Hu. unfold program. simpl. apply lookup_total_snoc_lt. rewrite (w_len _ Hw). exact Hu. }
  assert (Hprn : program s' n = prog).
  { unfold program. simpl. assert (n = length (code s)) as -> by (symmetry; apply (w_len _ Hw)). apply lookup_total_snoc_eq. }
  assert (Hn : threads s = n) by done.
  pose proof (w_cur _ Hw) as Hcur. rewrite Hn in Hcur.
  split; rewrite ?Hth; try wf_same Hw; try done.
  - simpl. rewrite length_app, (w_len _ Hw). simpl. rewrite Hn. lia.
  - simpl. lia.
  - change (readyList s') with (readyList s ++ [n]). apply NoDup_app. split; [apply Hw|].
    split; [|apply NoDup_singleton]. by intros u Hu ->%list_elem_of_singleton.
  - intros u. change (readyList s') with (readyList s ++ [n]).
    rewrite elem_of_app, list_elem_of_singleton, (w_ready _ Hw u), Hn. split.
    + intros [[Hu Hr] | ->]; (split; [lia|]); rewrite Hst by lia; case_decide; done || lia.
    + intros [Hu Hr]. rewrite Hst in Hr by done. case_decide; [by right|]. left. split; [lia|done].
  - intros u Hu. rewrite Hst by done. change (sleeping s') with (sleeping s). change (currentThread s') with (currentThread s).
    case_decide as E; [subst u; split; [done|intros [_ ->]; lia]|]. apply (w_running _ Hw). lia.
  - intros i u Hu. destruct (w_queue _ Hw i u Hu) as (H1 & H2 & H3). rewrite Hn in H1. split; [lia|].
    rewrite Hst by lia. unfold at_P. rewrite Hpr by lia. case_decide; [lia|done].
  - intros u Hu. rewrite Hst by done. case_decide; [done|]. intros Hb. rewrite Hpr by lia.
    apply (w_blocked _ Hw); [rewrite Hn; lia|done].
  - intros u Hu. rewrite Hst by done. case_decide; [done|]. apply (w_created _ Hw). lia.
  - intros Hf. change (currentThread s') with (currentThread s). rewrite Hst, Hpr by lia. destruct (w_finishing _ Hw Hf). case_decide; [lia|done].
  - simpl. apply Forall_app. split; [apply (w_scope _ Hw)|by repeat constructor].
  - intros i Hq. pose proof (w_wake _ Hw i Hq) as Hwk. change (value (sems s' i)) with (value (sems s i)). unfold count in *.
    change (readyList s') with (readyList s ++ [n]). change (sleeping s') with (sleeping s). change (currentThread s') with (currentThread s).
    rewrite filter_app, length_app.
    assert (Heq : filter (at_P s' i) (readyList s) = filter (at_P s i) (readyList s)).
    { apply lfilter_ext. intros u Hu%(w_ready _ Hw). unfold at_P. rewrite Hpr; [done|]. rewrite <- Hn. tauto. }
    rewrite Heq. destruct (sleeping s); [lia|].
    assert (Hc : at_P s' i (currentThread s) <-> at_P s i (currentThread s)) by (unfold at_P; by rewrite Hpr).
    repeat case_decide; lia || tauto.
Qed.

Lemma StartWait_ok c s rest l :
  wf s -> sleeping s = None -> program s (currentThread s) = MWait c l :: rest ->
  exists s', StartWait c s = Ok (Waiter (waiters s), s') /\
    wf (set_program (currentThread s) (Release l ++ [MP (Waiter (waiters s))] ++ Acquire l ++ rest) s') /\
    currentThread s' = currentThread s.
Proof.
  intros Hw Hs Hp. unfold StartWait, Seq.Append, Seq.IsInList. set (w := Waiter (waiters s)).
  change (waitQueue (set_waiters (S (waiters s)) (set_sem w (mkSem 0 []) s)) c) with (waitQueue s c).
  assert (Hwq : w ∉ waitQueue s c) by (intros (k & Hk & Hlt)%(w_wait _ Hw); injection Hk as <-; lia).
  rewrite bool_decide_eq_false_2 by done. cbn [negb assert bind]. eexists. split; [done|]. split; [|done].
  set (s1 := set_waitQueue _ _ _). set (p := Release l ++ _).
  assert (Hempty : queue (sems s w) = []).
  { destruct (queue (sems s w)) as [|t q] eqn:Hq; [done|].
    assert (Ht : t ∈ queue (sems s w)) by (rewrite Hq; left). destruct (w_queue _ Hw _ _ Ht) as (H1 & _ & H3).
    pose proof (program_scoped s t Hw H1) as Hsc. unfold at_P in H3. destruct (program s t) as [|[] ?]; try done. subst s0.
    unfold scoped_all in Hsc. simpl in Hsc. apply andb_true_iff in Hsc as [Hsc%bool_decide_eq_true _]. lia. }
  assert (Hq1 : forall i, queue (sems s1 i) = queue (sems s i)).
  { intros i. change (sems s1 i) with (sems (set_sem w (mkSem 0 []) s) i). rewrite sems_set. case_decide; [by subst|done]. }
  pose proof (w_cur _ Hw) as Hcur. pose proof (rest_scoped s _ rest Hw Hp) as [_ Hrest].
  assert (Hw1 : wf s1).
  { split; try wf_same Hw; try done.
    - intros i. rewrite Hq1. apply Hw.
    - intros i t Ht. rewrite Hq1 in Ht. by apply (w_queue _ Hw).
    - intros t Ht Hb. destruct (w_blocked _ Hw t Ht Hb) as [?|[i Hi]]; [by left|]. right. exists i. by rewrite Hq1.
    - intros d. change (waitQueue s1) with (<[c := waitQueue s c ++ [w]]> (waitQueue s)).
      destruct (decide (c = d)) as [<-|Hne]; [rewrite fn_lookup_insert|rewrite fn_lookup_insert_ne by done; apply Hw].
      apply NoDup_app. split; [apply Hw|]. split; [|apply NoDup_singleton]. by intros v Hv ->%list_elem_of_singleton.
    - intros d v. change (waitQueue s1) with (<[c := waitQueue s c ++ [w]]> (waitQueue s)). change (waiters s1) with (S (waiters s)).
      destruct (decide (c = d)) as [<-|Hne]; [rewrite fn_lookup_insert, elem_of_app, list_elem_of_singleton|rewrite fn_lookup_insert_ne by done].
      + intros [(k & -> & Hk)%(w_wait _ Hw) | ->]; [exists k; split; [done|lia]|]. exists (waiters s). split; [done|lia].
      + intros (k & -> & Hk)%(w_wait _ Hw). exists k. split; [done|lia].
    - change (waiters s1) with (S (waiters s)). eapply Forall_impl; [apply (w_scope _ Hw)|]. intros q Hq. eapply scoped_all_mono; [|exact Hq]. lia.
    - intros i. change (sems s1 i) with (sems (set_sem w (mkSem 0 []) s) i). rewrite sems_set. case_decide; [done|apply Hw].
    - intros i Hi. rewrite Hq1 in Hi. change (sems s1 i) with (sems (set_sem w (mkSem 0 []) s) i). rewrite sems_set.
      case_decide; [subst; done|]. by apply (w_wake _ Hw). }
  change (currentThread s) with (currentThread s1). apply advance_wf; [done|done| |].
  - change (waiters s1) with (S (waiters s)). unfold p, Release, Acquire, scoped_all. simpl.
    rewrite bool_decide_eq_true_2 by lia. simpl. eapply scoped_all_mono; [|exact Hrest]. lia.
  - intros i. unfold at_P. change (program s1 (currentThread s1)) with (program s (currentThread s)). rewrite Hp. tauto.
Qed.

Lemma dequeue_wf s c w q : wf s -> waitQueue s c = w :: q -> wf (set_waitQueue c q s) /\ exists k, w = Waiter k /\ (k < waiters s)%nat.
Proof.
  intros Hw Hq. pose proof (w_wait_nodup _ Hw c) as Hnd. rewrite Hq in Hnd. apply NoDup_cons in Hnd as [_ Hnd].
  split; [|apply (w_wait _ Hw c); rewrite Hq; left]. split; try wf_same Hw; try done.
  - intros d. change (waitQueue (set_waitQueue c q s)) with (<[c := q]> (waitQueue s)).
    destruct (decide (c = d)) as [<-|Hne]; [by rewrite fn_lookup_insert|rewrite fn_lookup_insert_ne by done; apply Hw].
  - intros d v. change (waitQueue (set_waitQueue c q s)) with (<[c := q]> (waitQueue s)).
    destruct (decide (c = d)) as [<-|Hne]; [rewrite fn_lookup_insert; intros Hv; apply (w_wait _ Hw c); rewrite Hq; by right|].
    rewrite fn_lookup_insert_ne by done. apply (w_wait _ Hw).
  - exact (w_wake _ Hw).
Qed.

Lemma set_holder_wf l h s : wf s -> wf (set_holder l h s).
Proof. intros Hw. split; try wf_same Hw; try done. exact (w_wake _ Hw). Qed.

Lemma Finish_ok s : wf s -> sleeping s = None -> program s (currentThread s) = [] -> fine (Finish s).
Proof.
  intros Hw Hs Hp. apply Sleep_ok. pose proof (w_cur _ Hw) as Hcur. set (s2 := set_current _ _ _).
  assert (Hst : forall t, statusOf s2 t = if decide (currentThread s = t) then BLOCKED else statusOf s t).
  { intros t. change (statusOf s2 t) with (statusOf (setStatus (currentThread s) BLOCKED s) t). by rewrite statusOf_set. }
  assert (Hth : threads s2 = threads s) by (change (threads (setStatus (currentThread s) BLOCKED s) = threads s); apply threads_setStatus).
  pose proof (running_current s Hw Hs) as Hrun.
  split; rewrite ?Hth; try wf_same Hw; try done.
  - intros t. rewrite Hst. change (readyList s2) with (readyList s). rewrite (w_ready _ Hw t). case_decide as E; [|done].
    split; [intros [_ ?]; congruence|intros [_ ?]; done].
  - intros t Ht. rewrite Hst. change (sleeping s2) with (Some true). case_decide; [naive_solver|]. rewrite (w_running _ Hw t Ht). naive_solver.
  - intros j t Ht. destruct (w_queue _ Hw j t Ht) as (? & ? & ?). rewrite Hst. by case_decide.
  - intros t Ht. rewrite Hst. change (program s2 t) with (program s t). case_decide as E; [intros _; left; by subst|].
    by apply (w_blocked _ Hw).
  - intros t Ht. rewrite Hst. case_decide; [done|]. by apply (w_created _ Hw).
  - intros _. rewrite Hst. change (currentThread s2) with (currentThread s). by rewrite decide_True.
  - intros j Hj. pose proof (w_wake _ Hw j Hj) as Hwk. unfold count in *. rewrite Hs in Hwk. simpl.
    rewrite decide_False in Hwk by (unfold at_P; rewrite Hp; tauto). exact Hwk.
Qed.

Lemma exec_ok s : wf s -> sleeping s = None -> fine (exec s).
Proof.
  intros Hw Hs. unfold exec. destruct (program s (currentThread s)) as [|o rest] eqn:Hp; [by apply Finish_ok|].
  destruct (rest_scoped s o rest Hw Hp) as [Ho Hrest].
  assert (Hnot : (forall i, o <> MP i) -> forall i, ~ at_P s i (currentThread s)).
  { intros Hne i Hat. unfold at_P in Hat. rewrite Hp in Hat. destruct o; try done. subst. by eapply Hne. }
  destruct o as [i|i|l|l|c l|c|c| |prog|obj a x].
  - destruct (decide (value (sems s i) = 0)) as [Hv|Hv].
    + destruct (P_sleep_ok s i rest Hw Hs Hp Hv) as (s' & -> & Hw'). by exists s'.
    + unfold P. rewrite (proj2 (Z.eqb_neq _ _) Hv). cbn [bind]. eexists. split; [done|]. by apply P_done_wf.
  - destruct (V_ok i s Hw) as (s' & -> & Hw' & Hc & Hs' & Hcode & Hwt). cbn [bind]. eexists. split; [done|].
    rewrite <- Hc. apply advance_wf; [done|by rewrite Hs'|by rewrite Hwt|].
    intros j Hj. unfold at_P, program in Hj. rewrite Hc, Hcode in Hj. by apply (Hnot ltac:(done) j).
  - eexists. split; [done|]. change (currentThread s) with (currentThread (set_holder l (Some (currentThread s)) s)).
    apply advance_wf; [by apply set_holder_wf|done|done|]. apply Hnot. done.
  - eexists. split; [done|]. change (currentThread s) with (currentThread (set_holder l None s)).
    apply advance_wf; [by apply set_holder_wf|done|done|]. apply Hnot. done.
  - destruct (StartWait_ok c s rest l Hw Hs Hp) as (s' & -> & Hw' & _). cbn [bind]. by eexists.
  - destruct (waitQueue s c) as [|w q] eqn:Hq; eexists; (split; [done|]).
    + apply advance_wf; [done..|]. by apply Hnot.
    + destruct (dequeue_wf s c w q Hw Hq) as (Hw' & k & -> & Hk).
      change (currentThread s) with (currentThread (set_waitQueue c q s)). apply advance_wf; [done|done| |by apply Hnot].
      unfold scoped_all. simpl. rewrite bool_decide_eq_true_2 by done. done.
  - destruct (waitQueue s c) as [|w q] eqn:Hq; eexists; (split; [done|]).
    + apply advance_wf; [done..|]. by apply Hnot.
    + destruct (dequeue_wf s c w q Hw Hq) as (Hw' & k & -> & Hk).
      change (currentThread s) with (currentThread (set_waitQueue c q s)). apply advance_wf; [done|done| |by apply Hnot].
      unfold scoped_all. simpl. rewrite bool_decide_eq_true_2 by done. done.
  - apply Yield_ok; [|done]. apply advance_wf; [done..|]. by apply Hnot.
  - destruct (Fork_ok prog s Hw Ho) as (s' & -> & Hw' & Hc & Hs' & Hcode & Hwt). cbn [bind]. eexists. split; [done|].
    rewrite <- Hc. apply advance_wf; [done|by rewrite Hs'|by rewrite Hwt|].
    intros j Hj. apply (Hnot ltac:(done) j). unfold at_P, program in *. rewrite Hc, Hcode in Hj.
    rewrite lookup_total_app_l in Hj; [done|]. rewrite (w_len _ Hw). apply Hw.
  - eexists. split; [done|]. apply advance_wf; [done..|]. by apply Hnot.
Qed.
(** ** Reachability *)

Lemma react_ok e s r : wf s -> react e s = Some r -> fine r.
Proof.
  intros Hw. destruct e as [| |n|], (sleeping s) as [f|] eqn:Hs; simpl; rewrite ?Hs; try done; intros [= <-].
  - by apply exec_ok.
  - by apply Yield_ok.
  - destruct (V_ok (User n) s Hw) as (s' & -> & Hw' & _). by exists s'.
  - destruct (V_ok (User n) s Hw) as (s' & -> & Hw' & _). by exists s'.
  - by apply Dispatch_ok.
Qed.

Lemma initial_wf init main :
  (forall n, 0 <= init n) -> scoped_all 0 main = true -> wf (initial init main).
Proof.
  intros Hi Hm. assert (H1 : forall t, (t < 1)%nat -> t = O) by lia.
  split; unfold threads; simpl; try done; try (by constructor); try (intros; set_solver).
  - intros [n|n|n]; constructor.
  - intros [n|n|n] t; set_solver.
  - intros [n|n|n]; simpl; [apply Hi|lia..].
  - intros [n|n|n]; simpl; done.
Qed.

Lemma step_wf s s' : wf s -> step s s' -> wf s'.
Proof.
  intros Hw Hstep. destruct Hstep as [e s0 s1 Hr]. by destruct (react_ok e s0 _ Hw Hr) as (s2 & [= ->] & ?).
Qed.

Lemma reachable_wf s s' : wf s -> rtc step s s' -> wf s'.
Proof. intros Hw. induction 1; [done|]. eauto using step_wf. Qed.

(** ** Locks

    Where a thread is in the protocol of lock [l]: outside, between the [P] of
    [Acquire] and its assignment of [lockHolder], holding, or between the two
    assignments of [Release]. *)

Inductive phase := Free | Taken | Held | Releasing.
#[export] Instance phase_eq_dec : EqDecision phase.
Proof. solve_decision. Defined.

Fixpoint phase_of (l : nat) (p : list op) : phase :=
  match p with
  | [] => Free
  | o :: r =>
      match o with
      | MP (OfLock l') => if decide (l = l') then Free else phase_of l r
      | MHold l' => if decide (l = l') then Taken else phase_of l r
      | MWait _ l' => if decide (l = l') then Held else phase_of l r
      | MUnhold l' => if decide (l = l') then Held else phase_of l r
      | MV (OfLock l') => if decide (l = l') then Releasing else phase_of l r
      | _ => phase_of l r
      end
  end.

Definition next_phase (l : nat) (o : op) (ph : phase) : phase :=
  match o with
  | MP (OfLock l') => if decide (l = l') then Taken else ph
  | MHold l' => if decide (l = l') then Held else ph
  | MUnhold l' => if decide (l = l') then Releasing else ph
  | MV (OfLock l') => if decide (l = l') then Free else ph
  | _ => ph
  end.

(** [Acquire] and [Release] of [l] alternate, [Wait] is called with the lock
    held, and a forked program starts without it. *)
Fixpoint alternates (l : nat) (p : list op) : bool :=
  match p with
  | [] => true
  | o :: r => bool_decide (next_phase l o (phase_of l p) = phase_of l r) && alternates l r
  end.

Fixpoint forks_alternate (l : nat) (o : op) : bool :=
  match o with
  | MFork prog => bool_decide (phase_of l prog = Free) && alternates l prog && forallb (forks_alternate l) prog
  | _ => true
  end.

Definition disciplined (l : nat) (p : list op) : bool := alternates l p && forallb (forks_alternate l) p.

Definition inside (l : nat) (p : list op) : Prop := phase_of l p <> Free.
#[export] Instance inside_dec l p : Decision (inside l p) := _.

Definition holds_lock (l : nat) (s : sys) (t : tid) : Prop := phase_of l (program s t) = Held.

Definition count_inside (l : nat) (c : list (list op)) : Z := Z.of_nat (length (filter (inside l) c)).

Record lock_inv (l : nat) (s : sys) : Prop := {
  l_disc : Forall (fun p => disciplined l p = true) (code s);
  l_count : value (sems s (OfLock l)) + count_inside l (code s) = 1;
  l_holder : forall t, lockHolder s l = Some t <-> (t < threads s)%nat /\ holds_lock l s t
}.

(** What the scheduler does not touch. *)
Definition same_locks (s s' : sys) : Prop :=
  code s' = code s /\ threads s' = threads s /\ (forall i, value (sems s' i) = value (sems s i)) /\ lockHolder s' = lockHolder s.

Lemma Dispatch_locks f s s' : Dispatch f s = Ok s' -> same_locks s s'.
Proof.
  unfold Dispatch, FindNextToRun. destruct (readyList s) as [|t r]; [by intros [= <-]|].
  unfold Run. intros H. apply bind_ok in H as (s1 & H1 & H).
  assert (Hs1 : same_locks s s1).
  { destruct f; [apply bind_ok in H1 as (? & _ & H1)|]; by injection H1 as <-. }
  unfold CheckToBeDestroyed in H. cbn [toBeDestroyed setStatus set_status set_current] in H. destruct (toBeDestroyed s1).
  - apply bind_ok in H as (? & _ & [= <-]). unfold same_locks, threads in *. simpl. by rewrite length_insert.
  - injection H as <-. unfold same_locks, threads in *. simpl. by rewrite length_insert.
Qed.

Lemma same_locks_inv l s s' : same_locks s s' -> lock_inv l s -> lock_inv l s'.
Proof.
  intros (Hc & Ht & Hv & Hh) [H1 H2 H3]. split; [by rewrite Hc|by rewrite Hc, Hv|].
  intros t. unfold holds_lock, program in *. by rewrite Hh, Ht, Hc.
Qed.

Lemma same_locks_setStatus s t st : same_locks s (setStatus t st s).
Proof. unfold same_locks. by rewrite threads_setStatus. Qed.

Lemma same_locks_trans s1 s2 s3 : same_locks s1 s2 -> same_locks s2 s3 -> same_locks s1 s3.
Proof.
  intros (H1 & H2 & H3 & H4) (K1 & K2 & K3 & K4). unfold same_locks. rewrite K1, K2, K4. split_and!; try done.
  intros i. by rewrite K3.
Qed.

Lemma Sleep_locks f s s' : Sleep f s = Ok s' -> same_locks s s'.
Proof. intros H%Dispatch_locks. by eapply same_locks_trans; [apply same_locks_setStatus|]. Qed.

Lemma ReadyToRun_locks t s s' : ReadyToRun t s = Ok s' -> same_locks s s'.
Proof. unfold ReadyToRun. intros (? & _ & [= <-])%bind_ok. apply same_locks_setStatus. Qed.

Lemma Yield_locks s s' : Yield s = Ok s' -> same_locks s s'.
Proof.
  unfold Yield, FindNextToRun. destruct (readyList s) as [|t r] eqn:Hr; [by intros [= <-]|].
  intros (s1 & H1%ReadyToRun_locks & H2)%bind_ok.
  eapply same_locks_trans; [apply H1|]. apply (Dispatch_locks false (set_ready (t :: readyList s1) s1)).
  unfold Dispatch, FindNextToRun. simpl. rewrite <- H2. f_equal.
Qed.

Definition insideZ (l : nat) (p : list op) : Z := match phase_of l p with Free => 0 | _ => 1 end.

Lemma insideZ_inside l p : inside l p -> insideZ l p = 1.
Proof. unfold insideZ, inside. by destruct (phase_of l p). Qed.

Lemma count_inside_app l c1 c2 : count_inside l (c1 ++ c2) = count_inside l c1 + count_inside l c2.
Proof. unfold count_inside. rewrite filter_app, length_app. lia. Qed.

Lemma count_inside_cons l p c : count_inside l (p :: c) = insideZ l p + count_inside l c.
Proof. 
  unfold count_inside. rewrite filter_cons. case_decide as Hp; [rewrite insideZ_inside by done; simpl; lia|].
  unfold insideZ. unfold inside in Hp. by destruct (phase_of l p); [|destruct Hp..].
Qed.

Lemma count_inside_insert l c t p q :
  c !! t = Some q -> count_inside l (<[t := p]> c) = count_inside l c - insideZ l q + insideZ l p.
Proof.
  intros Hq. pose proof (lookup_lt_Some _ _ _ Hq) as Ht.
  rewrite <- (take_drop_middle c t q Hq) at 2. rewrite insert_take_drop by done.
  rewrite !count_inside_app, !count_inside_cons. lia.
Qed.

Lemma inside_two l c t u p q :
  t <> u -> c !! t = Some p -> c !! u = Some q -> inside l p -> inside l q -> 2 <= count_inside l c.
Proof.
  intros Hne Hp Hq Hip Hiq. set (d := <[t := []]> c).
  assert (Hd : count_inside l d = count_inside l c - 1).
  { unfold d. rewrite (count_inside_insert l c t [] p Hp). rewrite (insideZ_inside l p) by done. change (insideZ l []) with 0. lia. }
  assert (Hdu : d !! u = Some q) by (unfold d; by rewrite list_lookup_insert_ne).
  pose proof (count_inside_insert l d u [] q Hdu) as Hc. rewrite (insideZ_inside l q) in Hc by done. change (insideZ l []) with 0 in Hc.
  unfold count_inside in *. lia.
Qed.

Lemma program_lookup s t : wf s -> (t < threads s)%nat -> code s !! t = Some (program s t).
Proof. intros Hw Ht. apply list_lookup_lookup_total_lt. by rewrite (w_len _ Hw). Qed.

(** One thread moves: its program becomes [p]. *)
Lemma move_locks l s s' p :
  wf s -> lock_inv l s ->
  code s' = <[currentThread s := p]> (code s) -> threads s' = threads s -> disciplined l p = true ->
  value (sems s' (OfLock l)) + insideZ l p = value (sems s (OfLock l)) + insideZ l (program s (currentThread s)) ->
  (lockHolder s' l = Some (currentThread s) <-> phase_of l p = Held) ->
  (forall u, u <> currentThread s -> lockHolder s' l = Some u <-> lockHolder s l = Some u) ->
  lock_inv l s'.
Proof.
  intros Hw [H1 H2 H3] Hcode Hth Hp Hval Hcur Hoth. pose proof (w_cur _ Hw) as Ht.
  split.
  - rewrite Hcode. by apply Forall_insert.
  - rewrite Hcode, (count_inside_insert l (code s) _ p (program s (currentThread s))) by by apply program_lookup. lia.
  - intros u. unfold holds_lock, program. rewrite Hcode, Hth. destruct (decide (u = currentThread s)) as [->|Hne].
    + rewrite list_lookup_total_insert_eq by (rewrite (w_len _ Hw); done). rewrite Hcur. naive_solver.
    + rewrite list_lookup_total_insert_ne by done. rewrite Hoth by done. apply H3.
Qed.

Lemma V_locks i s s' : V i s = Ok s' ->
  code s' = code s /\ threads s' = threads s /\ lockHolder s' = lockHolder s /\
  forall j, value (sems s' j) = value (sems s j) + (if decide (i = j) then 1 else 0).
Proof.
  unfold V. intros (s1 & H1 & [= <-])%bind_ok. assert (Hl : same_locks s s1).
  { destruct (queue (sems s i)) as [|t q]; [by injection H1 as <-|].
    apply ReadyToRun_locks in H1. eapply same_locks_trans; [|apply H1].
    split_and!; try done. intros j. rewrite sems_set. case_decide; [by subst|done]. }
  destruct Hl as (Hc & Ht & Hv & Hh). split_and!; [done..|]. intros j. rewrite sems_set.
  case_decide; [subst; simpl; rewrite Hv; lia|rewrite Hv; lia].
Qed.

Lemma P_locks i s b s' : P i s = Ok (b, s') ->
  code s' = code s /\ threads s' = threads s /\ lockHolder s' = lockHolder s /\ (b = true -> currentThread s' = currentThread s) /\
  forall j, value (sems s' j) = value (sems s j) - (if decide (i = j) then if b then 1 else 0 else 0).
Proof.
  unfold P. destruct (value (sems s i) =? 0) eqn:Hv.
  - intros (q & _ & (s1 & H1%Sleep_locks & [= <- <-])%bind_ok)%bind_ok. destruct H1 as (Hc & Ht & Hvv & Hh).
    split_and!; try done. intros j. rewrite Hvv, sems_set. case_decide; [subst; simpl; lia|lia].
  - intros [= <- <-]. split_and!; try done. intros j. rewrite sems_set. case_decide; [subst; simpl; lia|lia].
Qed.

Lemma disciplined_cons l o r :
  disciplined l (o :: r) = true ->
  next_phase l o (phase_of l (o :: r)) = phase_of l r /\ forks_alternate l o = true /\ disciplined l r = true.
Proof.
  unfold disciplined. cbn [alternates forallb]. rewrite !andb_true_iff. intros [[H1%bool_decide_eq_true H2] [H3 H4]]. done.
Qed.

(** [o] is executed with the effect [next_phase] describes. *)
Lemma exec_op_locks l s s' o rest p dv :
  wf s -> lock_inv l s -> program s (currentThread s) = o :: rest ->
  code s' = <[currentThread s := p]> (code s) -> threads s' = threads s -> disciplined l p = true ->
  phase_of l p = next_phase l o (phase_of l (o :: rest)) ->
  value (sems s' (OfLock l)) = value (sems s (OfLock l)) + dv ->
  dv = (match o with MP (OfLock l') => if decide (l = l') then -1 else 0
                   | MV (OfLock l') => if decide (l = l') then 1 else 0 | _ => 0 end) ->
  lockHolder s' = (match o with MHold l' => <[l' := Some (currentThread s)]> (lockHolder s)
                             | MUnhold l' => <[l' := None]> (lockHolder s) | _ => lockHolder s end) ->
  lock_inv l s'.
Proof.
  intros Hw Hl Hp Hcode Hth Hd Hph Hval Hdv Hh. pose proof (l_holder _ _ Hl) as Hhold.
  assert (Hcur : lockHolder s l = Some (currentThread s) <-> phase_of l (o :: rest) = Held).
  { rewrite Hhold. unfold holds_lock. rewrite Hp. pose proof (w_cur _ Hw). tauto. }
  assert (Hno : forall u, u <> currentThread s -> phase_of l (o :: rest) <> Free -> lockHolder s l <> Some u).
  { intros u Hu Hin Hlu. apply Hhold in Hlu as [Hut Hlu].
    assert (2 <= count_inside l (code s)).
    { eapply (inside_two l (code s) u (currentThread s)); [done|by apply program_lookup|by apply program_lookup, Hw| |].
      - unfold inside. unfold holds_lock in Hlu. by rewrite Hlu.
      - unfold inside. by rewrite Hp. }
    pose proof (l_count _ _ Hl). pose proof (w_value _ Hw (OfLock l)). lia. }
  apply (move_locks l s s' p); try done.
  - rewrite Hval, Hdv, Hp. unfold insideZ. rewrite Hph. destruct o as [[]|[]|l'|l'|c l'| | | | |]; simpl; repeat case_decide; lia.
  - rewrite Hph, Hh. destruct o as [[]|[]|l'|l'|c l'| | | | |]; simpl in *; repeat case_decide; try done; try (by subst; rewrite fn_lookup_insert); try (by rewrite fn_lookup_insert_ne).
    all: rewrite Hcur; naive_solver.
  - intros u Hu. rewrite Hh. destruct o as [[]|[]|l'|l'|c l'| | | | |]; try done.
    + destruct (decide (l = l')) as [<-|Hne]; [|by rewrite fn_lookup_insert_ne].
      rewrite fn_lookup_insert. split; [naive_solver|]. intros Hlu. destruct (Hno u Hu); [|done]. simpl. by rewrite decide_True.
    + destruct (decide (l = l')) as [<-|Hne]; [|by rewrite fn_lookup_insert_ne].
      rewrite fn_lookup_insert. split; [naive_solver|]. intros Hlu. destruct (Hno u Hu); [|done]. simpl. by rewrite decide_True.
Qed.

Lemma Fork_locks l prog s s' :
  wf s -> lock_inv l s -> forks_alternate l (MFork prog) = true -> Fork prog s = Ok s' -> lock_inv l s'.
Proof.
  intros Hw [H1 H2 H3] Hf H. cbn [forks_alternate] in Hf. rewrite !andb_true_iff in Hf. destruct Hf as [[Hph%bool_decide_eq_true Ha] Hb].
  unfold Fork in H. apply ReadyToRun_locks in H. eapply same_locks_inv; [exact H|].
  set (s0 := set_code _ _). assert (Hc0 : code s0 = code s ++ [prog]) by done.
  assert (Ht0 : threads s0 = S (threads s)) by (unfold threads, s0; simpl; rewrite length_app; simpl; lia).
  split; rewrite ?Hc0, ?Ht0.
  - apply Forall_app. split; [done|]. constructor; [|done]. unfold disciplined. by rewrite Ha, Hb.
  - rewrite count_inside_app, count_inside_cons. unfold insideZ at 1. rewrite Hph.
    change (count_inside l []) with 0. change (sems s0) with (sems s). lia.
  - intros t. change (lockHolder s0) with (lockHolder s). rewrite H3. unfold holds_lock, program. rewrite Hc0.
    pose proof (w_len _ Hw) as Hlen. split; intros [Ht Hh].
    + split; [lia|]. rewrite lookup_total_snoc_lt; [done|lia].
    + destruct (decide (t = length (code s))) as [->|Hne]; [rewrite lookup_total_snoc_eq in Hh; congruence|].
      rewrite lookup_total_snoc_lt in Hh by lia. split; [lia|done].
Qed.

Lemma exec_locks l s s' : wf s -> sleeping s = None -> lock_inv l s -> exec s = Ok s' -> lock_inv l s'.
Proof.
  intros Hw Hs Hl. unfold exec. destruct (program s (currentThread s)) as [|o rest] eqn:Hp.
  { intros H%Sleep_locks. by eapply same_locks_inv. }
  assert (Hd : disciplined l (o :: rest) = true).
  { rewrite <- Hp. eapply (Forall_lookup_1 (fun p => disciplined l p = true)); [apply (l_disc _ _ Hl)|]. by apply program_lookup, Hw. }
  destruct (disciplined_cons _ _ _ Hd) as (Hnx & Hf & Hr).
  assert (Hskip : forall s1 p, code s1 = code s -> threads s1 = threads s -> lockHolder s1 = lockHolder s ->
    value (sems s1 (OfLock l)) = value (sems s (OfLock l)) -> disciplined l p = true ->
    phase_of l p = next_phase l o (phase_of l (o :: rest)) ->
    (match o with MP (OfLock _) | MV (OfLock _) | MHold _ | MUnhold _ => False | _ => True end) ->
    lock_inv l (set_program (currentThread s) p s1)).
  { intros s1 p Hc Ht Hh Hv Hdp Hph Ho. eapply (exec_op_locks l s _ o rest p 0); try done.
    - simpl. by rewrite Hc.
    - simpl. lia.
    - by destruct o as [[]|[]| | | | | | | |].
    - by destruct o as [[]|[]| | | | | | | |]. }
  destruct o as [i|i|l'|l'|c l'|c|c| |prog|obj a x].
  - intros ([b s1] & HP%P_locks & [= <-])%bind_ok. destruct HP as (Hc & Ht & Hh & Hcur & Hv). destruct b.
    + eapply (exec_op_locks l s _ (MP i) rest rest (value (sems s1 (OfLock l)) - value (sems s (OfLock l)))); try done.
      * simpl. by rewrite Hc.
      * simpl. lia.
      * rewrite Hv. destruct i; repeat case_decide; try congruence; lia.
    + eapply same_locks_inv; [|exact Hl]. split_and!; try done. intros j. rewrite Hv. case_decide; lia.
  - intros (s1 & HV%V_locks & [= <-])%bind_ok. destruct HV as (Hc & Ht & Hh & Hv).
    eapply (exec_op_locks l s _ (MV i) rest rest (value (sems s1 (OfLock l)) - value (sems s (OfLock l)))); try done.
    + simpl. by rewrite Hc.
    + simpl. lia.
    + rewrite Hv. destruct i; repeat case_decide; try congruence; lia.
  - intros [= <-]. eapply (exec_op_locks l s _ (MHold l') rest rest 0); try done. simpl. lia.
  - intros [= <-]. eapply (exec_op_locks l s _ (MUnhold l') rest rest 0); try done. simpl. lia.
  - destruct (StartWait_ok c s rest l' Hw Hs Hp) as (s1 & HSW & _ & _). rewrite HSW. intros [= <-].
    unfold StartWait in HSW. apply bind_ok in HSW as (q & _ & [= <-]). apply Hskip; try done.
    + unfold disciplined in *. cbn [alternates forallb forks_alternate next_phase phase_of] in *.
      apply andb_true_iff in Hr as [Hr1 Hr2]. simpl. rewrite Hr1, Hr2. repeat case_decide; simpl; repeat (rewrite bool_decide_eq_true_2; [|congruence]); done.
    + simpl. simpl in Hnx. by repeat case_decide.
  - destruct (waitQueue s c) as [|w q] eqn:Hq; intros [= <-]; [by apply Hskip|].
    destruct (dequeue_wf s c w q Hw Hq) as (_ & k & -> & _). apply Hskip; try done.
  - destruct (waitQueue s c) as [|w q] eqn:Hq; intros [= <-]; [by apply Hskip|].
    destruct (dequeue_wf s c w q Hw Hq) as (_ & k & -> & _). apply Hskip; try done.
    unfold disciplined. simpl. rewrite !bool_decide_eq_true_2 by done. exact Hr.
  - intros H%Yield_locks. eapply same_locks_inv; [exact H|]. by apply Hskip.
  - destruct (rest_scoped s _ rest Hw Hp) as [Hsc _].
    destruct (Fork_ok prog s Hw Hsc) as (s1 & HF & Hw1 & Hc1 & Hs1 & Hcode & _). rewrite HF. intros [= <-].
    pose proof (Fork_locks l prog s s1 Hw Hl Hf HF) as Hl1.
    assert (Hp1 : program s1 (currentThread s1) = MFork prog :: rest).
    { rewrite Hc1. unfold program. rewrite Hcode, lookup_total_snoc_lt; [done|]. rewrite (w_len _ Hw). apply Hw. }
    eapply (exec_op_locks l s1 _ (MFork prog) rest rest 0); try done; simpl; by rewrite ?Hc1, ?Z.add_0_r.
  - intros [= <-]. by apply Hskip.
Qed.

Lemma react_locks l e s s' : wf s -> lock_inv l s -> react e s = Some (Ok s') -> lock_inv l s'.
Proof.
  intros Hw Hl. assert (HV : forall n, V (User n) s = Ok s' -> lock_inv l s').
  { intros n H%V_locks. destruct H as (Hc & Ht & Hh & Hv). destruct Hl as [H1 H2 H3].
    split; [by rewrite Hc|by rewrite Hc, Hv, decide_False, Z.add_0_r by done|].
    intros t. unfold holds_lock, program in *. by rewrite Hh, Ht, Hc. }
  destruct e as [| |n|], (sleeping s) as [f|] eqn:Hs; simpl; rewrite ?Hs; try done; intros [= H]; eauto using exec_locks, same_locks_inv, Yield_locks, Dispatch_locks.
Qed.

Lemma initial_locks l init main :
  disciplined l main = true -> phase_of l main = Free -> lock_inv l (initial init main).
Proof.
  intros Hd Hp. split; simpl.
  - by constructor.
  - rewrite count_inside_cons. unfold insideZ. by rewrite Hp.
  - intros t. split; [done|]. unfold threads, holds_lock, program. simpl. intros [Ht Hh].
    assert (t = O) as -> by lia. simpl in Hh. congruence.
Qed.

Lemma reachable_locks l s s' : wf s -> lock_inv l s -> rtc step s s' -> lock_inv l s'.
Proof.
  intros Hw Hl Hr. revert Hw Hl. induction Hr as [|s s1 s' Hstep Hr IH]; [done|]. intros Hw Hl.
  apply IH; [by eapply step_wf|]. destruct Hstep as [e s s1 Hrea]. by eapply react_locks.
Qed.

(** ** User registers *)

Lemma save_from_ok m n : Z.of_nat (length (Machine.registers m)) = Machine.NumTotalRegs ->
  0 <= n -> forall i, 0 <= i -> i + n = Machine.NumTotalRegs ->
  foldr (fun i r => x <- Machine.ReadRegister m i ;; xs <- r ;; Ok (x :: xs)) (Ok []) (seqZ i n) =
    Ok (drop (Z.to_nat i) (Machine.registers m)).
Proof.
  intros Hlen. revert n. refine (natlike_ind _ _ _).
  - intros i Hi Hin. rewrite seqZ_nil by lia. simpl. rewrite drop_ge; [done|lia].
  - intros k Hk IH i Hi Hin. rewrite seqZ_cons by lia. cbn [foldr]. rewrite Z.pred_succ, IH by lia.
    unfold Machine.ReadRegister. rewrite !bool_decide_eq_true_2 by lia. cbn [assert bind andb].
    destruct (lget_is_ok (Machine.registers m) i) as (x & -> & Hx); [lia|]. cbn [bind]. f_equal.
    rewrite (Z2Nat.inj_succ i) by lia. symmetry. by apply drop_S.
Qed.

Lemma restore_from_ok regs : forall pre old m,
  Machine.registers m = pre ++ old -> length old = length regs ->
  Z.of_nat (length pre) + Z.of_nat (length regs) = Machine.NumTotalRegs ->
  restore_from (Z.of_nat (length pre)) regs m = Ok (Machine.set_registers (fun _ => pre ++ regs) m).
Proof.
  induction regs as [|x regs IH]; intros pre old m Hm Ho Hb; cbn [restore_from].
  - destruct old; [|done]. unfold Machine.set_registers. rewrite <- Hm. by destruct m.
  - destruct old as [|o old]; [done|]. simpl in Ho, Hb. injection Ho as Ho.
    unfold Machine.WriteRegister. rewrite !bool_decide_eq_true_2 by lia. cbn [assert bind andb].
    rewrite lset_in by (rewrite Hm, length_app; simpl; lia). cbn [bind]. rewrite Hm, Nat2Z.id.
    rewrite insert_app_r_alt, Nat.sub_diag by done. cbn [insert list_insert].
    replace (Z.of_nat (length pre) + 1) with (Z.of_nat (length (pre ++ [x]))) by (rewrite length_app; simpl; lia).
    rewrite (IH (pre ++ [x]) old); [by rewrite <- app_assoc|by rewrite <- app_assoc|done|].
    rewrite length_app. simpl. lia.
Qed.

(** ** Executable runs *)

Fixpoint run (es : list event) (s : sys) : option sys :=
  match es with
  | [] => Some s
  | e :: es => match react e s with Some (Ok s') => run es s' | _ => None end
  end.

Lemma run_rtc es s s' : run es s = Some s' -> rtc step s s'.
Proof.
  revert s. induction es as [|e es IH]; intros s H; simpl in H; [injection H as ->; done|].
  destruct (react e s) as [[s1|]|] eqn:He; [|done|done]. eapply rtc_l; [by eapply step_react|]. by apply IH.
Qed.

(** Without preemption both tests run to their end: every program is finished. *)
Lemma SelfTests_complete :
  (exists s, run (replicate 61 Execute) (initial (fun _ => 0) (SemaphoreSelfTest (User 1) (User 0))) = Some s /\
     code s = [[]; []]) /\
  (exists s, run (replicate 13 Execute) (initial (fun _ => 0) ThreadSelfTest) = Some s /\ code s = [[]; []]).
Proof. split; (eexists; split; [vm_compute; reflexivity|vm_compute; reflexivity]). Qed.

(** Two threads that enter and leave the critical section of lock 0 with a
    [Yield] inside, and the semaphore 0 that the main thread waits on. *)
Definition worker : list op := Acquire 0 ++ [MYield] ++ Release 0 ++ [MV (User 0)].
Definition example_main : list op := [MFork worker; MFork worker; MP (User 0)].
Definition example_start : sys := initial (fun _ => 0) example_main.
(** Up to the first worker inside and yielding, the second one at its [P]. *)
Definition example_events : list event :=
  [Execute; Execute; Execute; Execute; Execute; Execute].
Definition example_state : sys := default example_start (run example_events example_start).

(** Without the assertion of [Release], a thread that never acquired the lock
    opens it for a second holder. *)
Definition careless_main : list op :=
  [MFork (Acquire 0 ++ [MYield]); MFork (Acquire 0 ++ [MYield])] ++ Release 0.

Lemma Release_unchecked : exists s,
  rtc step (initial (fun _ => 0) careless_main) s /\
  lockHolder s 0 = Some 2%nat /\ program s 1 = [] /\ program s 2 = [MYield] /\
  value (sems s (OfLock 0)) = 0 /\ IsHeldByCurrentThread 0 (initial (fun _ => 0) careless_main) = false.
Proof.
  eexists. split; [apply (run_rtc ([Execute; Execute; Execute; Execute] ++ [Execute] ++ [Execute; Execute; Execute] ++ [Execute; Execute]))|].
  all: vm_compute; done.
Qed.

(** ** Properties *)


(** C15: No wake-up is lost: while threads sleep on a semaphore, its value never exceeds the number of threads
    that are ready (or running) with the test of that very semaphore as their next section; in particular, a
    thread sleeps on a semaphore of positive value only if some thread is about to take it. *)
Theorem no_lost_wakeup init main s i t :
  (forall n, 0 <= init n) -> scoped_all 0 main = true -> rtc step (initial init main) s ->
  t ∈ queue (sems s i) ->
  0 <= value (sems s i) <= count s i /\
  (0 < value (sems s i) -> exists u, u <> t /\ at_P s i u /\
     (statusOf s u = READY /\ u ∈ readyList s \/ statusOf s u = RUNNING /\ u = currentThread s)).
Proof.
  intros Hi Hm Hr Ht. pose proof (reachable_wf _ _ (initial_wf init main Hi Hm) Hr) as Hw.
  assert (Hq : queue (sems s i) <> []) by (intros E; rewrite E in Ht; set_solver).
  pose proof (w_wake _ Hw i Hq) as Hwk. pose proof (w_value _ Hw i). split; [done|]. intros Hpos.
  destruct (w_queue _ Hw i t Ht) as (_ & Hb & _). unfold count in Hwk.
  destruct (filter (at_P s i) (readyList s)) as [|u l] eqn:Hf.
  - destruct (sleeping s) eqn:Hs; [simpl in Hwk; lia|]. case_decide as Hat; [|simpl in Hwk; lia].
    pose proof (running_current s Hw Hs). exists (currentThread s). split; [congruence|]. split; [done|]. by right.
  - assert (Hu : u ∈ filter (at_P s i) (readyList s)) by (rewrite Hf; left).
    apply list_elem_of_filter in Hu as [Hat Hu]. pose proof (proj1 (w_ready _ Hw u) Hu) as [_ Hst].
    exists u. split; [congruence|]. split; [done|]. by left.
Qed.


(** The user registers saved when a thread is switched out are, all forty of them, the ones the machine has
    after they are restored, whatever ran in between; nothing else of the machine changes. *)
Theorem user_registers_survive_switch m m' :
  Machine.regs_ok m -> Machine.regs_ok m' ->
  exists regs, SaveUserState m = Ok regs /\
    RestoreUserState regs m' = Ok (Machine.set_registers (fun _ => Machine.registers m) m').
Proof.
  intros [Hm _] [Hm' _]. exists (Machine.registers m). split.
  - unfold SaveUserState. by rewrite save_from_ok.
  - apply (restore_from_ok (Machine.registers m) [] (Machine.registers m')); [done|lia|done].
Qed.

(** ** Witnesses *)

Lemma example_reached : rtc step example_start example_state.
Proof. apply (run_rtc example_events). vm_compute. reflexivity. Qed.


Lemma no_lost_wakeup_witness :
  0 <= value (sems example_state (User 0)) <= count example_state (User 0) /\
  (0 < value (sems example_state (User 0)) -> exists u, u <> 0%nat /\ at_P example_state (User 0) u /\
     (statusOf example_state u = READY /\ u ∈ readyList example_state \/
      statusOf example_state u = RUNNING /\ u = currentThread example_state)).
Proof.
  apply (no_lost_wakeup (fun _ => 0) example_main example_state (User 0) 0); [done|by vm_compute|apply example_reached|].
  vm_compute. left.
Defined.


Lemma user_registers_survive_switch_witness :
  exists regs, SaveUserState Machine.example_machine = Ok regs /\
    RestoreUserState regs (Machine.setreg 5 77 Machine.example_machine) =
      Ok (Machine.set_registers (fun _ => Machine.registers Machine.example_machine) (Machine.setreg 5 77 Machine.example_machine)).
Proof.
  apply (user_registers_survive_switch Machine.example_machine (Machine.setreg 5 77 Machine.example_machine)).
  - apply (Machine.example_regs_ok []).
  - apply Machine.setreg_ok; [apply (Machine.example_regs_ok [])|unfold Machine.NumTotalRegs; lia|unfold int_range; lia|done].
Defined.

End Threads.
