(* ===== verification/SynchList.v ===== *)
(** * threads/synchlist.{h,cc}: lists that threads share

    A monitor over the locks, condition variables and scheduler of Threads.v: a
    routine is the sections of [Acquire], [Wait], [Signal] and [Release] that
    Threads.v executes, with sections of the list's own code between them.  The
    list is the sequence that lib/list implements (LibList.v). *)

From S2P Require Import Prelude LibList Threads.

Module SynchList.
Import Threads.

(** The kernel's instances are lists of [int] and of pointers: an item is known
    by its value only. *)
Abbreviation item := nat.

(** ** The routines

    List [i] has lock [i] and condition variable [i]. *)

Definition test_remove (i : nat) : op := MData i 0 0.
Definition append_item (i : nat) (x : item) : op := MData i 1 x.
(** [Append(other->RemoveFront())]: the item the thread removed last. *)
Definition append_last (i : nat) : op := MData i 2 0.
Definition apply_func (i : nat) : op := MData i 3 0.
(** [ASSERT(list->IsEmpty())], [ASSERT(val == this->RemoveFront())]. *)
Definition assert_empty (i : nat) : op := MData i 4 0.
Definition assert_last (i : nat) (x : item) : op := MData i 5 x.

Definition Append (i : nat) (x : item) : list op := Acquire i ++ [append_item i x] ++ Signal i ++ Release i.
Definition AppendLast (i : nat) : list op := Acquire i ++ [append_last i] ++ Signal i ++ Release i.
Definition RemoveFront (i : nat) : list op := Acquire i ++ [test_remove i] ++ Release i.
Definition Apply (i : nat) : list op := Acquire i ++ [apply_func i] ++ Release i.

(** [last]: what [RemoveFront] last returned to each thread.  [appended],
    [removed] and [applied] are the history of each list: the items put in and
    taken out, in order, and the sequences that [func] was applied to. *)
Record state := mkState {
  sync : sys;
  items : nat -> list item;
  last : nat -> option item;
  appended : nat -> list item;
  removed : nat -> list (tid * item);
  applied : nat -> list (list item)
}.

Definition set_sync y s := mkState y (items s) (last s) (appended s) (removed s) (applied s).

Definition append (i : nat) (x : item) (s : state) : result state :=
  l <- Seq.Append x (items s i) ;;
  Ok (mkState (sync s) (<[i := l]> (items s)) (last s) (<[i := appended s i ++ [x]]> (appended s)) (removed s) (applied s)).

Definition remove (i : nat) (s : state) : result state :=
  let t := currentThread (sync s) in
  '(x, l) <- Seq.RemoveFront (items s i) ;;
  Ok (mkState (sync s) (<[i := l]> (items s)) (<[t := Some x]> (last s)) (appended s)
        (<[i := removed s i ++ [(t, x)]]> (removed s)) (applied s)).

(** The running thread's section of list code [MData i a x], [rest] after it.
    [while (list->IsEmpty()) listEmpty->Wait(lock)]: the test comes again after
    the wait. *)
Definition data (i a x : nat) (rest : list op) (s : state) : result state :=
  let t := currentThread (sync s) in
  let go p s := set_sync (set_program t p (sync s)) s in
  match a with
  | 0 => match items s i with
         | [] => Ok (go (Wait i i ++ MData i a x :: rest) s)
         | _ => s <- remove i s ;; Ok (go rest s)
         end
  | 1 => s <- append i x s ;; Ok (go rest s)
  | 2 => match last s t with
         | None => Fault Uninitialised
         | Some y => s <- append i y s ;; Ok (go rest s)
         end
  | 3 => Ok (go rest (mkState (sync s) (items s) (last s) (appended s) (removed s) (<[i := applied s i ++ [items s i]]> (applied s))))
  | 4 => assert (bool_decide (items s i = [])) ;; Ok (go rest s)
  | _ => assert (bool_decide (last s t = Some x)) ;; Ok (go rest s)
  end%nat.

(** ** Steps *)

Definition react (e : event) (s : state) : option (result state) :=
  match e, sleeping (sync s), program (sync s) (currentThread (sync s)) with
  | Execute, None, MData i a x :: rest => Some (data i a x rest s)
  | _, _, _ => (fun r => y <- r ;; Ok (set_sync y s)) <$> Threads.react e (sync s)
  end.

Inductive step : state -> state -> Prop :=
  | step_react e s s' : react e s = Some (Ok s') -> step s s'.

(** Lists made by the constructor, the main thread running [main]. *)
Definition SynchList (init : nat -> Z) (main : list op) : state :=
  mkState (Threads.initial init main) (fun _ => []) (fun _ => None) (fun _ => []) (fun _ => []) (fun _ => []).

(** ** The self test, [ping] being the second list *)

Definition SelfTestHelper (ping this : nat) : list op :=
  concat (replicate 10 (RemoveFront ping ++ AppendLast this)).
Definition SelfTest (ping this : nat) (val : item) : list op :=
  assert_empty this :: MFork (SelfTestHelper ping this) ::
  concat (replicate 10 (Append ping val ++ RemoveFront this ++ [assert_last this val])).

Fixpoint run (es : list event) (s : state) : option state :=
  match es with
  | [] => Some s
  | e :: es => match react e s with Some (Ok s') => run es s' | _ => None end
  end.

(** ** Programs that use the lists

    Sequences of calls, of operations on semaphores of the user's, of [Yield]s
    and of [Fork]s of such programs. *)
Inductive client : list op -> Prop :=
  | client_nil : client []
  | client_Append i x p : client p -> client (Append i x ++ p)
  | client_AppendLast i p : client p -> client (AppendLast i ++ p)
  | client_RemoveFront i p : client p -> client (RemoveFront i ++ p)
  | client_Apply i p : client p -> client (Apply i ++ p)
  | client_assert_empty i p : client p -> client (assert_empty i :: p)
  | client_assert_last i x p : client p -> client (assert_last i x :: p)
  | client_Yield p : client p -> client (MYield :: p)
  | client_P n p : client p -> client (MP (User n) :: p)
  | client_V n p : client p -> client (MV (User n) :: p)
  | client_Fork q p : client q -> client p -> client (MFork q :: p).

(** The list code of a routine on list [i], and what follows it. *)
Inductive body (i : nat) : list op -> Prop :=
  | body_append x p : client p -> body i (append_item i x :: Signal i ++ Release i ++ p)
  | body_last p : client p -> body i (append_last i :: Signal i ++ Release i ++ p)
  | body_remove p : client p -> body i (test_remove i :: Release i ++ p)
  | body_apply p : client p -> body i (apply_func i :: Release i ++ p).

(** What a thread may have left to run, between two sections. *)
Inductive stage : list op -> Prop :=
  | st_client p : client p -> stage p
  | st_hold i p : body i p -> stage (MHold i :: p)
  | st_body i p : body i p -> stage p
  | st_signal i p : client p -> stage (MSignal i :: Release i ++ p)
  | st_wake i k p : client p -> stage (MV (Waiter k) :: Release i ++ p)
  | st_unhold i p : client p -> stage (Release i ++ p)
  | st_release i p : client p -> stage (MV (OfLock i) :: p)
  | st_wait i p : client p -> stage (MWait i i :: test_remove i :: Release i ++ p)
  | st_w1 i k p : client p -> stage (Release i ++ MP (Waiter k) :: RemoveFront i ++ p)
  | st_w2 i k p : client p -> stage (MV (OfLock i) :: MP (Waiter k) :: RemoveFront i ++ p)
  | st_w3 i k p : client p -> stage (MP (Waiter k) :: RemoveFront i ++ p).

Lemma client_locks l p : client p -> disciplined l p = true /\ phase_of l p = Free.
Proof.
  induction 1 as [|i x p _ [IHd IHp]|i p _ [IHd IHp]|i p _ [IHd IHp]|i p _ [IHd IHp]|i p _ [IHd IHp]|i x p _ [IHd IHp]
    |p _ [IHd IHp]|n p _ [IHd IHp]|n p _ [IHd IHp]|q p _ [IHq IHqp] _ [IHd IHp]]; [done|..];
    unfold disciplined in *; apply andb_true_iff in IHd as [IH1 IH2].
  all: cbn; rewrite ?IHp, ?IH1, ?IH2; repeat (case_decide; cbn; rewrite ?IHp); rewrite ?bool_decide_eq_true_2 by done; try done.
  by rewrite IHq.
Qed.

Ltac locks_of H l :=
  let Hd := fresh in let Hp := fresh in
  destruct (client_locks l _ H) as [Hd Hp]; unfold disciplined in *; apply andb_true_iff in Hd as [? ?].

Lemma stage_disciplined l p : stage p -> disciplined l p = true.
Proof.
  destruct 1 as [p H|i q H|i q H|i p H|i k p H|i p H|i p H|i p H|i k p H|i k p H|i k p H]; try destruct H as [x p H|p H|p H|p H];
    locks_of H l; unfold disciplined; cbn;
    repeat match goal with E : phase_of l _ = Free |- _ => rewrite E | E : alternates l _ = true |- _ => rewrite E
      | E : forallb _ _ = true |- _ => rewrite E end;
    repeat (case_decide; cbn); rewrite ?bool_decide_eq_true_2 by done; done.
Qed.

(** A thread that holds a list's lock is not about to wait. *)
Lemma stage_inside l p : stage p -> inside l p ->
  match p with [] | MP _ :: _ => False | _ => True end.
Proof.
  unfold inside. destruct 1 as [p H|i q H|i q H|i p H|i k p H|i p H|i p H|i p H|i k p H|i k p H|i k p H].
  1: { locks_of H l. by intros []. }
  all: try (destruct H; done); try done.
  - locks_of H l. intros Hin. destruct Hin. cbn. repeat (case_decide; cbn); done.
Qed.

(** ** Who waits, who has been signalled

    [awaits]: the list and the semaphore of a thread inside [Wait];
    [wakes]: the semaphore a thread inside [Signal] is about to signal. *)
Definition awaits (p : list op) : option (nat * nat) :=
  match p with
  | MP (Waiter k) :: MP (OfLock i) :: _
  | MV (OfLock _) :: MP (Waiter k) :: MP (OfLock i) :: _
  | MUnhold _ :: MV (OfLock _) :: MP (Waiter k) :: MP (OfLock i) :: _ => Some (i, k)
  | _ => None
  end.

Definition wakes (p : list op) : option nat := match p with MV (Waiter k) :: _ => Some k | _ => None end.
Definition will_wait (p : list op) : option nat := match p with MWait i _ :: _ => Some i | _ => None end.

(** The list a thread is about to test, or to signal. *)
Definition will_test (p : list op) : option nat :=
  match p with
  | MP (OfLock i) :: MHold _ :: MData _ 0 _ :: _ | MHold _ :: MData i 0 _ :: _ | MData i 0 _ :: _ => Some i
  | _ => None
  end%nat.
Definition will_signal (p : list op) : option nat := match p with MSignal i :: _ => Some i | _ => None end.

(** The thread sees to one item of list [i] without anything else happening:
    [q] are the semaphores of those still waiting. *)
Definition serves (i : nat) (q : list sem_id) (p : list op) : Prop :=
  match awaits p with
  | Some (j, k) => i = j /\ Waiter k ∉ q
  | None => will_test p = Some i \/ will_signal p = Some i
  end.
#[export] Instance serves_dec i q p : Decision (serves i q p).
Proof. unfold serves. repeat case_match; apply _. Defined.
Definition servesZ (i : nat) (q : list sem_id) (p : list op) : Z := if decide (serves i q p) then 1 else 0.

Fixpoint sumZ {A} (f : A -> Z) (c : list A) : Z := match c with [] => 0 | p :: c => f p + sumZ f c end.

Lemma sumZ_app {A} (f : A -> Z) c d : sumZ f (c ++ d) = sumZ f c + sumZ f d.
Proof. induction c; simpl; lia. Qed.

Lemma sumZ_insert {A} (f : A -> Z) c t p q : c !! t = Some p -> sumZ f (<[t := q]> c) = sumZ f c - f p + f q.
Proof.
  revert t. induction c as [|x c IH]; intros [|t] Ht; simplify_eq/=; [lia|]. rewrite IH by done. lia.
Qed.

Lemma sumZ_nonneg {A} (f : A -> Z) c : (forall p, 0 <= f p) -> 0 <= sumZ f c.
Proof. intros Hf. induction c as [|x c IH]; simpl; [lia|]. pose proof (Hf x). lia. Qed.

Lemma sumZ_mono {A} (f g : A -> Z) c : (forall p, f p <= g p) -> sumZ f c <= sumZ g c.
Proof. intros Hf. induction c as [|x c IH]; simpl; [lia|]. pose proof (Hf x). lia. Qed.

Lemma sumZ_more {A} (f g : A -> Z) c t p :
  (forall q, f q <= g q) -> c !! t = Some p -> f p + 1 <= g p -> sumZ f c + 1 <= sumZ g c.
Proof.
  intros Hf. revert t. induction c as [|x c IH]; intros [|t] Ht Hp; simplify_eq/=.
  - pose proof (sumZ_mono f g c Hf). lia.
  - pose proof (Hf x). specialize (IH t Ht Hp). lia.
Qed.

Lemma sumZ_zero {A} (f : A -> Z) c : (forall t p, c !! t = Some p -> f p = 0) -> sumZ f c = 0.
Proof.
  induction c as [|x c IH]; intros Hf; [done|]. simpl. rewrite (Hf 0%nat x), IH; [done| |done]. intros t p Ht. by apply (Hf (S t)).
Qed.

Lemma servesZ_bounds i q p : 0 <= servesZ i q p <= 1.
Proof. unfold servesZ. case_decide; lia. Qed.

Lemma servesZ_true i q p : serves i q p -> servesZ i q p = 1.
Proof. intros. unfold servesZ. by rewrite decide_True. Qed.

Lemma servesZ_false i q p : ~ serves i q p -> servesZ i q p = 0.
Proof. intros. unfold servesZ. by rewrite decide_False. Qed.

Lemma serves_waiter i q p j k : awaits p = Some (j, k) -> serves i q p <-> i = j /\ Waiter k ∉ q.
Proof. intros Hp. unfold serves. by rewrite Hp. Qed.

(** ** The invariant of the waiting protocol

    [c]: what each thread has left to run; [w]: the queues of the condition
    variables; [v]: the values of the waiters' semaphores; [it]: the lists. *)
Record protocol (c : list (list op)) (w : nat -> list sem_id) (v : nat -> Z) (it : nat -> list item) : Prop := {
  p_stage : forall t p, c !! t = Some p -> stage p;
  p_wait : forall t p i, c !! t = Some p -> will_wait p = Some i -> it i = [];
  p_queued : forall i k, Waiter k ∈ w i -> v k = 0 /\ (exists t p, c !! t = Some p /\ awaits p = Some (i, k)) /\
    (forall t p, c !! t = Some p -> wakes p <> Some k);
  p_signalled : forall t p i k, c !! t = Some p -> awaits p = Some (i, k) -> Waiter k ∉ w i ->
    0 < v k \/ exists u q, c !! u = Some q /\ wakes q = Some k;
  p_unique : forall t u p q i j k, c !! t = Some p -> c !! u = Some q ->
    awaits p = Some (i, k) -> awaits q = Some (j, k) -> t = u;
  p_enough : forall i, w i <> [] -> Z.of_nat (length (it i)) <= sumZ (servesZ i (w i)) c
}.

(** A thread outside the monitors' code is in none of these states. *)
Section client.
Context (p : list op) (Hp : client p).

Lemma awaits_client : awaits p = None.
Proof using Hp. by destruct Hp. Qed.
Lemma wakes_client : wakes p = None.
Proof using Hp. by destruct Hp. Qed.
Lemma will_wait_client : will_wait p = None.
Proof using Hp. by destruct Hp. Qed.
Lemma awaits_release i : awaits (MV (OfLock i) :: p) = None.
Proof using Hp. by destruct Hp. Qed.
Lemma awaits_unhold i : awaits (MUnhold i :: MV (OfLock i) :: p) = None.
Proof using Hp. by destruct Hp. Qed.
End client.

Section moves.
Context (c : list (list op)) (w : nat -> list sem_id) (v : nat -> Z) (it : nat -> list item).
Context (t : nat) (p : list op).
Hypothesis (H : protocol c w v it).
Hypothesis (Ht : c !! t = Some p).

Lemma lookup_set p' u q : <[t := p']> c !! u = Some q -> u = t /\ q = p' \/ u <> t /\ c !! u = Some q.
Proof using Type.
  destruct (decide (u = t)) as [->|Hne]; [|rewrite list_lookup_insert_ne by done; by right].
  intros Hq. left. split; [done|]. pose proof (lookup_lt_Some _ _ _ Hq) as Hl. rewrite length_insert in Hl.
  rewrite list_lookup_insert_eq in Hq by done. by injection Hq.
Qed.

Lemma lookup_self p' : <[t := p']> c !! t = Some p'.
Proof using Ht. apply list_lookup_insert_eq. by eapply lookup_lt_Some. Qed.

(** The thread goes on, with the same part in the protocol. *)
Lemma protocol_move p' it' :
  stage p' -> awaits p' = awaits p -> wakes p = None -> wakes p' = None ->
  (forall i, will_wait p' = Some i -> it' i = []) ->
  (forall u q i, u <> t -> c !! u = Some q -> will_wait q = Some i -> it' i = []) ->
  (forall i, w i <> [] -> it' i = [] \/
     Z.of_nat (length (it' i)) - Z.of_nat (length (it i)) <= servesZ i (w i) p' - servesZ i (w i) p) ->
  protocol (<[t := p']> c) w v it'.
Proof using H Ht.
  intros Hst Haw Hw Hw' Hww Hoth Hlen. split.
  - intros u q [[-> ->]|[Hu Hq]]%lookup_set; [done|]. by eapply (p_stage _ _ _ _ H).
  - intros u q i [[-> ->]|[Hu Hq]]%lookup_set Hi; [by apply Hww|]. by eapply Hoth.
  - intros i k Hk. destruct (p_queued _ _ _ _ H i k Hk) as (Hv & (u & q & Hu & Hq) & Hn). split; [done|]. split.
    + destruct (decide (u = t)) as [->|Hne].
      * exists t, p'. split; [apply lookup_self|]. rewrite Haw. congruence.
      * exists u, q. by rewrite list_lookup_insert_ne.
    + intros u' q' [[-> ->]|[Hu' Hq']]%lookup_set; [by rewrite Hw'|]. by eapply Hn.
  - intros u q i k Hu Hq Hk.
    assert (Hold : exists u0 q0, c !! u0 = Some q0 /\ awaits q0 = Some (i, k)).
    { apply lookup_set in Hu as [[-> ->]|[_ Hu]]; [exists t, p; by rewrite <- Haw|by exists u, q]. }
    destruct Hold as (u0 & q0 & Hu0 & Hq0). destruct (p_signalled _ _ _ _ H u0 q0 i k Hu0 Hq0 Hk) as [|(u' & q' & Hu' & Hq')]; [by left|].
    right. destruct (decide (u' = t)) as [->|Hne]; [congruence|]. exists u', q'. by rewrite list_lookup_insert_ne.
  - assert (Hold : forall u q i k, <[t := p']> c !! u = Some q -> awaits q = Some (i, k) -> exists q0, c !! u = Some q0 /\ awaits q0 = Some (i, k)).
    { intros u q i k [[-> ->]|[_ Hu]]%lookup_set Hq; [exists p; by rewrite <- Haw|by exists q]. }
    intros u u' q q' i j k Hu Hu' Hq Hq'. destruct (Hold _ _ _ _ Hu Hq) as (? & ? & ?). destruct (Hold _ _ _ _ Hu' Hq') as (? & ? & ?).
    by eapply (p_unique _ _ _ _ H).
  - intros i Hi. rewrite (sumZ_insert _ c t p p') by done. destruct (Hlen i Hi) as [->|Hle].
    + rewrite <- (sumZ_insert _ c t p p' Ht). apply sumZ_nonneg, servesZ_bounds.
    + pose proof (p_enough _ _ _ _ H i Hi). lia.
Qed.

(** [Wait] takes its place in the queue, on a fresh semaphore. *)
Lemma protocol_wait i n p' :
  will_wait p = Some i -> wakes p = None -> awaits p = None -> (forall j, servesZ j (w j) p = 0) ->
  stage p' -> awaits p' = Some (i, n) -> wakes p' = None -> will_wait p' = None ->
  (forall j, Waiter n ∉ w j) -> (forall u q, c !! u = Some q -> wakes q <> Some n /\ forall j, awaits q <> Some (j, n)) ->
  protocol (<[t := p']> c) (<[i := w i ++ [Waiter n]]> w) (<[n := 0]> v) it.
Proof using H Ht.
  intros Hww Hwk Hap Hsv Hst Haw Hwk' Hww' Hfq Hfc. pose proof (p_wait _ _ _ _ H t p i Ht Hww) as Hempty.
  assert (Hin : forall j k, Waiter k ∈ <[i := w i ++ [Waiter n]]> w j <-> Waiter k ∈ w j \/ (j = i /\ k = n)).
  { intros j k. destruct (decide (i = j)) as [<-|Hne]; [rewrite fn_lookup_insert, elem_of_app, list_elem_of_singleton|rewrite fn_lookup_insert_ne by done]; naive_solver. }
  assert (Hv : forall k, k <> n -> <[n := 0]> v k = v k) by (intros k Hk; by rewrite fn_lookup_insert_ne).
  split.
  - intros u q [[-> ->]|[Hu Hq]]%lookup_set; [done|]. by eapply (p_stage _ _ _ _ H).
  - intros u q j [[-> ->]|[Hu Hq]]%lookup_set Hj; [congruence|]. by eapply (p_wait _ _ _ _ H).
  - intros j k [Hk|[-> ->]]%Hin.
    + assert (k <> n) by (intros ->; by apply (Hfq j)). rewrite Hv by done.
      destruct (p_queued _ _ _ _ H j k Hk) as (Hvk & (u & q & Hu & Hq) & Hn). split; [done|]. split.
      * exists u, q. rewrite list_lookup_insert_ne; [done|congruence].
      * intros u' q' [[-> ->]|[Hu' Hq']]%lookup_set; [by rewrite Hwk'|by eapply Hn].
    + rewrite fn_lookup_insert. split; [done|]. split; [exists t, p'; split; [apply lookup_self|done]|].
      intros u q [[-> ->]|[_ Hq]]%lookup_set; [by rewrite Hwk'|by apply (Hfc u q)].
  - intros u q j k [[-> ->]|[Hu Hq]]%lookup_set Hj Hk; rewrite Hin in Hk.
    + assert (i = j /\ n = k) as [-> ->] by (split; congruence). tauto.
    + assert (k <> n) by (intros ->; by apply (proj2 (Hfc u q Hq) j)). rewrite Hv by done.
      destruct (p_signalled _ _ _ _ H u q j k Hq Hj) as [|(u' & q' & Hu' & Hq')]; [tauto|by left|].
      right. exists u', q'. rewrite list_lookup_insert_ne; [done|congruence].
  - intros u u' q q' j j' k [[-> ->]|[Hu Hq]]%lookup_set [[-> ->]|[Hu' Hq']]%lookup_set Hj Hj'; try done.
    + rewrite Haw in Hj. injection Hj as <- <-. by destruct (proj2 (Hfc u' q' Hq') j').
    + rewrite Haw in Hj'. injection Hj' as <- <-. by destruct (proj2 (Hfc u q Hq) j).
    + by eapply (p_unique _ _ _ _ H).
  - intros j. destruct (decide (i = j)) as [<-|Hne]; [rewrite fn_lookup_insert; intros _; rewrite Hempty; apply sumZ_nonneg, servesZ_bounds|].
    rewrite fn_lookup_insert_ne by done. intros Hj. rewrite (sumZ_insert _ c t p p') by done. rewrite Hsv.
    pose proof (p_enough _ _ _ _ H j Hj). pose proof (servesZ_bounds j (w j) p'). lia.
Qed.

(** [Signal] takes the first waiter off the queue. *)
Lemma protocol_signal i k q p' :
  will_signal p = Some i -> wakes p = None -> awaits p = None -> w i = Waiter k :: q -> NoDup (w i) ->
  stage p' -> awaits p' = None -> wakes p' = Some k -> will_wait p' = None -> (forall j, ~ serves j (w j) p' /\ (j <> i -> ~ serves j (w j) p)) ->
  protocol (<[t := p']> c) (<[i := q]> w) v it.
Proof using H Ht.
  intros Hsg Hwk Hap Hwi Hnd Hst Haw Hwk' Hww' Hsv. rewrite Hwi in Hnd. apply NoDup_cons in Hnd as [Hkq Hnd].
  assert (Hki : Waiter k ∈ w i) by (rewrite Hwi; left).
  destruct (p_queued _ _ _ _ H i k Hki) as (Hvk & (o & po & Ho & Hpo) & Hnk).
  assert (Hin : forall j l, Waiter l ∈ <[i := q]> w j -> Waiter l ∈ w j /\ l <> k).
  { intros j l. destruct (decide (i = j)) as [<-|Hne]; [rewrite fn_lookup_insert, Hwi|rewrite fn_lookup_insert_ne by done].
    - intros Hl. split; [by right|]. by intros ->.
    - intros Hl. split; [done|]. intros ->. destruct (p_queued _ _ _ _ H j k Hl) as (_ & (o' & po' & Ho' & Hpo') & _).
      pose proof (p_unique _ _ _ _ H o o' po po' i j k Ho Ho' Hpo Hpo') as <-. congruence. }
  split.
  - intros u r [[-> ->]|[Hu Hr]]%lookup_set; [done|]. by eapply (p_stage _ _ _ _ H).
  - intros u r j [[-> ->]|[Hu Hr]]%lookup_set Hj; [congruence|]. by eapply (p_wait _ _ _ _ H).
  - intros j l [Hl Hlk]%Hin. destruct (p_queued _ _ _ _ H j l Hl) as (Hv & (u & r & Hu & Hr) & Hn). split; [done|]. split.
    + exists u, r. rewrite list_lookup_insert_ne; [done|congruence].
    + intros u' r' [[-> ->]|[_ Hr']]%lookup_set; [rewrite Hwk'; congruence|by eapply Hn].
  - intros u r j l [[-> ->]|[Hu Hr]]%lookup_set Hj Hl; [congruence|].
    destruct (decide (l = k)) as [->|Hlk]; [right; exists t, p'; split; [apply lookup_self|done]|].
    destruct (p_signalled _ _ _ _ H u r j l Hr Hj) as [|(u' & r' & Hu' & Hr')]; [|by left|].
    + intros Hlw. apply Hl. destruct (decide (i = j)) as [<-|Hne]; [|by rewrite fn_lookup_insert_ne].
      rewrite fn_lookup_insert. rewrite Hwi in Hlw. apply elem_of_cons in Hlw as [[= ->]|]; done.
    + right. exists u', r'. rewrite list_lookup_insert_ne; [done|congruence].
  - intros u u' r r' j j' l [[-> ->]|[Hu Hr]]%lookup_set [[-> ->]|[Hu' Hr']]%lookup_set Hj Hj'; try congruence.
    by eapply (p_unique _ _ _ _ H).
  - intros j Hj. rewrite (sumZ_insert _ c t p p') by done. destruct (decide (i = j)) as [<-|Hne].
    + rewrite fn_lookup_insert in *. destruct (Hsv i) as [Hs' _].
      assert (Hz : servesZ i q p' = 0).
      { apply servesZ_false. intros Hs. apply Hs'. unfold serves in *. by rewrite Haw in *. }
      pose proof (p_enough _ _ _ _ H i ltac:(by rewrite Hwi)) as He.
      assert (Hmore : sumZ (servesZ i (w i)) c + 1 <= sumZ (servesZ i q) c).
      { apply (sumZ_more _ _ c o po); [|done|].
        - intros r. unfold servesZ. case_decide as H1; [|case_decide; lia]. rewrite decide_True; [done|].
          unfold serves in *. destruct (awaits r) as [[j l]|]; [|done]. destruct H1 as [? H1]. split; [done|]. rewrite Hwi in H1. by apply not_elem_of_cons in H1 as [_ ?].
        - rewrite servesZ_false by (rewrite serves_waiter by done; tauto). by rewrite servesZ_true by by apply (serves_waiter _ _ _ i k). }
      rewrite Hz. pose proof (servesZ_bounds i q p). lia.
    + rewrite fn_lookup_insert_ne in * by done. destruct (Hsv j) as [Hs' Hs]. rewrite !servesZ_false by (try apply Hs; done).
      pose proof (p_enough _ _ _ _ H j Hj). lia.
Qed.

(** [V] of a waiter's semaphore. *)
Lemma protocol_V k p' :
  wakes p = Some k -> awaits p = None -> 0 <= v k ->
  stage p' -> awaits p' = None -> wakes p' = None -> will_wait p' = None -> (forall j, ~ serves j (w j) p) ->
  protocol (<[t := p']> c) w (<[k := v k + 1]> v) it.
Proof using H Ht.
  intros Hwk Hap Hvk Hst Haw Hwk' Hww' Hsv.
  assert (Hkq : forall j, Waiter k ∉ w j) by (intros j Hk; by apply (proj2 (proj2 (p_queued _ _ _ _ H j k Hk)) t p)).
  split.
  - intros u r [[-> ->]|[Hu Hr]]%lookup_set; [done|]. by eapply (p_stage _ _ _ _ H).
  - intros u r j [[-> ->]|[Hu Hr]]%lookup_set Hj; [congruence|]. by eapply (p_wait _ _ _ _ H).
  - intros j l Hl. rewrite fn_lookup_insert_ne by (intros <-; by apply (Hkq j)).
    destruct (p_queued _ _ _ _ H j l Hl) as (Hv & (u & r & Hu & Hr) & Hn). split; [done|]. split.
    + exists u, r. rewrite list_lookup_insert_ne; [done|congruence].
    + intros u' r' [[-> ->]|[_ Hr']]%lookup_set; [by rewrite Hwk'|by eapply Hn].
  - intros u r j l [[-> ->]|[Hu Hr]]%lookup_set Hj Hl; [congruence|].
    destruct (decide (k = l)) as [<-|Hne]; [left; rewrite fn_lookup_insert; lia|]. rewrite fn_lookup_insert_ne by done.
    destruct (p_signalled _ _ _ _ H u r j l Hr Hj Hl) as [|(u' & r' & Hu' & Hr')]; [by left|].
    right. exists u', r'. rewrite list_lookup_insert_ne; [done|congruence].
  - intros u u' r r' j j' l [[-> ->]|[Hu Hr]]%lookup_set [[-> ->]|[Hu' Hr']]%lookup_set Hj Hj'; try congruence.
    by eapply (p_unique _ _ _ _ H).
  - intros j Hj. rewrite (sumZ_insert _ c t p p') by done. rewrite (servesZ_false j (w j) p) by apply Hsv.
    pose proof (p_enough _ _ _ _ H j Hj). pose proof (servesZ_bounds j (w j) p'). lia.
Qed.

(** The waiter goes on to take the lock again. *)
Lemma protocol_P i k p' :
  awaits p = Some (i, k) -> wakes p = None -> v k <> 0 ->
  stage p' -> awaits p' = None -> wakes p' = None -> will_wait p' = None -> will_test p' = Some i ->
  protocol (<[t := p']> c) w (<[k := v k - 1]> v) it.
Proof using H Ht.
  intros Hap Hwk Hvk Hst Haw Hwk' Hww' Hte.
  assert (Hkq : forall j, Waiter k ∉ w j) by (intros j Hk; by destruct (p_queued _ _ _ _ H j k Hk)).
  split.
  - intros u r [[-> ->]|[Hu Hr]]%lookup_set; [done|]. by eapply (p_stage _ _ _ _ H).
  - intros u r j [[-> ->]|[Hu Hr]]%lookup_set Hj; [congruence|]. by eapply (p_wait _ _ _ _ H).
  - intros j l Hl. assert (k <> l) by (intros <-; by apply (Hkq j)). rewrite fn_lookup_insert_ne by done.
    destruct (p_queued _ _ _ _ H j l Hl) as (Hv & (u & r & Hu & Hr) & Hn). split; [done|]. split.
    + exists u, r. rewrite list_lookup_insert_ne; [done|congruence].
    + intros u' r' [[-> ->]|[_ Hr']]%lookup_set; [by rewrite Hwk'|by eapply Hn].
  - intros u r j l [[-> ->]|[Hu Hr]]%lookup_set Hj Hl; [congruence|].
    assert (k <> l) by (intros <-; by destruct Hu; eapply (p_unique _ _ _ _ H)). rewrite fn_lookup_insert_ne by done.
    destruct (p_signalled _ _ _ _ H u r j l Hr Hj Hl) as [|(u' & r' & Hu' & Hr')]; [by left|].
    right. exists u', r'. rewrite list_lookup_insert_ne; [done|congruence].
  - intros u u' r r' j j' l [[-> ->]|[Hu Hr]]%lookup_set [[-> ->]|[Hu' Hr']]%lookup_set Hj Hj'; try congruence.
    by eapply (p_unique _ _ _ _ H).
  - intros j Hj. rewrite (sumZ_insert _ c t p p') by done. pose proof (p_enough _ _ _ _ H j Hj).
    assert (servesZ j (w j) p <= servesZ j (w j) p'); [|lia].
    destruct (decide (serves j (w j) p)) as [Hs|Hs]; [|rewrite servesZ_false by done; apply servesZ_bounds].
    apply (serves_waiter _ _ _ i k Hap) in Hs as [-> _].
    rewrite (servesZ_true i (w i) p'); [apply servesZ_bounds|]. unfold serves. rewrite Haw. by left.
Qed.
End moves.

Lemma protocol_fork c w v it q : protocol c w v it -> client q -> protocol (c ++ [q]) w v it.
Proof.
  intros H Hq. pose proof (awaits_client q Hq) as Haw. pose proof (wakes_client q Hq) as Hwk. pose proof (will_wait_client q Hq) as Hww.
  assert (Hl : forall u r, (c ++ [q]) !! u = Some r -> c !! u = Some r \/ r = q).
  { intros u r [Hr|[_ Hr]]%lookup_app_Some; [by left|right]. by apply list_lookup_singleton_Some in Hr as [_ ->]. }
  assert (Hr : forall u r, c !! u = Some r -> (c ++ [q]) !! u = Some r) by (intros u r Hr; by apply lookup_app_l_Some).
  split.
  - intros u r [Hu| ->]%Hl; [by eapply (p_stage _ _ _ _ H)|by constructor].
  - intros u r i [Hu| ->]%Hl Hi; [by eapply (p_wait _ _ _ _ H)|congruence].
  - intros i k Hk. destruct (p_queued _ _ _ _ H i k Hk) as (Hv & (u & r & Hu & Hp) & Hn). split; [done|].
    split; [exists u, r; by eauto|]. intros u' r' [Hu'| ->]%Hl; [by eapply Hn|congruence].
  - intros u r i k [Hu| ->]%Hl Hi Hk; [|congruence].
    destruct (p_signalled _ _ _ _ H u r i k Hu Hi Hk) as [|(u' & r' & ? & ?)]; [by left|]. right. exists u', r'. by eauto.
  - intros u u' r r' i j k Hu Hu' Hi Hj. destruct (Hl _ _ Hu) as [Hu1| ->], (Hl _ _ Hu') as [Hu1'| ->]; try congruence.
    by eapply (p_unique _ _ _ _ H).
  - intros i Hi. rewrite sumZ_app. cbn [sumZ]. pose proof (p_enough _ _ _ _ H i Hi). pose proof (servesZ_bounds i (w i) q). lia.
Qed.

Lemma protocol_ext c w v it w' v' it' :
  protocol c w v it -> (forall i, w' i = w i) -> (forall k, v' k = v k) -> (forall i, it' i = it i) -> protocol c w' v' it'.
Proof.
  intros [H1 H2 H3 H4 H5 H6] Hw Hv Hi. split; try done.
  - intros t p i. rewrite Hi. apply H2.
  - intros i k. rewrite Hw, Hv. apply H3.
  - intros t p i k. rewrite Hw, Hv. apply H4.
  - intros i. rewrite Hw, Hi. apply H6.
Qed.

(** Most sections change nothing that others see. *)
Lemma protocol_next c w v it t p p' :
  protocol c w v it -> c !! t = Some p -> stage p' -> awaits p' = awaits p -> wakes p = None -> wakes p' = None ->
  will_wait p' = None -> will_signal p = None -> (will_test p = None \/ will_test p' = will_test p) ->
  protocol (<[t := p']> c) w v it.
Proof.
  intros H Ht Hst Haw Hwk Hwk' Hww Hsg Hte. eapply protocol_move; try done; [congruence|by intros; eapply (p_wait _ _ _ _ H)|].
  intros i Hi. right. assert (servesZ i (w i) p <= servesZ i (w i) p'); [|lia].
  destruct (decide (serves i (w i) p)) as [Hs|Hs]; [|rewrite servesZ_false by done; apply servesZ_bounds].
  rewrite (servesZ_true _ _ p'); [apply servesZ_bounds|]. unfold serves in *. rewrite Haw. destruct (awaits p) as [[]|]; [done|].
  destruct Hte as [Hte|Hte]; rewrite ?Hte in *; destruct Hs as [?|?]; try congruence. by left.
Qed.

(** ** The invariant of the whole *)

Definition wvalue (y : sys) (k : nat) : Z := value (sems y (Waiter k)).
Abbreviation protocol_of := (fun y it => protocol (code y) (waitQueue y) (wvalue y) it).

Record inv (s : state) : Prop := {
  i_wf : wf (sync s);
  i_lock : forall l, lock_inv l (sync s);
  i_protocol : protocol_of (sync s) (items s);
  i_fifo : forall i, appended s i = (removed s i).*2 ++ items s i
}.

(** The scheduler leaves the condition variables alone. *)
Lemma Run_queues t f s s' : Run t f s = Ok s' -> waitQueue s' = waitQueue s.
Proof.
  unfold Run, CheckToBeDestroyed. intros (s1 & H1 & H2)%bind_ok. transitivity (waitQueue s1).
  - cbn [setStatus set_status set_current toBeDestroyed] in H2. destruct (toBeDestroyed s1); inv_ok; done.
  - destruct f; inv_ok; done.
Qed.

Lemma Dispatch_queues f s s' : Dispatch f s = Ok s' -> waitQueue s' = waitQueue s.
Proof. unfold Dispatch, FindNextToRun. destruct (readyList s); [by intros [= <-]|by intros H%Run_queues]. Qed.

Lemma ReadyToRun_queues t s s' : ReadyToRun t s = Ok s' -> waitQueue s' = waitQueue s.
Proof. unfold ReadyToRun. intros (? & _ & [= <-])%bind_ok. done. Qed.

Lemma Yield_queues s s' : Yield s = Ok s' -> waitQueue s' = waitQueue s.
Proof.
  unfold Yield, FindNextToRun. destruct (readyList s); [by intros [= <-]|].
  intros (s1 & H1%ReadyToRun_queues & H2%Run_queues)%bind_ok. by rewrite H2, H1.
Qed.

Lemma V_queues i s s' : V i s = Ok s' -> waitQueue s' = waitQueue s.
Proof.
  unfold V. intros (s1 & H1 & [= <-])%bind_ok. destruct (queue (sems s i)); [by injection H1 as <-|].
  by apply ReadyToRun_queues in H1.
Qed.

Lemma P_queues i s b s' : P i s = Ok (b, s') -> waitQueue s' = waitQueue s.
Proof.
  unfold P. destruct (value (sems s i) =? 0); [|by intros [= <- <-]].
  intros (q & _ & (s1 & H1%Dispatch_queues & [= <- <-])%bind_ok)%bind_ok. done.
Qed.

(** What the sections of Threads.v do to programs, queues and the semaphores of
    waiters. *)
Definition untouched (y y' : sys) : Prop :=
  code y' = code y /\ waitQueue y' = waitQueue y /\ forall k, wvalue y' k = wvalue y k.

Lemma untouched_locks y y' : same_locks y y' -> waitQueue y' = waitQueue y -> untouched y y'.
Proof. intros (H1 & _ & H2 & _) Hw. split_and!; [done|done|]. intros k. apply H2. Qed.

Definition continues (y y' : sys) (p : list op) : Prop :=
  code y' = <[currentThread y := p]> (code y) /\ waitQueue y' = waitQueue y.

Lemma exec_effect y y' o rest : wf y ->
  program y (currentThread y) = o :: rest -> exec y = Ok y' ->
  match o with
  | MP i => untouched y y' \/ (continues y y' rest /\ value (sems y i) <> 0 /\
      forall k, wvalue y' k = wvalue y k - (if decide (i = Waiter k) then 1 else 0))
  | MV i => continues y y' rest /\ forall k, wvalue y' k = wvalue y k + (if decide (i = Waiter k) then 1 else 0)
  | MHold _ | MUnhold _ | MYield => continues y y' rest /\ forall k, wvalue y' k = wvalue y k
  | MWait c l => code y' = <[currentThread y := Release l ++ MP (Waiter (waiters y)) :: Acquire l ++ rest]> (code y) /\
      waitQueue y' = <[c := waitQueue y c ++ [Waiter (waiters y)]]> (waitQueue y) /\
      forall k, wvalue y' k = <[waiters y := 0]> (wvalue y) k
  | MSignal c => (forall k, wvalue y' k = wvalue y k) /\
      match waitQueue y c with
      | [] => continues y y' rest
      | x :: q => code y' = <[currentThread y := MV x :: rest]> (code y) /\ waitQueue y' = <[c := q]> (waitQueue y)
      end
  | MFork prog => code y' = <[currentThread y := rest]> (code y ++ [prog]) /\ waitQueue y' = waitQueue y /\
      forall k, wvalue y' k = wvalue y k
  | _ => True
  end.
Proof.
  intros Hwf Hp He. unfold exec in He. rewrite Hp in He. destruct o as [i|i|l|l|c l|c|c| |prog|obj a x]; [..|done].
  - apply bind_ok in He as ([b y1] & HP & [= <-]). pose proof (P_queues _ _ _ _ HP) as Hq.
    destruct (P_locks _ _ _ _ HP) as (Hc & _ & _ & Hcur & Hv). destruct b.
    + right. split_and!; [split; [simpl; by rewrite Hc|exact Hq]| |].
      * intros E. unfold P in HP. rewrite E in HP. cbn [Z.eqb] in HP. inv_ok. simplify_eq.
      * intros k. apply Hv.
    + left. split_and!; [done|exact Hq|]. intros k. unfold wvalue. rewrite Hv. case_decide; lia.
  - apply bind_ok in He as (y1 & HV & [= <-]). pose proof (V_queues _ _ _ HV) as Hq.
    destruct (V_locks _ _ _ HV) as (Hc & _ & _ & Hv). split; [split; [simpl; by rewrite Hc|exact Hq]|]. intros k. apply Hv.
  - by injection He as <-.
  - by injection He as <-.
  - apply bind_ok in He as ([x y1] & HW & [= <-]). unfold StartWait in HW. apply bind_ok in HW as (q & Hq & [= <- <-]).
    unfold Seq.Append in Hq. apply bind_ok in Hq as (? & _ & [= <-]). split_and!; [done|done|]. intros k. unfold wvalue.
    cbn [set_program set_code set_waitQueue set_waiters sems]. rewrite sems_set.
    destruct (decide (waiters y = k)) as [<-|Hne]; [by rewrite decide_True, fn_lookup_insert|].
    rewrite decide_False by congruence. by rewrite fn_lookup_insert_ne.
  - destruct (waitQueue y c) as [|x q]; injection He as <-; split; done.
  - done.
  - pose proof (Yield_queues _ _ He) as Hq. destruct (Yield_locks _ _ He) as (Hc & _ & Hv & _). split; [done|]. intros k. apply Hv.
  - apply bind_ok in He as (y1 & HF & [= <-]). unfold Fork in HF. pose proof (ReadyToRun_queues _ _ _ HF) as Hq.
    destruct (ReadyToRun_locks _ _ _ HF) as (Hc & _ & Hv & _). split_and!; [simpl; by rewrite Hc|exact Hq|]. intros k. apply Hv.
Qed.

(** Side conditions of [protocol_next] on the program of a known stage. *)
Ltac next_done :=
  first [ done | by apply st_client | by apply st_unhold | by apply st_release | by apply st_w2 | by apply st_w3
        | by constructor; constructor | by apply st_client, client_RemoveFront
        | by unfold Release; cbn [app]; rewrite ?awaits_unhold, ?awaits_release, ?awaits_client, ?wakes_client, ?will_wait_client by done
        | by left | by right ].

Lemma fresh_waiter n p : scoped_all n p = true -> wakes p <> Some n /\ forall j, awaits p <> Some (j, n).
Proof.
  intros Hs. assert (Hin : forall o, o ∈ p -> o <> MP (Waiter n) /\ o <> MV (Waiter n)).
  { intros o Ho%list_elem_of_In. unfold scoped_all in Hs. rewrite forallb_forall in Hs. specialize (Hs o Ho).
    split; intros ->; cbn in Hs; apply bool_decide_eq_true in Hs; lia. }
  split.
  - intros Hw. unfold wakes in Hw. repeat case_match; simplify_eq. by destruct (proj2 (Hin (MV (Waiter n)) ltac:(left))).
  - intros j Ha. unfold awaits in Ha. repeat case_match; simplify_eq; by destruct (proj1 (Hin (MP (Waiter n)) ltac:(set_solver))).
Qed.

Lemma exec_protocol y y' it o rest :
  wf y -> protocol_of y it -> program y (currentThread y) = o :: rest ->
  (forall i a x, o <> MData i a x) -> exec y = Ok y' -> protocol_of y' it.
Proof.
  intros Hwf Hpr Hp Hno He. pose proof (program_lookup y _ Hwf (w_cur _ Hwf)) as Ht. rewrite Hp in Ht.
  pose proof (exec_effect y y' o rest Hwf Hp He) as Heff.
  assert (Hsame : untouched y y' -> protocol_of y' it).
  { intros (Hc & Hq & Hv). rewrite Hc. eapply protocol_ext; [exact Hpr|by rewrite Hq|done|done]. }
  assert (Hgo : forall q, continues y y' q -> (forall k, wvalue y' k = wvalue y k) ->
    protocol (<[currentThread y := q]> (code y)) (waitQueue y) (wvalue y) it -> protocol_of y' it).
  { intros q (Hc & Hq) Hv H. rewrite Hc. eapply protocol_ext; [exact H|by rewrite Hq|done|done]. }
  assert (Hnext : forall q, continues y y' q -> (forall k, wvalue y' k = wvalue y k) ->
    stage q -> awaits q = awaits (o :: rest) -> wakes (o :: rest) = None -> wakes q = None -> will_wait q = None ->
    will_signal (o :: rest) = None -> (will_test (o :: rest) = None \/ will_test q = will_test (o :: rest)) -> protocol_of y' it).
  { intros q Hc Hv ???????. eapply Hgo; [done..|]. by eapply protocol_next. }
  pose proof (p_stage _ _ _ _ Hpr _ _ Ht) as Hst. remember (o :: rest) as pr eqn:Ep in Hst.
  destruct Hst as [p H|i q H|i q H|i p H|i k p H|i p H|i p H|i p H|i k p H|i k p H|i k p H].
  - rewrite Ep in H. inversion H as [|i x p' H' E|i p' H' E|i p' H' E|i p' H' E|i p' H' E|i x p' H' E|p' H' E|n p' H' E|n p' H' E|q p' Hq H' E]; simplify_eq/=; try (by destruct (Hno _ _ _ eq_refl)).
    1-4: destruct Heff as [|(Hc & _ & Hv)]; [by apply Hsame|]; (eapply Hnext; [exact Hc| |..]; [intros k; rewrite Hv; simpl; lia|next_done..]).
    + destruct Heff as (Hc & Hv). eapply Hnext; [exact Hc|done|next_done..].
    + destruct Heff as [|(Hc & _ & Hv)]; [by apply Hsame|]. eapply Hnext; [exact Hc| |..]; [intros k; rewrite Hv; simpl; lia|next_done..].
    + destruct Heff as (Hc & Hv). eapply Hnext; [exact Hc| |..]; [intros k; rewrite Hv; simpl; lia|next_done..].
    + destruct Heff as (Hc & Hq' & Hv). rewrite Hc. eapply protocol_ext; [|by rewrite Hq'|exact Hv|done].
      eapply protocol_next; [by apply protocol_fork|by apply lookup_app_l_Some|next_done..].
  - injection Ep as <- <-. destruct Heff as (Hc & Hv). eapply Hnext; [exact Hc|done|by eapply st_body|..]; destruct H; next_done.
  - destruct H; injection Ep as <- <-; by destruct (Hno _ _ _ eq_refl).
  - injection Ep as <- <-. destruct Heff as (Hv & Hc). destruct (waitQueue y i) as [|x q] eqn:Hq.
    + eapply Hgo; [exact Hc|exact Hv|]. eapply (protocol_move _ _ _ _ _ _ Hpr Ht); try done; [by apply st_unhold|next_done|by intros; eapply (p_wait _ _ _ _ Hpr)|].
      intros j Hj. right. rewrite (servesZ_false j (waitQueue y j) (MSignal i :: _)); [match goal with |- _ <= ?z - 0 => assert (0 <= z) by apply servesZ_bounds; lia end|].
      unfold serves. cbn. intros [?|?]; [done|]. congruence.
    + destruct Hc as (Hc & Hq'). rewrite Hc. destruct (w_wait _ Hwf i x) as (k & -> & Hk); [rewrite Hq; left|].
      eapply protocol_ext; [eapply (protocol_signal _ _ _ _ _ _ Hpr Ht i k q (MV (Waiter k) :: Release i ++ p))|by rewrite Hq'|exact Hv|done]; try done.
      * apply (w_wait_nodup _ Hwf).
      * by apply st_wake.
      * intros j. unfold serves. cbn. split; [by intros [?|?]|]. intros Hne [?|?]; congruence.
  - injection Ep as <- <-. destruct Heff as (Hc & Hv). destruct Hc as (Hc & Hq). rewrite Hc.
    eapply protocol_ext; [eapply (protocol_V _ _ _ _ _ _ Hpr Ht k (Release i ++ p))|by rewrite Hq| |done]; try next_done.
    + apply (w_value _ Hwf).
    + intros j. unfold serves. cbn. by intros [?|?].
    + intros l. rewrite Hv. destruct (decide (Waiter k = Waiter l)) as [[= <-]|Hne]; [by rewrite fn_lookup_insert|].
      rewrite fn_lookup_insert_ne by congruence. lia.
  - injection Ep as <- <-. destruct Heff as (Hc & Hv). eapply Hnext; [exact Hc|exact Hv|next_done..].
  - injection Ep as <- <-. destruct Heff as (Hc & Hv). eapply Hnext; [exact Hc| |next_done..]. intros k. rewrite Hv. simpl. lia.
  - injection Ep as <- <-. destruct Heff as (Hc & Hq & Hv). rewrite Hc.
    eapply protocol_ext; [eapply (protocol_wait _ _ _ _ _ _ Hpr Ht i (waiters y))|by rewrite Hq|exact Hv|done]; try done.
    + by apply (st_w1 i).
    + intros j (k & [= <-] & Hk)%(w_wait _ Hwf). lia.
    + intros u q Hu. pose proof (proj1 (Forall_lookup _ _) (w_scope _ Hwf) u q Hu) as Hs. cbn in Hs. apply fresh_waiter, Hs.
  - injection Ep as <- <-. destruct Heff as (Hc & Hv). eapply Hnext; [exact Hc|exact Hv|next_done..].
  - injection Ep as <- <-. destruct Heff as (Hc & Hv). eapply Hnext; [exact Hc| |next_done..]. intros l. rewrite Hv. simpl. lia.
  - injection Ep as <- <-. destruct Heff as [|((Hc & Hq) & Hk & Hv)]; [by apply Hsame|]. rewrite Hc.
    eapply protocol_ext; [eapply (protocol_P _ _ _ _ _ _ Hpr Ht i k (RemoveFront i ++ p))|by rewrite Hq| |done]; try next_done.
    intros l. rewrite Hv. destruct (decide (Waiter k = Waiter l)) as [[= <-]|Hne]; [by rewrite fn_lookup_insert|].
    rewrite fn_lookup_insert_ne by congruence. lia.
Qed.

(** ** Sections of list code *)

Lemma data_wf y i a x rest p : wf y -> sleeping y = None -> program y (currentThread y) = MData i a x :: rest ->
  scoped_all (waiters y) p = true -> wf (set_program (currentThread y) p y).
Proof. intros Hw Hs Hp Hsc. apply advance_wf; [done..|]. intros j. unfold at_P. rewrite Hp. tauto. Qed.

Lemma data_locks l y i a x rest p : wf y -> lock_inv l y -> program y (currentThread y) = MData i a x :: rest ->
  stage p -> phase_of l p = phase_of l rest -> lock_inv l (set_program (currentThread y) p y).
Proof.
  intros Hw Hl Hp Hst Hph. eapply (exec_op_locks l y _ (MData i a x) rest p 0); try done.
  all: by first [apply stage_disciplined|simpl; lia].
Qed.

Lemma data_next y i a x rest p it' :
  wf y -> sleeping y = None -> (forall l, lock_inv l y) -> program y (currentThread y) = MData i a x :: rest ->
  stage p -> scoped_all (waiters y) p = true -> (forall l, phase_of l p = phase_of l rest) ->
  protocol (<[currentThread y := p]> (code y)) (waitQueue y) (wvalue y) it' ->
  let y' := set_program (currentThread y) p y in wf y' /\ (forall l, lock_inv l y') /\ protocol_of y' it'.
Proof.
  intros Hw Hs Hl Hp Hst Hsc Hph Hpr. split_and!; [by eapply data_wf|intros l; by eapply data_locks|done].
Qed.

Lemma stage_will_wait p i : stage p -> will_wait p = Some i -> exists r, p = MWait i i :: r.
Proof.
  destruct 1 as [p H|j q H|j q H|j p H|j k p H|j p H|j p H|j p H|j k p H|j k p H|j k p H]; intros E; try done.
  - by rewrite will_wait_client in E.
  - by destruct H.
  - cbn in E. injection E as ->. by eexists.
Qed.

(** While a thread is in the body of a routine, no other is about to wait. *)
Lemma body_excludes y i p u q : wf y -> lock_inv i y -> body i p -> program y (currentThread y) = p ->
  u <> currentThread y -> code y !! u = Some q -> stage q -> will_wait q <> Some i.
Proof.
  intros Hw Hl Hb Hp Hu Hq Hst Hww.
  assert (H1 : inside i p) by (destruct Hb; unfold inside; cbn; by repeat case_decide).
  assert (H2 : inside i q).
  { destruct (stage_will_wait q i Hst Hww) as (r & ->). unfold inside. cbn. by case_decide. }
  pose proof (inside_two i (code y) u (currentThread y) q p Hu Hq) as Hc.
  rewrite <- Hp in Hc, H1. specialize (Hc (program_lookup _ _ Hw (w_cur _ Hw)) H2 H1).
  pose proof (l_count _ _ Hl). pose proof (w_value _ Hw (OfLock i)). lia.
Qed.

Lemma append_protocol y i p p' it l :
  wf y -> (forall l, lock_inv l y) -> protocol_of y it -> program y (currentThread y) = p ->
  body i p -> awaits p = None -> wakes p = None -> will_test p = None -> client p' ->
  length l = S (length (it i)) ->
  protocol (<[currentThread y := Signal i ++ Release i ++ p']> (code y)) (waitQueue y) (wvalue y) (<[i := l]> it).
Proof.
  intros Hw Hl Hpr Hp Hb Haw Hwk Hte Hc Hlen. pose proof (program_lookup y _ Hw (w_cur _ Hw)) as Ht. rewrite Hp in Ht.
  eapply (protocol_move _ _ _ _ _ _ Hpr Ht); try done.
  - by apply st_signal.
  - intros u q j Hu Hq Hj. destruct (decide (i = j)) as [<-|Hne].
    + by destruct (body_excludes y i p u q Hw (Hl i) Hb Hp Hu Hq (p_stage _ _ _ _ Hpr _ _ Hq)).
    + rewrite fn_lookup_insert_ne by done. by eapply (p_wait _ _ _ _ Hpr).
  - intros j Hj. right. assert (Hz : servesZ j (waitQueue y j) p = 0).
    { apply servesZ_false. unfold serves. rewrite Haw, Hte. intros [?|?]; [done|]. by destruct Hb. }
    rewrite Hz. pose proof (servesZ_bounds j (waitQueue y j) (Signal i ++ Release i ++ p')).
    destruct (decide (i = j)) as [<-|Hne]; [|rewrite fn_lookup_insert_ne by done; lia].
    rewrite fn_lookup_insert, Hlen. rewrite servesZ_true; [lia|]. unfold serves. cbn. by right.
Qed.

(** Where a section of list code can fail. *)
Definition misuse (s : state) (i a x : nat) : Prop :=
  match a with
  | 0 | 3 => False
  | 1 => x ∈ items s i
  | 2 => match last s (currentThread (sync s)) with None => True | Some y => y ∈ items s i end
  | 4 => items s i <> []
  | _ => last s (currentThread (sync s)) <> Some x
  end%nat.

Lemma Append_misuse i x s : (exists s', append i x s = Ok s') \/ x ∈ items s i.
Proof.
  unfold append, Seq.Append, Seq.IsInList. case_bool_decide; [by right|]. left. by eexists.
Qed.

Lemma append_ok i x s s' : append i x s = Ok s' ->
  s' = mkState (sync s) (<[i := items s i ++ [x]]> (items s)) (last s) (<[i := appended s i ++ [x]]> (appended s)) (removed s) (applied s).
Proof. unfold append, Seq.Append. intros (l & (? & _ & [= <-])%bind_ok & [= <-])%bind_ok. done. Qed.

Lemma data_fails s i a x rest : (exists s', data i a x rest s = Ok s') \/ misuse s i a x.
Proof.
  destruct a as [|[|[|[|[|a]]]]]; cbn [data misuse].
  - left. destruct (items s i) as [|y l] eqn:E; [by eexists|]. unfold remove. rewrite E. by eexists.
  - destruct (Append_misuse i x s) as [[s' ->]|?]; [left; by eexists|by right].
  - destruct (last s _) as [y|]; [|by right]. destruct (Append_misuse i y s) as [[s' ->]|?]; [left; by eexists|by right].
  - left. by eexists.
  - case_bool_decide; [left; by eexists|by right].
  - case_bool_decide; [left; by eexists|by right].
Qed.

Lemma stage_data i a x rest : stage (MData i a x :: rest) ->
  body i (MData i a x :: rest) \/ (client rest /\ (a = 4 \/ a = 5))%nat.
Proof.
  intros H. remember (MData i a x :: rest) as p eqn:E. destruct H as [p H|j q H|j q H|j p H|j k p H|j p H|j p H|j p H|j k p H|j k p H|j k p H]; try done.
  - destruct H; try done; injection E as <- <- <- <-; right; by eauto.
  - left. assert (i = j) as -> by by destruct H; injection E. done.
Qed.

Lemma remove_protocol y i p it x l :
  wf y -> protocol_of y it -> program y (currentThread y) = test_remove i :: Release i ++ p -> client p -> it i = x :: l ->
  protocol (<[currentThread y := Release i ++ p]> (code y)) (waitQueue y) (wvalue y) (<[i := l]> it).
Proof.
  intros Hw Hpr Hp Hc Hi. pose proof (program_lookup y _ Hw (w_cur _ Hw)) as Ht. rewrite Hp in Ht.
  eapply (protocol_move _ _ _ _ _ _ Hpr Ht); try done; [by apply st_unhold|next_done|..].
  - intros u q j Hu Hq Hj. pose proof (p_wait _ _ _ _ Hpr u q j Hq Hj). destruct (decide (i = j)) as [<-|Hne]; [congruence|by rewrite fn_lookup_insert_ne].
  - intros j Hj. right. pose proof (servesZ_bounds j (waitQueue y j) (Release i ++ p)).
    destruct (decide (i = j)) as [<-|Hne].
    + rewrite fn_lookup_insert, Hi. cbn [length]. pose proof (servesZ_bounds i (waitQueue y i) (test_remove i :: Release i ++ p)). lia.
    + rewrite fn_lookup_insert_ne, (servesZ_false j _ (test_remove i :: _)) by (done || (unfold serves; cbn; intros [?|?]; congruence)). lia.
Qed.

Lemma wait_protocol y i p it :
  wf y -> protocol_of y it -> program y (currentThread y) = test_remove i :: Release i ++ p -> client p -> it i = [] ->
  protocol (<[currentThread y := Wait i i ++ test_remove i :: Release i ++ p]> (code y)) (waitQueue y) (wvalue y) it.
Proof.
  intros Hw Hpr Hp Hc Hi. pose proof (program_lookup y _ Hw (w_cur _ Hw)) as Ht. rewrite Hp in Ht.
  eapply (protocol_move _ _ _ _ _ _ Hpr Ht); try done; [by apply st_wait|by intros j [= <-]|by intros; eapply (p_wait _ _ _ _ Hpr)|].
  intros j Hj. destruct (decide (i = j)) as [<-|Hne]; [by left|]. right.
  rewrite (servesZ_false j _ (test_remove i :: _)) by (unfold serves; cbn; intros [?|?]; congruence).
  match goal with |- _ <= ?z - 0 => assert (0 <= z) by apply servesZ_bounds; lia end.
Qed.

Lemma data_inv s i a x rest s' :
  inv s -> sleeping (sync s) = None -> program (sync s) (currentThread (sync s)) = MData i a x :: rest ->
  data i a x rest s = Ok s' -> inv s'.
Proof.
  intros [Hw Hl Hpr Hf] Hs Hp Hd. pose proof (program_lookup _ _ Hw (w_cur _ Hw)) as Ht. rewrite Hp in Ht.
  pose proof (p_stage _ _ _ _ Hpr _ _ Ht) as Hst. destruct (rest_scoped _ _ _ Hw Hp) as [_ Hsc].
  assert (Hgo : forall it', protocol (<[currentThread (sync s) := rest]> (code (sync s))) (waitQueue (sync s)) (wvalue (sync s)) it' ->
    let y' := set_program (currentThread (sync s)) rest (sync s) in wf y' /\ (forall l, lock_inv l y') /\ protocol_of y' it').
  { intros it' H. eapply data_next; try done. apply (p_stage _ _ _ _ H (currentThread (sync s))). by eapply lookup_self. }
  assert (Happ : forall y, body i (MData i a x :: rest) -> (exists p', rest = Signal i ++ Release i ++ p' /\ client p') ->
    (s1 <- append i y s ;; Ok (set_sync (set_program (currentThread (sync s)) rest (sync s1)) s1)) = Ok s' -> a <> 0%nat -> inv s').
  { intros y Hb (p' & Hr & Hc) (s1 & Hap%append_ok & [= <-])%bind_ok Ha. subst s1.
    destruct (Hgo (<[i := items s i ++ [y]]> (items s))) as (Hw' & Hl' & Hpr').
    - rewrite Hr. eapply append_protocol; try done.
      + cbn. by repeat case_match.
      + rewrite length_app. cbn. lia.
    - split; try done. intros j. cbn [appended removed items set_sync]. destruct (decide (i = j)) as [<-|Hne].
      + by rewrite !fn_lookup_insert, Hf, <- app_assoc.
      + by rewrite !fn_lookup_insert_ne. }
  assert (Hidle : client rest \/ a = 3%nat -> stage rest -> awaits rest = None -> wakes rest = None -> will_wait rest = None ->
    will_test (MData i a x :: rest) = None ->
    protocol (<[currentThread (sync s) := rest]> (code (sync s))) (waitQueue (sync s)) (wvalue (sync s)) (items s)).
  { intros _ ?????. eapply protocol_next; try done. by left. }
  destruct (stage_data i a x rest Hst) as [Hb|[Hc Ha]].
  - inversion Hb as [x' p Hc|p Hc|p Hc|p Hc]; subst.
    + apply (Happ x Hb ltac:(by eexists) Hd). done.
    + unfold data in Hd. destruct (last s (currentThread (sync s))) as [y|]; [|done]. by apply (Happ y Hb ltac:(by eexists) Hd).
    + unfold data in Hd. destruct (items s i) as [|y l] eqn:Hi.
      * injection Hd as <-. assert (H := wait_protocol _ _ _ _ Hw Hpr Hp Hc Hi).
        destruct (data_next (sync s) i 0 0 (Release i ++ p) (Wait i i ++ test_remove i :: Release i ++ p) (items s)) as (Hw' & Hl' & Hpr'); try done.
        -- by apply st_wait.
        -- intros l. cbn. by repeat case_decide.
      * unfold remove in Hd. rewrite Hi in Hd. cbn [Seq.RemoveFront bind] in Hd. injection Hd as <-.
        destruct (Hgo _ (remove_protocol _ _ _ _ _ _ Hw Hpr Hp Hc Hi)) as (Hw' & Hl' & Hpr').
        split; try done. intros j. cbn [appended removed items set_sync]. rewrite Hf. destruct (decide (i = j)) as [<-|Hne].
        -- rewrite !fn_lookup_insert, Hi, fmap_app. cbn. by rewrite <- app_assoc.
        -- by rewrite !fn_lookup_insert_ne.
    + injection Hd as <-. destruct (Hgo (items s)) as (Hw' & Hl' & Hpr'); [apply Hidle; try done; [by right|by apply st_unhold|next_done..]|]. by split.
  - assert (Hgo' : protocol (<[currentThread (sync s) := rest]> (code (sync s))) (waitQueue (sync s)) (wvalue (sync s)) (items s)).
    { apply Hidle; [by left|next_done..|by destruct Ha as [-> | ->]]. }
    destruct (Hgo _ Hgo') as (Hw' & Hl' & Hpr'). destruct Ha as [-> | ->]; unfold data in Hd; apply bind_ok in Hd as (? & _ & [= <-]); by split.
Qed.

(** ** Every step keeps the invariant *)

Lemma lift_ok y r s' s : r = Ok y -> (y <- r ;; Ok (set_sync y s)) = Ok s' -> s' = set_sync y s.
Proof. intros -> [= <-]. done. Qed.

Lemma react_inv e s s' : inv s -> react e s = Some (Ok s') -> inv s'.
Proof.
  intros Hinv Hr. pose proof Hinv as [Hw Hl Hpr Hf]. unfold react in Hr.
  assert (Hlift : forall r, Threads.react e (sync s) = Some r -> (y <- r ;; Ok (set_sync y s)) = Ok s' ->
    (forall y, r = Ok y -> protocol_of y (items s)) -> inv s').
  { intros r Hre Hs' Hy. destruct (react_ok e (sync s) r Hw Hre) as (y & -> & Hwy). apply (lift_ok y) in Hs' as ->; [|done].
    split; try done; [|by apply Hy]. intros l. eapply react_locks; [exact Hw|apply Hl|exact Hre]. }
  assert (Hun : forall y, untouched (sync s) y -> protocol_of y (items s)).
  { intros y (Hc & Hq & Hv). rewrite Hc. eapply protocol_ext; [exact Hpr|by rewrite Hq|done|done]. }
  destruct e as [| |n|], (sleeping (sync s)) as [f|] eqn:Hs; simpl in Hr; rewrite ?Hs in Hr; cbn [fmap option_fmap option_map] in Hr; try done.
  - destruct (program (sync s) (currentThread (sync s))) as [|o rest] eqn:Hp.
    + injection Hr as Hr. apply (Hlift (exec (sync s))); [unfold Threads.react; by rewrite ?Hs|done|]. intros y Hy. unfold exec in Hy. rewrite Hp in Hy.
      apply Hun, untouched_locks; [by apply Sleep_locks in Hy|by apply Dispatch_queues in Hy].
    + assert (Hcase : (exists i a x, o = MData i a x) \/ forall i a x, o <> MData i a x) by (destruct o; (by right) || left; by eauto).
      destruct Hcase as [(i & a & x & ->)|Hno].
      * injection Hr as Hr. by eapply data_inv.
      * assert (Hr' : Some (y <- exec (sync s) ;; Ok (set_sync y s)) = Some (Ok s')).
        { destruct o; try done. by destruct (Hno _ _ _ eq_refl). }
        injection Hr' as Hr'. apply (Hlift (exec (sync s))); [unfold Threads.react; by rewrite ?Hs|done|]. intros y Hy. by eapply exec_protocol.
  - injection Hr as Hr. apply (Hlift (Yield (sync s))); [unfold Threads.react; by rewrite ?Hs|done|]. intros y Hy.
    apply Hun, untouched_locks; [by apply Yield_locks|by apply Yield_queues].
  - injection Hr as Hr. apply (Hlift (V (User n) (sync s))); [done|done|]. intros y Hy. apply Hun.
    destruct (V_locks _ _ _ Hy) as (Hc & _ & _ & Hv). split_and!; [done|by eapply V_queues|]. intros k. unfold wvalue. rewrite Hv. simpl. lia.
  - injection Hr as Hr. apply (Hlift (V (User n) (sync s))); [unfold Threads.react; by rewrite ?Hs|done|]. intros y Hy. apply Hun.
    destruct (V_locks _ _ _ Hy) as (Hc & _ & _ & Hv). split_and!; [done|by eapply V_queues|]. intros k. unfold wvalue. rewrite Hv. simpl. lia.
  - injection Hr as Hr. apply (Hlift (Dispatch f (sync s))); [unfold Threads.react; by rewrite ?Hs|done|]. intros y Hy.
    apply Hun, untouched_locks; [by eapply Dispatch_locks|by eapply Dispatch_queues].
Qed.

Lemma client_scoped n p : client p -> scoped_all n p = true.
Proof.
  unfold scoped_all. induction 1 as [|i x p _ IH|i p _ IH|i p _ IH|i p _ IH|i p _ IH|i x p _ IH|p _ IH|k p _ IH|k p _ IH|q p _ IHq _ IH];
    cbn; rewrite ?IH, ?IHq; done.
Qed.

Lemma monitor_initial_inv init main : (forall n, 0 <= init n) -> client main -> inv (SynchList init main).
Proof.
  intros Hi Hm. assert (H1 : forall (t : nat) p, [main] !! t = Some p -> p = main) by (intros [|t] p E; by simplify_eq/=).
  split; cbn [sync SynchList].
  - apply initial_wf; [done|by apply client_scoped].
  - intros l. by apply initial_locks; apply client_locks.
  - split; cbn [code waitQueue Threads.initial items SynchList].
    + intros t p ->%H1. by apply st_client.
    + done.
    + intros i k Hk. set_solver.
    + intros t p i k ->%H1 Ha. by rewrite awaits_client in Ha.
    + intros t u p q i j k ->%H1 _ Ha. by rewrite awaits_client in Ha.
    + done.
  - done.
Qed.

Lemma monitor_step_inv s s' : inv s -> step s s' -> inv s'.
Proof. intros Hi Hst. destruct Hst as [e s s' Hr]. by eapply react_inv. Qed.

Lemma monitor_reachable_inv s s' : inv s -> rtc step s s' -> inv s'.
Proof. intros Hw. induction 1; [done|]. eauto using monitor_step_inv. Qed.

Lemma react_fails e s r : inv s -> react e s = Some r ->
  (exists s', r = Ok s' /\ inv s') \/
  (exists i a x rest, program (sync s) (currentThread (sync s)) = MData i a x :: rest /\ misuse s i a x).
Proof.
  intros Hinv Hr. assert (Hor : (exists s', r = Ok s') \/
    (exists i a x rest, program (sync s) (currentThread (sync s)) = MData i a x :: rest /\ misuse s i a x)).
  { assert (Hlift : (fun r => y <- r ;; Ok (set_sync y s)) <$> Threads.react e (sync s) = Some r -> exists s', r = Ok s').
    { intros (r0 & Hre & ->)%fmap_Some. destruct (react_ok e (sync s) r0 (i_wf _ Hinv) Hre) as (y & -> & _). by eexists. }
    unfold react in Hr. destruct e; [|by left; apply Hlift..].
    destruct (sleeping (sync s)); [by left; apply Hlift|]. destruct (program (sync s) (currentThread (sync s))) as [|[] rest] eqn:Hp; try (by left; apply Hlift).
    injection Hr as <-. destruct (data_fails s obj action arg rest) as [|Hm]; [by left|]. right. by do 4 eexists. }
  destruct Hor as [[s' ->]|?]; [left|by right]. exists s'. split; [done|]. by eapply react_inv.
Qed.

Lemma stage_waiter k rest : stage (MP (Waiter k) :: rest) -> exists i, awaits (MP (Waiter k) :: rest) = Some (i, k).
Proof.
  intros H. remember (MP (Waiter k) :: rest) as p eqn:E.
  destruct H as [p H|j q H|j q H|j p H|j l p H|j p H|j p H|j p H|j l p H|j l p H|j l p H]; try done; try by destruct H.
  injection E as -> _. by exists j.
Qed.

(** ** When nothing can run *)

Definition idle (y : sys) : Prop := sleeping y <> None /\ readyList y = [].

Section idle.
Context (s : state).
Hypothesis (Hinv : inv s).
Hypothesis (Hidle : idle (sync s)).
Let y := sync s.

Lemma idle_blocked t : (t < threads y)%nat -> program y t = [] \/ exists i, at_P y i t /\ value (sems y i) = 0.
Proof using Hinv Hidle.
  intros Ht. pose proof (i_wf _ Hinv) as Hw. destruct Hidle as [Hs Hr]. fold y in Hw, Hs, Hr.
  assert (Hb : statusOf y t = BLOCKED).
  { destruct (statusOf y t) eqn:E; [|..|done].
    - by destruct (w_created _ Hw t Ht).
    - apply (w_running _ Hw t Ht) in E as [? _]. done.
    - assert (Hin : t ∈ readyList y) by (by apply (w_ready _ Hw)). rewrite Hr in Hin. set_solver. }
  destruct (w_blocked _ Hw t Ht Hb) as [|[i Hi]]; [by left|]. right. exists i.
  destruct (w_queue _ Hw i t Hi) as (_ & _ & Hat). split; [done|].
  assert (Hq : queue (sems y i) <> []) by (intros E; rewrite E in Hi; set_solver).
  pose proof (w_wake _ Hw i Hq) as Hwk. pose proof (w_value _ Hw i). unfold count in Hwk. rewrite Hr in Hwk.
  destruct (sleeping y); [|done]. cbn in Hwk. lia.
Qed.

Lemma idle_head t o rest : (t < threads y)%nat -> program y t = o :: rest -> exists i, o = MP i /\ value (sems y i) = 0.
Proof using Hinv Hidle.
  intros Ht Hp. destruct (idle_blocked t Ht) as [E|(i & Hat & Hv)]; [congruence|].
  unfold at_P in Hat. rewrite Hp in Hat. destruct o; try done. subst. by eexists.
Qed.

Lemma lookup_program t p : code y !! t = Some p -> (t < threads y)%nat /\ program y t = p.
Proof using Hinv.
  intros H. pose proof (lookup_lt_Some _ _ _ H) as Ht. pose proof (i_wf _ Hinv) as Hw. fold y in Hw. rewrite (w_len _ Hw) in Ht.
  split; [done|]. rewrite (program_lookup y t Hw Ht) in H. by injection H.
Qed.

(** No list is locked. *)
Lemma idle_unlocked l : value (sems y (OfLock l)) = 1.
Proof using Hinv Hidle.
  pose proof (l_count _ _ (i_lock _ Hinv l)) as Hc. fold y in Hc.
  destruct (filter (inside l) (code y)) as [|p ps] eqn:Hf; [unfold count_inside in Hc; rewrite Hf in Hc; cbn in Hc; lia|].
  assert (Hp : p ∈ filter (inside l) (code y)) by (rewrite Hf; left).
  apply list_elem_of_filter in Hp as [Hin (t & Ht)%list_elem_of_lookup_1].
  destruct (lookup_program t p Ht) as [Htt Hpt]. pose proof (stage_inside l p (p_stage _ _ _ _ (i_protocol _ Hinv) t p Ht) Hin) as Hs.
  destruct p as [|o rest]; [done|]. by destruct (idle_head t o rest Htt Hpt) as (i & -> & _).
Qed.

(** Nobody who was signalled is still there. *)
Lemma idle_waiter t i k : (t < threads y)%nat -> program y t <> [] -> awaits (program y t) = Some (i, k) -> Waiter k ∈ waitQueue y i.
Proof using Hinv Hidle.
  intros Ht Hne Ha. pose proof (i_wf _ Hinv) as Hw. fold y in Hw. pose proof (program_lookup y t Hw Ht) as Hl.
  destruct (decide (Waiter k ∈ waitQueue y i)) as [|Hk]; [done|]. exfalso.
  destruct (program y t) as [|o rest] eqn:Hp; [done|]. destruct (idle_head t o rest Ht Hp) as (j & -> & Hv).
  assert (j = Waiter k) as -> by (unfold awaits in Ha; by repeat case_match; simplify_eq).
  destruct (p_signalled _ _ _ _ (i_protocol _ Hinv) t _ i k Hl Ha Hk) as [Hpos|(u & q & Hu & Hq)].
  - unfold wvalue in Hpos. fold y in Hpos. lia.
  - destruct (lookup_program u q Hu) as [Hut Hup]. destruct q as [|o' r]; [done|].
    destruct (idle_head u o' r Hut Hup) as (j & -> & _). done.
Qed.

Lemma idle_serves i p : p ∈ code y -> ~ serves i (waitQueue y i) p.
Proof using Hinv Hidle.
  intros (t & Ht)%list_elem_of_lookup_1. destruct (lookup_program t p Ht) as [Htt Hpt]. unfold serves.
  destruct (awaits p) as [[j k]|] eqn:Ha.
  - intros [-> Hk]. apply Hk. eapply (idle_waiter t); [done| |by rewrite Hpt]. intros E. rewrite <- Hpt, E in Ha. done.
  - destruct p as [|o rest]; [by intros [?|?]|]. destruct (idle_head t o rest Htt Hpt) as (j & -> & Hv). intros [Hte|?]; [|done].
    assert (j = OfLock i) as -> by (cbn in Hte; by repeat case_match; simplify_eq). rewrite idle_unlocked in Hv. done.
Qed.
End idle.

(** ** Examples *)

(** Two threads take an item each, from a main thread that has one to give. *)
Definition example_main : list op := [MFork (RemoveFront 0); MFork (RemoveFront 0); MYield] ++ Append 0 7.
Definition example_state : state := default (SynchList (fun _ => 0) example_main) (run (replicate 32 Execute) (SynchList (fun _ => 0) example_main)).

Lemma example_client : client example_main.
Proof.
  assert (Hr : client (RemoveFront 0)) by apply (client_RemoveFront 0 []), client_nil.
  apply client_Fork; [done|]. apply client_Fork; [done|]. apply client_Yield. apply (client_Append 0 7 []), client_nil.
Qed.

Lemma monitor_run_rtc es s s' : run es s = Some s' -> rtc step s s'.
Proof.
  revert s. induction es as [|e es IH]; intros s H; simpl in H; [injection H as ->; done|].
  destruct (react e s) as [[s1|]|] eqn:He; [|done|done]. eapply rtc_l; [by eapply step_react|]. by apply IH.
Qed.

(** The self test runs to its end. *)
Lemma SynchList_SelfTest_passes : exists s, run (replicate 405 Execute) (SynchList (fun _ => 0) (SelfTest 1 0 7)) = Some s /\
  code (sync s) = [[]; []] /\ items s 0%nat = [] /\ items s 1%nat = [].
Proof. eexists. split; [vm_compute; reflexivity|]. by vm_compute. Qed.

Lemma monitor_example_reached : rtc step (SynchList (fun _ => 0) example_main) example_state.
Proof. apply (monitor_run_rtc (replicate 32 Execute)). vm_compute. reflexivity. Qed.

(** ** Properties *)

(** C20: A synchronized list is a queue that threads share.  Whatever threads call its routines, under every
    interleaving and any preemption, the items taken out are those put in, in the same order, each given to one
    thread; at most one thread is in the code of a list; and no step fails, [RemoveFront] on an empty list in
    particular, but one that appends an item already there, which [List::Append] refuses (or a failed assertion of
    the caller's own). *)
Theorem SynchList_queue init main s :
  (forall n, 0 <= init n) -> client main -> rtc step (SynchList init main) s ->
  (forall i, appended s i = (removed s i).*2 ++ items s i) /\
  (forall i t u, (t < threads (sync s))%nat -> (u < threads (sync s))%nat ->
     inside i (program (sync s) t) -> inside i (program (sync s) u) -> t = u) /\
  (forall e r, react e s = Some r -> (exists s', r = Ok s') \/
     (exists i a x rest, program (sync s) (currentThread (sync s)) = MData i a x :: rest /\ misuse s i a x)).
Proof.
  intros Hi Hm Hr. pose proof (monitor_reachable_inv _ _ (monitor_initial_inv init main Hi Hm) Hr) as Hinv.
  split; [apply (i_fifo _ Hinv)|]. split.
  - intros i t u Ht Hu Hit Hiu. destruct (decide (t = u)) as [|Hne]; [done|]. pose proof (i_wf _ Hinv) as Hw.
    pose proof (inside_two i _ t u _ _ Hne (program_lookup _ t Hw Ht) (program_lookup _ u Hw Hu) Hit Hiu).
    pose proof (l_count _ _ (i_lock _ Hinv i)). pose proof (w_value _ Hw (OfLock i)). lia.
  - intros e r He. destruct (react_fails e s r Hinv He) as [(s' & -> & _)|?]; [left; by eexists|by right].
Qed.

(** [RemoveFront] misses no item.  When nothing in the machine can run, so that only an interrupt could go
    on, every thread has finished, or sleeps on a semaphore of the user's, or waits in [RemoveFront] on a list that
    is empty: no wake-up is lost between [Append] and [Wait], and the monitors never deadlock. *)
Theorem SynchList_idle init main s t :
  (forall n, 0 <= init n) -> client main -> rtc step (SynchList init main) s ->
  idle (sync s) -> (t < threads (sync s))%nat ->
  program (sync s) t = [] \/ (exists n, at_P (sync s) (User n) t) \/
  (exists i k, awaits (program (sync s) t) = Some (i, k) /\ Waiter k ∈ waitQueue (sync s) i /\ items s i = []).
Proof.
  intros Hi Hm Hr Hidle Ht. pose proof (monitor_reachable_inv _ _ (monitor_initial_inv init main Hi Hm) Hr) as Hinv.
  pose proof (i_wf _ Hinv) as Hw. pose proof (program_lookup _ t Hw Ht) as Hl.
  destruct (idle_blocked s Hinv Hidle t Ht) as [|(j & Hat & Hv)]; [by left|]. right. destruct j as [n|l|k].
  - left. by exists n.
  - by rewrite (idle_unlocked s Hinv Hidle l) in Hv.
  - right. pose proof (p_stage _ _ _ _ (i_protocol _ Hinv) t _ Hl) as Hst. unfold at_P in Hat.
    destruct (program (sync s) t) as [|o rest] eqn:Hp; [done|]. destruct o; try done. subst.
    destruct (stage_waiter _ _ Hst) as [i Ha]. exists i, k. split; [done|].
    assert (Hk : Waiter k ∈ waitQueue (sync s) i) by (apply (idle_waiter s Hinv Hidle t); rewrite ?Hp; done). split; [done|].
    pose proof (p_enough _ _ _ _ (i_protocol _ Hinv) i ltac:(intros E; rewrite E in Hk; set_solver)) as He.
    rewrite sumZ_zero in He; [by destruct (items s i); cbn in He; [|lia]|].
    intros u p Hu. apply servesZ_false, (idle_serves s Hinv Hidle). by eapply list_elem_of_lookup_2.
Qed.

Lemma SynchList_queue_witness :
  (forall i, appended example_state i = (removed example_state i).*2 ++ items example_state i) /\
  (forall i t u, (t < threads (sync example_state))%nat -> (u < threads (sync example_state))%nat ->
     inside i (program (sync example_state) t) -> inside i (program (sync example_state) u) -> t = u) /\
  (forall e r, react e example_state = Some r -> (exists s', r = Ok s') \/
     (exists i a x rest, program (sync example_state) (currentThread (sync example_state)) = MData i a x :: rest /\
        misuse example_state i a x)).
Proof. apply (SynchList_queue (fun _ => 0) example_main example_state); [done|apply example_client|apply monitor_example_reached]. Defined.

Lemma SynchList_idle_witness :
  removed example_state 0%nat = [(1, 7)]%nat /\
  (program (sync example_state) 2 = [] \/ (exists n, at_P (sync example_state) (User n) 2) \/
   (exists i k, awaits (program (sync example_state) 2) = Some (i, k) /\ Waiter k ∈ waitQueue (sync example_state) i /\
      items example_state i = [])).
Proof.
  split; [by vm_compute|].
  apply (SynchList_idle (fun _ => 0) example_main example_state 2); [done|apply example_client|apply monitor_example_reached|by vm_compute|by vm_compute; lia].
Defined.

End SynchList.
