(* ===== verification/Disk.v ===== *)
(** * machine/disk.{h,cc}: the simulated disk

    A disk of 32 tracks of 32 sectors kept in a file of the host, one request at
    a time, completed by an interrupt after the seek and rotation the geometry
    takes.  [DiskInt]s go through the kernel of Interrupt.v; the class [HasDisk]
    says where a kernel keeps its disk, so that the device is used by any kernel
    that has one. *)

From Stdlib Require Import Strings.Byte.
From S2P Require Import Prelude LibList Machine Interrupt.

Module Disk.
Import Interrupt.

Definition SectorSize : Z := 128.
Definition SectorsPerTrack : Z := 32.
Definition NumTracks : Z := 32.
Definition NumSectors : Z := SectorsPerTrack * NumTracks.
Definition MagicNumber : Z := 0x456789ab.
Definition MagicSize : Z := 4.
Definition DiskSize : Z := MagicSize + NumSectors * SectorSize.

(** ** The host's file, as lib/sysdep.cc uses it *)

(** [Lseek(fd, pos, 0)] then [Read(fd, buffer, n)]: both assert that the call
    did all of it. *)
Definition ReadAt (f : list byte) (pos n : Z) : result (list byte) :=
  assert (bool_decide (0 <= pos)) ;;
  let bs := take (Z.to_nat n) (drop (Z.to_nat pos) f) in
  assert (bool_decide (Z.of_nat (length bs) = n)) ;; Ok bs.

(** [Lseek] then [WriteFile]: writing past the end leaves zeros in between. *)
Definition WriteAt (f : list byte) (pos : Z) (bs : list byte) : result (list byte) :=
  assert (bool_decide (0 <= pos)) ;;
  let n := Z.to_nat pos in
  Ok (take n (f ++ replicate (n - length f) x00) ++ bs ++ drop (n + length bs) f).

(** [file]: the contents of the host's file behind [fileno]. *)
Record disk := mkDisk {
  file : list byte;
  active : bool;
  lastSector : Z;
  bufferInit : Z
}.

Definition set_active b d := mkDisk (file d) b (lastSector d) (bufferInit d).
Definition set_file f d := mkDisk f (active d) (lastSector d) (bufferInit d).

(** [Disk::Disk(toCall)] with the contents of the host's file if it exists. *)
Definition Disk (existing : option (list byte)) : result disk :=
  f <- match existing with
       | Some f =>
           magic <- ReadAt f 0 MagicSize ;;
           assert (bool_decide (wrap32 (le_val magic) = MagicNumber)) ;; Ok f
       | None =>
           f <- WriteAt [] 0 (le_bytes 4 MagicNumber) ;;
           WriteAt f (DiskSize - 4) (le_bytes 4 0)
       end ;;
  Ok (mkDisk f false 0 0).

(** [now] is [kernel->stats->totalTicks]. *)
Definition TimeToSeek (now : Z) (d : disk) (newSector : Z) : Z * Z :=
  let newTrack := Z.quot newSector SectorsPerTrack in
  let oldTrack := Z.quot (lastSector d) SectorsPerTrack in
  let seek := wrap32 (Z.abs (newTrack - oldTrack) * SeekTime) in
  let over := Z.rem (wrap32 (now + seek)) RotationTime in
  (seek, if bool_decide (0 < over) then RotationTime - over else 0).

Definition ModuloDiff (to from : Z) : Z :=
  let toOffset := Z.rem to SectorsPerTrack in
  let fromOffset := Z.rem from SectorsPerTrack in
  Z.rem ((toOffset - fromOffset) + SectorsPerTrack) SectorsPerTrack.

Definition ComputeLatency (now : Z) (d : disk) (newSector : Z) (writing : bool) : Z :=
  let '(seek, rotation) := TimeToSeek now d newSector in
  let timeAfter := wrap32 (now + seek + rotation) in
  if negb writing && bool_decide (seek = 0) &&
     bool_decide (ModuloDiff newSector (Z.quot (bufferInit d) RotationTime) <
                  Z.quot (wrap32 (timeAfter - bufferInit d)) RotationTime)
  then RotationTime
  else
    let rotation := rotation + ModuloDiff newSector (Z.quot timeAfter RotationTime) * RotationTime in
    wrap32 (seek + rotation + RotationTime).

Definition UpdateLast (now newSector : Z) (d : disk) : disk :=
  let '(seek, rotate) := TimeToSeek now d newSector in
  mkDisk (file d) (active d) newSector
    (if bool_decide (seek = 0) then bufferInit d else wrap32 (now + seek + rotate)).

(** A kernel whose state has a disk. *)
Class HasDisk (D : Type) := {
  disk_of : D -> disk;
  put_disk : disk -> D -> D;
  disk_put : forall d x, disk_of (put_disk d x) = d;
  put_put : forall d e x, put_disk d (put_disk e x) = put_disk d x
}.

Section requests.
Context {C D : Type} `{EqDecision C} `{HasDisk D} (this : C).
Local Abbreviation kernel := (@kernel C D).

Definition the_disk (k : kernel) : disk := disk_of (dev k).
Definition set_the_disk (d : disk) (k : kernel) : kernel := set_dev (put_disk d (dev k)) k.

Definition count_reads (s : Statistics) : Statistics :=
  mkStats (totalTicks s) (idleTicks s) (systemTicks s) (userTicks s) (numDiskReads s + 1) (numDiskWrites s)
    (numConsoleCharsRead s) (numConsoleCharsWritten s) (numPageFaults s) (numPacketsSent s) (numPacketsRecvd s).
Definition count_writes (s : Statistics) : Statistics :=
  mkStats (totalTicks s) (idleTicks s) (systemTicks s) (userTicks s) (numDiskReads s) (numDiskWrites s + 1)
    (numConsoleCharsRead s) (numConsoleCharsWritten s) (numPageFaults s) (numPacketsSent s) (numPacketsRecvd s).

Definition ReadRequest (sectorNumber : Z) (k : kernel) : result (list byte * kernel) :=
  let d := the_disk k in
  let ticks := ComputeLatency (now k) d sectorNumber false in
  assert (negb (active d)) ;;
  assert (bool_decide (0 <= sectorNumber < NumSectors)) ;;
  data <- ReadAt (file d) (SectorSize * sectorNumber + MagicSize) SectorSize ;;
  let k := set_the_disk (UpdateLast (now k) sectorNumber (set_active true d)) k in
  k <- Schedule this ticks DiskInt (set_stats (count_reads (stats k)) k) ;;
  Ok (data, k).

(** [data] points to [SectorSize] bytes. *)
Definition WriteRequest (sectorNumber : Z) (data : list byte) (k : kernel) : result kernel :=
  let d := the_disk k in
  let ticks := ComputeLatency (now k) d sectorNumber true in
  assert (negb (active d)) ;;
  assert (bool_decide (0 <= sectorNumber < NumSectors)) ;;
  f <- WriteAt (file d) (SectorSize * sectorNumber + MagicSize) (take (Z.to_nat SectorSize) data) ;;
  let k := set_the_disk (UpdateLast (now k) sectorNumber (set_active true (set_file f d))) k in
  Schedule this ticks DiskInt (set_stats (count_writes (stats k)) k).

(** [callWhenDone] is an argument. *)
Definition CallBack (callWhenDone : kernel -> result kernel) (k : kernel) : result kernel :=
  callWhenDone (set_the_disk (set_active false (the_disk k)) k).
End requests.

(** ** Well-formed disks *)

Definition sector (f : list byte) (n : Z) : list byte :=
  take (Z.to_nat SectorSize) (drop (Z.to_nat (SectorSize * n + MagicSize)) f).

Definition valid (n : Z) : Prop := 0 <= n < NumSectors.

(** The head's track buffer began filling at a sector boundary. *)
Record disk_wf (d : disk) : Prop := {
  wf_file : Z.of_nat (length (file d)) = DiskSize;
  wf_magic : wrap32 (le_val (take 4 (file d))) = MagicNumber;
  wf_last : valid (lastSector d);
  wf_buffer : 0 <= bufferInit d < 2 ^ 31 /\ bufferInit d mod RotationTime = 0
}.

(** ** The host's file *)

Lemma ReadAt_ok f pos n :
  0 <= pos -> 0 <= n -> pos + n <= Z.of_nat (length f) ->
  ReadAt f pos n = Ok (take (Z.to_nat n) (drop (Z.to_nat pos) f)).
Proof.
  intros Hp Hn Hl. unfold ReadAt. rewrite bool_decide_eq_true_2 by done. cbn [assert bind].
  rewrite bool_decide_eq_true_2; [done|]. rewrite length_take, length_drop. lia.
Qed.

Lemma WriteAt_inside f pos bs :
  0 <= pos -> pos + Z.of_nat (length bs) <= Z.of_nat (length f) ->
  WriteAt f pos bs = Ok (take (Z.to_nat pos) f ++ bs ++ drop (Z.to_nat pos + length bs) f).
Proof.
  intros Hp Hl. unfold WriteAt. rewrite bool_decide_eq_true_2 by done. cbn [assert bind].
  replace (Z.to_nat pos - length f)%nat with O by lia. simpl. by rewrite app_nil_r.
Qed.

(** Replacing bytes [i .. i + length bs) of a list. *)
Definition splice {A} (i : nat) (bs l : list A) : list A := take i l ++ bs ++ drop (i + length bs) l.

Lemma splice_length {A} i (bs l : list A) : (i + length bs <= length l)%nat -> length (splice i bs l) = length l.
Proof. intros H. unfold splice. rewrite !length_app, length_take, length_drop. lia. Qed.

Lemma splice_same {A} i (bs l : list A) :
  (i + length bs <= length l)%nat -> take (length bs) (drop i (splice i bs l)) = bs.
Proof.
  intros H. unfold splice. rewrite drop_app_length' by (rewrite length_take; lia). by rewrite take_app_length.
Qed.

Lemma splice_other {A} i j n (bs l : list A) :
  (i + length bs <= length l)%nat -> (j + n <= i \/ i + length bs <= j)%nat ->
  take n (drop j (splice i bs l)) = take n (drop j l).
Proof.
  intros H Hj. apply list_eq. intros x. destruct (decide (x < n)%nat) as [Hx|Hx].
  - rewrite !lookup_take_lt, !lookup_drop by done. unfold splice. destruct Hj as [Hj|Hj].
    + rewrite lookup_app_l by (rewrite length_take; lia). by rewrite lookup_take_lt by lia.
    + rewrite lookup_app_r by (rewrite length_take; lia). rewrite length_take.
      rewrite lookup_app_r by lia. rewrite lookup_drop. f_equal. lia.
  - by rewrite !lookup_take_ge by lia.
Qed.

Lemma splice_lookup {A} i (bs l : list A) j :
  (i + length bs <= length l)%nat ->
  splice i bs l !! j = if decide (i <= j < i + length bs)%nat then bs !! (j - i)%nat else l !! j.
Proof.
  intros H. unfold splice. destruct (decide (j < i)%nat) as [Hj|Hj].
  - rewrite lookup_app_l by (rewrite length_take; lia). rewrite lookup_take_lt by done. rewrite decide_False by lia. done.
  - rewrite lookup_app_r by (rewrite length_take; lia). rewrite length_take, Nat.min_l by lia. case_decide as E.
    + by rewrite lookup_app_l by lia.
    + rewrite lookup_app_r by lia. rewrite lookup_drop. f_equal. lia.
Qed.

Lemma sector_bounds n : valid n -> MagicSize <= SectorSize * n + MagicSize /\ SectorSize * n + MagicSize + SectorSize <= DiskSize.
Proof. unfold valid, NumSectors, DiskSize, SectorSize, MagicSize, NumSectors, SectorsPerTrack, NumTracks. lia. Qed.

Definition put_sector (n : Z) (data f : list byte) : list byte :=
  splice (Z.to_nat (SectorSize * n + MagicSize)) data f.

Lemma put_sector_wf d n data :
  disk_wf d -> valid n -> Z.of_nat (length data) = SectorSize -> disk_wf (set_file (put_sector n data (file d)) d).
Proof.
  intros [H1 H2 H3 H4] Hn Hd. pose proof (sector_bounds n Hn) as [Hlo Hhi].
  unfold put_sector. set (p := SectorSize * n + MagicSize) in *. change MagicSize with 4 in Hlo. clearbody p.
  split; simpl; try done.
  - rewrite splice_length; [done|]. lia.
  - rewrite <- H2. do 2 f_equal. pose proof (splice_other (Z.to_nat p) 0 4 data (file d)) as Hso. rewrite !drop_0 in Hso. apply Hso; lia.
Qed.

Lemma sector_put f n m data :
  Z.of_nat (length f) = DiskSize -> valid n -> valid m -> Z.of_nat (length data) = SectorSize ->
  sector (put_sector n data f) m = if decide (m = n) then data else sector f m.
Proof.
  intros Hf Hn Hm Hd. pose proof (sector_bounds n Hn) as [Hnl Hnh]. pose proof (sector_bounds m Hm) as [Hml Hmh].
  unfold sector, put_sector. change MagicSize with 4 in *. change SectorSize with 128 in *. case_decide as E.
  - subst m. replace (Z.to_nat 128) with (length data) by lia. apply splice_same. lia.
  - apply splice_other; lia.
Qed.

(** ** The geometry *)

Definition track (n : Z) : Z := n / SectorsPerTrack.
Definition seek_time (d : disk) (n : Z) : Z := Z.abs (track n - track (lastSector d)) * SeekTime.

(** The first sector boundary at or after [t]. *)
Definition boundary (t : Z) : Z := (t + (RotationTime - 1)) / RotationTime * RotationTime.

(** At time [t] sector [n] of a track begins to pass under the head. *)
Definition at_head (n t : Z) : Prop := exists j, t = j * RotationTime /\ j mod SectorsPerTrack = n mod SectorsPerTrack.

(** Sector [n] of the current track has passed completely under the head, since
    the track buffer began to be filled, by the first boundary after [t]. *)
Definition buffered (d : disk) (n t : Z) : Prop :=
  exists s, at_head n s /\ bufferInit d <= s /\ s + RotationTime <= boundary t.

Lemma seek_time_range d n : disk_wf d -> valid n -> 0 <= seek_time d n <= (NumTracks - 1) * SeekTime.
Proof.
  intros [_ _ Hl _] Hn. unfold valid, seek_time, track, NumSectors, NumTracks, SectorsPerTrack, SeekTime in *. dlia.
Qed.

Lemma boundary_spec t : t <= boundary t < t + RotationTime /\ boundary t = boundary t / RotationTime * RotationTime.
Proof. unfold boundary, RotationTime. dlia. Qed.

Lemma TimeToSeek_eq t d n :
  disk_wf d -> valid n -> 0 <= t < horizon ->
  TimeToSeek t d n = (seek_time d n, boundary (t + seek_time d n) - (t + seek_time d n)).
Proof.
  intros Hd Hn Ht. pose proof (seek_time_range d n Hd Hn) as Hs. unfold TimeToSeek.
  assert (Hq : Z.quot n SectorsPerTrack = track n /\ Z.quot (lastSector d) SectorsPerTrack = track (lastSector d)).
  { pose proof (wf_last _ Hd) as Hl. unfold valid, track in *. split; apply Z.quot_div_nonneg; lia || done. }
  destruct Hq as [-> ->]. fold (seek_time d n). unfold horizon, NumTracks, SeekTime in *.
  rewrite (wrap32_small (seek_time d n)) by (unfold int_range; lia).
  rewrite (wrap32_small (t + seek_time d n)) by (unfold int_range; lia).
  rewrite Z.rem_mod_nonneg by (unfold RotationTime; lia). f_equal.
  generalize (t + seek_time d n). intros u. unfold boundary, RotationTime. case_bool_decide; dlia.
Qed.

Lemma ModuloDiff_eq a b : 0 <= a -> 0 <= b -> ModuloDiff a b = (a - b) mod SectorsPerTrack.
Proof.
  intros Ha Hb. unfold ModuloDiff, SectorsPerTrack. rewrite (Z.rem_mod_nonneg a), (Z.rem_mod_nonneg b) by lia.
  rewrite Z.rem_mod_nonneg by dlia. dlia.
Qed.

(** The head is first over [n] after a boundary [q * RotationTime] when the
    remaining sectors of the track have passed. *)
Lemma at_head_next n q :
  at_head n ((q + (n - q) mod SectorsPerTrack) * RotationTime) /\
  forall t, q * RotationTime <= t -> at_head n t -> (q + (n - q) mod SectorsPerTrack) * RotationTime <= t.
Proof.
  unfold at_head. split.
  - eexists. split; [done|]. rewrite Zplus_mod_idemp_r. f_equal. lia.
  - intros t Ht (j & -> & Hj). unfold RotationTime, SectorsPerTrack in *. dlia.
Qed.

Lemma ComputeLatency_cases t d n w :
  disk_wf d -> valid n -> 0 <= t < horizon ->
  (w = false /\ track n = track (lastSector d) /\ buffered d n t) /\ ComputeLatency t d n w = RotationTime \/
  ~ (w = false /\ track n = track (lastSector d) /\ buffered d n t) /\
  (exists s, ComputeLatency t d n w = s + RotationTime - t /\ at_head n s /\ t + seek_time d n <= s /\
     forall s', t + seek_time d n <= s' -> at_head n s' -> s <= s').
Proof.
  intros Hd Hn Ht. unfold ComputeLatency. rewrite TimeToSeek_eq by done.
  pose proof (seek_time_range d n Hd Hn) as Hs. destruct (boundary_spec (t + seek_time d n)) as [Hb Hbq].
  destruct (wf_buffer _ Hd) as [Hbi Hbm]. set (sk := seek_time d n) in *.
  assert (Hsk0 : sk = 0 <-> track n = track (lastSector d)) by (unfold sk, seek_time, SeekTime; lia).
  replace (t + sk + (boundary (t + sk) - (t + sk))) with (boundary (t + sk)) by lia.
  set (B := boundary (t + sk)) in *. set (q := B / RotationTime) in *.
  assert (Hsmall : 0 <= B < 2 ^ 31) by (unfold horizon, NumTracks, SeekTime, RotationTime in *; lia).
  rewrite (wrap32_small B) by (unfold int_range; lia).
  assert (Hq0 : 0 <= q) by (unfold q; apply Z.div_pos; [lia|done]).
  rewrite (Z.quot_div_nonneg B) by (lia || done). fold q.
  pose proof (wf_last _ Hd) as _. unfold valid in Hn.
  assert (Hbuf : bufferInit d = bufferInit d / RotationTime * RotationTime) by (unfold RotationTime in *; dlia).
  set (b := bufferInit d / RotationTime) in *.
  assert (Hb0 : 0 <= b) by (unfold b; apply Z.div_pos; [lia|done]).
  assert (Hquot : Z.quot (bufferInit d) RotationTime = b) by (apply Z.quot_div_nonneg; lia || done).
  rewrite Hquot, !ModuloDiff_eq by lia.
  assert (Hdiff : Z.quot (wrap32 (B - bufferInit d)) RotationTime = q - b).
  { rewrite wrap32_small by (unfold int_range; lia). rewrite Hbuf, Hbq, <- Z.mul_sub_distr_r. by apply Z.quot_mul. }
  rewrite Hdiff.
  assert (Hbuffered : sk = 0 -> buffered d n t <-> (n - b) mod SectorsPerTrack < q - b).
  { intros H0. unfold buffered. assert (HB : boundary t = q * RotationTime) by (rewrite <- Hbq; unfold B; f_equal; lia).
    rewrite HB. destruct (at_head_next n b) as [Hat Hmin]. rewrite <- Hbuf in Hmin. split.
    - intros (s & Hs1 & Hs2 & Hs3). specialize (Hmin s Hs2 Hs1). unfold RotationTime in *. lia.
    - intros Hlt. eexists. split; [exact Hat|]. pose proof (Z.mod_pos_bound (n - b) SectorsPerTrack ltac:(done)).
      rewrite Hbuf. unfold RotationTime. lia. }
  destruct (negb w && bool_decide (sk = 0) && bool_decide ((n - b) mod SectorsPerTrack < q - b)) eqn:Hcond.
  - left. rewrite !andb_true_iff, !bool_decide_eq_true, negb_true_iff in Hcond. destruct Hcond as [[-> H0] H1].
    split; [|done]. split; [done|]. split; [by apply Hsk0|by apply Hbuffered].
  - right. split.
    { intros (-> & Htr & Hbd). apply Hsk0 in Htr. rewrite (bool_decide_eq_true_2 (sk = 0)) in Hcond by done.
      by rewrite bool_decide_eq_true_2 in Hcond by (by apply Hbuffered). }
    destruct (at_head_next n q) as [Hat Hmin]. rewrite <- Hbq in Hmin.
    pose proof (Z.mod_pos_bound (n - q) SectorsPerTrack ltac:(done)) as Hm.
    eexists. split; [|split; [exact Hat|]].
    + rewrite wrap32_small; unfold int_range, horizon, RotationTime, SectorsPerTrack, NumTracks, SeekTime in *; lia.
    + split; [unfold RotationTime in *; lia|]. intros s' Hs' Hat'. apply Hmin; [|done].
      destruct Hat' as (j & -> & _). unfold RotationTime in *. lia.
Qed.

Lemma ComputeLatency_bounds t d n w :
  disk_wf d -> valid n -> 0 <= t < horizon ->
  RotationTime <= ComputeLatency t d n w < (NumTracks - 1) * SeekTime + (SectorsPerTrack + 1) * RotationTime.
Proof.
  intros Hd Hn Ht. pose proof (seek_time_range d n Hd Hn) as Hs.
  destruct (ComputeLatency_cases t d n w Hd Hn Ht) as [[_ ->] | [_ (s & -> & _ & Hle & Hmin)]]; [unfold NumTracks, SeekTime, SectorsPerTrack, RotationTime; lia|].
  destruct (boundary_spec (t + seek_time d n)) as [Hb Hbq].
  destruct (at_head_next n (boundary (t + seek_time d n) / RotationTime)) as [Hat Hmin']. rewrite Z.mul_add_distr_r, <- Hbq in Hat.
  pose proof (Z.mod_pos_bound (n - boundary (t + seek_time d n) / RotationTime) SectorsPerTrack ltac:(done)) as Hm.
  pose proof (fun H => Hmin _ H Hat) as Hfirst. unfold RotationTime, SectorsPerTrack, NumTracks, SeekTime in *.
  specialize (Hfirst ltac:(lia)). lia.
Qed.

Lemma UpdateLast_wf t n d :
  disk_wf d -> valid n -> 0 <= t < horizon ->
  disk_wf (UpdateLast t n d) /\ file (UpdateLast t n d) = file d /\ active (UpdateLast t n d) = active d /\
  lastSector (UpdateLast t n d) = n.
Proof.
  intros Hd Hn Ht. unfold UpdateLast. rewrite TimeToSeek_eq by done.
  pose proof (seek_time_range d n Hd Hn) as Hs. destruct (boundary_spec (t + seek_time d n)) as [Hb Hbq].
  destruct Hd as [H1 H2 H3 H4]. split; [|done]. split; simpl; try done. case_bool_decide; [done|].
  replace (t + seek_time d n + (boundary (t + seek_time d n) - (t + seek_time d n))) with (boundary (t + seek_time d n)) by lia.
  unfold horizon, NumTracks, SeekTime, RotationTime in *.
  rewrite wrap32_small by (unfold int_range; lia). split; [lia|]. rewrite Hbq. by apply Z.mod_mul.
Qed.

Section request_lemmas.
Context {C D : Type} `{EqDecision C} `{HasDisk D} (this : C).
Local Abbreviation kernel := (@kernel C D).

(** The state in which a request for sector [n], issued in [k], is in progress. *)
Record started (n ticks : Z) (f : list byte) (k k' : kernel) : Prop := {
  st_wf : wf k';
  st_same : handled k k';
  st_disk : disk_wf (the_disk k');
  st_file : file (the_disk k') = f;
  st_active : active (the_disk k') = true;
  st_last : lastSector (the_disk k') = n;
  st_dev : exists d, dev k' = put_disk d (dev k);
  st_rest : inHandler k' = inHandler k /\ machine k' = machine k /\ yieldOnReturn k' = yieldOnReturn k;
  st_pending : pending k' = Seq.place PendingCompare (mkPending (allocated k) this (now k + ticks) DiskInt) (pending k)
}.

Lemma start_ok n ticks d s k :
  wf k -> 0 <= now k < horizon -> disk_wf d -> valid n -> active d = true -> 0 < ticks < horizon ->
  totalTicks s = now k -> idleTicks s = idleTicks (stats k) -> systemTicks s = systemTicks (stats k) ->
  userTicks s = userTicks (stats k) ->
  exists k', Schedule this ticks DiskInt (set_stats s (set_the_disk (UpdateLast (now k) n d) k)) = Ok k' /\
    started n ticks (file d) k k'.
Proof.
  intros Hw Hn Hd Hv Ha Ht H1 H2 H3 H4. set (k0 := set_stats _ _).
  assert (Hn0 : now k0 = now k) by exact H1.
  assert (Hw0 : wf k0).
  { destruct Hw as [W1 W2 W3 W4 W5 W6]. split; try done.
    - unfold k0. simpl. by rewrite H2, H3, H4.
    - unfold k0, now in *. simpl. rewrite H1, H2, H3, H4. done. }
  destruct (Schedule_ok k0 this ticks DiskInt Hw0) as (k' & Hk' & Hw' & Hh & Hd' & Hi' & Hm' & Hy' & Hp'); [lia|lia|].
  exists k'. split; [exact Hk'|]. destruct (UpdateLast_wf (now k) n d Hd Hv Hn) as (U1 & U2 & U3 & U4).
  assert (Hdisk : the_disk k' = UpdateLast (now k) n d) by (unfold the_disk; rewrite Hd'; apply disk_put).
  split; rewrite ?Hdisk; try done.
  - destruct Hh as [(T1 & T2 & T3 & T4) L1 L2 L3 L4 L5]. split; [|done|done|done| |done].
    + rewrite T1, T2, T3, T4. simpl. by rewrite Hn0, H2, H3, H4.
    + rewrite L4. unfold due. rewrite Hn0. done.
  - rewrite Hd'. by eexists.
  - by rewrite Hp', Hn0.
Qed.

Lemma ReadRequest_ok n k :
  wf k -> 0 <= now k < horizon -> disk_wf (the_disk k) -> active (the_disk k) = false -> valid n ->
  exists k', ReadRequest this n k = Ok (sector (file (the_disk k)) n, k') /\
    started n (ComputeLatency (now k) (the_disk k) n false) (file (the_disk k)) k k'.
Proof.
  intros Hw Hn Hd Ha Hv. unfold ReadRequest. rewrite Ha, (bool_decide_eq_true_2 (0 <= n < NumSectors)) by done.
  cbn [negb assert bind]. destruct (sector_bounds n Hv) as [Hlo Hhi]. pose proof (wf_file _ Hd) as Hf.
  rewrite ReadAt_ok by (rewrite ?Hf; change MagicSize with 4 in *; change SectorSize with 128 in *; lia). cbn [bind].
  pose proof (ComputeLatency_bounds (now k) (the_disk k) n false Hd Hv Hn) as Hb.
  destruct (start_ok n (ComputeLatency (now k) (the_disk k) n false) (set_active true (the_disk k)) (count_reads (stats k)) k)
    as (k' & Hk' & Hst); try done.
  { by destruct Hd. }
  { unfold RotationTime, NumTracks, SeekTime, SectorsPerTrack, horizon in *. lia. }
  exists k'. split; [|exact Hst]. unfold set_the_disk in Hk'. change (stats (set_the_disk _ k)) with (stats k). unfold set_the_disk.
  rewrite Hk'. done.
Qed.

Lemma WriteRequest_ok n data k :
  wf k -> 0 <= now k < horizon -> disk_wf (the_disk k) -> active (the_disk k) = false -> valid n ->
  Z.of_nat (length data) = SectorSize ->
  exists k', WriteRequest this n data k = Ok k' /\
    started n (ComputeLatency (now k) (the_disk k) n true) (put_sector n data (file (the_disk k))) k k'.
Proof.
  intros Hw Hn Hd Ha Hv Hdata. unfold WriteRequest. rewrite Ha, (bool_decide_eq_true_2 (0 <= n < NumSectors)) by done.
  cbn [negb assert bind]. destruct (sector_bounds n Hv) as [Hlo Hhi]. pose proof (wf_file _ Hd) as Hf.
  rewrite (take_ge data) by lia.
  rewrite WriteAt_inside by (rewrite ?Hf, ?Hdata; change MagicSize with 4 in *; change SectorSize with 128 in *; lia). cbn [bind].
  change (take _ (file (the_disk k)) ++ data ++ _) with (put_sector n data (file (the_disk k))).
  pose proof (ComputeLatency_bounds (now k) (the_disk k) n true Hd Hv Hn) as Hb.
  pose proof (put_sector_wf _ n data Hd Hv Hdata) as Hpd.
  destruct (start_ok n (ComputeLatency (now k) (the_disk k) n true) (set_active true (set_file (put_sector n data (file (the_disk k))) (the_disk k)))
    (count_writes (stats k)) k) as (k' & Hk' & Hst); try done.
  { by destruct Hpd. }
  { unfold RotationTime, NumTracks, SeekTime, SectorsPerTrack, horizon in *. lia. }
  exists k'. split; [exact Hk'|exact Hst].
Qed.
End request_lemmas.

(** ** Creation *)

Lemma WriteAt_past f pos bs :
  Z.of_nat (length f) <= pos -> WriteAt f pos bs = Ok (f ++ replicate (Z.to_nat pos - length f) x00 ++ bs).
Proof.
  intros Hp. unfold WriteAt. rewrite bool_decide_eq_true_2 by lia. cbn [assert bind]. f_equal.
  rewrite take_ge by (rewrite length_app, length_replicate; lia). rewrite (drop_ge f) by lia.
  by rewrite app_nil_r, <- app_assoc.
Qed.

Definition blank (n : nat) : list byte := le_bytes 4 MagicNumber ++ replicate n x00.

Lemma Disk_new n :
  Z.of_nat n = NumSectors * SectorSize -> Disk None = Ok (mkDisk (blank n) false 0 0).
Proof.
  intros Hn. unfold Disk. rewrite (WriteAt_past []) by done. cbn [bind]. rewrite WriteAt_past.
  - cbn [bind]. f_equal. f_equal. change (le_bytes 4 0) with (replicate 4 x00). unfold DiskSize. rewrite <- Hn. change MagicSize with 4.
    unfold blank. cbn [app Nat.sub length]. rewrite Nat.sub_diag. cbn [replicate app]. f_equal.
    rewrite length_le_bytes. change ([x00; x00; x00; x00]) with (replicate 4 x00). rewrite <- replicate_add. f_equal.
    unfold NumSectors, SectorSize, SectorsPerTrack, NumTracks in Hn. lia.
  - unfold DiskSize. rewrite <- Hn. change MagicSize with 4. cbn [app Nat.sub length]. rewrite Nat.sub_diag. cbn [replicate app]. rewrite ?app_nil_r.
    rewrite length_le_bytes. unfold NumSectors, SectorSize, SectorsPerTrack, NumTracks in Hn. lia.
Qed.

Lemma blank_wf n : Z.of_nat n = NumSectors * SectorSize -> disk_wf (mkDisk (blank n) false 0 0).
Proof.
  intros Hn. split; cbn [file lastSector bufferInit]; try done.
  unfold blank, DiskSize. rewrite length_app, length_le_bytes, length_replicate, Nat2Z.inj_add, Hn. done.
Qed.

Lemma blank_sector n i :
  Z.of_nat n = NumSectors * SectorSize -> valid i -> sector (blank n) i = replicate (Z.to_nat SectorSize) x00.
Proof.
  intros Hn Hi. destruct (sector_bounds i Hi) as [Hlo Hhi]. unfold sector, blank. unfold DiskSize in Hhi. rewrite <- Hn in Hhi.
  rewrite drop_app_ge by (rewrite length_le_bytes; change MagicSize with 4 in *; lia).
  rewrite drop_replicate, take_replicate. f_equal. rewrite length_le_bytes. change MagicSize with 4 in *. lia.
Qed.

Definition blank_disk : disk := mkDisk (blank (Z.to_nat (NumSectors * SectorSize))) false 0 0.

Lemma blank_disk_wf : disk_wf blank_disk.
Proof. apply blank_wf. by rewrite Z2Nat.id. Qed.

Lemma Disk_existing d :
  disk_wf d -> exists d', Disk (Some (file d)) = Ok d' /\ disk_wf d' /\ active d' = false /\ file d' = file d.
Proof.
  intros Hd. pose proof (wf_file _ Hd) as Hf. pose proof (wf_magic _ Hd) as Hm. unfold Disk.
  rewrite ReadAt_ok; [|done|done|rewrite Hf; by vm_compute]. cbn [bind]. rewrite drop_0.
  rewrite bool_decide_eq_true_2 by exact Hm. cbn [assert bind]. eexists. split; [done|]. by split.
Qed.

(** ** Properties *)

(** C34: [ComputeLatency] is the time a disk of this geometry takes.  A read of a sector that passed completely
    under the head since the track buffer began to fill costs one sector time; any other request completes one
    sector time after the earliest instant, once the seek is over, at which the wanted sector begins to pass
    under the head; every request takes between one sector time and a full seek plus a full turn. *)
Theorem ComputeLatency_earliest t d n w :
  disk_wf d -> valid n -> 0 <= t < horizon ->
  (w = false -> track n = track (lastSector d) -> buffered d n t -> ComputeLatency t d n w = RotationTime) /\
  (~ (w = false /\ track n = track (lastSector d) /\ buffered d n t) ->
   exists s, ComputeLatency t d n w = s + RotationTime - t /\ at_head n s /\ t + seek_time d n <= s /\
     forall s', t + seek_time d n <= s' -> at_head n s' -> s <= s') /\
  RotationTime <= ComputeLatency t d n w < (NumTracks - 1) * SeekTime + (SectorsPerTrack + 1) * RotationTime.
Proof.
  intros Hd Hn Ht. split_and!.
  - intros Hw Htr Hb. destruct (ComputeLatency_cases t d n w Hd Hn Ht) as [[_ H] | [H _]]; tauto.
  - intros Hno. destruct (ComputeLatency_cases t d n w Hd Hn Ht) as [[H _] | [_ H]]; tauto.
  - by apply ComputeLatency_bounds.
  - by apply ComputeLatency_bounds.
Qed.

(** The disk survives a restart.  Without a file the constructor creates a disk whose sectors are all zero;
    with the file of a well-formed disk it comes up with the same sectors, whatever was written to them; a file
    that does not begin with the magic number stops the kernel. *)
Theorem Disk_reopens :
  (exists d, Disk None = Ok d /\ disk_wf d /\ active d = false /\
     forall n, valid n -> sector (file d) n = replicate (Z.to_nat SectorSize) x00) /\
  (forall d, disk_wf d -> exists d', Disk (Some (file d)) = Ok d' /\ disk_wf d' /\ active d' = false /\ file d' = file d) /\
  (forall f, (4 <= length f)%nat -> wrap32 (le_val (take 4 f)) <> MagicNumber -> Disk (Some f) = Fault AssertFailed).
Proof.
  split_and!.
  - eexists. split; [by apply (Disk_new (Z.to_nat (NumSectors * SectorSize))); rewrite Z2Nat.id|].
    split; [apply blank_wf; by rewrite Z2Nat.id|]. split; [done|]. intros n Hn. apply blank_sector; [by rewrite Z2Nat.id|done].
  - apply Disk_existing.
  - intros f Hl Hm. unfold Disk. rewrite ReadAt_ok; [|done|done|change MagicSize with 4; lia]. cbn [bind]. rewrite drop_0.
    by rewrite bool_decide_eq_false_2.
Qed.

(** Sector 70 is sector 6 of track 2: from track 0 at time 10 the seek ends at 1010 and sector 6 first begins to
    pass under the head at 3000. *)
Lemma ComputeLatency_earliest_witness :
  valid 70 /\
  (false = false -> track 70 = track (lastSector blank_disk) -> buffered blank_disk 70 10 ->
     ComputeLatency 10 blank_disk 70 false = RotationTime) /\
  (~ (false = false /\ track 70 = track (lastSector blank_disk) /\ buffered blank_disk 70 10) ->
   exists s, ComputeLatency 10 blank_disk 70 false = s + RotationTime - 10 /\ at_head 70 s /\
     10 + seek_time blank_disk 70 <= s /\ forall s', 10 + seek_time blank_disk 70 <= s' -> at_head 70 s' -> s <= s') /\
  RotationTime <= ComputeLatency 10 blank_disk 70 false < (NumTracks - 1) * SeekTime + (SectorsPerTrack + 1) * RotationTime.
Proof.
  assert (Hv : valid 70) by (split; [lia|vm_compute; done]). split; [exact Hv|].
  apply (ComputeLatency_earliest 10 blank_disk 70 false); [apply blank_disk_wf|exact Hv|unfold horizon; lia].
Defined.

End Disk.
