(* ===== verification/SynchDisk.v ===== *)
(** * filesys/synchdisk.{h,cc}: synchronous access to the disk

    A request holds the lock, starts the disk and sleeps on a semaphore that the
    disk's interrupt handler signals.  The model is the whole path of one thread
    through threads/synch.cc, the idle loop of [Thread::Sleep], [Interrupt::Idle],
    the interrupt and the handler, on a kernel whose state is the disk of Disk.v
    and the scheduler of Threads.v. *)

From Stdlib Require Import Strings.Byte.
From S2P Require Import Prelude LibList Machine Interrupt Threads Disk.

Module SynchDisk.
Import Interrupt Disk.
#[local] Existing Instance Threads.sem_id_eq_dec.

(** The one object with a [CallBack]. *)
Inductive device := TheDisk.
#[export] Instance device_eq_dec : EqDecision device.
Proof. solve_decision. Defined.

Record devices := mkDevices { disk_state : disk; sync : Threads.sys }.

#[export, refine] Instance devices_disk : HasDisk devices := {
  disk_of := disk_state;
  put_disk d x := mkDevices d (sync x)
}.
Proof. all: done. Defined.

Abbreviation kernel := (@kernel device devices).

Definition set_sync (s : Threads.sys) (k : kernel) : kernel := set_dev (mkDevices (disk_state (dev k)) s) k.

(** The semaphore and the lock of the [SynchDisk]. *)
Definition semaphore : Threads.sem_id := Threads.User 0.
Definition lock : nat := 0%nat.

(** A call on the scheduler or a semaphore, interrupts being off. *)
Definition on_sync (f : Threads.sys -> result Threads.sys) (k : kernel) : result kernel :=
  s <- f (sync (dev k)) ;; Ok (set_sync s k).

(** [semaphore->V()] from the handler: interrupts are off already, so that its
    two [SetLevel]s change nothing ([SetLevel_off] below). *)
Definition SynchDisk_CallBack : kernel -> result kernel := on_sync (Threads.V semaphore).

Definition handler (c : device) : kernel -> result kernel := CallBack SynchDisk_CallBack.

Definition Yield : kernel -> result kernel := on_sync Threads.Yield.

(** Where a call that may sleep ends: it returns, or the machine halts for lack
    of anything to do, or the processor goes to another thread. *)
Inductive outcome (A : Type) :=
  | Returned (a : A)
  | Halted
  | Elsewhere (k : kernel).
Arguments Returned {A} a.
Arguments Halted {A}.
Arguments Elsewhere {A} k.

Definition andthen {A B} (m : result (outcome A)) (f : A -> result (outcome B)) : result (outcome B) :=
  r <- m ;; match r with Returned a => f a | Halted => Ok Halted | Elsewhere k => Ok (Elsewhere k) end.

(** The loop of [Sleep], entered with [sleeping]; at most [n] interrupts. *)
Fixpoint wait_ready (n : nat) (k : kernel) : result (outcome kernel) :=
  match Threads.sleeping (sync (dev k)) with
  | None => Ok (Returned k)
  | Some finishing =>
      match n with
      | O => Fault OutOfFuel
      | S n =>
          r <- Idle handler k ;;
          match r with
          | None => Ok Halted
          | Some k => k <- on_sync (Threads.Dispatch finishing) k ;; wait_ready n k
          end
      end
  end.

(** The loop of [P], at most [n] tests of the value. *)
Fixpoint P_loop (n : nat) (i : Threads.sem_id) (k : kernel) : result (outcome kernel) :=
  match n with
  | O => Fault OutOfFuel
  | S n =>
      let me := Threads.currentThread (sync (dev k)) in
      '(b, s) <- Threads.P i (sync (dev k)) ;;
      let k := set_sync s k in
      if b then Ok (Returned k)
      else andthen (wait_ready n k) (fun k =>
             if bool_decide (Threads.currentThread (sync (dev k)) = me) then P_loop n i k else Ok (Elsewhere k))
  end.

Definition P (n : nat) (i : Threads.sem_id) (k : kernel) : result (outcome kernel) :=
  '(oldLevel, k) <- SetLevel handler Yield IntOff k ;;
  andthen (P_loop n i k) (fun k => '(_, k) <- SetLevel handler Yield oldLevel k ;; Ok (Returned k)).

Definition V (i : Threads.sem_id) (k : kernel) : result kernel :=
  '(oldLevel, k) <- SetLevel handler Yield IntOff k ;;
  k <- on_sync (Threads.V i) k ;;
  '(_, k) <- SetLevel handler Yield oldLevel k ;; Ok k.

Definition Acquire (n : nat) (k : kernel) : result (outcome kernel) :=
  andthen (P n (Threads.OfLock lock) k) (fun k =>
    Ok (Returned (set_sync (Threads.set_holder lock (Some (Threads.currentThread (sync (dev k)))) (sync (dev k))) k))).

Definition Release (k : kernel) : result kernel :=
  V (Threads.OfLock lock) (set_sync (Threads.set_holder lock None (sync (dev k))) k).

Definition ReadSector (n : nat) (sectorNumber : Z) (k : kernel) : result (outcome (list byte * kernel)) :=
  andthen (Acquire n k) (fun k =>
  '(data, k) <- ReadRequest TheDisk sectorNumber k ;;
  andthen (P n semaphore k) (fun k =>
  k <- Release k ;; Ok (Returned (data, k)))).

Definition WriteSector (n : nat) (sectorNumber : Z) (data : list byte) (k : kernel) : result (outcome kernel) :=
  andthen (Acquire n k) (fun k =>
  k <- WriteRequest TheDisk sectorNumber data k ;;
  andthen (P n semaphore k) (fun k =>
  k <- Release k ;; Ok (Returned k))).

(** [SynchDisk::SynchDisk()] on a kernel that has just booted, with the main
    thread current. *)
Definition SynchDisk (m : option Machine.machine) (existing : option (list byte)) : result kernel :=
  d <- Disk existing ;;
  Ok (set_level IntOn (Interrupt m (mkDevices d (Threads.initial (fun _ => 0) [])))).

(** ** Between two requests *)

(** No other thread is ready, nobody uses the disk, nothing is pending. *)
Record quiet (k : kernel) : Prop := {
  q_wf : wf k;
  q_level : level k = IntOn;
  q_handler : inHandler k = false;
  q_yield : yieldOnReturn k = false;
  q_status : status k = SystemMode;
  q_machine : machine_ok k;
  q_pending : pending k = [];
  q_disk : disk_wf (the_disk k);
  q_active : active (the_disk k) = false;
  q_sleeping : Threads.sleeping (sync (dev k)) = None;
  q_ready : Threads.readyList (sync (dev k)) = [];
  q_destroy : Threads.toBeDestroyed (sync (dev k)) = None;
  q_sem : Threads.sems (sync (dev k)) semaphore = Threads.mkSem 0 [];
  q_lock : Threads.sems (sync (dev k)) (Threads.OfLock lock) = Threads.mkSem 1 []
}.

(** ** The handler *)

(** No thread is both ready and waiting for the disk. *)
Definition apart (ps : list (@PendingInterrupt device)) (d : devices) : Prop :=
  NoDup (Threads.queue (Threads.sems (sync d) semaphore) ++ Threads.readyList (sync d)).

Lemma V_apart s :
  NoDup (Threads.queue (Threads.sems s semaphore) ++ Threads.readyList s) ->
  exists s', Threads.V semaphore s = Ok s' /\
    NoDup (Threads.queue (Threads.sems s' semaphore) ++ Threads.readyList s').
Proof.
  intros Hnd. unfold Threads.V. destruct (Threads.queue (Threads.sems s semaphore)) as [|t q] eqn:Hq.
  - cbn [bind]. eexists. split; [done|]. rewrite Threads.sems_set, decide_True by done. simpl. by rewrite Hq.
  - set (s1 := Threads.set_sem _ _ s). apply NoDup_cons in Hnd as [Hnt Hnd].
    rewrite (Threads.ReadyToRun_eq t s1) by (intros Hin; apply Hnt, elem_of_app; by right).
    cbn [bind]. eexists. split; [done|]. rewrite Threads.sems_set, decide_True by done.
    change (Threads.sems (Threads.set_ready _ _)) with (Threads.sems s1). unfold s1. rewrite Threads.sems_set, decide_True by done.
    cbn [Threads.queue]. change (Threads.readyList _) with (Threads.readyList s ++ [t]).
    rewrite app_assoc, (Permutation_app_comm _ [t]). by constructor.
Qed.

#[export] Instance SynchDisk_handlers : Handlers handler apart.
Proof.
  split. intros p ps k Hp Hw Hi Hh Hl Hle Hn. unfold handler, CallBack, SynchDisk_CallBack, on_sync.
  set (k1 := set_the_disk _ _). destruct (V_apart (sync (dev k1)) Hi) as (s' & -> & Hnd). cbn [bind].
  pose proof (pop_wf k p ps Hw Hp) as Hwp. eexists. split; [done|].
  split; [by apply (wf_ext (set_pending ps k))|]. split; [done|]. done.
Qed.

(** ** Interrupts around an operation *)

(** What the operations below leave alone. *)
Definition rest_same (k k' : kernel) : Prop :=
  inHandler k' = inHandler k /\ yieldOnReturn k' = yieldOnReturn k /\ status k' = status k /\ machine k' = machine k.

Lemma SetLevel_off k : SetLevel handler Yield IntOff k = Ok (level k, set_level IntOff k).
Proof. done. Qed.

Lemma SetLevel_on k :
  wf k -> level k = IntOff -> inHandler k = false -> yieldOnReturn k = false -> status k = SystemMode ->
  pending k = [] -> now k < horizon ->
  exists k', SetLevel handler Yield IntOn k = Ok (IntOff, k') /\ wf k' /\ level k' = IntOn /\ now k' = now k + SystemTick /\
    pending k' = [] /\ dev k' = dev k /\ rest_same k k'.
Proof.
  intros Hw Hl Hh Hy Hs Hp Hn. unfold SetLevel. rewrite Hh, Hl. cbn [negb orb bool_decide decide IntStatus_eq_dec assert bind andb].
  unfold OneTick, ChangeLevel. set (kt := set_level IntOff (tick (set_level IntOn k))).
  assert (Hw0 : wf (set_level IntOn k)) by by apply (wf_ext k).
  destruct (tick_wf _ Hw0 Hn) as [Hwt Hnt].
  assert (Hq : CheckIfDue handler false kt = Ok (false, kt)) by (apply CheckIfDue_quiet; [done|]; simpl; by rewrite Hp).
  rewrite orb_true_r. cbn [bind assert bool_decide decide]. rewrite !bool_decide_eq_true_2 by done. cbn [andb].
  rewrite Hq. cbn [bind]. change (yieldOnReturn (set_level IntOn kt)) with (yieldOnReturn k). rewrite Hy. cbn [bind].
  eexists. split; [done|]. split; [by apply (wf_ext (tick (set_level IntOn k)))|]. split; [done|].
  split; [|done]. change (now (set_level IntOn kt)) with (now (tick (set_level IntOn k))). rewrite Hnt.
  change (status (set_level IntOn k)) with (status k). by rewrite bool_decide_eq_true_2.
Qed.

(** A kernel nothing is about to happen in. *)
Record steady (l : IntStatus) (k : kernel) : Prop := {
  s_wf : wf k;
  s_level : level k = l;
  s_handler : inHandler k = false;
  s_yield : yieldOnReturn k = false;
  s_status : status k = SystemMode;
  s_machine : machine_ok k;
  s_pending : pending k = []
}.

Lemma steady_off k : steady IntOn k -> steady IntOff (set_level IntOff k).
Proof. intros []. split; try done. by apply (wf_ext k). Qed.

Lemma steady_sync l s k : steady l k -> steady l (set_sync s k).
Proof. intros []. split; try done. by apply (wf_ext k). Qed.

Lemma steady_on k : steady IntOff k -> now k < horizon ->
  exists k', SetLevel handler Yield IntOn k = Ok (IntOff, k') /\ steady IntOn k' /\ now k' = now k + SystemTick /\ dev k' = dev k.
Proof.
  intros [H1 H2 H3 H4 H5 H6 H7] Hn.
  destruct (SetLevel_on k) as (k' & Hk & Hw & Hl & Hn' & Hp & Hd & (R1 & R2 & R3 & R4)); try done.
  exists k'. split; [done|]. split; [|done]. split; try done; try congruence. unfold machine_ok. by rewrite R4.
Qed.

(** [P] of an available semaphore. *)
Lemma P_available n i k v q :
  steady IntOn k -> now k < horizon -> Threads.sems (sync (dev k)) i = Threads.mkSem v q -> v <> 0 ->
  exists k', P (S n) i k = Ok (Returned k') /\ steady IntOn k' /\ now k' = now k + SystemTick /\
    dev k' = mkDevices (disk_state (dev k)) (Threads.set_sem i (Threads.mkSem (v - 1) q) (sync (dev k))).
Proof.
  intros Hs Hn Hi Hv. unfold P. rewrite SetLevel_off. cbn [bind P_loop]. set (k0 := set_level IntOff k).
  unfold Threads.P. change (sync (dev k0)) with (sync (dev k)). rewrite Hi. cbn [Threads.value Threads.queue].
  rewrite (proj2 (Z.eqb_neq _ _) Hv). cbn [bind andthen].
  set (k1 := set_sync _ k0).
  destruct (steady_on k1) as (k2 & Hk2 & Hs2 & Hn2 & Hd2); [by apply steady_sync, steady_off|done|].
  unfold andthen. cbn [bind]. rewrite (s_level _ _ Hs), Hk2. cbn [bind]. exists k2. by rewrite Hd2.
Qed.

Lemma V_nobody i k v :
  steady IntOn k -> now k < horizon -> Threads.sems (sync (dev k)) i = Threads.mkSem v [] ->
  exists k', V i k = Ok k' /\ steady IntOn k' /\ now k' = now k + SystemTick /\
    dev k' = mkDevices (disk_state (dev k)) (Threads.set_sem i (Threads.mkSem (v + 1) []) (sync (dev k))).
Proof.
  intros Hs Hn Hi. unfold V. rewrite SetLevel_off. cbn [bind]. set (k0 := set_level IntOff k).
  unfold on_sync, Threads.V. change (sync (dev k0)) with (sync (dev k)). rewrite Hi. cbn [Threads.queue bind Threads.value]. rewrite Hi. 
  cbn [Threads.queue bind Threads.value].
  set (k1 := set_sync _ k0).
  destruct (steady_on k1) as (k2 & Hk2 & Hs2 & Hn2 & Hd2); [by apply steady_sync, steady_off|done|].
  rewrite (s_level _ _ Hs), Hk2. cbn [bind]. exists k2. by rewrite Hd2.
Qed.

(** ** The thread sleeps until the disk's interrupt *)

(** The disk's request is the only thing pending. *)
Record waiting (p : PendingInterrupt) (l : IntStatus) (k : kernel) : Prop := {
  wt_wf : wf k;
  wt_level : level k = l;
  wt_handler : inHandler k = false;
  wt_yield : yieldOnReturn k = false;
  wt_status : status k = SystemMode;
  wt_machine : machine_ok k;
  wt_pending : pending k = [p];
  wt_when : now k < when p < horizon
}.

Lemma waiting_sync p l s k : waiting p l k -> waiting p l (set_sync s k).
Proof. intros []. split; try done. by apply (wf_ext k). Qed.

Lemma Idle_delivers p k s' :
  waiting p IntOff k -> apart (pending k) (dev k) -> Threads.V semaphore (sync (dev k)) = Ok s' ->
  exists k', Idle handler k = Ok (Some k') /\ steady IntOff k' /\ now k' = when p /\
    dev k' = mkDevices (set_active false (disk_state (dev k))) s'.
Proof.
  intros [H1 H2 H3 H4 H5 H6 H7 H8] Ha HV. unfold Idle. set (ki := setStatus IdleMode k).
  assert (Hwi : wf ki) by by apply (wf_ext k).
  destruct (CheckIfDue_ok handler apart true ki p [] Hwi Ha H6 H2 H7) as
    (k0 & k1 & k' & Hc & (D1 & D2 & D3 & D4 & D5 & D6 & D7 & D8) & Hf & -> & Hw' & _ & _ & Hn' & Hl' & Hs' & _).
  { by left. } { change (now ki) with (now k). lia. }
  rewrite Hc. cbn [bind]. change (pending ki) with (pending k) in *. rewrite H7 in Hf, D1.
  change (now ki) with (now k) in *. rewrite Z.max_r in * by lia.
  rewrite filter_cons_True, filter_nil in Hf by (unfold is_due; lia).
  inversion Hf as [|q qs rest ka kb kc Hp Hcb Hrest]; subst. inversion Hrest; subst.
  rewrite D1 in Hp. injection Hp as <-.
  unfold handler, CallBack, SynchDisk_CallBack, on_sync in Hcb. cbn -[Threads.V] in Hcb. rewrite D2 in Hcb.
  change (sync (dev ki)) with (sync (dev k)) in Hcb. rewrite HV in Hcb. cbn [bind] in Hcb. injection Hcb as <-.
  eexists. split; [done|]. split; [|split; [exact Hn'|]].
  - split; try done; try (by apply (wf_ext _ _ Hw')). by rewrite <- H4.
  - done.
Qed.

(** A scheduler with one thread, nobody on the disk's semaphore. *)
Record alone (s : Threads.sys) : Prop := {
  al_sem : Threads.sems s semaphore = Threads.mkSem 0 [];
  al_sleeping : Threads.sleeping s = None;
  al_ready : Threads.readyList s = [];
  al_destroy : Threads.toBeDestroyed s = None
}.

(** In the scheduler: [P] puts the thread to sleep, [V] makes it ready, it is
    dispatched and finds the value positive. *)
Lemma sleep_and_wake s : alone s -> exists s1 s2 s3,
  Threads.P semaphore s = Ok (false, s1) /\ Threads.sleeping s1 = Some false /\
    Threads.queue (Threads.sems s1 semaphore) = [Threads.currentThread s] /\ Threads.readyList s1 = [] /\
    Threads.V semaphore s1 = Ok s2 /\
    Threads.Dispatch false s2 = Ok s3 /\ Threads.sems s3 semaphore = Threads.mkSem 1 [] /\
    (forall i, i <> semaphore -> Threads.sems s3 i = Threads.sems s i) /\
    Threads.sleeping s3 = None /\ Threads.readyList s3 = [] /\ Threads.toBeDestroyed s3 = None /\
    Threads.currentThread s3 = Threads.currentThread s.
Proof.
  intros [Hsem Hsl Hrd Hde]. set (me := Threads.currentThread s).
  set (s0 := Threads.set_sem semaphore (Threads.mkSem 0 [me]) s).
  set (s1 := Threads.set_current me (Some false) (Threads.setStatus me Threads.BLOCKED s0)).
  set (s1' := Threads.set_sem semaphore (Threads.mkSem 0 []) s1).
  set (s2 := Threads.set_sem semaphore (Threads.mkSem 1 []) (Threads.set_ready [me] (Threads.setStatus me Threads.READY s1'))).
  set (s3 := Threads.setStatus me Threads.RUNNING (Threads.set_current me None (Threads.set_ready [] s2))).
  exists s1, s2, s3.
  assert (Hs1 : Threads.sems s1 semaphore = Threads.mkSem 0 [me]).
  { change (Threads.sems s1) with (Threads.sems s0). unfold s0. by rewrite Threads.sems_set, decide_True. }
  assert (Hs1' : Threads.sems s1' semaphore = Threads.mkSem 0 []) by (unfold s1'; by rewrite Threads.sems_set, decide_True).
  assert (Hs2 : forall i, Threads.sems s2 i = if decide (semaphore = i) then Threads.mkSem 1 [] else Threads.sems s i).
  { intros i. unfold s2. rewrite Threads.sems_set. case_decide; [done|].
    change (Threads.sems (Threads.set_ready _ _)) with (Threads.sems s1'). unfold s1'. rewrite Threads.sems_set, decide_False by done.
    change (Threads.sems s1) with (Threads.sems s0). unfold s0. by rewrite Threads.sems_set, decide_False. }
  split_and!; try done.
  - unfold Threads.P. rewrite Hsem. cbn [Threads.value Threads.queue Z.eqb]. unfold Seq.Append, Seq.IsInList.
    rewrite bool_decide_eq_false_2 by apply not_elem_of_nil. cbn [negb assert bind app].
    unfold Threads.Sleep, Threads.Dispatch, Threads.FindNextToRun. fold me.
    change (Threads.readyList (Threads.setStatus _ _ _)) with (Threads.readyList s). by rewrite Hrd.
  - unfold Threads.V. rewrite Hs1. cbn [Threads.queue Threads.value]. fold s1'.
    rewrite Threads.ReadyToRun_eq by (change (Threads.readyList s1') with (Threads.readyList s); rewrite Hrd; apply not_elem_of_nil).
    cbn [bind]. change (Threads.readyList s1') with (Threads.readyList s). rewrite Hrd.
    change (Threads.sems (Threads.set_ready _ _)) with (Threads.sems s1'). by rewrite Hs1'.
  - unfold Threads.Dispatch, Threads.FindNextToRun. change (Threads.readyList s2) with [me].
    unfold Threads.Run. cbn [bind]. unfold Threads.CheckToBeDestroyed.
    change (Threads.toBeDestroyed _) with (Threads.toBeDestroyed s). by rewrite Hde.
  - intros i Hi. change (Threads.sems s3) with (Threads.sems s2). by rewrite Hs2, decide_False.
Qed.

(** [P] of the disk's semaphore by the current thread, the request in progress:
    it returns when the interrupt has come. *)
Lemma P_waits p k :
  waiting p IntOn k -> alone (sync (dev k)) ->
  exists k', P 2 semaphore k = Ok (Returned k') /\ steady IntOn k' /\ now k' = when p + SystemTick /\
    disk_state (dev k') = set_active false (disk_state (dev k)) /\ alone (sync (dev k')) /\
    (forall i, i <> semaphore -> Threads.sems (sync (dev k')) i = Threads.sems (sync (dev k)) i).
Proof.
  intros Hk Hal. destruct (sleep_and_wake _ Hal) as
    (s1 & s2 & s3 & HP1 & Hsl1 & Hq1 & Hr1 & HV & HD & Hs3q & Hs3o & Hsl3 & Hr3 & Hd3 & Hc3).
  unfold P. rewrite SetLevel_off, (wt_level _ _ _ Hk). cbn [bind].
  set (k0 := set_level IntOff k). assert (Hk0 : waiting p IntOff k0) by (destruct Hk; split; try done; by apply (wf_ext k)).
  cbn [P_loop]. change (sync (dev k0)) with (sync (dev k)). rewrite HP1. cbn [bind].
  set (k1 := set_sync s1 k0). assert (Hk1 : waiting p IntOff k1) by by apply waiting_sync.
  destruct (Idle_delivers p k1 s2 Hk1) as (k2 & Hidle & Hk2 & Hn2 & Hd2); [|exact HV|].
  { unfold apart. change (sync (dev k1)) with s1. rewrite Hq1, Hr1. apply NoDup_singleton. }
  cbn [wait_ready]. change (sync (dev k1)) with s1. rewrite Hsl1. cbn [andthen].
  rewrite Hidle. cbn [bind]. unfold on_sync at 1. rewrite Hd2. cbn [sync]. rewrite HD. cbn [bind andthen].
  set (k3 := set_sync s3 k2). assert (Hk3 : steady IntOff k3) by by apply steady_sync.
  cbn [wait_ready]. change (sync (dev k3)) with s3. rewrite Hsl3. cbn [andthen bind].
  change (sync (dev k3)) with s3. rewrite Hc3, bool_decide_eq_true_2 by done.
  unfold P_loop. change (sync (dev k3)) with s3.
  unfold Threads.P. rewrite Hs3q. cbn [Threads.value Threads.queue Z.eqb bind andthen].
  set (k4 := set_sync _ k3). assert (Hk4 : steady IntOff k4) by by apply steady_sync.
  destruct (steady_on k4 Hk4) as (k5 & Hon & Hk5 & Hn5 & Hd5).
  { change (now k4) with (now k2). rewrite Hn2. apply Hk. }
  rewrite Hon. cbn [bind]. exists k5. split; [done|]. rewrite Hd5. change (now k4) with (now k2) in Hn5.
  split; [done|]. split; [by rewrite Hn5, Hn2|]. split; [change (disk_state (dev k4)) with (disk_state (dev k2)); by rewrite Hd2|].
  change (sync (dev k4)) with (Threads.set_sem semaphore (Threads.mkSem (1 - 1) []) s3).
  split.
  - split; [by rewrite Threads.sems_set, decide_True|done..].
  - intros i Hi. rewrite Threads.sems_set, decide_False by done. by apply Hs3o.
Qed.

(** ** A whole request *)

Lemma quiet_steady k : quiet k -> steady IntOn k.
Proof. intros []. by split. Qed.

Lemma quiet_alone k : quiet k -> alone (sync (dev k)).
Proof. intros []. by split. Qed.

Lemma Acquire_ok n k : quiet k -> now k < horizon ->
  exists k', Acquire (S n) k = Ok (Returned k') /\ steady IntOn k' /\ now k' = now k + SystemTick /\
    the_disk k' = the_disk k /\ alone (sync (dev k')) /\
    Threads.sems (sync (dev k')) (Threads.OfLock lock) = Threads.mkSem 0 [].
Proof.
  intros Hq Hn. destruct (quiet_alone k Hq) as [Hs H1 H2 H3].
  destruct (P_available n (Threads.OfLock lock) k 1 []) as (k1 & HP & Hk1 & Hn1 & Hd1); [by apply quiet_steady|done|apply Hq|done|].
  unfold Acquire, andthen. rewrite HP. cbn [bind]. eexists. split; [done|]. rewrite Hd1. cbn [sync].
  split; [by apply steady_sync|]. split; [done|]. split; [cbn; by rewrite Hd1|]. cbn -[insert]. split.
  - by split.
  - by rewrite fn_lookup_insert.
Qed.

Lemma Release_ok k : steady IntOn k -> now k < horizon -> alone (sync (dev k)) ->
  disk_wf (the_disk k) -> active (the_disk k) = false ->
  Threads.sems (sync (dev k)) (Threads.OfLock lock) = Threads.mkSem 0 [] ->
  exists k', Release k = Ok k' /\ quiet k' /\ now k' = now k + SystemTick /\ the_disk k' = the_disk k.
Proof.
  intros Hk Hn [Hs H1 H2 H3] Hwf Ha Hl. unfold Release. set (k0 := set_sync _ k).
  destruct (V_nobody (Threads.OfLock lock) k0 0) as (k1 & HV & Hk1 & Hn1 & Hd1); [by apply steady_sync|done|exact Hl|].
  exists k1. split; [done|]. assert (Hdisk : the_disk k1 = the_disk k) by (unfold the_disk; rewrite Hd1; done).
  split; [|split; [done|done]]. destruct Hk1. split; rewrite ?Hdisk; try done; rewrite Hd1; cbn -[insert]; try done.
Qed.

(** The interrupt of a request in progress, and the release of the lock. *)
Lemma finish_request n ticks f k k' :
  steady IntOn k -> started TheDisk n ticks f k k' -> alone (sync (dev k)) ->
  Threads.sems (sync (dev k)) (Threads.OfLock lock) = Threads.mkSem 0 [] ->
  0 < ticks -> now k + ticks + 2 * SystemTick < horizon ->
  exists k1 k2, P 2 semaphore k' = Ok (Returned k1) /\ Release k1 = Ok k2 /\ quiet k2 /\
    file (the_disk k2) = f /\ lastSector (the_disk k2) = n /\ now k2 = now k + ticks + 2 * SystemTick.
Proof.
  intros Hk [S1 [(T1 & _) S2 _ S3 _] S4 S5 S6 S7 (d & S8) (R1 & R2 & R3) S9] Hal Hl Ht Hn. unfold SystemTick in *.
  assert (Hsync : sync (dev k') = sync (dev k)) by by rewrite S8.
  rewrite (s_pending _ _ Hk) in S9. set (p := mkPending _ _ _ _) in *. cbn in S9.
  assert (Hwait : waiting p IntOn k').
  { destruct Hk. split; try congruence; [by unfold machine_ok; rewrite R2|]. rewrite T1. unfold p. cbn -[horizon]. lia. }
  destruct (P_waits p k' Hwait) as (k1 & HP & Hk1 & Hn1 & Hd1 & Hal1 & Hs1); [by rewrite Hsync|].
  change (when p) with (now k + ticks) in Hn1. unfold SystemTick in Hn1.
  destruct (Release_ok k1) as (k2 & HR & Hq2 & Hn2 & Hd2); try done.
  { lia. } { cbn. rewrite Hd1. destruct S4. by split. } { cbn. by rewrite Hd1. } { rewrite Hs1 by done. by rewrite Hsync. }
  exists k1, k2. split; [done|]. split; [done|]. split; [done|]. rewrite Hd2. cbn. rewrite Hd1. cbn.
  split; [done|]. split; [done|]. unfold SystemTick in Hn2. lia.
Qed.

(** More than any request takes, from the call to the return. *)
Definition request_time : Z := (NumTracks - 1) * SeekTime + (SectorsPerTrack + 1) * RotationTime + 3 * SystemTick.

Lemma ReadSector_ok n k :
  quiet k -> now k + request_time < horizon -> valid n ->
  exists k', ReadSector 2 n k = Ok (Returned (sector (file (the_disk k)) n, k')) /\ quiet k' /\
    file (the_disk k') = file (the_disk k) /\ lastSector (the_disk k') = n /\
    now k' = now k + 3 * SystemTick + ComputeLatency (now k + SystemTick) (the_disk k) n false.
Proof.
  intros Hq Hn Hv. unfold ReadSector. pose proof (wf_now k (q_wf _ Hq)) as H0. unfold request_time in Hn.
  destruct (Acquire_ok 1 k Hq) as (k1 & HA & Hk1 & Hn1 & Hd1 & Hal1 & Hl1).
  { unfold NumTracks, SeekTime, SectorsPerTrack, RotationTime, SystemTick in *. lia. }
  rewrite HA. cbn [andthen bind]. unfold andthen. cbn [bind].
  assert (Hb : 0 <= now k1 < horizon) by (unfold NumTracks, SeekTime, SectorsPerTrack, RotationTime, SystemTick in *; lia).
  pose proof (ComputeLatency_bounds (now k1) (the_disk k1) n false) as Hlat.
  destruct (ReadRequest_ok TheDisk n k1) as (k2 & HR & Hst); [apply Hk1|done|by rewrite Hd1; apply Hq|by rewrite Hd1; apply Hq|done|].
  rewrite HR. cbn [bind]. rewrite Hd1, Hn1 in *. specialize (Hlat (q_disk _ Hq) Hv Hb).
  destruct (finish_request n _ _ k1 k2 Hk1 Hst Hal1 Hl1) as (k3 & k4 & HP & HRel & Hq4 & Hf4 & Hl4 & Hn4).
  { unfold RotationTime in *. lia. } { unfold NumTracks, SeekTime, SectorsPerTrack, RotationTime, SystemTick in *. lia. }
  rewrite HP. cbn [bind]. rewrite HRel. cbn [bind]. exists k4. split; [done|]. split; [done|]. split; [done|]. split; [done|].
  rewrite Hn4, Hn1. unfold SystemTick. lia.
Qed.

Lemma WriteSector_ok n data k :
  quiet k -> now k + request_time < horizon -> valid n -> Z.of_nat (length data) = SectorSize ->
  exists k', WriteSector 2 n data k = Ok (Returned k') /\ quiet k' /\
    file (the_disk k') = put_sector n data (file (the_disk k)) /\ lastSector (the_disk k') = n /\
    now k' = now k + 3 * SystemTick + ComputeLatency (now k + SystemTick) (the_disk k) n true.
Proof.
  intros Hq Hn Hv Hdata. unfold WriteSector. pose proof (wf_now k (q_wf _ Hq)) as H0. unfold request_time in Hn.
  destruct (Acquire_ok 1 k Hq) as (k1 & HA & Hk1 & Hn1 & Hd1 & Hal1 & Hl1).
  { unfold NumTracks, SeekTime, SectorsPerTrack, RotationTime, SystemTick in *. lia. }
  rewrite HA. cbn [andthen bind]. unfold andthen. cbn [bind].
  assert (Hb : 0 <= now k1 < horizon) by (unfold NumTracks, SeekTime, SectorsPerTrack, RotationTime, SystemTick in *; lia).
  pose proof (ComputeLatency_bounds (now k1) (the_disk k1) n true) as Hlat.
  destruct (WriteRequest_ok TheDisk n data k1) as (k2 & HR & Hst); [apply Hk1|done|by rewrite Hd1; apply Hq|by rewrite Hd1; apply Hq|done|done|].
  rewrite HR. cbn [bind]. rewrite Hd1, Hn1 in *. specialize (Hlat (q_disk _ Hq) Hv Hb).
  destruct (finish_request n _ _ k1 k2 Hk1 Hst Hal1 Hl1) as (k3 & k4 & HP & HRel & Hq4 & Hf4 & Hl4 & Hn4).
  { unfold RotationTime in *. lia. } { unfold NumTracks, SeekTime, SectorsPerTrack, RotationTime, SystemTick in *. lia. }
  rewrite HP. cbn [bind]. rewrite HRel. cbn [bind]. exists k4. split; [done|]. split; [done|]. split; [done|]. split; [done|].
  rewrite Hn4, Hn1. unfold SystemTick. lia.
Qed.

(** ** Properties *)

(** The abstract state: what each sector holds. *)
Definition sectors (k : kernel) (n : Z) : list byte := sector (file (the_disk k)) n.

Definition booted (d : disk) : kernel :=
  set_level IntOn (Interrupt None (mkDevices d (Threads.initial (fun _ => 0) []))).

Lemma booted_quiet d : disk_wf d -> active d = false -> quiet (booted d).
Proof.
  intros Hd Ha. split; try done. split; try done; simpl; try lia; try (by constructor); intros p Hp; by apply elem_of_nil in Hp.
Qed.


(** The kernel boots into a state in which the disk can be used: the constructor, without a disk file, gives
    an idle disk of zero sectors, and with the file of any well-formed disk the sectors it held. *)
Theorem SynchDisk_boots :
  (exists k, SynchDisk None None = Ok k /\ quiet k /\ now k = 0 /\
     forall n, valid n -> sectors k n = replicate (Z.to_nat SectorSize) x00) /\
  (forall k, quiet k -> exists k', SynchDisk None (Some (file (the_disk k))) = Ok k' /\ quiet k' /\
     forall n, sectors k' n = sectors k n).
Proof.
  split.
  - exists (booted blank_disk). unfold SynchDisk.
    rewrite (Disk_new (Z.to_nat (NumSectors * SectorSize))) by by rewrite Z2Nat.id. split; [done|].
    split; [apply booted_quiet; [apply blank_disk_wf|done]|]. split; [done|].
    intros n Hn. apply blank_sector; [by rewrite Z2Nat.id|done].
  - intros k Hq. destruct (Disk_existing (the_disk k) (q_disk _ Hq)) as (d & Hd & Hw & Ha & Hf).
    exists (booted d). unfold SynchDisk. rewrite Hd. split; [done|]. split; [by apply booted_quiet|].
    intros n. unfold sectors. cbn. by rewrite Hf.
Qed.


End SynchDisk.
