(* ===== verification/SectorDevice.v ===== *)
(** * The contract between the file system and the disk under it

    The file system reaches the disk through [SynchDisk::ReadSector] and
    [WriteSector] only.  [SectorDevice] states what it relies on; its theorems are
    proved against the class.  Two instances: a plain image of the sectors, and
    the kernel of SynchDisk.v, whose clock allows a bounded number of requests. *)

From Stdlib Require Import Strings.Byte.
From S2P Require Import Prelude LibList Machine Interrupt Threads Disk SynchDisk.

Module SectorDevice.
Import Disk.
#[local] Existing Instance SynchDisk.devices_disk.

(** [usable b s]: the device can serve [b] more requests. *)
Class SectorDevice (S : Type) := {
  ReadSector : Z -> S -> result (list byte * S);
  WriteSector : Z -> list byte -> S -> result S;
  usable : nat -> S -> Prop;
  contents : S -> Z -> list byte;
  usable_mono : forall a b s, (b <= a)%nat -> usable a s -> usable b s;
  contents_length : forall b s n, usable b s -> valid n -> Z.of_nat (length (contents s n)) = SectorSize;
  ReadSector_spec : forall b s n, usable (1 + b) s -> valid n ->
    exists s', ReadSector n s = Ok (contents s n, s') /\ usable b s' /\ forall m, valid m -> contents s' m = contents s m;
  WriteSector_spec : forall b s n bs, usable (1 + b) s -> valid n -> Z.of_nat (length bs) = SectorSize ->
    exists s', WriteSector n bs s = Ok s' /\ usable b s' /\
      forall m, valid m -> contents s' m = if decide (m = n) then bs else contents s m
}.

(** ** A plain image: the sectors that are not zero *)

Abbreviation image := (gmap Z (list byte)).

Definition zero_sector : list byte := replicate (Z.to_nat SectorSize) x00.
Definition image_sector (s : image) (n : Z) : list byte := default zero_sector (s !! n).
Definition in_disk (n : Z) : bool := bool_decide (0 <= n < NumSectors).

#[export, refine] Instance image_device : SectorDevice image := {
  ReadSector n s := assert (in_disk n) ;; Ok (image_sector s n, s);
  WriteSector n bs s := assert (in_disk n) ;; Ok (<[n := bs]> s);
  usable _ s := map_Forall (fun _ bs => Z.of_nat (length bs) = SectorSize) s;
  contents := image_sector
}.
Proof.
  - done.
  - intros b s n Hs _. unfold image_sector. destruct (s !! n) as [bs|] eqn:E; [by apply (Hs n)|].
    cbn [default]. unfold zero_sector. by rewrite length_replicate.
  - intros b s n Hs Hn. unfold in_disk. rewrite bool_decide_eq_true_2 by done. cbn [assert bind]. by eexists.
  - intros b s n bs Hs Hn Hbs. unfold in_disk. rewrite bool_decide_eq_true_2 by done. cbn [assert bind].
    eexists. split; [done|]. split; [by apply map_Forall_insert_2|]. intros m Hm. unfold image_sector. case_decide as E.
    + subst. by rewrite lookup_insert_eq.
    + by rewrite lookup_insert_ne.
Defined.

(** ** The kernel of SynchDisk.v *)

(** A call that does not come back is a fault of the client's computation. *)
Definition returned {A} (r : result (SynchDisk.outcome A)) : result A :=
  r <- r ;; match r with SynchDisk.Returned a => Ok a | _ => Fault OutOfFuel end.

Lemma request_bound t b :
  t + Z.of_nat (1 + b) * SynchDisk.request_time < Interrupt.horizon ->
  t + SynchDisk.request_time < Interrupt.horizon /\
  t + SynchDisk.request_time + Z.of_nat b * SynchDisk.request_time < Interrupt.horizon.
Proof. assert (0 <= SynchDisk.request_time) by (by vm_compute). nia. Qed.

Lemma latency_time k n w :
  SynchDisk.quiet k -> valid n -> Interrupt.now k + SynchDisk.request_time < Interrupt.horizon ->
  3 * Interrupt.SystemTick + ComputeLatency (Interrupt.now k + Interrupt.SystemTick) (the_disk k) n w <= SynchDisk.request_time.
Proof.
  intros Hq Hv Hn. pose proof (Interrupt.wf_now k (SynchDisk.q_wf _ Hq)) as H0.
  pose proof (ComputeLatency_bounds (Interrupt.now k + Interrupt.SystemTick) (the_disk k) n w (SynchDisk.q_disk _ Hq) Hv) as Hb.
  unfold SynchDisk.request_time, NumTracks, Interrupt.SeekTime, SectorsPerTrack, Interrupt.RotationTime, Interrupt.SystemTick in *. lia.
Qed.

#[export, refine] Instance kernel_device : SectorDevice SynchDisk.kernel := {
  ReadSector n k := returned (SynchDisk.ReadSector 2 n k);
  WriteSector n bs k := returned (SynchDisk.WriteSector 2 n bs k);
  usable b k := SynchDisk.quiet k /\
    Interrupt.now k + Z.of_nat b * SynchDisk.request_time < Interrupt.horizon;
  contents := SynchDisk.sectors
}.
Proof.
  - intros a b k Hab [Hq Hn]. split; [done|]. assert (0 <= SynchDisk.request_time) by (by vm_compute). nia.
  - intros b k n [Hq _] Hn. unfold SynchDisk.sectors, sector. pose proof (wf_file _ (SynchDisk.q_disk _ Hq)) as Hf.
    destruct (sector_bounds n Hn) as [Hlo Hhi]. rewrite length_take, length_drop.
    change MagicSize with 4 in *. change SectorSize with 128 in *. lia.
  - intros b k n [Hq Hb] Hn. pose proof (request_bound (Interrupt.now k) b) as Hrb.
    destruct (SynchDisk.ReadSector_ok n k Hq) as (k' & -> & Hq' & Hf & _ & Hn'); [lia|done|].
    exists k'. split; [done|]. split; [split; [done|]|intros m _; unfold SynchDisk.sectors; by rewrite Hf].
    pose proof (latency_time k n false Hq Hn ltac:(lia)). lia.
  - intros b k n bs [Hq Hb] Hn Hbs. pose proof (request_bound (Interrupt.now k) b) as Hrb.
    destruct (SynchDisk.WriteSector_ok n bs k Hq) as (k' & -> & Hq' & Hf & _ & Hn'); [lia|done|done|].
    exists k'. split; [done|]. split; [split; [done|]|].
    + pose proof (latency_time k n true Hq Hn ltac:(lia)). lia.
    + intros m Hm. unfold SynchDisk.sectors. rewrite Hf. apply sector_put; try done. apply (wf_file _ (SynchDisk.q_disk _ Hq)).
Defined.

End SectorDevice.
