(* ===== verification/FileHdr.v ===== *)
(** * filesys/filehdr.{h,cc}: the header of a file

    The table of the sectors that hold a file, in memory and in the one sector it
    takes on disk. *)

From Stdlib Require Import Strings.Byte.
From S2P Require Import Prelude LibBitmap Disk SectorDevice.

Module FileHdr.
Import Disk SectorDevice.

Definition NumDirect : Z := (SectorSize - 2 * 4) / 4.
Definition MaxFileSize : Z := NumDirect * SectorSize.

Record FileHeader := mkHdr { numBytes : Z; numSectors : Z; dataSectors : list Z }.

(** The object as the bytes of a sector: 32 [int]s. *)
Definition to_sector (h : FileHeader) : list byte := words_bytes (numBytes h :: numSectors h :: dataSectors h).

Definition of_sector (bs : list byte) : FileHeader :=
  match wrap32 <$> bytes_words (Z.to_nat (2 + NumDirect)) bs with
  | b :: s :: ds => mkHdr b s ds
  | _ => mkHdr 0 0 []
  end.

Fixpoint Allocate_loop (js : list Z) (ds : list Z) (freeMap : Bitmap.t) : result (list Z * Bitmap.t) :=
  match js with
  | [] => Ok (ds, freeMap)
  | i :: js =>
      '(n, freeMap) <- Bitmap.FindAndSet freeMap ;;
      ds <- lset ds i n ;;
      assert (bool_decide (0 <= n)) ;;
      Allocate_loop js ds freeMap
  end.

(** On the header [h] that [new] returned. *)
Definition Allocate (freeMap : Bitmap.t) (fileSize : Z) (h : FileHeader) : result (bool * (FileHeader * Bitmap.t)) :=
  let ns := divRoundUp fileSize SectorSize in
  clear <- Bitmap.NumClear freeMap ;;
  if bool_decide (clear < ns) then Ok (false, (mkHdr fileSize ns (dataSectors h), freeMap))
  else
    '(ds, freeMap) <- Allocate_loop (seqZ 0 ns) (dataSectors h) freeMap ;;
    Ok (true, (mkHdr fileSize ns ds, freeMap)).

Fixpoint Deallocate_loop (js : list Z) (h : FileHeader) (freeMap : Bitmap.t) : result Bitmap.t :=
  match js with
  | [] => Ok freeMap
  | i :: js =>
      d <- lget (dataSectors h) i ;;
      b <- Bitmap.Test freeMap d ;;
      assert b ;;
      freeMap <- Bitmap.Clear freeMap d ;;
      Deallocate_loop js h freeMap
  end.

Definition Deallocate (freeMap : Bitmap.t) (h : FileHeader) : result Bitmap.t :=
  Deallocate_loop (seqZ 0 (numSectors h)) h freeMap.

Definition ByteToSector (h : FileHeader) (offset : Z) : result Z := lget (dataSectors h) (Z.quot offset SectorSize).

Definition FileLength (h : FileHeader) : Z := numBytes h.

Section device.
Context {S : Type} `{SectorDevice S}.

Definition FetchFrom (sector : Z) (s : S) : result (FileHeader * S) :=
  '(bs, s) <- ReadSector sector s ;; Ok (of_sector bs, s).

Definition WriteBack (sector : Z) (h : FileHeader) (s : S) : result S := WriteSector sector (to_sector h) s.
End device.

(** ** Invariant *)

(** The sectors of the file, in order. *)
Definition blocks (h : FileHeader) : list Z := take (Z.to_nat (numSectors h)) (dataSectors h).

Record hdr_wf (h : FileHeader) : Prop := {
  hw_bytes : 0 <= numBytes h <= MaxFileSize;
  hw_sectors : numSectors h = divRoundUp (numBytes h) SectorSize;
  hw_length : Z.of_nat (length (dataSectors h)) = NumDirect;
  hw_ints : Forall int_range (dataSectors h);
  hw_valid : Forall valid (blocks h);
  hw_distinct : NoDup (blocks h)
}.

(** What [new FileHeader] may return: any thirty-two [int]s. *)
Definition fresh_hdr (h : FileHeader) : Prop :=
  Z.of_nat (length (dataSectors h)) = NumDirect /\ Forall int_range (dataSectors h).

Lemma numSectors_le h : hdr_wf h -> 0 <= numSectors h <= NumDirect.
Proof.
  intros [[H1 H1'] H2 _ _ _ _]. pose proof (divRoundUp_spec (numBytes h) SectorSize ltac:(done) H1) as Hd. rewrite <- H2 in Hd.
  unfold MaxFileSize, SectorSize in *. assert (0 <= NumDirect) by by vm_compute. nia.
Qed.

Lemma length_blocks h : hdr_wf h -> Z.of_nat (length (blocks h)) = numSectors h.
Proof. intros Hw. pose proof (numSectors_le h Hw). pose proof (hw_length _ Hw). unfold blocks. rewrite length_take. lia. Qed.

(** ** On disk *)

Lemma to_sector_length h : Z.of_nat (length (dataSectors h)) = NumDirect -> Z.of_nat (length (to_sector h)) = SectorSize.
Proof.
  intros Hl. unfold to_sector. rewrite length_words_bytes. cbn [length]. change NumDirect with 30 in Hl. change SectorSize with 128. lia.
Qed.

Lemma wrap32_u32_id ws : Forall int_range ws -> wrap32 <$> (u32 <$> ws) = ws.
Proof.
  induction 1 as [|w ws Hw _ IH]; [done|]. rewrite !fmap_cons, IH. f_equal. by rewrite wrap32_u32, wrap32_small.
Qed.

Lemma of_to_sector h :
  Z.of_nat (length (dataSectors h)) = NumDirect -> int_range (numBytes h) -> int_range (numSectors h) ->
  Forall int_range (dataSectors h) -> of_sector (to_sector h) = h.
Proof.
  intros Hl H1 H2 H3. unfold of_sector, to_sector.
  replace (Z.to_nat (2 + NumDirect)) with (length (numBytes h :: numSectors h :: dataSectors h)) by (cbn [length]; lia).
  rewrite bytes_words_words, wrap32_u32_id by (constructor; [done|by constructor]). by destruct h.
Qed.

Lemma hdr_ints h : hdr_wf h -> int_range (numBytes h) /\ int_range (numSectors h).
Proof.
  intros Hw. pose proof (hw_bytes _ Hw) as Hb. pose proof (numSectors_le h Hw) as Hs. unfold int_range, MaxFileSize in *.
  change NumDirect with 30 in *. change SectorSize with 128 in *. lia.
Qed.

(** ** Allocation *)

Lemma Allocate_loop_ok k : forall i ds bm,
  Bitmap.wf bm -> (k <= length (Bitmap.free bm))%nat -> (i + k <= length ds)%nat ->
  exists bm', Allocate_loop (seqZ (Z.of_nat i) (Z.of_nat k)) ds bm =
      Ok (take i ds ++ take k (Bitmap.free bm) ++ drop (i + k) ds, bm') /\
    Bitmap.wf bm' /\ Bitmap.numBits bm' = Bitmap.numBits bm /\ Bitmap.free bm' = drop k (Bitmap.free bm).
Proof.
  induction k as [|k IH]; intros i ds bm Hw Hf Hl.
  - rewrite seqZ_nil by lia. exists bm. cbn [Allocate_loop]. rewrite take_0, Nat.add_0_r. cbn [app]. by rewrite take_drop, drop_0.
  - rewrite seqZ_cons by lia. cbn [Allocate_loop].
    destruct (Bitmap.FindAndSet_ok bm Hw) as ([n bm1] & -> & Hfound). unfold Bitmap.found in Hfound.
    destruct (Bitmap.free bm) as [|j rest] eqn:Hfree; [simpl in Hf; lia|]. destruct Hfound as (E & Hu & Hr1). simpl in E, Hu, Hr1. subst j.
    cbn [bind]. rewrite lset_in by lia. cbn [bind]. rewrite Nat2Z.id.
    assert (Hn : 0 <= n).
    { assert (Hin : n ∈ Bitmap.free bm) by (rewrite Hfree; left). apply Bitmap.elem_of_free in Hin. lia. }
    rewrite bool_decide_eq_true_2 by done. cbn [assert bind].
    replace (Z.of_nat i + 1) with (Z.of_nat (S i)) by lia. replace (Z.pred (Z.of_nat (S k))) with (Z.of_nat k) by lia.
    destruct (IH (S i) (<[i := n]> ds) bm1) as (bm' & Hloop & Hw' & Hn' & Hf');
      [by eapply Bitmap.updated_wf|rewrite Hr1; simpl in Hf; lia|rewrite length_insert; lia|].
    replace (Z.succ (Z.of_nat i)) with (Z.of_nat (S i)) by lia. rewrite Hloop. exists bm'.
    split; [|split; [done|]; split; [rewrite Hn'; apply Hu|by rewrite Hf', Hr1]].
    rewrite Hr1. f_equal. f_equal. rewrite (take_S_r _ _ n) by (apply list_lookup_insert_eq; lia).
    rewrite take_insert_ge, drop_insert_lt by lia. rewrite <- app_assoc. simpl. by replace (i + S k)%nat with (S (i + k)) by lia.
Qed.

(** The header and the map of a successful allocation. *)
Record allocated (freeMap : Bitmap.t) (fileSize : Z) (h : FileHeader) (freeMap' : Bitmap.t) : Prop := {
  a_wf : hdr_wf h;
  a_bytes : numBytes h = fileSize;
  a_map : Bitmap.wf freeMap';
  a_bits : Bitmap.numBits freeMap' = Bitmap.numBits freeMap;
  a_free : Bitmap.free freeMap = blocks h ++ Bitmap.free freeMap'
}.

Lemma Allocate_ok freeMap fileSize h :
  Bitmap.wf freeMap -> Bitmap.numBits freeMap = NumSectors -> fresh_hdr h -> 0 <= fileSize <= MaxFileSize ->
  exists b h' freeMap', Allocate freeMap fileSize h = Ok (b, (h', freeMap')) /\
    b = bool_decide (divRoundUp fileSize SectorSize <= Z.of_nat (length (Bitmap.free freeMap))) /\
    (if b then allocated freeMap fileSize h' freeMap' else freeMap' = freeMap).
Proof.
  intros Hw Hn [Hl Hi] [Hs1 Hs2]. unfold Allocate. rewrite Bitmap.NumClear_ok by done. cbn [bind].
  pose proof (divRoundUp_spec fileSize SectorSize ltac:(done) Hs1) as Hd.
  set (k := divRoundUp fileSize SectorSize) in *.
  assert (Hk : 0 <= k <= NumDirect) by (unfold MaxFileSize in *; change NumDirect with 30 in *; change SectorSize with 128 in *; lia).
  case_bool_decide as Hc.
  { do 3 eexists. split; [done|]. by rewrite bool_decide_eq_false_2 by lia. }
  destruct (Allocate_loop_ok (Z.to_nat k) 0 (dataSectors h) freeMap Hw) as (bm' & Hloop & Hw' & Hn' & Hf'); [lia|lia|].
  rewrite Z2Nat.id in Hloop by lia. change (Z.of_nat 0) with 0 in Hloop. rewrite Hloop. cbn [bind].
  do 3 eexists. split; [done|]. rewrite bool_decide_eq_true_2 by lia. split; [done|].
  rewrite take_0. cbn [app]. set (fs := take (Z.to_nat k) (Bitmap.free freeMap)).
  assert (Hfs : length fs = Z.to_nat k) by (unfold fs; rewrite length_take; lia).
  assert (Hbl : blocks (mkHdr fileSize k (fs ++ drop (0 + Z.to_nat k) (dataSectors h))) = fs).
  { unfold blocks. cbn [numSectors dataSectors]. by rewrite take_app_length' by lia. }
  assert (Hval : Forall valid fs).
  { apply Forall_take, Forall_forall. intros x [Hx _]%Bitmap.elem_of_free. by rewrite Hn in Hx. }
  split; try done.
  - split; rewrite ?Hbl; cbn [numBytes numSectors dataSectors]; try done.
    + rewrite length_app, Hfs, length_drop. lia.
    + apply Forall_app. split; [|by apply Forall_drop]. eapply Forall_impl; [exact Hval|].
      intros x Hx. unfold valid, NumSectors, SectorsPerTrack, NumTracks in Hx. unfold int_range. lia.
    + pose proof (Bitmap.free_NoDup freeMap) as Hnd. rewrite <- (take_drop (Z.to_nat k)) in Hnd. by apply NoDup_app in Hnd as [? _].
  - rewrite Hbl, Hf'. unfold fs. by rewrite take_drop.
Qed.

(** A file of more than [NumDirect] sectors: the table is written past its end. *)
Lemma Allocate_too_large freeMap fileSize h :
  Bitmap.wf freeMap -> fresh_hdr h -> MaxFileSize < fileSize ->
  divRoundUp fileSize SectorSize <= Z.of_nat (length (Bitmap.free freeMap)) ->
  Allocate freeMap fileSize h = Fault OutOfBounds.
Proof.
  intros Hw [Hl Hi] Hs Hfree. unfold Allocate. rewrite Bitmap.NumClear_ok by done. cbn [bind].
  assert (Hs0 : 0 <= fileSize) by (unfold MaxFileSize in Hs; change NumDirect with 30 in *; change SectorSize with 128 in *; lia).
  pose proof (divRoundUp_spec fileSize SectorSize ltac:(done) Hs0) as Hd.
  set (k := divRoundUp fileSize SectorSize) in *.
  assert (Hk : NumDirect < k) by (unfold MaxFileSize in *; change NumDirect with 30 in *; change SectorSize with 128 in *; lia).
  rewrite bool_decide_eq_false_2 by lia.
  assert (Hgen : forall m i ds bm, Bitmap.wf bm -> (m <= length (Bitmap.free bm))%nat -> Z.of_nat (length ds) = NumDirect ->
    Z.of_nat i + Z.of_nat m = k -> Z.of_nat i <= NumDirect ->
    Allocate_loop (seqZ (Z.of_nat i) (Z.of_nat m)) ds bm = Fault OutOfBounds).
  { induction m as [|m IH]; intros i ds bm Hbm Hm Hds Him Hi2; [lia|].
    rewrite seqZ_cons by lia. cbn [Allocate_loop].
    destruct (Bitmap.FindAndSet_ok bm Hbm) as ([n bm1] & -> & Hfound). unfold Bitmap.found in Hfound.
    destruct (Bitmap.free bm) as [|j rest] eqn:Hfr; [simpl in Hm; lia|]. destruct Hfound as (E & Hu & Hr1). simpl in E, Hu, Hr1. subst j.
    cbn [bind]. destruct (decide (Z.of_nat i < NumDirect)) as [Hlt|Hge].
    - rewrite lset_in by lia. cbn [bind].
      assert (Hn : 0 <= n).
      { assert (Hin : n ∈ Bitmap.free bm) by (rewrite Hfr; left). apply Bitmap.elem_of_free in Hin. lia. }
      rewrite bool_decide_eq_true_2 by done. cbn [assert bind].
      replace (Z.succ (Z.of_nat i)) with (Z.of_nat (S i)) by lia. replace (Z.pred (Z.of_nat (S m))) with (Z.of_nat m) by lia.
      apply IH; [by eapply Bitmap.updated_wf|rewrite Hr1; simpl in Hm; lia|by rewrite length_insert|lia|lia].
    - unfold lset. rewrite bool_decide_eq_false_2 by lia. done. }
  pose proof (Hgen (Z.to_nat k) 0%nat (dataSectors h) freeMap Hw ltac:(lia) Hl ltac:(lia) ltac:(by vm_compute)) as Hloop.
  rewrite Z2Nat.id in Hloop by lia. change (Z.of_nat 0) with 0 in Hloop. by rewrite Hloop.
Qed.

Lemma Deallocate_loop_ok h l : forall i bm,
  Bitmap.wf bm -> drop i (dataSectors h) = l ++ drop (i + length l) (dataSectors h) ->
  Forall (fun x => 0 <= x < Bitmap.numBits bm /\ Bitmap.test bm x = true) l -> NoDup l ->
  exists bm', Deallocate_loop (seqZ (Z.of_nat i) (Z.of_nat (length l))) h bm = Ok bm' /\
    Bitmap.wf bm' /\ Bitmap.numBits bm' = Bitmap.numBits bm /\
    forall x, x ∈ Bitmap.free bm' <-> x ∈ l \/ x ∈ Bitmap.free bm.
Proof.
  induction l as [|d l IH]; intros i bm Hw Hdrop Hl Hnd.
  - rewrite seqZ_nil by done. exists bm. split_and!; try done. set_solver.
  - apply Forall_cons in Hl as [[Hd Ht] Hl]. apply NoDup_cons in Hnd as [Hdl Hnd].
    rewrite seqZ_cons by (cbn [length]; lia). cbn [Deallocate_loop].
    assert (Hi : dataSectors h !! i = Some d).
    { pose proof (lookup_drop (dataSectors h) i 0) as Hlk. rewrite Nat.add_0_r in Hlk. rewrite <- Hlk, Hdrop. done. }
    rewrite (proj2 (lget_ok _ _ d)) by (rewrite Nat2Z.id; split; [lia|done]). cbn [bind].
    rewrite Bitmap.Test_ok, Ht by done. cbn [bind assert].
    destruct (Bitmap.Clear_ok bm d Hw Hd) as (bm1 & -> & Hu). cbn [bind].
    replace (Z.succ (Z.of_nat i)) with (Z.of_nat (S i)) by lia.
    replace (Z.pred (Z.of_nat (length (d :: l)))) with (Z.of_nat (length l)) by (cbn [length]; lia).
    pose proof Hu as (Hw1 & Hn1 & Ht1).
    destruct (IH (S i) bm1 Hw1) as (bm' & -> & Hw' & Hn' & Hf'); [| |done|].
    + replace (S i + length l)%nat with (i + length (d :: l))%nat by (cbn [length]; lia).
      rewrite (drop_S _ _ _ Hi) in Hdrop. cbn [app] in Hdrop. by injection Hdrop as ->.
    + rewrite Hn1. apply Forall_forall. intros x Hx. pose proof (proj1 (Forall_forall _ _) Hl x Hx) as [Hb Hxt].
      split; [done|]. rewrite Ht1 by done. rewrite decide_False; [done|]. intros ->. done.
    + exists bm'. split; [done|]. split; [done|]. split; [congruence|]. intros x. rewrite Hf'.
      rewrite (Bitmap.free_Clear_in bm d bm1 x Hu Hd), elem_of_cons. tauto.
Qed.

Lemma Deallocate_ok freeMap h :
  Bitmap.wf freeMap -> Bitmap.numBits freeMap = NumSectors -> hdr_wf h ->
  Forall (fun x => x ∉ Bitmap.free freeMap) (blocks h) ->
  exists freeMap', Deallocate freeMap h = Ok freeMap' /\ Bitmap.wf freeMap' /\
    Bitmap.numBits freeMap' = Bitmap.numBits freeMap /\
    forall x, x ∈ Bitmap.free freeMap' <-> x ∈ blocks h \/ x ∈ Bitmap.free freeMap.
Proof.
  intros Hw Hn Hh Hb. unfold Deallocate. pose proof (numSectors_le h Hh) as Hs. pose proof (length_blocks h Hh) as Hl.
  rewrite <- Hl. apply (Deallocate_loop_ok h (blocks h) 0); [done| | |apply Hh].
  - rewrite drop_0, Nat.add_0_l. unfold blocks. rewrite length_take.
    pose proof (hw_length _ Hh). rewrite Nat.min_l by lia. by rewrite take_drop.
  - apply Forall_forall. intros x Hx. pose proof (proj1 (Forall_forall _ _) (hw_valid _ Hh) x Hx) as Hv.
    unfold valid in Hv. rewrite <- Hn in Hv. split; [done|].
    pose proof (proj1 (Forall_forall _ _) Hb x Hx) as Hnf. cbv beta in Hnf. rewrite Bitmap.elem_of_free in Hnf.
    destruct (Bitmap.test freeMap x); [done|]. tauto.
Qed.

End FileHdr.
