(* ===== verification/OpenFile.v ===== *)
(** * filesys/openfile.{h,cc}: open files on the simulated disk

    Reading and writing any range of bytes of a file through a disk that only
    transfers whole sectors.  The specification is a file as one sequence of bytes
    ([content]); the code's reads are slices of it and its writes splices into
    it. *)

From Stdlib Require Import Strings.Byte ZifyNat.
From S2P Require Import Prelude LibBitmap Disk SectorDevice FileHdr.

Module OpenFile.
Import Disk SectorDevice FileHdr.

Record OpenFile := mkOpen { hdr : FileHeader; seekPosition : Z }.

(** [bcopy] out of and into a buffer of known size. *)
Definition copy_out (buf : list byte) (pos n : Z) : result (list byte) :=
  if bool_decide (0 <= pos /\ pos + n <= Z.of_nat (length buf)) then Ok (take (Z.to_nat n) (drop (Z.to_nat pos) buf))
  else Fault OutOfBounds.

Definition copy_in (bs : list byte) (buf : list byte) (pos : Z) : result (list byte) :=
  if bool_decide (0 <= pos /\ pos + Z.of_nat (length bs) <= Z.of_nat (length buf)) then Ok (splice (Z.to_nat pos) bs buf)
  else Fault OutOfBounds.

Section device.
Context {S : Type} `{SectorDevice S}.

(** [new char[n]]: some bytes. *)
Context (fresh : Z -> list byte).

Definition Open (sector : Z) (s : S) : result (OpenFile * S) :=
  '(h, s) <- FetchFrom sector s ;; Ok (mkOpen h 0, s).

Definition Length (f : OpenFile) : Z := FileLength (hdr f).

Definition Seek (position : Z) (f : OpenFile) : OpenFile := mkOpen (hdr f) position.

Fixpoint read_sectors (h : FileHeader) (js : list Z) (s : S) : result (list byte * S) :=
  match js with
  | [] => Ok ([], s)
  | i :: js =>
      n <- ByteToSector h (i * SectorSize) ;;
      '(bs, s) <- ReadSector n s ;;
      '(rest, s) <- read_sectors h js s ;;
      Ok (bs ++ rest, s)
  end.

(** The bytes copied to [into]; their number is the result. *)
Definition ReadAt (h : FileHeader) (numBytes position : Z) (s : S) : result (list byte * S) :=
  let fileLength := FileLength h in
  if bool_decide (numBytes <= 0) || bool_decide (fileLength <= position) then Ok ([], s)
  else
    let numBytes := if bool_decide (fileLength < wrap32 (position + numBytes)) then fileLength - position else numBytes in
    let firstSector := divRoundDown position SectorSize in
    let lastSector := divRoundDown (wrap32 (position + numBytes - 1)) SectorSize in
    let numSectors := 1 + lastSector - firstSector in
    '(buf, s) <- read_sectors h (seqZ firstSector numSectors) s ;;
    bs <- copy_out buf (position - firstSector * SectorSize) numBytes ;;
    Ok (bs, s).

Fixpoint write_sectors (h : FileHeader) (js : list Z) (buf : list byte) (s : S) : result S :=
  match js with
  | [] => Ok s
  | i :: js =>
      n <- ByteToSector h (i * SectorSize) ;;
      s <- WriteSector n (take (Z.to_nat SectorSize) buf) s ;;
      write_sectors h js (drop (Z.to_nat SectorSize) buf) s
  end.

(** [from]: the bytes at the caller's pointer. *)
Definition WriteAt (h : FileHeader) (from : list byte) (numBytes position : Z) (s : S) : result (Z * S) :=
  let fileLength := FileLength h in
  if bool_decide (numBytes <= 0) || bool_decide (fileLength <= position) then Ok (0, s)
  else
    let numBytes := if bool_decide (fileLength < wrap32 (position + numBytes)) then fileLength - position else numBytes in
    let firstSector := divRoundDown position SectorSize in
    let lastSector := divRoundDown (wrap32 (position + numBytes - 1)) SectorSize in
    let numSectors := 1 + lastSector - firstSector in
    let buf := fresh (numSectors * SectorSize) in
    let firstAligned := bool_decide (position = firstSector * SectorSize) in
    let lastAligned := bool_decide (position + numBytes = (lastSector + 1) * SectorSize) in
    '(buf, s) <- (if negb firstAligned then
                    '(bs, s) <- ReadAt h SectorSize (firstSector * SectorSize) s ;;
                    buf <- copy_in bs buf 0 ;; Ok (buf, s)
                  else Ok (buf, s)) ;;
    '(buf, s) <- (if negb lastAligned && (negb (bool_decide (firstSector = lastSector)) || firstAligned) then
                    '(bs, s) <- ReadAt h SectorSize (lastSector * SectorSize) s ;;
                    buf <- copy_in bs buf ((lastSector - firstSector) * SectorSize) ;; Ok (buf, s)
                  else Ok (buf, s)) ;;
    bs <- copy_out from 0 numBytes ;;
    buf <- copy_in bs buf (position - firstSector * SectorSize) ;;
    s <- write_sectors h (seqZ firstSector numSectors) buf s ;;
    Ok (numBytes, s).

Definition Read (numBytes : Z) (f : OpenFile) (s : S) : result (list byte * OpenFile * S) :=
  '(bs, s) <- ReadAt (hdr f) numBytes (seekPosition f) s ;;
  Ok (bs, Seek (wrap32 (seekPosition f + Z.of_nat (length bs))) f, s).

Definition Write (from : list byte) (numBytes : Z) (f : OpenFile) (s : S) : result (Z * OpenFile * S) :=
  '(n, s) <- WriteAt (hdr f) from numBytes (seekPosition f) s ;;
  Ok (n, Seek (wrap32 (seekPosition f + n)) f, s).
End device.

(** ** A file as a sequence of bytes *)

Section contents.
Context {S : Type} `{SectorDevice S} (fresh : Z -> list byte).
Hypothesis fresh_length : forall n, 0 <= n -> Z.of_nat (length (fresh n)) = n.

Definition raw (h : FileHeader) (s : S) : list byte := concat (contents s <$> blocks h).
Definition content (h : FileHeader) (s : S) : list byte := take (Z.to_nat (numBytes h)) (raw h s).

Definition same_contents (s s' : S) : Prop := forall m, valid m -> contents s' m = contents s m.

Lemma same_contents_refl s : same_contents s s.
Proof using Type. by intros m. Qed.

Lemma same_contents_trans s1 s2 s3 : same_contents s1 s2 -> same_contents s2 s3 -> same_contents s1 s3.
Proof using Type. intros H1 H2 m Hm. by rewrite H2, H1. Qed.

Lemma raw_same h s s' : Forall valid (blocks h) -> same_contents s s' -> raw h s' = raw h s.
Proof using Type.
  intros Hv Hs. unfold raw. f_equal. induction Hv as [|x l Hx Hl IH]; [done|]. rewrite !fmap_cons, IH. f_equal. by apply Hs.
Qed.

Lemma content_same h s s' : Forall valid (blocks h) -> same_contents s s' -> content h s' = content h s.
Proof using Type. intros Hv Hs. unfold content. by rewrite (raw_same h s s'). Qed.

Lemma sectors_length b s l : usable b s -> Forall valid l ->
  length (concat (contents s <$> l)) = (128 * length l)%nat.
Proof using Type.
  intros Hu. induction 1 as [|x l Hx Hl IH]; [done|]. rewrite fmap_cons. cbn [concat]. rewrite length_app, IH.
  pose proof (contents_length b s x Hu Hx) as Hc. change SectorSize with 128 in Hc. cbn [length]. lia.
Qed.

(** Byte [x] of the sectors [l]. *)
Lemma sectors_lookup b s l (x : nat) : usable b s -> Forall valid l ->
  concat (contents s <$> l) !! x = m ← l !! (x / 128)%nat; contents s m !! (x mod 128)%nat.
Proof using Type.
  intros Hu Hl. revert x. induction Hl as [|n l Hn Hl IH]; intros x; [done|].
  rewrite fmap_cons. cbn [concat]. pose proof (contents_length b s n Hu Hn) as Hc. change SectorSize with 128 in Hc.
  assert (Hlen : length (contents s n) = 128%nat) by lia. clear Hc.
  destruct (decide (x < 128)%nat) as [Hx|Hx].
  - rewrite lookup_app_l by lia. rewrite Nat.div_small, Nat.mod_small by done. done.
  - rewrite lookup_app_r by lia. rewrite IH, Hlen.
    replace (x / 128)%nat with (Datatypes.S ((x - 128) / 128)) by (zify; dlia).
    replace (x mod 128)%nat with ((x - 128) mod 128)%nat by (zify; dlia). done.
Qed.

Lemma raw_length b h s : hdr_wf h -> usable b s -> Z.of_nat (length (raw h s)) = 128 * numSectors h.
Proof using Type.
  intros Hh Hu. unfold raw. rewrite (sectors_length b) by (done || apply Hh). pose proof (length_blocks h Hh). lia.
Qed.

Lemma numBytes_raw h : hdr_wf h -> numBytes h <= 128 * numSectors h < numBytes h + 128.
Proof using Type.
  intros Hh. rewrite (hw_sectors _ Hh). pose proof (divRoundUp_spec (numBytes h) SectorSize ltac:(done) (proj1 (hw_bytes _ Hh))) as Hd.
  change SectorSize with 128 in *. lia.
Qed.

Lemma content_length b h s : hdr_wf h -> usable b s -> Z.of_nat (length (content h s)) = numBytes h.
Proof using Type.
  intros Hh Hu. unfold content. pose proof (raw_length b h s Hh Hu). pose proof (numBytes_raw h Hh). pose proof (hw_bytes _ Hh).
  rewrite length_take. lia.
Qed.

Lemma block_ok h i : hdr_wf h -> 0 <= i < numSectors h ->
  exists n, ByteToSector h (i * SectorSize) = Ok n /\ blocks h !! Z.to_nat i = Some n /\ valid n.
Proof using Type.
  intros Hh Hi. pose proof (length_blocks h Hh) as Hl. destruct (lookup_lt_is_Some_2 (blocks h) (Z.to_nat i)) as [n Hn]; [lia|].
  exists n. split; [|split; [done|by apply (Forall_lookup_1 _ _ _ _ (hw_valid _ Hh) Hn)]].
  unfold ByteToSector. rewrite Z.quot_mul by done. apply lget_ok. split; [lia|].
  unfold blocks in Hn. apply lookup_take_Some in Hn. tauto.
Qed.

Lemma read_sectors_ok h k : forall f b s, hdr_wf h -> (Z.of_nat f + Z.of_nat k <= numSectors h) -> usable (k + b) s ->
  exists s', read_sectors h (seqZ (Z.of_nat f) (Z.of_nat k)) s = Ok (concat (contents s <$> take k (drop f (blocks h))), s') /\
    usable b s' /\ same_contents s s'.
Proof using Type.
  induction k as [|k IH]; intros f b s Hh Hk Hu.
  - rewrite seqZ_nil by done. exists s. rewrite take_0. split; [done|]. by split.
  - rewrite seqZ_cons by lia. cbn [read_sectors]. destruct (block_ok h (Z.of_nat f) Hh) as (n & -> & Hn & Hv); [lia|]. cbn [bind].
    destruct (ReadSector_spec (k + b) s n Hu Hv) as (s1 & -> & Hu1 & Hs1). cbn [bind].
    replace (Z.succ (Z.of_nat f)) with (Z.of_nat (Datatypes.S f)) by lia.
    replace (Z.pred (Z.of_nat (Datatypes.S k))) with (Z.of_nat k) by lia.
    destruct (IH (Datatypes.S f) b s1 Hh) as (s2 & -> & Hu2 & Hs2); [lia|done|]. cbn [bind]. exists s2.
    split; [|split; [done|by eapply same_contents_trans]]. rewrite Nat2Z.id in Hn. rewrite (drop_S _ _ _ Hn). cbn [take].
    rewrite fmap_cons. cbn [concat]. do 4 f_equal. apply list_fmap_ext. intros i x Hx. apply Hs1.
    apply lookup_take_Some in Hx as [Hx _]. rewrite lookup_drop in Hx. by apply (Forall_lookup_1 _ _ _ _ (hw_valid _ Hh) Hx).
Qed.

Lemma sectors_slice b s l f k : usable b s -> Forall valid l ->
  concat (contents s <$> take k (drop f l)) = take (128 * k) (drop (128 * f) (concat (contents s <$> l))).
Proof using Type.
  intros Hu Hl. apply list_eq. intros x. rewrite (sectors_lookup b) by (done || by apply Forall_take, Forall_drop).
  destruct (decide (x < 128 * k)%nat) as [Hx|Hx].
  - rewrite lookup_take_lt by (zify; dlia). rewrite !lookup_drop, lookup_take_lt by done. rewrite lookup_drop, (sectors_lookup b) by done.
    replace ((128 * f + x) / 128)%nat with (f + x / 128)%nat by (zify; dlia).
    by replace ((128 * f + x) mod 128)%nat with (x mod 128)%nat by (zify; dlia).
  - rewrite lookup_take_ge by (zify; dlia). by rewrite lookup_take_ge by lia.
Qed.

(** The range of sectors a request of [n > 0] bytes at [pos] touches. *)
Lemma range_ok h pos n :
  hdr_wf h -> 0 <= pos -> 0 < n -> pos + n <= numBytes h ->
  exists f k : nat, divRoundDown pos SectorSize = Z.of_nat f /\
    1 + divRoundDown (wrap32 (pos + n - 1)) SectorSize - Z.of_nat f = Z.of_nat (1 + k) /\
    Z.of_nat f + Z.of_nat (1 + k) <= numSectors h /\
    128 * Z.of_nat f <= pos < 128 * (Z.of_nat f + 1) /\
    128 * (Z.of_nat f + Z.of_nat k) < pos + n <= 128 * (Z.of_nat f + Z.of_nat k + 1).
Proof using Type.
  intros Hh Hp Hn Hb. pose proof (hw_bytes _ Hh) as Hnb. pose proof (numBytes_raw h Hh) as Hr.
  unfold MaxFileSize, divRoundDown in *. change NumDirect with 30 in *. change SectorSize with 128 in *.
  rewrite wrap32_small by (unfold int_range; lia). rewrite !Z.quot_div_nonneg by lia.
  exists (Z.to_nat (pos / 128)), (Z.to_nat ((pos + n - 1) / 128 - pos / 128)). split_and!; dlia.
Qed.

(** The number of bytes a request of [n] bytes transfers. *)
Definition clamp (h : FileHeader) (n pos : Z) : Z := Z.min n (numBytes h - pos).

Lemma clamp_eq h n pos :
  hdr_wf h -> 0 <= pos < numBytes h -> 0 < n -> pos + n < 2 ^ 31 ->
  (if bool_decide (FileLength h < wrap32 (pos + n)) then FileLength h - pos else n) = clamp h n pos.
Proof using Type.
  intros Hh Hp Hn Ho. rewrite wrap32_small by (unfold int_range; lia). unfold clamp, FileLength. case_bool_decide; lia.
Qed.

Lemma OpenFile_ReadAt_ok b h n pos s :
  hdr_wf h -> usable (30 + b) s -> 0 <= pos -> pos + n < 2 ^ 31 ->
  exists s', ReadAt h n pos s = Ok (take (Z.to_nat n) (drop (Z.to_nat pos) (content h s)), s') /\
    usable b s' /\ same_contents s s'.
Proof using Type.
  intros Hh Hu Hp Ho. pose proof (content_length (30 + b) h s Hh Hu) as Hcl. unfold ReadAt. fold (FileLength h).
  destruct (bool_decide (n <= 0) || bool_decide (FileLength h <= pos)) eqn:Hc.
  { exists s. split; [|split; [eapply usable_mono; [|done]; lia|done]]. do 2 f_equal. symmetry. apply nil_length_inv.
    rewrite length_take, length_drop. rewrite orb_true_iff, !bool_decide_eq_true in Hc. unfold FileLength in Hc. lia. }
  apply orb_false_iff in Hc as [Hn%bool_decide_eq_false Hf%bool_decide_eq_false]. unfold FileLength in Hf.
  rewrite clamp_eq by (done || lia). set (n' := clamp h n pos).
  assert (Hn' : 0 < n' <= n /\ pos + n' <= numBytes h) by (unfold n', clamp; lia).
  destruct (range_ok h pos n' Hh Hp) as (f & k & -> & Hk & Hfk & Hlo & Hhi); [lia|lia|]. rewrite Hk.
  pose proof (numSectors_le h Hh) as Hns. change NumDirect with 30 in Hns.
  destruct (read_sectors_ok h (1 + k) f b s Hh Hfk) as (s' & -> & Hu' & Hs'); [eapply usable_mono; [|done]; lia|].
  cbn [bind]. rewrite (sectors_slice (30 + b)) by (done || apply Hh). fold (raw h s). pose proof (raw_length (30 + b) h s Hh Hu) as Hrl.
  change SectorSize with 128. unfold copy_out. rewrite bool_decide_eq_true_2 by (rewrite length_take, length_drop; lia). cbn [bind].
  exists s'. split; [|done]. do 2 f_equal. apply list_eq. intros x. unfold content.
  destruct (decide (x < Z.to_nat n')%nat) as [Hx|Hx].
  - rewrite lookup_take_lt, lookup_drop, lookup_take_lt, lookup_drop by lia.
    rewrite lookup_take_lt, lookup_drop, lookup_take_lt by lia. f_equal. lia.
  - rewrite lookup_take_ge by lia. symmetry. destruct (decide (x < Z.to_nat n)%nat) as [Hx2|Hx2]; [|by rewrite lookup_take_ge by lia].
    rewrite lookup_take_lt, lookup_drop by done. apply lookup_take_ge. unfold n', clamp in *. lia.
Qed.

(** Writing [k] whole sectors from sector [f] of the file on. *)
Lemma write_sectors_ok h k : forall f b buf s, hdr_wf h -> Z.of_nat f + Z.of_nat k <= numSectors h -> usable (k + b) s ->
  length buf = (128 * k)%nat ->
  exists s', write_sectors h (seqZ (Z.of_nat f) (Z.of_nat k)) buf s = Ok s' /\ usable b s' /\
    (forall m, valid m -> m ∉ take k (drop f (blocks h)) -> contents s' m = contents s m) /\
    (forall i m, (i < k)%nat -> blocks h !! (f + i)%nat = Some m -> contents s' m = take 128 (drop (128 * i) buf)).
Proof using Type.
  induction k as [|k IH]; intros f b buf s Hh Hk Hu Hb.
  - rewrite seqZ_nil by done. exists s. split_and!; try done. intros i m Hi. lia.
  - rewrite seqZ_cons by lia. cbn [write_sectors]. destruct (block_ok h (Z.of_nat f) Hh) as (n & -> & Hn & Hv); [lia|]. cbn [bind].
    rewrite Nat2Z.id in Hn. change (Z.to_nat SectorSize) with 128%nat.
    destruct (WriteSector_spec (k + b) s n (take 128 buf) Hu Hv) as (s1 & -> & Hu1 & Hs1).
    { change SectorSize with 128. rewrite length_take. lia. }
    cbn [bind]. replace (Z.succ (Z.of_nat f)) with (Z.of_nat (Datatypes.S f)) by lia.
    replace (Z.pred (Z.of_nat (Datatypes.S k))) with (Z.of_nat k) by lia.
    destruct (IH (Datatypes.S f) b (drop 128 buf) s1 Hh) as (s2 & -> & Hu2 & Hout & Hin); [lia|done|rewrite length_drop; lia|].
    exists s2. split; [done|]. split; [done|]. rewrite (drop_S _ _ _ Hn). cbn [take].
    assert (Hnd : n ∉ take k (drop (Datatypes.S f) (blocks h))).
    { pose proof (hw_distinct _ Hh) as Hd. rewrite <- (take_drop_middle _ _ _ Hn) in Hd. apply NoDup_app in Hd as (_ & _ & Hd).
      apply NoDup_cons in Hd as [Hd _]. intros Hx. apply Hd. apply list_elem_of_lookup in Hx as [j Hx].
      apply lookup_take_Some in Hx as [Hx _]. by eapply list_elem_of_lookup_2. }
    split.
    + intros m Hm Hnot. rewrite Hout by (done || intros Hx; apply Hnot; by right).
      rewrite Hs1 by done. case_decide; [|done]. subst. destruct Hnot. left.
    + intros i m Hi Hm. destruct i as [|i].
      * rewrite Nat.add_0_r, Hn in Hm. injection Hm as <-. rewrite Hout by done. rewrite Hs1, decide_True by done.
        by rewrite Nat.mul_0_r, drop_0.
      * rewrite (Hin i m); [|lia|by rewrite <- Hm; f_equal; lia]. rewrite drop_drop. f_equal. f_equal. lia.
Qed.

(** The effect on the bytes of the file. *)
Lemma write_sectors_raw h k f b buf s : hdr_wf h -> Z.of_nat f + Z.of_nat k <= numSectors h -> usable (k + b) s ->
  length buf = (128 * k)%nat ->
  exists s', write_sectors h (seqZ (Z.of_nat f) (Z.of_nat k)) buf s = Ok s' /\ usable b s' /\
    (forall m, valid m -> m ∉ blocks h -> contents s' m = contents s m) /\
    raw h s' = splice (128 * f) buf (raw h s).
Proof using Type.
  intros Hh Hk Hu Hb. destruct (write_sectors_ok h k f b buf s Hh Hk Hu Hb) as (s' & Hw & Hu' & Hout & Hin).
  pose proof (raw_length (k + b) h s Hh Hu) as Hrl.
  exists s'. split; [done|]. split; [done|]. split.
  { intros m Hm Hnot. apply Hout; [done|]. intros Hx. apply Hnot. apply list_elem_of_lookup in Hx as [j Hx].
    apply lookup_take_Some in Hx as [Hx _]. rewrite lookup_drop in Hx. by eapply list_elem_of_lookup_2. }
  apply list_eq. intros x. rewrite splice_lookup by (rewrite Hb; lia). unfold raw.
  rewrite (sectors_lookup b) by (done || apply Hh). rewrite (sectors_lookup (k + b)) by (done || apply Hh).
  destruct (blocks h !! (x / 128)%nat) as [m|] eqn:Hm; cbn [mbind option_bind].
  - case_decide as E.
    + rewrite (Hin (x / 128 - f)%nat m) by (try (rewrite <- Hm; f_equal); zify; dlia).
      rewrite lookup_take_lt, lookup_drop by (zify; dlia). f_equal. rewrite Hb in E. zify; dlia.
    + rewrite Hout; [done|by apply (Forall_lookup_1 _ _ _ _ (hw_valid _ Hh) Hm)|]. intros Hx.
      apply list_elem_of_lookup in Hx as [j Hx]. apply lookup_take_Some in Hx as [Hx Hj]. rewrite lookup_drop in Hx.
      pose proof (NoDup_lookup _ _ _ _ (hw_distinct _ Hh) Hm Hx). rewrite Hb in E. zify; dlia.
  - case_decide as E; [|done]. apply lookup_ge_None in Hm. pose proof (length_blocks h Hh). rewrite Hb in E. zify; dlia.
Qed.

(** Sector [j] of the file is read into its place in a buffer for the sectors
    from [f] on; only the bytes of the file are. *)
Definition fill (h : FileHeader) (j f : Z) (buf : list byte) (s : S) : result (list byte * S) :=
  '(bs, s) <- ReadAt h SectorSize (j * SectorSize) s ;;
  buf <- copy_in bs buf ((j - f) * SectorSize) ;; Ok (buf, s).

Lemma fill_ok b h (j f k : nat) buf s :
  hdr_wf h -> usable (30 + b) s -> (f <= j < f + k)%nat -> Z.of_nat f + Z.of_nat k <= numSectors h ->
  length buf = (128 * k)%nat ->
  exists buf' s', fill h (Z.of_nat j) (Z.of_nat f) buf s = Ok (buf', s') /\ usable b s' /\ same_contents s s' /\
    length buf' = length buf /\
    forall y, buf' !! y = if decide (128 * (j - f) <= y < 128 * (j - f) + 128 /\ y + 128 * f < Z.to_nat (numBytes h))%nat
                          then content h s !! (y + 128 * f)%nat else buf !! y.
Proof using Type.
  intros Hh Hu Hj Hk Hb. pose proof (content_length (30 + b) h s Hh Hu) as Hcl. pose proof (numSectors_le h Hh) as Hns.
  pose proof (numBytes_raw h Hh) as Hr. change NumDirect with 30 in Hns. unfold fill. change SectorSize with 128.
  destruct (OpenFile_ReadAt_ok b h 128 (Z.of_nat j * 128) s Hh Hu) as (s' & -> & Hu' & Hs'); [lia|lia|]. cbn [bind].
  set (bs := take _ _). assert (Hbs : length bs = Nat.min 128 (Z.to_nat (numBytes h) - 128 * j)) by (unfold bs; rewrite length_take, length_drop; lia).
  unfold copy_in. rewrite bool_decide_eq_true_2 by lia. cbn [bind]. replace (Z.to_nat ((Z.of_nat j - Z.of_nat f) * 128)) with (128 * (j - f))%nat by lia.
  do 2 eexists. split; [done|]. split; [done|]. split; [done|]. split; [apply splice_length; lia|].
  intros y. rewrite splice_lookup by lia. repeat case_decide; try lia; [|done].
  unfold bs. rewrite lookup_take_lt, lookup_drop by lia. f_equal. lia.
Qed.

(** The two reads that bring in the unmodified ends of the first and the last
    sector: [k + 1] sectors from [f] on, [n] bytes at [pos]. *)
Definition prepare (h : FileHeader) (f last pos n : Z) (buf : list byte) (s : S) : result (list byte * S) :=
  let firstAligned := bool_decide (pos = f * SectorSize) in
  let lastAligned := bool_decide (pos + n = (last + 1) * SectorSize) in
  '(buf, s) <- (if negb firstAligned then fill h f f buf s else Ok (buf, s)) ;;
  if negb lastAligned && (negb (bool_decide (f = last)) || firstAligned) then fill h last f buf s else Ok (buf, s).

Lemma prepare_ok b h (f k : nat) pos n buf s :
  hdr_wf h -> usable (60 + b) s -> Z.of_nat f + Z.of_nat (1 + k) <= numSectors h -> length buf = (128 * (1 + k))%nat ->
  128 * Z.of_nat f <= pos < 128 * (Z.of_nat f + 1) ->
  128 * (Z.of_nat f + Z.of_nat k) < pos + n <= 128 * (Z.of_nat f + Z.of_nat k + 1) ->
  exists buf' s', prepare h (Z.of_nat f) (Z.of_nat (f + k)) pos n buf s = Ok (buf', s') /\ usable b s' /\ same_contents s s' /\
    length buf' = length buf /\
    forall y, (y < 128 * (1 + k))%nat -> (y + 128 * f < Z.to_nat (numBytes h))%nat ->
      Z.of_nat (y + 128 * f) < pos \/ pos + n <= Z.of_nat (y + 128 * f) -> buf' !! y = content h s !! (y + 128 * f)%nat.
Proof using Type.
  intros Hh Hu Hk Hb Hlo Hhi. unfold prepare. change SectorSize with 128.
  assert (H1 : exists buf1 s1, (if negb (bool_decide (pos = Z.of_nat f * 128)) then fill h (Z.of_nat f) (Z.of_nat f) buf s else Ok (buf, s)) =
      Ok (buf1, s1) /\ usable (30 + b) s1 /\ same_contents s s1 /\ length buf1 = length buf /\
      (pos <> Z.of_nat f * 128 -> forall y, (y < 128)%nat -> (y + 128 * f < Z.to_nat (numBytes h))%nat -> buf1 !! y = content h s !! (y + 128 * f)%nat)).
  { case_bool_decide; cbn [negb].
    - exists buf, s. split; [done|]. split; [eapply usable_mono; [|done]; lia|]. by split_and!.
    - destruct (fill_ok (30 + b) h f f (1 + k) buf s Hh Hu) as (buf1 & s1 & -> & Hu1 & Hs1 & Hl1 & Hx1); [lia|lia|done|].
      exists buf1, s1. split; [done|]. split; [done|]. split; [done|]. split; [done|]. intros _ y Hy HyL.
      rewrite Hx1, decide_True by lia. done. }
  destruct H1 as (buf1 & s1 & -> & Hu1 & Hs1 & Hl1 & Hx1). cbn [bind].
  destruct (negb (bool_decide (pos + n = (Z.of_nat (f + k) + 1) * 128)) &&
    (negb (bool_decide (Z.of_nat f = Z.of_nat (f + k))) || bool_decide (pos = Z.of_nat f * 128))) eqn:Hc.
  - destruct (fill_ok b h (f + k) f (1 + k) buf1 s1 Hh Hu1) as (buf2 & s2 & -> & Hu2 & Hs2 & Hl2 & Hx2); [lia|lia|congruence|].
    exists buf2, s2. split; [done|]. split; [done|]. split; [by eapply same_contents_trans|]. split; [congruence|].
    intros y Hy HyL Hout. rewrite Hx2. rewrite (content_same h s s1) by (done || apply Hh).
    destruct (decide ((128 * (f + k - f) <= y < 128 * (f + k - f) + 128)%nat /\ (y + 128 * f < Z.to_nat (numBytes h))%nat)); [done|].
    apply andb_true_iff in Hc as [_ Hc]. rewrite orb_true_iff, negb_true_iff, bool_decide_eq_false, bool_decide_eq_true in Hc.
    apply Hx1; lia.
  - exists buf1, s1. split; [done|]. split; [eapply usable_mono; [|done]; lia|]. split; [done|]. split; [done|].
    intros y Hy HyL Hout. apply andb_false_iff in Hc. rewrite orb_false_iff, !negb_false_iff, !bool_decide_eq_true, bool_decide_eq_false in Hc.
    apply Hx1; lia.
Qed.

(** The bytes written: those of [from] that fall inside the file. *)
Lemma WriteAt_ok b h from n pos s :
  hdr_wf h -> usable (90 + b) s -> 0 <= pos -> pos + n < 2 ^ 31 -> n <= Z.of_nat (length from) ->
  exists s' c, WriteAt fresh h from n pos s = Ok (c, s') /\ usable b s' /\
    c = Z.max 0 (Z.min n (numBytes h - pos)) /\
    (forall m, valid m -> m ∉ blocks h -> contents s' m = contents s m) /\
    content h s' = (if decide (0 < c) then splice (Z.to_nat pos) (take (Z.to_nat c) from) (content h s) else content h s).
Proof using fresh_length.
  intros Hh Hu Hp Ho Hfrom. pose proof (content_length (90 + b) h s Hh Hu) as Hcl. unfold WriteAt.
  destruct (bool_decide (n <= 0) || bool_decide (FileLength h <= pos)) eqn:Hc.
  { exists s, 0. rewrite orb_true_iff, !bool_decide_eq_true in Hc. unfold FileLength in Hc. split; [done|].
    split; [eapply usable_mono; [|done]; lia|]. split; [lia|]. split; [done|]. by rewrite decide_False. }
  apply orb_false_iff in Hc as [Hn%bool_decide_eq_false Hf%bool_decide_eq_false]. unfold FileLength in Hf.
  rewrite clamp_eq by (done || lia). set (n' := clamp h n pos).
  assert (Hn' : 0 < n' <= n /\ pos + n' <= numBytes h) by (unfold n', clamp; lia).
  replace (Z.max 0 (Z.min n (numBytes h - pos))) with n' by (unfold n', clamp; lia).
  destruct (range_ok h pos n' Hh Hp) as (f & k & -> & Hk & Hfk & Hlo & Hhi); [lia|lia|].
  set (last := divRoundDown (wrap32 (pos + n' - 1)) SectorSize) in *. assert (Hlast : last = Z.of_nat (f + k)) by lia. clearbody last. subst last.
  rewrite Hk. set (buf0 := fresh _). pose proof (numSectors_le h Hh) as Hns. change NumDirect with 30 in Hns.
  assert (Hb0 : length buf0 = (128 * (1 + k))%nat).
  { pose proof (fresh_length (Z.of_nat (1 + k) * SectorSize) ltac:(change SectorSize with 128; lia)) as Hfl. fold buf0 in Hfl. change SectorSize with 128 in Hfl. lia. }
  destruct (prepare_ok (30 + b) h f k pos n' buf0 s Hh Hu Hfk Hb0 Hlo Hhi) as (buf2 & s2 & Hprep & Hu2 & Hs2 & Hl2 & Hx2).
  revert Hprep. unfold prepare, fill. rewrite Z.sub_diag, Z.mul_0_l.
  intros Hprep. apply bind_ok in Hprep as ([buf1 s1] & H1 & H2). rewrite H1. cbn [bind]. rewrite H2. cbn [bind].
  unfold copy_out at 1. rewrite bool_decide_eq_true_2 by lia. cbn [bind]. rewrite drop_0. set (bs := take (Z.to_nat n') from).
  assert (Hbs : length bs = Z.to_nat n') by (unfold bs; rewrite length_take; lia). change SectorSize with 128.
  unfold copy_in. rewrite bool_decide_eq_true_2 by lia. cbn [bind].
  replace (Z.to_nat (pos - Z.of_nat f * 128)) with (Z.to_nat pos - 128 * f)%nat by lia.
  set (buf3 := splice _ bs buf2). assert (Hb3 : length buf3 = (128 * (1 + k))%nat) by (unfold buf3; rewrite splice_length by lia; lia).
  destruct (write_sectors_raw h (1 + k) f b buf3 s2 Hh Hfk) as (s3 & -> & Hu3 & Hout & Hraw); [eapply usable_mono; [|done]; lia|done|].
  cbn [bind]. exists s3, n'. split; [done|]. split; [done|]. split; [done|]. split.
  { intros m Hm Hnot. rewrite Hout by done. by apply Hs2. }
  rewrite decide_True by lia. pose proof (raw_length (90 + b) h s Hh Hu) as Hrl. pose proof (numBytes_raw h Hh) as Hr.
  unfold content at 1. rewrite Hraw, (raw_same h s s2) by (done || apply Hh).
  fold bs. apply list_eq. intros x. rewrite (splice_lookup (Z.to_nat pos)) by lia. rewrite Hbs.
  destruct (decide (x < Z.to_nat (numBytes h))%nat) as [Hx|Hx].
  2: { rewrite lookup_take_ge by lia. rewrite decide_False by lia. symmetry. apply lookup_ge_None. lia. }
  rewrite lookup_take_lt by done. rewrite splice_lookup, Hb3 by lia.
  destruct (decide (Z.to_nat pos <= x < Z.to_nat pos + Z.to_nat n')%nat) as [E2|E2].
  { rewrite decide_True by lia. unfold buf3. rewrite splice_lookup, decide_True by lia. f_equal. lia. }
  destruct (decide (128 * f <= x < 128 * f + 128 * (1 + k))%nat) as [E1|E1].
  - unfold buf3. rewrite splice_lookup, decide_False, Hx2 by lia. f_equal. lia.
  - unfold content. by rewrite lookup_take_lt.
Qed.

(** ** Properties *)

(** C35: a write is what later reads see: [WriteAt] stores as much of the buffer
    as fits before the end of the file, whatever the alignment, leaves every
    sector of the other files as it was, and [ReadAt] at any position then
    returns the updated bytes, cut at the end of the file. *)
Theorem OpenFile_write_then_read b h from n pos s :
  hdr_wf h -> usable (120 + b) s -> 0 <= pos -> pos + n < 2 ^ 31 -> n <= Z.of_nat (length from) ->
  exists c s1, WriteAt fresh h from n pos s = Ok (c, s1) /\ c = Z.max 0 (Z.min n (numBytes h - pos)) /\
    (forall m, valid m -> m ∉ blocks h -> contents s1 m = contents s m) /\
    forall n' pos', 0 <= pos' -> pos' + n' < 2 ^ 31 ->
      exists s2, ReadAt h n' pos' s1 = Ok (take (Z.to_nat n') (drop (Z.to_nat pos')
          (if decide (0 < c) then splice (Z.to_nat pos) (take (Z.to_nat c) from) (content h s) else content h s)), s2) /\
        same_contents s1 s2.
Proof using fresh_length.
  intros Hh Hu Hp Ho Hn. destruct (WriteAt_ok (30 + b) h from n pos s Hh) as (s1 & c & Hrun & Hu1 & Hc & Hout & Hcon); [|done|done|done|].
  { eapply usable_mono; [|exact Hu]. lia. }
  exists c, s1. split; [done|]. split; [done|]. split; [done|]. intros n' pos' Hp' Ho'.
  destruct (OpenFile_ReadAt_ok b h n' pos' s1 Hh Hu1 Hp' Ho') as (s2 & Hr & _ & Hs2). exists s2. rewrite <- Hcon. done.
Qed.

End contents.

(** A file of 200 bytes in the sectors 7 and 9 of a blank image. *)
Definition hdr_example : FileHeader := mkHdr 200 2 (7 :: 9 :: replicate 28 0).

Lemma hdr_example_wf : hdr_wf hdr_example.
Proof.
  split.
  - by vm_compute.
  - reflexivity.
  - reflexivity.
  - apply (bool_decide_unpack _). reflexivity.
  - change (Forall valid [7; 9]). unfold valid, NumSectors, SectorsPerTrack, NumTracks. repeat (apply Forall_cons; split; [lia|]). apply Forall_nil_2.
  - change (NoDup [7; 9]). apply (bool_decide_unpack _). reflexivity.
Qed.

Definition zeros (n : Z) : list byte := replicate (Z.to_nat n) x00.

Lemma zeros_length n : 0 <= n -> Z.of_nat (length (zeros n)) = n.
Proof. intros Hn. unfold zeros. rewrite length_replicate. lia. Qed.

Lemma OpenFile_write_then_read_witness :
  exists c s1, WriteAt zeros hdr_example [x01; x02; x03] 3 127 (∅ : image) = Ok (c, s1) /\ c = 3 /\
    forall n' pos', 0 <= pos' -> pos' + n' < 2 ^ 31 -> exists bs s2, ReadAt hdr_example n' pos' s1 = Ok (bs, s2).
Proof.
  destruct (OpenFile_write_then_read zeros zeros_length 0 hdr_example [x01; x02; x03] 3 127 (∅ : image)) as (c & s1 & H1 & H2 & _ & H3).
  - apply hdr_example_wf.
  - apply map_Forall_empty.
  - lia.
  - lia.
  - by vm_compute.
  - exists c, s1. split; [exact H1|]. split; [rewrite H2; by vm_compute|]. intros n' pos' Hp Ho.
    destruct (H3 n' pos' Hp Ho) as (s2 & H4 & _). by do 2 eexists.
Defined.

End OpenFile.
