(* ===== verification/Directory.v ===== *)
(** * filesys/directory.{h,cc}: the directory

    A table of a fixed number of entries, each the name of a file and the sector
    of its header; in memory and, byte for byte, in a file.  The specification is
    a finite map from names, of which nine characters count. *)

From Stdlib Require Import Strings.Byte.
From S2P Require Import Prelude Disk SectorDevice FileHdr OpenFile.

Module Directory.
Import Disk SectorDevice FileHdr OpenFile.

Definition FileNameMaxLen : nat := 9%nat.

(** [pad1] and [pad2] are the bytes the compiler adds to align the fields. *)
Record DirectoryEntry := mkEntry {
  inUse : bool;
  pad1 : list byte;
  sector : Z;
  name : list byte;
  pad2 : list byte
}.

(** [sizeof(DirectoryEntry)] *)
Definition EntrySize : nat := 20%nat.

Definition entry_bytes (e : DirectoryEntry) : list byte :=
  (if inUse e then x01 else x00) :: pad1 e ++ le_bytes 4 (sector e) ++ name e ++ pad2 e.

Definition bytes_entry (bs : list byte) : DirectoryEntry :=
  mkEntry (match bs with b :: _ => negb (bool_decide (b = x00)) | [] => false end) (take 3 (drop 1 bs))
    (wrap32 (le_val (take 4 (drop 4 bs)))) (take 10 (drop 8 bs)) (take 2 (drop 18 bs)).

Fixpoint table_bytes (t : list DirectoryEntry) : list byte :=
  match t with [] => [] | e :: t => entry_bytes e ++ table_bytes t end.

Fixpoint bytes_table (n : nat) (bs : list byte) : list DirectoryEntry :=
  match n with O => [] | S n => bytes_entry (take EntrySize bs) :: bytes_table n (drop EntrySize bs) end.

(** ** Names

    A name is the bytes of a C string; at its end is a NUL. *)

(** [!strncmp(a, b, n)] *)
Fixpoint strn_eq (n : nat) (a b : list byte) : bool :=
  match n with
  | O => true
  | S n =>
      let x := hd x00 a in
      bool_decide (x = hd x00 b) && (bool_decide (x = x00) || strn_eq n (tl a) (tl b))
  end.

(** The characters [strncpy(dst, src, n)] stores: those of [src], then NULs. *)
Fixpoint strn_chars (n : nat) (src : list byte) : list byte :=
  match n with
  | O => []
  | S n => if bool_decide (hd x00 src = x00) then replicate (S n) x00 else hd x00 src :: strn_chars n (tl src)
  end.

Definition strncpy (dst src : list byte) (n : nat) : list byte := strn_chars n src ++ drop n dst.

(** ** The class *)

Record Directory := mkDir { tableSize : Z; table : list DirectoryEntry }.

Definition set_inUse (b : bool) (e : DirectoryEntry) : DirectoryEntry := mkEntry b (pad1 e) (sector e) (name e) (pad2 e).

(** [Directory::Directory(size)], on the bytes [mem] that [new] returned. *)
Definition new_Directory (mem : list byte) (size : Z) : Directory :=
  mkDir size (set_inUse false <$> bytes_table (Z.to_nat size) mem).

Fixpoint FindIndex_from (i : Z) (t : list DirectoryEntry) (nm : list byte) : Z :=
  match t with
  | [] => -1
  | e :: t => if inUse e && strn_eq FileNameMaxLen (name e) nm then i else FindIndex_from (i + 1) t nm
  end.

Definition FindIndex (nm : list byte) (d : Directory) : Z := FindIndex_from 0 (table d) nm.

Definition Find (nm : list byte) (d : Directory) : result Z :=
  let i := FindIndex nm d in
  if bool_decide (i <> -1) then e <- lget (table d) i ;; Ok (sector e) else Ok (-1).

(** The loop of [Add] over the table. *)
Fixpoint Add_from (t : list DirectoryEntry) (nm : list byte) (newSector : Z) : option (list DirectoryEntry) :=
  match t with
  | [] => None
  | e :: t =>
      if negb (inUse e) then Some (mkEntry true (pad1 e) newSector (strncpy (name e) nm FileNameMaxLen) (pad2 e) :: t)
      else option_map (cons e) (Add_from t nm newSector)
  end.

Definition Add (nm : list byte) (newSector : Z) (d : Directory) : bool * Directory :=
  if bool_decide (FindIndex nm d <> -1) then (false, d)
  else match Add_from (table d) nm newSector with
       | Some t => (true, mkDir (tableSize d) t)
       | None => (false, d)
       end.

Definition Remove (nm : list byte) (d : Directory) : result (bool * Directory) :=
  let i := FindIndex nm d in
  if bool_decide (i = -1) then Ok (false, d)
  else e <- lget (table d) i ;; t <- lset (table d) i (set_inUse false e) ;; Ok (true, mkDir (tableSize d) t).

(** The lines [List] prints. *)
Fixpoint List_from (t : list DirectoryEntry) : result (list (list byte)) :=
  match t with
  | [] => Ok []
  | e :: t =>
      if inUse e then l <- cstring (name e ++ pad2 e) ;; ls <- List_from t ;; Ok (l :: ls) else List_from t
  end.
Definition List (d : Directory) : result (list (list byte)) := List_from (table d).

Section device.
Context {S : Type} `{SectorDevice S} (fresh : Z -> list byte).

(** The bytes read replace the front of the table. *)
Definition FetchFrom (file : OpenFile) (d : Directory) (s : S) : result (Directory * S) :=
  '(bs, s) <- ReadAt (hdr file) (tableSize d * Z.of_nat EntrySize) 0 s ;;
  Ok (mkDir (tableSize d) (bytes_table (Z.to_nat (tableSize d)) (splice 0 bs (table_bytes (table d)))), s).

Definition WriteBack (file : OpenFile) (d : Directory) (s : S) : result S :=
  '(_, s) <- WriteAt fresh (hdr file) (table_bytes (table d)) (tableSize d * Z.of_nat EntrySize) 0 s ;; Ok s.
End device.

(** ** Names *)

(** What counts of a name. *)
Definition key (nm : list byte) : list byte := strn_chars FileNameMaxLen nm.

Lemma strn_eq_chars n a b : strn_eq n a b = bool_decide (strn_chars n a = strn_chars n b).
Proof.
  revert a b. induction n as [|n IH]; intros a b; [done|]. cbn [strn_eq strn_chars]. rewrite IH.
  destruct (decide (hd x00 a = x00)) as [Ha|Ha].
  - rewrite (bool_decide_eq_true_2 (hd x00 a = x00)) by done. rewrite Ha. destruct (decide (hd x00 b = x00)) as [Hb|Hb].
    + rewrite (bool_decide_eq_true_2 (hd x00 b = x00)) by done. cbn [orb]. rewrite andb_true_r.
      rewrite (bool_decide_eq_true_2 (x00 = hd x00 b)) by done. by rewrite bool_decide_eq_true_2.
    + rewrite (bool_decide_eq_false_2 (hd x00 b = x00)) by done. cbn [replicate].
      rewrite (bool_decide_eq_false_2 (x00 = hd x00 b)) by congruence. cbn [andb orb]. by rewrite bool_decide_eq_false_2 by congruence.
  - rewrite (bool_decide_eq_false_2 (hd x00 a = x00)) by done. cbn [orb]. destruct (decide (hd x00 b = x00)) as [Hb|Hb].
    + rewrite (bool_decide_eq_true_2 (hd x00 b = x00)) by done. cbn [replicate].
      rewrite (bool_decide_eq_false_2 (hd x00 a = hd x00 b)) by congruence. cbn [andb orb]. by rewrite bool_decide_eq_false_2 by congruence.
    + rewrite (bool_decide_eq_false_2 (hd x00 b = x00)) by done. apply eq_true_iff_eq.
      rewrite andb_true_iff, !bool_decide_eq_true. split; [by intros [-> ->]|]. intros E. by injection E.
Qed.

Lemma length_strn_chars n l : length (strn_chars n l) = n.
Proof. revert l. induction n as [|n IH]; intros l; [done|]. cbn [strn_chars]. case_bool_decide; cbn [length]; [by rewrite length_replicate|by rewrite IH]. Qed.

Lemma strn_chars_app n l r : strn_chars n (strn_chars n l ++ r) = strn_chars n l.
Proof.
  revert l. induction n as [|n IH]; intros l; [done|]. cbn [strn_chars]. destruct (decide (hd x00 l = x00)) as [E|E].
  - rewrite (bool_decide_eq_true_2 (hd x00 l = x00)) by done. done.
  - rewrite (bool_decide_eq_false_2 (hd x00 l = x00)) by done. cbn [app hd tl]. rewrite bool_decide_eq_false_2 by done. by rewrite IH.
Qed.

Lemma key_strncpy dst nm : key (strncpy dst nm FileNameMaxLen) = key nm.
Proof. apply strn_chars_app. Qed.

(** ** The table on disk *)

Record entry_wf (e : DirectoryEntry) : Prop := {
  e_pad1 : length (pad1 e) = 3%nat;
  e_sector : int_range (sector e);
  e_name : length (name e) = 10%nat;
  e_pad2 : length (pad2 e) = 2%nat
}.

Lemma entry_bytes_length e : entry_wf e -> length (entry_bytes e) = EntrySize.
Proof. intros [H1 _ H3 H4]. unfold entry_bytes. cbn [length]. rewrite !length_app, H1, H3, H4, length_le_bytes. done. Qed.

Lemma bytes_entry_bytes e : entry_wf e -> bytes_entry (entry_bytes e) = e.
Proof.
  intros [H1 H2 H3 H4]. unfold bytes_entry, entry_bytes. destruct e as [u p1 s n p2]. simpl in H1, H2, H3, H4.
  assert (Hv : wrap32 (le_val (le_bytes 4 s)) = s) by (rewrite le_val_bytes; change (256 ^ Z.of_nat 4) with (2 ^ 32); fold (u32 s); rewrite wrap32_u32; by apply wrap32_small).
  destruct p1 as [|a1 [|a2 [|a3 [|]]]]; try done.
  do 11 (destruct n as [|? n]; try done).
  destruct p2 as [|c1 [|c2 [|]]]; try done. cbn -[le_val wrap32 Zbyte] in Hv |- *. rewrite Hv. by destruct u.
Qed.

Lemma bytes_table_bytes t : Forall entry_wf t -> bytes_table (length t) (table_bytes t) = t.
Proof.
  induction 1 as [|e t He _ IH]; [done|]. cbn [length bytes_table table_bytes].
  rewrite take_app_length', drop_app_length' by (by rewrite entry_bytes_length). by rewrite bytes_entry_bytes, IH.
Qed.

Lemma table_bytes_length t : Forall entry_wf t -> length (table_bytes t) = (EntrySize * length t)%nat.
Proof. induction 1 as [|e t He _ IH]; [done|]. cbn [table_bytes length]. rewrite length_app, entry_bytes_length, IH by done. lia. Qed.

Lemma bytes_entry_wf bs : length bs = EntrySize -> entry_wf (bytes_entry bs).
Proof. unfold EntrySize. intros Hl. split; cbn [bytes_entry pad1 sector name pad2]; rewrite ?length_take, ?length_drop; try lia. apply wrap32_range. Qed.

Lemma bytes_table_wf n bs : (EntrySize * n <= length bs)%nat -> Forall entry_wf (bytes_table n bs).
Proof.
  revert bs. induction n as [|n IH]; intros bs Hl; constructor.
  - apply bytes_entry_wf. rewrite length_take. unfold EntrySize in *. lia.
  - apply IH. rewrite length_drop. unfold EntrySize in *. lia.
Qed.

Lemma length_bytes_table n bs : length (bytes_table n bs) = n.
Proof. revert bs. induction n; intros; simpl; auto. Qed.

(** ** The abstract directory *)

Definition binding (e : DirectoryEntry) : list byte * Z := (key (name e), sector e).
Definition bindings (t : list DirectoryEntry) : list (list byte * Z) := binding <$> filter (fun e => inUse e = true) t.
Definition dir_map (d : Directory) : gmap (list byte) Z := list_to_map (bindings (table d)).

Record dir_wf (d : Directory) : Prop := {
  d_size : Z.of_nat (length (table d)) = tableSize d;
  d_entries : Forall entry_wf (table d);
  d_names : NoDup ((bindings (table d)).*1)
}.

Lemma bindings_cons e t : bindings (e :: t) = if inUse e then binding e :: bindings t else bindings t.
Proof. unfold bindings. rewrite filter_cons. destruct (inUse e); by repeat case_decide. Qed.

Lemma entries_app t1 t2 : bindings (t1 ++ t2) = bindings t1 ++ bindings t2.
Proof. unfold bindings. by rewrite filter_app, fmap_app. Qed.

(** The entry of a name, or its absence. *)
Lemma FindIndex_from_ok i t nm :
  0 <= i ->
  (FindIndex_from i t nm = -1 /\ key nm ∉ (bindings t).*1) \/
  exists t1 e t2, t = t1 ++ e :: t2 /\ FindIndex_from i t nm = i + Z.of_nat (length t1) /\ inUse e = true /\
    key (name e) = key nm /\ key nm ∉ (bindings t1).*1.
Proof.
  revert i. induction t as [|e t IH]; intros i Hi; [left; split; [done|apply not_elem_of_nil]|].
  cbn [FindIndex_from]. rewrite strn_eq_chars. fold (key (name e)) (key nm).
  destruct (inUse e) eqn:Hu; cbn [andb]; [case_bool_decide as Hk|].
  - right. exists [], e, t. split; [done|]. split; [cbn [length]; lia|]. split; [done|]. split; [done|apply not_elem_of_nil].
  - destruct (IH (i + 1)) as [[-> Hn] | (t1 & e' & t2 & -> & -> & Hu' & Hk' & Hn)]; [lia| |].
    + left. split; [done|]. rewrite bindings_cons, Hu, fmap_cons, not_elem_of_cons. split; [|done]. simpl. congruence.
    + right. exists (e :: t1), e', t2. split; [done|]. split; [cbn [length]; lia|]. split; [done|]. split; [done|].
      rewrite bindings_cons, Hu, fmap_cons, not_elem_of_cons. split; [|done]. simpl. congruence.
  - destruct (IH (i + 1)) as [[-> Hn] | (t1 & e' & t2 & -> & -> & Hu' & Hk' & Hn)]; [lia| |].
    + left. by rewrite bindings_cons, Hu.
    + right. exists (e :: t1), e', t2. split; [done|]. split; [cbn [length]; lia|]. rewrite bindings_cons, Hu. done.
Qed.

Lemma dir_map_None d nm : dir_map d !! key nm = None <-> key nm ∉ (bindings (table d)).*1.
Proof. unfold dir_map. symmetry. apply not_elem_of_list_to_map. Qed.

Lemma Directory_Find_ok nm d : dir_wf d -> Find nm d = Ok (default (-1) (dir_map d !! key nm)).
Proof.
  intros [H1 H2 H3]. unfold Find, FindIndex. destruct (FindIndex_from_ok 0 (table d) nm) as
    [[-> Hn] | (t1 & e & t2 & Ht & -> & Hu & Hk & Hn)]; [done| |].
  - by rewrite (proj2 (dir_map_None d nm) Hn).
  - rewrite bool_decide_eq_true_2 by lia. rewrite Z.add_0_l.
    rewrite (proj2 (lget_ok _ _ e)) by (split; [lia|rewrite Nat2Z.id, Ht; by apply list_lookup_middle]). cbn [bind]. f_equal.
    assert (Hin : dir_map d !! key nm = Some (sector e)).
    { apply elem_of_list_to_map_1; [done|]. rewrite Ht, entries_app, bindings_cons, Hu. apply elem_of_app. right.
      rewrite <- Hk. left. }
    by rewrite Hin.
Qed.

Lemma Add_from_ok t nm n :
  match Add_from t nm n with
  | Some t' => exists t1 e t2, t = t1 ++ e :: t2 /\ inUse e = false /\
      t' = t1 ++ mkEntry true (pad1 e) n (strncpy (name e) nm FileNameMaxLen) (pad2 e) :: t2
  | None => length (bindings t) = length t
  end.
Proof.
  induction t as [|e t IH]; [done|]. cbn [Add_from]. destruct (inUse e) eqn:Hu; cbn [negb].
  - destruct (Add_from t nm n) as [t'|]; cbn [option_map].
    + destruct IH as (t1 & e' & t2 & -> & Hu' & ->). by exists (e :: t1), e', t2.
    + rewrite bindings_cons, Hu. cbn [length]. by rewrite IH.
  - by exists [], e, t.
Qed.

Lemma entries_le t : (length (bindings t) <= length t)%nat.
Proof. unfold bindings. rewrite length_fmap. apply length_filter. Qed.

Lemma dir_map_size d : dir_wf d -> size (dir_map d) = length (bindings (table d)).
Proof. intros Hd. unfold dir_map. by rewrite map_size_list_to_map by apply Hd. Qed.

Lemma dir_map_perm t t' : NoDup ((bindings t).*1) -> bindings t ≡ₚ bindings t' ->
  (list_to_map (bindings t) : gmap (list byte) Z) = list_to_map (bindings t').
Proof. intros Hn Hp. by apply list_to_map_proper. Qed.

Lemma FindIndex_absent nm d : dir_wf d -> FindIndex nm d = -1 <-> dir_map d !! key nm = None.
Proof.
  intros Hd. unfold FindIndex. rewrite dir_map_None. destruct (FindIndex_from_ok 0 (table d) nm) as
    [[-> Hn] | (t1 & e & t2 & Ht & -> & Hu & Hk & Hn)]; [done|done|]. split; [lia|]. intros Hnot. destruct Hnot.
  rewrite Ht, entries_app, bindings_cons, Hu, fmap_app, fmap_cons. apply elem_of_app. right. rewrite <- Hk. left.
Qed.

Lemma Add_ok nm n d : dir_wf d -> int_range n ->
  let full := bool_decide (Z.of_nat (size (dir_map d)) = tableSize d) in
  let ok := bool_decide (dir_map d !! key nm = None) && negb full in
  exists d', Add nm n d = (ok, d') /\ dir_wf d' /\ tableSize d' = tableSize d /\
    dir_map d' = if ok then <[key nm := n]> (dir_map d) else dir_map d.
Proof.
  intros Hd Hn full ok. unfold Add. pose proof (FindIndex_absent nm d Hd) as Hfi. rewrite bool_decide_not.
  subst ok. destruct (decide (FindIndex nm d = -1)) as [Hi|Hi].
  2:{ rewrite (bool_decide_eq_false_2 (FindIndex nm d = -1)) by done. cbn [negb].
      rewrite (bool_decide_eq_false_2 (dir_map d !! key nm = None)) by tauto. by exists d. }
  rewrite (bool_decide_eq_true_2 (FindIndex nm d = -1)) by done. cbn [negb].
  pose proof (proj1 Hfi Hi) as Habs. rewrite (bool_decide_eq_true_2 (dir_map d !! key nm = None)) by done. cbn [andb].
  subst full. rewrite (dir_map_size d Hd), <- (d_size _ Hd). pose proof (Add_from_ok (table d) nm n) as Ha.
  destruct (Add_from (table d) nm n) as [t'|].
  - destruct Ha as (t1 & e & t2 & Ht & Hu & ->). set (e' := mkEntry _ _ _ _ _).
    assert (Hperm : bindings (t1 ++ e' :: t2) ≡ₚ binding e' :: bindings (table d)).
    { rewrite Ht, !entries_app, !bindings_cons, Hu. cbn [inUse e']. apply (Permutation_sym (Permutation_middle _ _ _)). }
    assert (Hbe : binding e' = (key nm, n)) by (unfold binding; cbn [name sector e']; by rewrite key_strncpy).
    assert (Hnd : NoDup ((bindings (t1 ++ e' :: t2)).*1)).
    { rewrite Hperm, fmap_cons, Hbe. constructor; [by apply dir_map_None|apply Hd]. }
    rewrite bool_decide_eq_false_2.
    2:{ intros E. apply Nat2Z.inj in E. rewrite Ht, entries_app, bindings_cons, Hu, !length_app in E. cbn [length] in E.
        pose proof (entries_le t1). pose proof (entries_le t2). lia. }
    cbn [negb]. eexists. split; [done|]. split; [split; cbn [table tableSize]|split; [done|]].
    + rewrite Ht, !length_app. done.
    + pose proof (d_entries _ Hd) as He. rewrite Ht in He. apply Forall_app in He as [He1 He2]. apply Forall_cons in He2 as [[P1 P2 P3 P4] He2].
      apply Forall_app. split; [done|]. constructor; [|done]. split; cbn [pad1 sector name pad2 e']; try done.
      unfold strncpy. rewrite length_app, length_strn_chars, length_drop, P3. done.
    + done.
    + unfold dir_map at 1. cbn [table]. rewrite (list_to_map_proper _ (binding e' :: bindings (table d))) by done. rewrite Hbe. done.
  - rewrite bool_decide_eq_true_2 by (by rewrite Ha). exists d. split_and!; try done. symmetry. apply Hd.
Qed.

Lemma Directory_Remove_ok nm d : dir_wf d ->
  exists d', Remove nm d = Ok (bool_decide (dir_map d !! key nm <> None), d') /\ dir_wf d' /\ tableSize d' = tableSize d /\
    dir_map d' = delete (key nm) (dir_map d).
Proof.
  intros Hd. unfold Remove, FindIndex. destruct (FindIndex_from_ok 0 (table d) nm) as
    [[-> Hn] | (t1 & e & t2 & Ht & -> & Hu & Hk & Hn)]; [done| |].
  - apply dir_map_None in Hn. rewrite bool_decide_eq_true_2 by done. rewrite bool_decide_eq_false_2 by (intros Hx; by apply Hx).
    exists d. split; [done|]. split; [done|]. split; [done|]. by rewrite delete_id.
  - rewrite bool_decide_eq_false_2 by lia. rewrite Z.add_0_l.
    rewrite (proj2 (lget_ok _ _ e)) by (split; [lia|rewrite Nat2Z.id, Ht; by apply list_lookup_middle]). cbn [bind].
    assert (Hlen : (length t1 < length (table d))%nat) by (rewrite Ht, length_app; simpl; lia).
    rewrite lset_in by lia. cbn [bind]. rewrite Nat2Z.id.
    assert (Hins : <[length t1 := set_inUse false e]> (table d) = t1 ++ set_inUse false e :: t2).
    { rewrite Ht, insert_app_r_alt, Nat.sub_diag by done. done. }
    rewrite Hins.
    pose proof (d_names _ Hd) as Hnd.
    assert (Hperm : bindings (table d) ≡ₚ binding e :: bindings (t1 ++ set_inUse false e :: t2)).
    { rewrite Ht, !entries_app, !bindings_cons, Hu. cbn [inUse set_inUse]. symmetry. apply Permutation_middle. }
    assert (Hbe : binding e = (key nm, sector e)) by (unfold binding; by rewrite Hk).
    pose proof Hnd as Hnd2. rewrite Hperm, fmap_cons, Hbe in Hnd2. cbn [fst] in Hnd2. apply NoDup_cons in Hnd2 as [Hnk Hnd2].
    assert (Hm : dir_map d = <[key nm := sector e]> (list_to_map (bindings (t1 ++ set_inUse false e :: t2)))).
    { unfold dir_map. rewrite (list_to_map_proper _ _ Hnd Hperm), Hbe. done. }
    assert (Hnone : (list_to_map (bindings (t1 ++ set_inUse false e :: t2)) : gmap (list byte) Z) !! key nm = None).
    { by apply not_elem_of_list_to_map. }
    exists (mkDir (tableSize d) (t1 ++ set_inUse false e :: t2)). split; [|split; [|split; [done|]]].
    + rewrite bool_decide_eq_true_2; [done|]. rewrite Hm, lookup_insert_eq. done.
    + split; cbn [table tableSize].
      * rewrite <- (d_size _ Hd), Ht, !length_app. done.
      * pose proof (d_entries _ Hd) as He. rewrite Ht in He. apply Forall_app in He as [He1 He2]. apply Forall_cons in He2 as [[P1 P2 P3 P4] He2].
        apply Forall_app. split; [done|]. constructor; [|done]. by split.
      * done.
    + rewrite Hm. unfold dir_map. cbn [table]. rewrite delete_insert_eq. by rewrite delete_id.
Qed.

(** ** Loading and storing *)

Section stored.
Context {S : Type} `{SectorDevice S} (fresh : Z -> list byte).
Hypothesis fresh_length : forall n, 0 <= n -> Z.of_nat (length (fresh n)) = n.

Lemma splice_all {A} (bs l : list A) : length bs = length l -> splice 0 bs l = bs.
Proof using Type. intros Hl. unfold splice. rewrite Hl, take_0, drop_ge by lia. by rewrite app_nil_r. Qed.

Lemma table_bytes_size d : dir_wf d -> Z.of_nat (length (table_bytes (table d))) = tableSize d * Z.of_nat EntrySize.
Proof using Type. intros Hd. rewrite table_bytes_length by apply Hd. pose proof (d_size _ Hd). unfold EntrySize. lia. Qed.

Lemma FetchFrom_ok b f d0 d s :
  hdr_wf (hdr f) -> numBytes (hdr f) = tableSize d * Z.of_nat EntrySize -> content (hdr f) s = table_bytes (table d) ->
  dir_wf d0 -> dir_wf d -> tableSize d0 = tableSize d -> usable (30 + b) s ->
  exists s', FetchFrom f d0 s = Ok (d, s') /\ usable b s' /\ same_contents s s'.
Proof using Type.
  intros Hh Hn Hc Hd0 Hd Hsz Hu. unfold FetchFrom. rewrite Hsz. pose proof (table_bytes_size d Hd) as Hl. pose proof (hw_bytes _ Hh) as Hb.
  destruct (OpenFile_ReadAt_ok b (hdr f) (tableSize d * Z.of_nat EntrySize) 0 s Hh Hu) as (s' & -> & Hu' & Hs'); [lia| |].
  { unfold MaxFileSize in Hb. change NumDirect with 30 in Hb. change SectorSize with 128 in Hb. lia. }
  cbn [bind]. exists s'. split; [|done]. rewrite Hc, drop_0, take_ge by lia.
  rewrite splice_all by (pose proof (table_bytes_size d0 Hd0) as Hl0; rewrite Hsz in Hl0; lia).
  pose proof (d_size _ Hd) as Hts. replace (Z.to_nat (tableSize d)) with (length (table d)) by lia.
  rewrite bytes_table_bytes by apply Hd. by destruct d.
Qed.

Lemma Directory_WriteBack_ok b f d s :
  hdr_wf (hdr f) -> numBytes (hdr f) = tableSize d * Z.of_nat EntrySize -> 0 < tableSize d -> dir_wf d -> usable (90 + b) s ->
  exists s', WriteBack fresh f d s = Ok s' /\ usable b s' /\ content (hdr f) s' = table_bytes (table d) /\
    forall m, valid m -> m ∉ blocks (hdr f) -> contents s' m = contents s m.
Proof using fresh_length.
  intros Hh Hn Hpos Hd Hu. unfold WriteBack. pose proof (table_bytes_size d Hd) as Hl. pose proof (hw_bytes _ Hh) as Hb.
  destruct (WriteAt_ok fresh fresh_length b (hdr f) (table_bytes (table d)) (tableSize d * Z.of_nat EntrySize) 0 s Hh Hu)
    as (s' & c & -> & Hu' & Hcc & Hout & Hcon); [lia| |lia|].
  { unfold MaxFileSize in Hb. change NumDirect with 30 in Hb. change SectorSize with 128 in Hb. lia. }
  cbn [bind]. exists s'. split; [done|]. split; [done|]. split; [|done].
  assert (Hce : c = tableSize d * Z.of_nat EntrySize) by lia. clear Hcc. subst c. rewrite decide_True in Hcon by (unfold EntrySize; lia).
  rewrite Hcon, take_ge by lia. change (Z.to_nat 0) with O. apply splice_all.
  pose proof (content_length (90 + b) (hdr f) s Hh Hu). lia.
Qed.

Lemma new_Directory_ok mem n :
  0 <= n -> Z.of_nat (length mem) = n * Z.of_nat EntrySize ->
  dir_wf (new_Directory mem n) /\ tableSize (new_Directory mem n) = n /\ dir_map (new_Directory mem n) = ∅.
Proof using Type.
  intros Hn Hm. assert (Hb : forall t, bindings (set_inUse false <$> t) = []).
  { intros t. induction t as [|e t IH]; [done|]. by rewrite fmap_cons, bindings_cons. }
  split; [split; cbn [table tableSize new_Directory]|split; [done|]].
  - rewrite length_fmap, length_bytes_table. lia.
  - apply Forall_fmap. eapply Forall_impl; [apply bytes_table_wf|].
    + unfold EntrySize in *. lia.
    + intros e [P1 P2 P3 P4]. by split.
  - rewrite Hb. constructor.
  - unfold dir_map. cbn [table new_Directory]. by rewrite Hb.
Qed.

(** ** Properties *)

(** adding a name, writing the table to its file and reading it back into
    another object of the same size gives a table in which every name has the
    sector it had, and the new name the new sector; [Add] answers TRUE exactly
    when the name is new in its first nine characters and an entry is free. *)
Theorem Directory_Add_persists b f d d0 nm sec s :
  hdr_wf (hdr f) -> numBytes (hdr f) = tableSize d * Z.of_nat EntrySize -> 0 < tableSize d ->
  dir_wf d -> dir_wf d0 -> tableSize d0 = tableSize d -> int_range sec -> usable (120 + b) s ->
  exists ok d1 s1 d2 s2, Add nm sec d = (ok, d1) /\ WriteBack fresh f d1 s = Ok s1 /\ FetchFrom f d0 s1 = Ok (d2, s2) /\
    (ok = true <-> dir_map d !! key nm = None /\ Z.of_nat (size (dir_map d)) <> tableSize d) /\
    forall nm', Find nm' d2 = Ok (if ok && bool_decide (key nm' = key nm) then sec else default (-1) (dir_map d !! key nm')).
Proof using fresh_length.
  intros Hh Hn Hpos Hd Hd0 Hsz Hi Hu. destruct (Add_ok nm sec d Hd Hi) as (d1 & -> & Hd1 & Ht1 & Hm1). cbn zeta in Hm1.
  set (ok := bool_decide (dir_map d !! key nm = None) && _) in *.
  destruct (Directory_WriteBack_ok (30 + b) f d1 s Hh) as (s1 & Hw & Hu1 & Hc1 & _); [by rewrite Ht1|by rewrite Ht1|done|eapply usable_mono; [|exact Hu]; lia|].
  destruct (FetchFrom_ok b f d0 d1 s1 Hh) as (s2 & Hf & _); [by rewrite Ht1|done|done|done|by rewrite Ht1|done|].
  exists ok, d1, s1, d1, s2. split; [done|]. split; [done|]. split; [done|]. split.
  - unfold ok. by rewrite andb_true_iff, negb_true_iff, bool_decide_eq_true, bool_decide_eq_false.
  - intros nm'. rewrite Directory_Find_ok by done. rewrite Hm1. destruct ok; cbn [andb]; [|done].
    destruct (decide (key nm' = key nm)) as [E|E].
    + rewrite bool_decide_eq_true_2 by done. by rewrite E, lookup_insert_eq.
    + rewrite bool_decide_eq_false_2 by done. by rewrite lookup_insert_ne.
Qed.
End stored.

(** The table of the file system, empty, in a file of 200 bytes. *)
Definition empty_example : Directory := new_Directory (zeros 200) 10.

Lemma empty_example_ok : dir_wf empty_example /\ tableSize empty_example = 10 /\ dir_map empty_example = ∅.
Proof. apply new_Directory_ok; [done|]. by rewrite zeros_length. Qed.

Lemma Directory_Add_persists_witness :
  exists ok d1 s1 d2 s2, Add [x61; x00] 5 empty_example = (ok, d1) /\
    WriteBack zeros (mkOpen hdr_example 0) d1 (∅ : image) = Ok s1 /\
    FetchFrom (mkOpen hdr_example 0) empty_example s1 = Ok (d2, s2) /\ ok = true /\
    Find [x61; x00] d2 = Ok 5 /\ Find [x62; x00] d2 = Ok (-1).
Proof.
  destruct empty_example_ok as (Hd & Ht & Hm).
  destruct (Directory_Add_persists zeros zeros_length 0 (mkOpen hdr_example 0) empty_example empty_example [x61; x00] 5 (∅ : image))
    as (ok & d1 & s1 & d2 & s2 & H1 & H2 & H3 & H4 & H5).
  - apply hdr_example_wf.
  - reflexivity.
  - lia.
  - exact Hd.
  - exact Hd.
  - reflexivity.
  - unfold int_range. lia.
  - apply map_Forall_empty.
  - exists ok, d1, s1, d2, s2. assert (Hok : ok = true).
    { apply H4. rewrite Hm. split; [apply lookup_empty|]. rewrite map_size_empty, Ht. lia. }
    subst ok. rewrite Hm in H5. split; [exact H1|]. split; [exact H2|]. split; [exact H3|]. split; [reflexivity|].
    split; [rewrite H5; reflexivity|rewrite H5; reflexivity].
Defined.

End Directory.
