(* ===== verification/PBitmap.v ===== *)
(** * filesys/pbitmap.{h,cc}: a bitmap kept in a file *)

From Stdlib Require Import Strings.Byte.
From S2P Require Import Prelude LibBitmap Disk SectorDevice FileHdr OpenFile Directory.

Module PersistentBitmap.
Import Disk SectorDevice FileHdr OpenFile.

(** The array [map] as bytes. *)
Definition map_bytes (bm : Bitmap.t) : list byte := words_bytes (Bitmap.map bm).
Definition with_map (bs : list byte) (bm : Bitmap.t) : Bitmap.t :=
  Bitmap.mk (Bitmap.numBits bm) (Bitmap.numWords bm) (bytes_words (Z.to_nat (Bitmap.numWords bm)) bs).

Section device.
Context {S : Type} `{SectorDevice S} (fresh : Z -> list byte).

Definition FetchFrom (file : OpenFile) (bm : Bitmap.t) (s : S) : result (Bitmap.t * S) :=
  '(bs, s) <- ReadAt (hdr file) (Bitmap.numWords bm * 4) 0 s ;;
  Ok (with_map (splice 0 bs (map_bytes bm)) bm, s).

(** [PersistentBitmap(file, numItems)] *)
Definition PersistentBitmap (file : OpenFile) (numItems : Z) (s : S) : result (Bitmap.t * S) :=
  bm <- Bitmap.Bitmap numItems ;; FetchFrom file bm s.

Definition WriteBack (file : OpenFile) (bm : Bitmap.t) (s : S) : result S :=
  '(_, s) <- WriteAt fresh (hdr file) (map_bytes bm) (Bitmap.numWords bm * 4) 0 s ;; Ok s.

Hypothesis fresh_length : forall n, 0 <= n -> Z.of_nat (length (fresh n)) = n.

Lemma map_bytes_length bm : Bitmap.wf bm -> Z.of_nat (length (map_bytes bm)) = Bitmap.numWords bm * 4.
Proof using Type. intros (_ & _ & Hl & _). unfold map_bytes. rewrite length_words_bytes. lia. Qed.

Lemma with_map_bytes bm bm0 : Bitmap.wf bm -> Bitmap.wf bm0 -> Bitmap.numBits bm0 = Bitmap.numBits bm ->
  with_map (map_bytes bm) bm0 = bm.
Proof using Type.
  intros (_ & Hw & Hl & Hf) (_ & Hw0 & _ & _) Hn. unfold with_map, map_bytes. rewrite Hw0, Hn, <- Hw, <- Hl, Nat2Z.id, bytes_words_words.
  assert (Hid : u32 <$> Bitmap.map bm = Bitmap.map bm).
  { clear - Hf. induction Hf as [|w ws Hw _ IH]; [done|]. rewrite fmap_cons, IH. f_equal. by apply u32_small. }
  rewrite Hid, Hl. by destruct bm.
Qed.

Lemma PersistentBitmap_ok b f bm n s :
  hdr_wf (hdr f) -> numBytes (hdr f) = Bitmap.numWords bm * 4 -> content (hdr f) s = map_bytes bm ->
  Bitmap.wf bm -> Bitmap.numBits bm = n -> usable (30 + b) s ->
  exists s', PersistentBitmap f n s = Ok (bm, s') /\ usable b s' /\ same_contents s s'.
Proof using Type.
  intros Hh Hn Hc Hw Hbits Hu. unfold PersistentBitmap. pose proof (map_bytes_length bm Hw) as Hl. pose proof (hw_bytes _ Hh) as Hb.
  destruct (Bitmap.Bitmap_ok n) as (bm0 & -> & Hw0 & Hn0 & _); [rewrite <- Hbits; apply Hw|]. cbn [bind]. unfold FetchFrom.
  assert (Hww : Bitmap.numWords bm0 = Bitmap.numWords bm).
  { destruct Hw as (_ & -> & _), Hw0 as (_ & -> & _). by rewrite Hn0, Hbits. }
  rewrite Hww.
  destruct (OpenFile_ReadAt_ok b (hdr f) (Bitmap.numWords bm * 4) 0 s Hh Hu) as (s' & -> & Hu' & Hs'); [lia| |].
  { unfold MaxFileSize in Hb. change NumDirect with 30 in Hb. change SectorSize with 128 in Hb. lia. }
  cbn [bind]. exists s'. split; [|done]. rewrite Hc, drop_0, take_ge by lia.
  rewrite Directory.splice_all by (pose proof (map_bytes_length bm0 Hw0) as Hl0; rewrite Hww in Hl0; lia).
  by rewrite with_map_bytes by congruence.
Qed.

Lemma PersistentBitmap_WriteBack_ok b f bm s :
  hdr_wf (hdr f) -> numBytes (hdr f) = Bitmap.numWords bm * 4 -> Bitmap.wf bm -> usable (90 + b) s ->
  exists s', WriteBack f bm s = Ok s' /\ usable b s' /\ content (hdr f) s' = map_bytes bm /\
    forall m, valid m -> m ∉ blocks (hdr f) -> contents s' m = contents s m.
Proof using fresh_length.
  intros Hh Hn Hw Hu. unfold WriteBack. pose proof (map_bytes_length bm Hw) as Hl. pose proof (hw_bytes _ Hh) as Hb.
  assert (Hpos : 0 < Bitmap.numWords bm).
  { destruct Hw as (Hn0 & Hnw & _ & _). pose proof (divRoundUp_spec (Bitmap.numBits bm) Bitmap.BitsInWord ltac:(by vm_compute) ltac:(lia)) as Hd.
    rewrite <- Hnw in Hd. change Bitmap.BitsInWord with 32 in Hd. lia. }
  destruct (WriteAt_ok fresh fresh_length b (hdr f) (map_bytes bm) (Bitmap.numWords bm * 4) 0 s Hh Hu)
    as (s' & c & -> & Hu' & Hcc & Hout & Hcon); [lia| |lia|].
  { unfold MaxFileSize in Hb. change NumDirect with 30 in Hb. change SectorSize with 128 in Hb. lia. }
  cbn [bind]. exists s'. split; [done|]. split; [done|]. split; [|done].
  assert (Hce : c = Bitmap.numWords bm * 4) by lia. clear Hcc. subst c. rewrite decide_True in Hcon by lia.
  rewrite Hcon, take_ge by lia. change (Z.to_nat 0) with O. apply Directory.splice_all.
  pose proof (content_length (90 + b) (hdr f) s Hh Hu). lia.
Qed.
End device.
End PersistentBitmap.
