(* ===== verification/FileSys.v ===== *)
(** * filesys/filesys.{h,cc}: the file system on the simulated disk

    Creation, opening and removal of files over the directory, the free map and
    the headers on disk.  The specification is a finite map from names to
    contents together with the number of free sectors. *)

From Stdlib Require Import Strings.Byte.
From S2P Require Import Prelude LibBitmap Disk SectorDevice FileHdr OpenFile Directory PBitmap.

Module FileSys.
Import Disk SectorDevice FileHdr OpenFile.

Definition FreeMapSector : Z := 0.
Definition DirectorySector : Z := 1.
Definition FreeMapFileSize : Z := NumSectors / Bitmap.BitsInByte.
Definition NumDirEntries : Z := 10.
Definition DirectoryFileSize : Z := Z.of_nat Directory.EntrySize * NumDirEntries.

Record FileSystem := mkFS { freeMapFile : OpenFile; directoryFile : OpenFile }.

Section device.
Context {S : Type} `{SectorDevice S} (fresh : Z -> list byte).

Definition newDirectory : Directory.Directory := Directory.new_Directory (fresh DirectoryFileSize) NumDirEntries.
Definition newFileHeader : FileHeader := of_sector (fresh SectorSize).

Definition format (s : S) : result (FileSystem * S) :=
  freeMap <- Bitmap.Bitmap NumSectors ;;
  freeMap <- Bitmap.Mark freeMap FreeMapSector ;;
  freeMap <- Bitmap.Mark freeMap DirectorySector ;;
  '(ok, (mapHdr, freeMap)) <- Allocate freeMap FreeMapFileSize newFileHeader ;;
  assert ok ;;
  '(ok, (dirHdr, freeMap)) <- Allocate freeMap DirectoryFileSize newFileHeader ;;
  assert ok ;;
  s <- FileHdr.WriteBack FreeMapSector mapHdr s ;;
  s <- FileHdr.WriteBack DirectorySector dirHdr s ;;
  '(mapFile, s) <- OpenFile.Open FreeMapSector s ;;
  '(dirFile, s) <- OpenFile.Open DirectorySector s ;;
  s <- PersistentBitmap.WriteBack fresh mapFile freeMap s ;;
  s <- Directory.WriteBack fresh dirFile newDirectory s ;;
  Ok (mkFS mapFile dirFile, s).

(** [FileSystem::FileSystem(format)] *)
Definition new_FileSystem (fmt : bool) (s : S) : result (FileSystem * S) :=
  if fmt then format s
  else
    '(mapFile, s) <- OpenFile.Open FreeMapSector s ;;
    '(dirFile, s) <- OpenFile.Open DirectorySector s ;;
    Ok (mkFS mapFile dirFile, s).

Definition Create (name : list byte) (initialSize : Z) (fs : FileSystem) (s : S) : result (bool * S) :=
  '(directory, s) <- Directory.FetchFrom (directoryFile fs) newDirectory s ;;
  found <- Directory.Find name directory ;;
  if bool_decide (found <> -1) then Ok (false, s)
  else
    '(freeMap, s) <- PersistentBitmap.PersistentBitmap (freeMapFile fs) NumSectors s ;;
    '(sector, freeMap) <- Bitmap.FindAndSet freeMap ;;
    if bool_decide (sector = -1) then Ok (false, s)
    else
      let '(added, directory) := Directory.Add name sector directory in
      if negb added then Ok (false, s)
      else
        '(ok, (hdr, freeMap)) <- Allocate freeMap initialSize newFileHeader ;;
        if negb ok then Ok (false, s)
        else
          s <- FileHdr.WriteBack sector hdr s ;;
          s <- Directory.WriteBack fresh (directoryFile fs) directory s ;;
          s <- PersistentBitmap.WriteBack fresh (freeMapFile fs) freeMap s ;;
          Ok (true, s).

Definition Open (name : list byte) (fs : FileSystem) (s : S) : result (option OpenFile * S) :=
  '(directory, s) <- Directory.FetchFrom (directoryFile fs) newDirectory s ;;
  sector <- Directory.Find name directory ;;
  if bool_decide (0 <= sector) then '(f, s) <- OpenFile.Open sector s ;; Ok (Some f, s) else Ok (None, s).

Definition Remove (name : list byte) (fs : FileSystem) (s : S) : result (bool * S) :=
  '(directory, s) <- Directory.FetchFrom (directoryFile fs) newDirectory s ;;
  sector <- Directory.Find name directory ;;
  if bool_decide (sector = -1) then Ok (false, s)
  else
    '(fileHdr, s) <- FileHdr.FetchFrom sector s ;;
    '(freeMap, s) <- PersistentBitmap.PersistentBitmap (freeMapFile fs) NumSectors s ;;
    freeMap <- Deallocate freeMap fileHdr ;;
    freeMap <- Bitmap.Clear freeMap sector ;;
    '(_, directory) <- Directory.Remove name directory ;;
    s <- PersistentBitmap.WriteBack fresh (freeMapFile fs) freeMap s ;;
    s <- Directory.WriteBack fresh (directoryFile fs) directory s ;;
    Ok (true, s).

(** The lines [List] prints. *)
Definition List (fs : FileSystem) (s : S) : result (list (list byte) * S) :=
  '(directory, s) <- Directory.FetchFrom (directoryFile fs) newDirectory s ;;
  ls <- Directory.List directory ;; Ok (ls, s).
End device.

(** ** The layout of the disk *)

Section layout.
Context {S : Type} `{SectorDevice S}.

(** The files, by name: the sector of the header, and the header. *)
Abbreviation files := (gmap (list byte) (Z * FileHeader)).

Definition file_sectors (f : Z * FileHeader) : list Z := f.1 :: blocks f.2.
Definition files_sectors (fm : files) : list Z := concat ((fun kf => file_sectors kf.2) <$> map_to_list fm).

(** All the sectors in use. *)
Definition owned (fs : FileSystem) (fm : files) : list Z :=
  [FreeMapSector; DirectorySector] ++ blocks (hdr (freeMapFile fs)) ++ blocks (hdr (directoryFile fs)) ++ files_sectors fm.

Record layout (fs : FileSystem) (s : S) (bm : Bitmap.t) (d : Directory.Directory) (fm : files) : Prop := {
  ly_map_hdr : hdr_wf (hdr (freeMapFile fs));
  ly_map_size : numBytes (hdr (freeMapFile fs)) = FreeMapFileSize;
  ly_map_sector : contents s FreeMapSector = to_sector (hdr (freeMapFile fs));
  ly_map : content (hdr (freeMapFile fs)) s = PersistentBitmap.map_bytes bm;
  ly_bm : Bitmap.wf bm;
  ly_bits : Bitmap.numBits bm = NumSectors;
  ly_dir_hdr : hdr_wf (hdr (directoryFile fs));
  ly_dir_size : numBytes (hdr (directoryFile fs)) = DirectoryFileSize;
  ly_dir_sector : contents s DirectorySector = to_sector (hdr (directoryFile fs));
  ly_dir : content (hdr (directoryFile fs)) s = Directory.table_bytes (Directory.table d);
  ly_d : Directory.dir_wf d;
  ly_entries : Directory.tableSize d = NumDirEntries;
  ly_names : Directory.dir_map d = fst <$> fm;
  ly_files : map_Forall (fun _ f => valid f.1 /\ hdr_wf f.2 /\ contents s f.1 = to_sector f.2) fm;
  ly_owned : NoDup (owned fs fm);
  ly_free : forall n, n ∈ Bitmap.free bm <-> valid n /\ n ∉ owned fs fm
}.

(** The abstract state: what each file holds, how many sectors are free. *)
Definition represents (fs : FileSystem) (s : S) (m : gmap (list byte) (list byte)) (n : Z) : Prop :=
  exists bm d fm, layout fs s bm d fm /\ m = (fun f => content f.2 s) <$> fm /\ n = Z.of_nat (length (Bitmap.free bm)).

(** ** Framing *)

(** Only the sectors [ms] may have changed. *)
Definition unchanged (ms : list Z) (s s' : S) : Prop := forall m, valid m -> m ∉ ms -> contents s' m = contents s m.

Lemma same_unchanged s s' : same_contents s s' -> unchanged [] s s'.
Proof using Type. intros Hs m Hm _. by apply Hs. Qed.

Lemma unchanged_weaken ms ms' s s' : (forall x, x ∈ ms -> x ∈ ms') -> unchanged ms s s' -> unchanged ms' s s'.
Proof using Type. intros Hms Hu m Hm Hnot. apply Hu; [done|]. intros Hx. by apply Hnot, Hms. Qed.

Lemma unchanged_trans ms s1 s2 s3 : unchanged ms s1 s2 -> unchanged ms s2 s3 -> unchanged ms s1 s3.
Proof using Type. intros H1 H2 m Hm Hnot. by rewrite H2, H1. Qed.

Lemma content_unchanged h ms s s' :
  Forall valid (blocks h) -> (forall x, x ∈ blocks h -> x ∉ ms) -> unchanged ms s s' -> content h s' = content h s.
Proof using Type.
  intros Hv Hd Hu. unfold content, raw. do 2 f_equal. apply list_fmap_ext. intros i x Hx. apply Hu.
  - by apply (Forall_lookup_1 _ _ _ _ Hv Hx).
  - apply Hd. by eapply list_elem_of_lookup_2.
Qed.

Lemma files_sectors_perm (l1 l2 : list (list byte * (Z * FileHeader))) : l1 ≡ₚ l2 ->
  concat ((fun kf => file_sectors kf.2) <$> l1) ≡ₚ concat ((fun kf => file_sectors kf.2) <$> l2).
Proof using Type.
  induction 1 as [|x l l' _ IH|x y l|l1 l2 l3 _ IH1 _ IH2]; rewrite ?fmap_cons; cbn [concat]; [done|by rewrite IH| |by rewrite IH1].
  by rewrite !app_assoc, (Permutation_app_comm (file_sectors x.2)).
Qed.

Lemma files_sectors_insert (fm : files) k f : fm !! k = None -> files_sectors (<[k := f]> fm) ≡ₚ file_sectors f ++ files_sectors fm.
Proof using Type. intros Hk. unfold files_sectors. by rewrite (files_sectors_perm _ _ (map_to_list_insert fm k f Hk)). Qed.

Lemma files_sectors_delete (fm : files) k f : fm !! k = Some f -> files_sectors fm ≡ₚ file_sectors f ++ files_sectors (delete k fm).
Proof using Type. intros Hk. rewrite <- files_sectors_insert by apply lookup_delete_eq. by rewrite insert_delete_id. Qed.

Lemma elem_of_files_sectors (fm : files) k f x : fm !! k = Some f -> x ∈ file_sectors f -> x ∈ files_sectors fm.
Proof using Type. intros Hk Hx. rewrite (files_sectors_delete fm k f Hk). apply elem_of_app. by left. Qed.

Definition file_ok (s : S) (f : Z * FileHeader) : Prop := valid f.1 /\ hdr_wf f.2 /\ contents s f.1 = to_sector f.2.

Lemma files_frame (fm : files) ms s s' :
  map_Forall (fun _ => file_ok s) fm -> (forall x, x ∈ files_sectors fm -> x ∉ ms) -> unchanged ms s s' ->
  map_Forall (fun _ => file_ok s') fm /\ (fun f => content f.2 s') <$> fm = (fun f => content f.2 s) <$> fm.
Proof using Type.
  intros Hf Hd Hu. split.
  - intros k f Hk. destruct (Hf k f Hk) as (H1 & H2 & H3). split_and!; [done|done|]. rewrite Hu; [done|done|].
    apply Hd, (elem_of_files_sectors fm k f); [done|]. left.
  - apply map_fmap_ext. intros k f Hk. destruct (Hf k f Hk) as (H1 & H2 & H3).
    apply (content_unchanged f.2 ms); [apply H2| |done]. intros x Hx. apply Hd, (elem_of_files_sectors fm k f); [done|]. by right.
Qed.

(** Where the sectors in use lie relative to each other. *)
Record apart (fs : FileSystem) (fm : files) : Prop := {
  ap_map : forall x, x ∈ blocks (hdr (freeMapFile fs)) -> x <> FreeMapSector /\ x <> DirectorySector /\ x ∉ blocks (hdr (directoryFile fs)) /\ x ∉ files_sectors fm;
  ap_dir : forall x, x ∈ blocks (hdr (directoryFile fs)) -> x <> FreeMapSector /\ x <> DirectorySector /\ x ∉ files_sectors fm;
  ap_files : FreeMapSector ∉ files_sectors fm /\ DirectorySector ∉ files_sectors fm /\ NoDup (files_sectors fm)
}.

Lemma owned_apart fs fm : NoDup (owned fs fm) -> apart fs fm.
Proof using Type.
  unfold owned. rewrite !NoDup_app. intros (_ & H1 & (_ & H2 & (_ & H3 & H4))). split.
  - intros x Hx. split; [intros ->; eapply (H1 FreeMapSector); set_solver|]. split; [intros ->; eapply (H1 DirectorySector); set_solver|].
    specialize (H2 x Hx). set_solver.
  - intros x Hx. split; [intros ->; eapply (H1 FreeMapSector); set_solver|]. split; [intros ->; eapply (H1 DirectorySector); set_solver|].
    by apply H3.
  - split; [|split; [|done]]; intros Hx; [eapply (H1 FreeMapSector)|eapply (H1 DirectorySector)]; set_solver.
Qed.

Lemma valid_map : valid FreeMapSector. Proof using Type. by vm_compute. Qed.
Lemma valid_dir : valid DirectorySector. Proof using Type. by vm_compute. Qed.

(** Any change outside the sectors in use keeps the layout. *)
Lemma layout_frame fs s s' bm d fm ms :
  layout fs s bm d fm -> unchanged ms s s' -> (forall x, x ∈ owned fs fm -> x ∉ ms) ->
  layout fs s' bm d fm /\ (fun f => content f.2 s') <$> fm = (fun f => content f.2 s) <$> fm.
Proof using Type.
  intros Hl Hu Hd. destruct Hl as [L1 L2 L3 L4 L5 L6 L7 L8 L9 L10 L11 L12 L13 L14 L15 L16].
  assert (Hm : forall x, x ∈ blocks (hdr (freeMapFile fs)) -> x ∉ ms) by (intros x Hx; apply Hd; unfold owned; set_solver).
  assert (Hdir : forall x, x ∈ blocks (hdr (directoryFile fs)) -> x ∉ ms) by (intros x Hx; apply Hd; unfold owned; set_solver).
  destruct (files_frame fm ms s s' L14) as [Hf Hc]; [intros x Hx; apply Hd; unfold owned; set_solver|done|].
  split; [|done]. split; try done.
  - rewrite Hu; [done|apply valid_map|apply Hd; unfold owned; set_solver].
  - by rewrite (content_unchanged _ ms s s' (hw_valid _ L1) Hm Hu).
  - rewrite Hu; [done|apply valid_dir|apply Hd; unfold owned; set_solver].
  - by rewrite (content_unchanged _ ms s s' (hw_valid _ L7) Hdir Hu).
Qed.

Lemma represents_same fs s s' m n : same_contents s s' -> represents fs s m n -> represents fs s' m n.
Proof using Type.
  intros Hs (bm & d & fm & Hl & -> & ->). destruct (layout_frame fs s s' bm d fm [] Hl) as [Hl' Hc].
  { by apply same_unchanged. } { intros x _. apply not_elem_of_nil. }
  exists bm, d, fm. by rewrite Hc.
Qed.

End layout.
Section operations.
Context {S : Type} `{SectorDevice S} (fresh : Z -> list byte).
Hypothesis fresh_length : forall n, 0 <= n -> Z.of_nat (length (fresh n)) = n.

Lemma newFileHeader_fresh : fresh_hdr (newFileHeader fresh).
Proof using Type.
  unfold newFileHeader, of_sector, fresh_hdr. set (ws := bytes_words _ _).
  assert (Hl : length (wrap32 <$> ws) = 32%nat) by (unfold ws; rewrite length_fmap, length_bytes_words; done).
  assert (Hi : Forall int_range (wrap32 <$> ws)) by (apply Forall_fmap, Forall_true; intros x; apply wrap32_range).
  destruct (wrap32 <$> ws) as [|a [|c l]]; [done|done|]. cbn [dataSectors]. simpl in Hl. split; [change NumDirect with 30; lia|].
  by do 2 apply Forall_cons in Hi as [_ Hi].
Qed.

Lemma newDirectory_ok : Directory.dir_wf (newDirectory fresh) /\ Directory.tableSize (newDirectory fresh) = NumDirEntries /\
  Directory.dir_map (newDirectory fresh) = ∅.
Proof using fresh_length. apply Directory.new_Directory_ok; [done|]. by rewrite fresh_length. Qed.

Lemma hdr_fetch b sec h s : valid sec -> hdr_wf h -> contents s sec = to_sector h -> usable (1 + b) s ->
  exists s', FileHdr.FetchFrom sec s = Ok (h, s') /\ usable b s' /\ same_contents s s'.
Proof using Type.
  intros Hv Hh Hc Hu. unfold FileHdr.FetchFrom. destruct (ReadSector_spec b s sec Hu Hv) as (s' & -> & Hu' & Hs').
  cbn [bind]. exists s'. split; [|done]. rewrite Hc. destruct (hdr_ints h Hh) as [H1 H2]. by rewrite of_to_sector by (done || apply Hh).
Qed.

Lemma dir_fetch b fs s bm d fm : layout fs s bm d fm -> usable (30 + b) s ->
  exists s', Directory.FetchFrom (directoryFile fs) (newDirectory fresh) s = Ok (d, s') /\ usable b s' /\ same_contents s s'.
Proof using fresh_length.
  intros Hl Hu. destruct newDirectory_ok as (H1 & H2 & _). apply Directory.FetchFrom_ok; try done; try apply Hl.
  - rewrite (ly_dir_size _ _ _ _ _ Hl), (ly_entries _ _ _ _ _ Hl). done.
  - by rewrite H2, (ly_entries _ _ _ _ _ Hl).
Qed.

Lemma map_words fs s bm d fm : layout fs s bm d fm -> Bitmap.numWords bm * 4 = FreeMapFileSize.
Proof using Type. intros Hl. destruct (ly_bm _ _ _ _ _ Hl) as (_ & -> & _). by rewrite (ly_bits _ _ _ _ _ Hl). Qed.

Lemma map_fetch b fs s bm d fm : layout fs s bm d fm -> usable (30 + b) s ->
  exists s', PersistentBitmap.PersistentBitmap (freeMapFile fs) NumSectors s = Ok (bm, s') /\ usable b s' /\ same_contents s s'.
Proof using Type.
  intros Hl Hu. apply PersistentBitmap.PersistentBitmap_ok; try done; try apply Hl.
  by rewrite (map_words fs s bm d fm Hl), (ly_map_size _ _ _ _ _ Hl).
Qed.

Lemma Find_layout fs s bm d fm nm : layout fs s bm d fm ->
  Directory.Find nm d = Ok (match fm !! Directory.key nm with Some f => f.1 | None => -1 end).
Proof using Type.
  intros Hl. rewrite Directory.Directory_Find_ok by apply Hl. rewrite (ly_names _ _ _ _ _ Hl), lookup_fmap.
  by destruct (fm !! Directory.key nm) as [f|].
Qed.

(** ** Open *)

Lemma FileSystem_Open_ok b fs s bm d fm nm : layout fs s bm d fm -> usable (50 + b) s ->
  exists s', Open fresh nm fs s = Ok ((fun f => mkOpen f.2 0) <$> fm !! Directory.key nm, s') /\ usable b s' /\ same_contents s s'.
Proof using fresh_length.
  intros Hl Hu. unfold Open.
  destruct (dir_fetch (1 + b) fs s bm d fm Hl) as (s1 & -> & Hu1 & Hs1); [eapply usable_mono; [|exact Hu]; lia|]. cbn [bind].
  rewrite (Find_layout fs s bm d fm nm Hl). cbn [bind].
  destruct (fm !! Directory.key nm) as [f|] eqn:Hf; cbn [fmap option_fmap option_map].
  - destruct (ly_files _ _ _ _ _ Hl _ _ Hf) as (Hv & Hh & Hc). rewrite bool_decide_eq_true_2 by apply Hv.
    unfold OpenFile.Open. destruct (hdr_fetch b (f.1) (f.2) s1 Hv Hh) as (s2 & -> & Hu2 & Hs2); [by rewrite Hs1|done|].
    cbn [bind]. exists s2. split; [done|]. split; [done|by eapply same_contents_trans].
  - rewrite bool_decide_eq_false_2 by lia. exists s1. split; [done|]. split; [eapply usable_mono; [|exact Hu1]; lia|]. done.
Qed.

(** ** Create *)

Lemma owned_insert (fs : FileSystem) (fm : gmap (list byte) (Z * FileHeader)) (k : list byte) (f : Z * FileHeader) : fm !! k = None -> owned fs (<[k := f]> fm) ≡ₚ file_sectors f ++ owned fs fm.
Proof using Type.
  intros Hk. unfold owned. rewrite (files_sectors_insert fm k f Hk).
  rewrite (app_assoc _ (file_sectors f)), (app_assoc _ (_ ++ file_sectors f)), (app_assoc _ (_ ++ _ ++ file_sectors f)).
  rewrite (Permutation_app_comm (file_sectors f)). rewrite <- !app_assoc.
  do 3 apply Permutation_app_head. apply Permutation_app_comm.
Qed.

(** The three writes that make a new file permanent. *)
Lemma Create_commit b fs s bm d fm k sec h bm' d' :
  layout fs s bm d fm -> usable (200 + b) s -> fm !! k = None ->
  Bitmap.free bm = file_sectors (sec, h) ++ Bitmap.free bm' -> hdr_wf h ->
  Bitmap.wf bm' -> Bitmap.numBits bm' = NumSectors ->
  Directory.dir_wf d' -> Directory.tableSize d' = NumDirEntries -> Directory.dir_map d' = <[k := sec]> (Directory.dir_map d) ->
  exists s',
    (s <- FileHdr.WriteBack sec h s ;; s <- Directory.WriteBack fresh (directoryFile fs) d' s ;;
     s <- PersistentBitmap.WriteBack fresh (freeMapFile fs) bm' s ;; Ok (true, s)) = Ok (true, s') /\
    usable b s' /\ layout fs s' bm' d' (<[k := (sec, h)]> fm) /\
    (fun f => content f.2 s') <$> fm = (fun f => content f.2 s) <$> fm.
Proof using fresh_length.
  intros Hl Hu Hk Hfree Hh Hw' Hn' Hd' Ht' Hm'.
  pose proof (owned_apart fs fm (ly_owned _ _ _ _ _ Hl)) as [Ap1 Ap2 (Ap3 & Ap4 & Ap5)].
  pose proof (Bitmap.free_NoDup bm) as Hnd. rewrite Hfree in Hnd. apply NoDup_app in Hnd as (Hnd & Hndx & _).
  assert (Hout : forall x, x ∈ file_sectors (sec, h) -> valid x /\ x ∉ owned fs fm).
  { intros x Hx. apply (ly_free _ _ _ _ _ Hl). rewrite Hfree. apply elem_of_app. by left. }
  assert (Hsec : sec ∈ file_sectors (sec, h)) by left. destruct (Hout sec Hsec) as [Hvs Hsec'].
  (* the three writes *)
  destruct (WriteSector_spec (180 + b) s sec (to_sector h)) as (s1 & HW1 & Hu1 & Hs1); [eapply usable_mono; [|exact Hu]; lia|done|apply to_sector_length, Hh|].
  unfold FileHdr.WriteBack at 1. rewrite HW1. cbn [bind].
  destruct (Directory.Directory_WriteBack_ok fresh fresh_length (90 + b) (directoryFile fs) d' s1) as (s2 & -> & Hu2 & Hc2 & Hs2); [apply Hl| |by rewrite Ht'|done|exact Hu1|].
  { rewrite (ly_dir_size _ _ _ _ _ Hl), Ht'. done. }
  cbn [bind].
  destruct (PersistentBitmap.PersistentBitmap_WriteBack_ok fresh fresh_length b (freeMapFile fs) bm' s2) as (s3 & -> & Hu3 & Hc3 & Hs3); [apply Hl| |done|exact Hu2|].
  { rewrite (ly_map_size _ _ _ _ _ Hl), <- (map_words fs s bm d fm Hl). destruct Hw' as (_ & -> & _), (ly_bm _ _ _ _ _ Hl) as (_ & -> & _).
    by rewrite Hn', (ly_bits _ _ _ _ _ Hl). }
  cbn [bind]. exists s3. split; [done|]. split; [done|].
  set (ms := sec :: blocks (hdr (directoryFile fs)) ++ blocks (hdr (freeMapFile fs))).
  assert (Hun : unchanged ms s s3).
  { intros x Hx Hnot. unfold ms in Hnot. rewrite not_elem_of_cons, not_elem_of_app in Hnot. destruct Hnot as (N1 & N2 & N3).
    rewrite Hs3, Hs2, Hs1 by done. by rewrite decide_False. }
  unfold owned in Hsec'. rewrite !not_elem_of_app, !not_elem_of_cons in Hsec'. destruct Hsec' as ((S1 & S2 & _) & S3 & S4 & S5).
  assert (Hms : forall x, x ∈ ms -> x = sec \/ x ∈ blocks (hdr (directoryFile fs)) \/ x ∈ blocks (hdr (freeMapFile fs))).
  { intros x. unfold ms. rewrite elem_of_cons, elem_of_app. done. }
  destruct (files_frame fm ms s s3) as [Hf Hc]; [apply Hl| |done|].
  { intros x Hx [-> | [Hin | Hin]]%Hms; [done|by apply Ap2 in Hin as (_ & _ & ?)|by apply Ap1 in Hin as (_ & _ & _ & ?)]. }
  split; [|done].
  pose proof (hw_valid _ (ly_map_hdr _ _ _ _ _ Hl)) as Vm. pose proof (hw_valid _ (ly_dir_hdr _ _ _ _ _ Hl)) as Vd.
  split; try done; try apply Hl.
  - rewrite Hun; [apply Hl|apply valid_map|]. intros [E | [Hin | Hin]]%Hms; [done|by apply Ap2 in Hin as (? & _)|by apply Ap1 in Hin as (? & _)].
  - rewrite Hun; [apply Hl|apply valid_dir|]. intros [E | [Hin | Hin]]%Hms; [done|by apply Ap2 in Hin as (_ & ? & _)|by apply Ap1 in Hin as (_ & ? & _)].
  - rewrite <- Hc2. apply (content_unchanged _ (blocks (hdr (freeMapFile fs)))); [done| |exact Hs3].
    intros x Hx Hin. by apply Ap1 in Hin as (_ & _ & ? & _).
  - rewrite Hm', (ly_names _ _ _ _ _ Hl). by rewrite fmap_insert.
  - apply map_Forall_insert_2; [|done]. split; [done|]. split; [done|]. cbn [fst snd]. rewrite Hs3, Hs2, Hs1 by done. by rewrite decide_True.
  - rewrite (owned_insert fs fm k (sec, h) Hk). apply NoDup_app. split; [done|]. split; [|apply Hl]. intros x Hx. by apply Hout.
  - intros x. rewrite (owned_insert fs fm k (sec, h) Hk), not_elem_of_app.
    pose proof (ly_free _ _ _ _ _ Hl x) as Hfx. rewrite Hfree, elem_of_app in Hfx. split.
    + intros Hx. split; [|split]; [tauto| |tauto]. intros Hx2. by apply (Hndx x).
    + intros (Hv & Hx1 & Hx2). destruct (proj2 Hfx (conj Hv Hx2)); [done|done].
Qed.

Lemma layout_int fs s bm d fm x : layout fs s bm d fm -> x ∈ Bitmap.free bm -> int_range x.
Proof using Type.
  intros Hl Hx. apply (ly_free _ _ _ _ _ Hl) in Hx as [Hv _].
  unfold valid, NumSectors, SectorsPerTrack, NumTracks in Hv. unfold int_range. lia.
Qed.

(** A call that changed no sector. *)
Lemma nothing_done b0 b1 fs s s' m n (r : bool) : (b1 <= b0)%nat -> usable b0 s' -> same_contents s s' -> represents fs s m n ->
  exists s2, Ok (r, s') = Ok (r, s2) /\ usable b1 s2 /\ represents fs s2 m n.
Proof using Type.
  intros Hb Hu Hs Hr. exists s'. split; [done|]. split; [by eapply usable_mono|]. by apply (represents_same fs s).
Qed.

(** What creating [nm] with [sz] bytes needs. *)
Definition creatable (m : gmap (list byte) (list byte)) (n : Z) (nm : list byte) (sz : Z) : bool :=
  bool_decide (m !! Directory.key nm = None) && bool_decide (Z.of_nat (size m) < NumDirEntries) &&
  bool_decide (1 + divRoundUp sz SectorSize <= n).

Lemma FileSystem_Create_ok b fs s m n nm sz : represents fs s m n -> usable (300 + b) s -> 0 <= sz <= MaxFileSize ->
  exists s', Create fresh nm sz fs s = Ok (creatable m n nm sz, s') /\ usable b s' /\
    if creatable m n nm sz
    then exists bs, Z.of_nat (length bs) = sz /\ represents fs s' (<[Directory.key nm := bs]> m) (n - 1 - divRoundUp sz SectorSize)
    else represents fs s' m n.
Proof using fresh_length.
  intros Hr Hu Hsz. destruct Hr as (bm & d & fm & Hl & Em & En).
  assert (Hr : represents fs s m n) by by exists bm, d, fm. unfold Create.
  destruct (dir_fetch (270 + b) fs s bm d fm Hl) as (s1 & -> & Hu1 & Hs1); [exact Hu|]. cbn [bind].
  rewrite (Find_layout fs s bm d fm nm Hl). cbn [bind].
  assert (Hmk : m !! Directory.key nm = None <-> fm !! Directory.key nm = None) by (rewrite Em, lookup_fmap; apply fmap_None).
  assert (Hsize : size m = size (Directory.dir_map d)) by (rewrite (ly_names _ _ _ _ _ Hl), Em; by rewrite !map_size_fmap).
  pose proof (divRoundUp_spec sz SectorSize ltac:(done) (proj1 Hsz)) as Hd.
  assert (Hk : 0 <= divRoundUp sz SectorSize) by (change SectorSize with 128 in *; lia). clear Hd.
  unfold creatable. destruct (fm !! Directory.key nm) as [f|] eqn:Hf.
  { rewrite (bool_decide_eq_false_2 (m !! _ = None)) by (rewrite Hmk; done). cbn [andb].
    rewrite bool_decide_eq_true_2 by (destruct (ly_files _ _ _ _ _ Hl _ _ Hf) as ([Hv _] & _); lia).
    eapply nothing_done; [|exact Hu1|done|done]. lia. }
  rewrite (bool_decide_eq_true_2 (m !! _ = None)) by by apply Hmk. rewrite bool_decide_eq_false_2 by (intros Hx; by apply Hx). cbn [andb].
  destruct (map_fetch (240 + b) fs s1 bm d fm) as (s2 & -> & Hu2 & Hs2'); [|exact Hu1|].
  { by apply (layout_frame fs s s1 bm d fm [] Hl); [apply same_unchanged|intros x _; apply not_elem_of_nil]. }
  cbn [bind]. pose proof (same_contents_trans _ _ _ Hs1 Hs2') as Hs2. clear Hs2'.
  destruct (Bitmap.FindAndSet_ok bm (ly_bm _ _ _ _ _ Hl)) as ([sec bm1] & -> & Hfound). cbn [bind].
  unfold Bitmap.found in Hfound. destruct (Bitmap.free bm) as [|i rest] eqn:Hfree.
  { injection Hfound as -> ->. rewrite bool_decide_eq_true_2 by done.
    rewrite (bool_decide_eq_false_2 (_ <= n)) by (subst n; cbn; lia). rewrite andb_false_r.
    eapply nothing_done; [|exact Hu2|done|done]. lia. }
  cbn [fst snd] in Hfound. destruct Hfound as (-> & Hupd & Hrest).
  assert (Hi : int_range i /\ valid i).
  { split; [apply (layout_int fs s bm d fm i Hl); rewrite Hfree; left|]. apply (ly_free _ _ _ _ _ Hl). rewrite Hfree. left. }
  destruct Hi as [Hii Hiv]. rewrite bool_decide_eq_false_2 by (destruct Hiv; lia).
  destruct (Directory.Add_ok nm i d (ly_d _ _ _ _ _ Hl) Hii) as (d' & -> & Hd' & Ht' & Hm'). cbn zeta in Hm' |- *.
  rewrite (ly_names _ _ _ _ _ Hl), (ly_entries _ _ _ _ _ Hl), lookup_fmap, Hf in Hm' |- *. cbn [fmap option_fmap option_map] in Hm' |- *.
  rewrite (bool_decide_eq_true_2 (None = None)) in Hm' |- * by done. cbn [andb] in Hm' |- *.
  rewrite negb_involutive. rewrite (ly_names _ _ _ _ _ Hl) in Hsize. rewrite <- Hsize in Hm' |- *.
  assert (Hle : Z.of_nat (size m) <= NumDirEntries).
  { rewrite Hsize, <- (ly_names _ _ _ _ _ Hl), Directory.dir_map_size by apply Hl.
    rewrite <- (ly_entries _ _ _ _ _ Hl), <- (Directory.d_size _ (ly_d _ _ _ _ _ Hl)). pose proof (Directory.entries_le (Directory.table d)). lia. }
  destruct (decide (Z.of_nat (size m) = NumDirEntries)) as [Hfull|Hfull].
  { rewrite bool_decide_eq_true_2 by done. rewrite (bool_decide_eq_false_2 (_ < _)) by lia. cbn [andb].
    eapply nothing_done; [|exact Hu2|done|done]. lia. }
  rewrite bool_decide_eq_false_2 in Hm' |- * by done. rewrite (bool_decide_eq_true_2 (_ < _)) by lia. cbn [andb negb] in Hm' |- *.
  destruct (Allocate_ok bm1 sz (newFileHeader fresh)) as (ok & h & bm2 & -> & -> & Halloc);
    [apply Hupd|destruct Hupd as (_ & -> & _); apply Hl|apply newFileHeader_fresh|done|].
  cbn [bind]. rewrite Hrest in Halloc |- *.
  assert (Hneed : bool_decide (divRoundUp sz SectorSize <= Z.of_nat (length rest)) = bool_decide (1 + divRoundUp sz SectorSize <= n)).
  { apply bool_decide_ext. subst n. cbn [length]. lia. }
  rewrite Hneed in Halloc |- *. destruct (bool_decide (1 + divRoundUp sz SectorSize <= n)) eqn:Hdec; cbn [negb].
  2: { eapply nothing_done; [|exact Hu2|done|done]. lia. }
  destruct Halloc as [A1 A2 A3 A4 A5].
  destruct (layout_frame fs s s2 bm d fm [] Hl) as [Hl2 Hc2]; [by apply same_unchanged|intros x _; apply not_elem_of_nil|].
  destruct (Create_commit b fs s2 bm d fm (Directory.key nm) i h bm2 d' Hl2) as (s3 & Hrun & Hu3 & Hl3 & Hc3); try done.
  { eapply usable_mono; [|exact Hu2]. lia. }
  { rewrite Hfree. unfold file_sectors. cbn [fst snd app]. by rewrite <- Hrest, A5. }
  { rewrite A4. destruct Hupd as (_ & -> & _). apply Hl. }
  { rewrite Ht'. apply Hl. }
  { by rewrite Hm', (ly_names _ _ _ _ _ Hl). }
  rewrite Hrun. exists s3. split; [done|]. split; [done|]. exists (content h s3). split.
  { rewrite (content_length b h s3) by done. done. }
  exists bm2, d', (<[Directory.key nm := (i, h)]> fm). split; [done|]. split.
  - rewrite fmap_insert. cbn [snd]. f_equal. rewrite Hc3, Hc2. done.
  - subst n. rewrite <- Hrest, A5. cbn [length]. rewrite length_app. pose proof (length_blocks h A1) as Hlb.
    rewrite (hw_sectors _ A1), A2 in Hlb. lia.
Qed.

(** ** Remove *)

Lemma owned_delete (fs : FileSystem) (fm : gmap (list byte) (Z * FileHeader)) (k : list byte) (f : Z * FileHeader) :
  fm !! k = Some f -> owned fs fm ≡ₚ file_sectors f ++ owned fs (delete k fm).
Proof using Type. intros Hk. rewrite <- (owned_insert fs (delete k fm) k f) by apply lookup_delete_eq. by rewrite insert_delete_id. Qed.

(** The two writes that make a removal permanent. *)
Lemma Remove_commit b fs s bm d fm k f bm' d' :
  layout fs s bm d fm -> usable (200 + b) s -> fm !! k = Some f ->
  (forall x, x ∈ Bitmap.free bm' <-> x ∈ file_sectors f \/ x ∈ Bitmap.free bm) ->
  Bitmap.wf bm' -> Bitmap.numBits bm' = NumSectors ->
  Directory.dir_wf d' -> Directory.tableSize d' = NumDirEntries -> Directory.dir_map d' = delete k (Directory.dir_map d) ->
  exists s',
    (s <- PersistentBitmap.WriteBack fresh (freeMapFile fs) bm' s ;;
     s <- Directory.WriteBack fresh (directoryFile fs) d' s ;; Ok (true, s)) = Ok (true, s') /\
    usable b s' /\ layout fs s' bm' d' (delete k fm) /\
    (fun f => content f.2 s') <$> delete k fm = (fun f => content f.2 s) <$> delete k fm.
Proof using fresh_length.
  intros Hl Hu Hk Hfree Hw' Hn' Hd' Ht' Hm'.
  pose proof (owned_apart fs fm (ly_owned _ _ _ _ _ Hl)) as [Ap1 Ap2 (Ap3 & Ap4 & Ap5)].
  pose proof (owned_delete fs fm k f Hk) as Hperm.
  pose proof (ly_owned _ _ _ _ _ Hl) as Hnd. rewrite Hperm in Hnd. apply NoDup_app in Hnd as (Hnd & Hndx & Hnd').
  assert (Hsub : forall x, x ∈ files_sectors (delete k fm) -> x ∈ files_sectors fm).
  { intros x Hx. rewrite (files_sectors_delete fm k f Hk). apply elem_of_app. by right. }
  destruct (PersistentBitmap.PersistentBitmap_WriteBack_ok fresh fresh_length (90 + b) (freeMapFile fs) bm' s) as (s1 & -> & Hu1 & Hc1 & Hs1);
    [apply Hl| |done|eapply usable_mono; [|exact Hu]; lia|].
  { rewrite (ly_map_size _ _ _ _ _ Hl), <- (map_words fs s bm d fm Hl). destruct Hw' as (_ & -> & _), (ly_bm _ _ _ _ _ Hl) as (_ & -> & _).
    by rewrite Hn', (ly_bits _ _ _ _ _ Hl). }
  cbn [bind].
  destruct (Directory.Directory_WriteBack_ok fresh fresh_length b (directoryFile fs) d' s1) as (s2 & -> & Hu2 & Hc2 & Hs2); [apply Hl| |by rewrite Ht'|done|exact Hu1|].
  { rewrite (ly_dir_size _ _ _ _ _ Hl), Ht'. done. }
  cbn [bind]. exists s2. split; [done|]. split; [done|].
  set (ms := blocks (hdr (directoryFile fs)) ++ blocks (hdr (freeMapFile fs))).
  assert (Hms : forall x, x ∈ ms -> x ∈ blocks (hdr (directoryFile fs)) \/ x ∈ blocks (hdr (freeMapFile fs))).
  { intros x. unfold ms. by rewrite elem_of_app. }
  assert (Hun : unchanged ms s s2).
  { intros x Hx Hnot. unfold ms in Hnot. rewrite not_elem_of_app in Hnot. destruct Hnot as (N1 & N2). by rewrite Hs2, Hs1. }
  destruct (files_frame (delete k fm) ms s s2) as [Hf Hc]; [by apply map_Forall_delete, Hl| |done|].
  { intros x Hx%Hsub [Hin | Hin]%Hms; [by apply Ap2 in Hin as (_ & _ & ?)|by apply Ap1 in Hin as (_ & _ & _ & ?)]. }
  split; [|done].
  pose proof (hw_valid _ (ly_map_hdr _ _ _ _ _ Hl)) as Vm. pose proof (hw_valid _ (ly_dir_hdr _ _ _ _ _ Hl)) as Vd.
  split; try done; try apply Hl.
  - rewrite Hun; [apply Hl|apply valid_map|]. intros [Hin | Hin]%Hms; [by apply Ap2 in Hin as (? & _)|by apply Ap1 in Hin as (? & _)].
  - rewrite <- Hc1. apply (content_unchanged _ (blocks (hdr (directoryFile fs)))); [done| |exact Hs2].
    intros x Hx. by apply Ap1 in Hx as (_ & _ & ? & _).
  - rewrite Hun; [apply Hl|apply valid_dir|]. intros [Hin | Hin]%Hms; [by apply Ap2 in Hin as (_ & ? & _)|by apply Ap1 in Hin as (_ & ? & _)].
  - by rewrite Hm', (ly_names _ _ _ _ _ Hl), fmap_delete.
  - intros x. rewrite Hfree. pose proof (ly_free _ _ _ _ _ Hl x) as Hfx. rewrite Hperm, not_elem_of_app in Hfx. rewrite Hfx.
    split; [intros [Hx|(Hv & _ & Hx)]|]; [|done|].
    + split; [|by apply Hndx]. destruct (ly_files _ _ _ _ _ Hl _ _ Hk) as (Hv & Hh & _). unfold file_sectors in Hx.
      apply elem_of_cons in Hx as [->|Hx]; [done|]. by apply (proj1 (Forall_forall _ _) (hw_valid _ Hh)).
    + intros [Hv Hx]. destruct (decide (x ∈ file_sectors f)); [by left|by right].
Qed.

Lemma free_disjoint_length (l1 l2 l : list Z) : NoDup l -> NoDup l1 -> NoDup l2 -> (forall x, x ∈ l1 -> x ∉ l2) ->
  (forall x, x ∈ l <-> x ∈ l1 \/ x ∈ l2) -> length l = (length l1 + length l2)%nat.
Proof using Type.
  intros H0 H1 H2 Hd Hx. rewrite <- length_app. apply Permutation_length, NoDup_Permutation; [done|by apply NoDup_app|].
  intros x. by rewrite Hx, elem_of_app.
Qed.

(** The sectors a removal gives back. *)
Definition released (m : gmap (list byte) (list byte)) (nm : list byte) : Z :=
  match m !! Directory.key nm with Some bs => 1 + divRoundUp (Z.of_nat (length bs)) SectorSize | None => 0 end.

Lemma FileSystem_Remove_ok b fs s m n nm : represents fs s m n -> usable (300 + b) s ->
  exists s', Remove fresh nm fs s = Ok (bool_decide (m !! Directory.key nm <> None), s') /\ usable b s' /\
    represents fs s' (delete (Directory.key nm) m) (n + released m nm).
Proof using fresh_length.
  intros Hr Hu. destruct Hr as (bm & d & fm & Hl & Em & En).
  assert (Hr : represents fs s m n) by by exists bm, d, fm. unfold Remove, released.
  destruct (dir_fetch (270 + b) fs s bm d fm Hl) as (s1 & -> & Hu1 & Hs1); [exact Hu|]. cbn [bind].
  rewrite (Find_layout fs s bm d fm nm Hl). cbn [bind].
  assert (Hmk : m !! Directory.key nm = (fun f => content f.2 s) <$> fm !! Directory.key nm) by by rewrite Em, lookup_fmap.
  destruct (fm !! Directory.key nm) as [[sec h]|] eqn:Hf; cbn [fmap option_fmap option_map fst snd] in Hmk |- *.
  2: { rewrite bool_decide_eq_true_2 by done. rewrite Hmk, bool_decide_eq_false_2 by (intros Hx; by apply Hx).
    rewrite delete_id, Z.add_0_r by done. eapply nothing_done; [|exact Hu1|done|done]. lia. }
  destruct (ly_files _ _ _ _ _ Hl _ _ Hf) as (Hv & Hh & Hc). cbn [fst snd] in Hv, Hh, Hc.
  rewrite bool_decide_eq_false_2 by (destruct Hv; lia). rewrite (bool_decide_eq_true_2 (m !! _ <> None)) by by rewrite Hmk.
  destruct (hdr_fetch (269 + b) sec h s1 Hv Hh) as (s2 & -> & Hu2 & Hs2'); [by rewrite Hs1|exact Hu1|]. cbn [bind].
  pose proof (same_contents_trans _ _ _ Hs1 Hs2') as Hs2. clear Hs2'.
  destruct (map_fetch (230 + b) fs s2 bm d fm) as (s3 & -> & Hu3 & Hs3');
    [by apply (layout_frame fs s s2 bm d fm [] Hl); [apply same_unchanged|intros x _; apply not_elem_of_nil]|eapply usable_mono; [|exact Hu2]; lia|].
  cbn [bind]. pose proof (same_contents_trans _ _ _ Hs2 Hs3') as Hs3. clear Hs3'.
  assert (Hin : forall x, x ∈ file_sectors (sec, h) -> x ∉ Bitmap.free bm).
  { intros x Hx [_ Hy]%(ly_free _ _ _ _ _ Hl). apply Hy. rewrite (owned_delete fs fm _ _ Hf). apply elem_of_app. by left. }
  destruct (Deallocate_ok bm h) as (bm1 & -> & Hw1 & Hn1 & Hf1); [apply Hl|apply Hl|done|by apply Forall_forall; intros x Hx; apply Hin; right|].
  cbn [bind]. rewrite (ly_bits _ _ _ _ _ Hl) in Hn1. unfold valid in Hv.
  destruct (Bitmap.Clear_ok bm1 sec Hw1) as (bm2 & -> & Hupd); [by rewrite Hn1|]. cbn [bind].
  destruct (Directory.Directory_Remove_ok nm d (ly_d _ _ _ _ _ Hl)) as (d' & -> & Hd' & Ht' & Hm'). cbn [bind].
  destruct (layout_frame fs s s3 bm d fm [] Hl) as [Hl3 Hc3]; [by apply same_unchanged|intros x _; apply not_elem_of_nil|].
  assert (Hfree2 : forall x, x ∈ Bitmap.free bm2 <-> x ∈ file_sectors (sec, h) \/ x ∈ Bitmap.free bm).
  { intros x. rewrite (Bitmap.free_Clear_in bm1 sec bm2 x Hupd), Hf1 by by rewrite Hn1.
    unfold file_sectors. rewrite elem_of_cons. cbn [fst snd]. tauto. }
  destruct (Remove_commit b fs s3 bm d fm (Directory.key nm) (sec, h) bm2 d' Hl3) as (s4 & -> & Hu4 & Hl4 & Hc4); try done.
  { eapply usable_mono; [|exact Hu3]. lia. }
  { by eapply Bitmap.updated_wf. }
  { destruct Hupd as (_ & -> & _). done. }
  { rewrite Ht'. apply Hl. }
  exists s4. split; [done|]. split; [done|]. exists bm2, d', (delete (Directory.key nm) fm). split; [done|]. split.
  - rewrite Hc4, Em, <- fmap_delete, !fmap_delete. by rewrite Hc3.
  - rewrite Hmk. rewrite (content_length (300 + b) h s) by done. pose proof (length_blocks h Hh) as Hlb. rewrite (hw_sectors _ Hh) in Hlb.
    rewrite (free_disjoint_length (file_sectors (sec, h)) (Bitmap.free bm) (Bitmap.free bm2)); [|apply Bitmap.free_NoDup| |apply Bitmap.free_NoDup|done|done].
    + unfold file_sectors. cbn [length fst snd]. lia.
    + pose proof (ly_owned _ _ _ _ _ Hl) as Hnd. rewrite (owned_delete fs fm _ _ Hf) in Hnd. by apply NoDup_app in Hnd as (? & _).
Qed.

(** ** Reading and writing a file *)

(** What [ReadAt] returns of the content [bs]. *)
Definition slice (pos n : Z) (bs : list byte) : list byte := take (Z.to_nat n) (drop (Z.to_nat pos) bs).

(** How many bytes [WriteAt] stores, and the content it leaves. *)
Definition stored (bs : list byte) (pos n : Z) : Z := Z.max 0 (Z.min n (Z.of_nat (length bs) - pos)).

Definition overwritten (bs : list byte) (pos n : Z) (from : list byte) : list byte :=
  if decide (0 < stored bs pos n) then splice (Z.to_nat pos) (take (Z.to_nat (stored bs pos n)) from) bs else bs.

(** Writing a file changes that file and no other. *)
Lemma Write_layout b fs s bm d fm k sec h from n pos :
  layout fs s bm d fm -> usable (90 + b) s -> fm !! k = Some (sec, h) ->
  0 <= pos -> pos + n < 2 ^ 31 -> n <= Z.of_nat (length from) ->
  exists s', WriteAt fresh h from n pos s = Ok (stored (content h s) pos n, s') /\ usable b s' /\ layout fs s' bm d fm /\
    (fun f => content f.2 s') <$> fm = <[k := overwritten (content h s) pos n from]> ((fun f => content f.2 s) <$> fm).
Proof using fresh_length.
  intros Hl Hu Hk Hpos Ho Hn. destruct (ly_files _ _ _ _ _ Hl _ _ Hk) as (Hv & Hh & Hc). cbn [fst snd] in Hv, Hh, Hc.
  destruct (WriteAt_ok fresh fresh_length b h from n pos s Hh Hu Hpos Ho Hn) as (s' & c & -> & Hu' & -> & Hout & Hcon).
  unfold overwritten, stored. rewrite (content_length (90 + b) h s) by done. exists s'. split; [done|]. split; [done|].
  pose proof (owned_apart fs fm (ly_owned _ _ _ _ _ Hl)) as [Ap1 Ap2 (Ap3 & Ap4 & Ap5)].
  rewrite (files_sectors_delete fm k _ Hk) in Ap5. apply NoDup_app in Ap5 as (Nd1 & Nd2 & _). unfold file_sectors in Nd1, Nd2. cbn [fst snd] in Nd1, Nd2.
  apply NoDup_cons in Nd1 as [Nsec _].
  assert (Hb : forall x, x ∈ blocks h -> x ∈ files_sectors fm) by (intros x Hx; apply (elem_of_files_sectors fm k (sec, h)); [done|right; done]).
  assert (Hun : unchanged (blocks h) s s') by exact Hout.
  destruct (files_frame (delete k fm) (blocks h) s s') as [Hf Hcf]; [by apply map_Forall_delete, Hl| |done|].
  { intros x Hx Hx2. apply (Nd2 x); [by right|done]. }
  pose proof (hw_valid _ (ly_map_hdr _ _ _ _ _ Hl)) as Vm. pose proof (hw_valid _ (ly_dir_hdr _ _ _ _ _ Hl)) as Vd.
  split; [split; try done; try apply Hl|].
  - rewrite Hun; [apply Hl|apply valid_map|]. intros Hx. by apply Ap3, Hb.
  - rewrite (content_unchanged _ (blocks h) s s' Vm) by (try done; intros x Hx Hx2; apply Ap1 in Hx as (_ & _ & _ & Hx); by apply Hx, Hb). apply Hl.
  - rewrite Hun; [apply Hl|apply valid_dir|]. intros Hx. by apply Ap4, Hb.
  - rewrite (content_unchanged _ (blocks h) s s' Vd) by (try done; intros x Hx Hx2; apply Ap2 in Hx as (_ & _ & Hx); by apply Hx, Hb). apply Hl.
  - rewrite <- (insert_delete_id fm k _ Hk). apply map_Forall_insert_2; [|done]. split; [done|]. split; [done|]. cbn [fst snd]. by rewrite Hun.
  - rewrite <- (insert_delete_id fm k _ Hk) at 1. rewrite fmap_insert, Hcf. cbn [snd]. rewrite Hcon, fmap_delete, insert_delete_eq. done.
Qed.

(** ** Mounting *)

Lemma mount_ok b fs s m n : represents fs s m n -> usable (2 + b) s ->
  exists fs' s', new_FileSystem fresh false s = Ok (fs', s') /\ usable b s' /\ represents fs' s' m n.
Proof using Type.
  intros Hr Hu. pose proof Hr as (bm & d & fm & Hl & Em & En). unfold new_FileSystem, OpenFile.Open.
  destruct (hdr_fetch (1 + b) FreeMapSector (hdr (freeMapFile fs)) s valid_map) as (s1 & -> & Hu1 & Hs1); [apply Hl|apply Hl|done|]. cbn [bind].
  destruct (hdr_fetch b DirectorySector (hdr (directoryFile fs)) s1 valid_dir) as (s2 & -> & Hu2 & Hs2);
    [apply Hl|rewrite Hs1 by apply valid_dir; apply Hl|done|]. cbn [bind].
  eexists _, s2. split; [done|]. split; [done|]. apply (represents_same _ s); [by eapply same_contents_trans|].
  exists bm, d, fm. split; [|done]. destruct Hl. by split.
Qed.

(** ** Formatting *)

Lemma format_map : exists bm, (freeMap <- Bitmap.Bitmap NumSectors ;; freeMap <- Bitmap.Mark freeMap FreeMapSector ;;
    Bitmap.Mark freeMap DirectorySector) = Ok bm /\
  Bitmap.wf bm /\ Bitmap.numBits bm = NumSectors /\ [FreeMapSector; DirectorySector] ++ Bitmap.free bm = seqZ 0 NumSectors.
Proof using Type.
  destruct (Bitmap.Bitmap_ok NumSectors) as (bm0 & -> & Hw0 & Hn0 & Ht0); [done|]. cbn [bind].
  destruct (Bitmap.Mark_ok bm0 FreeMapSector Hw0) as (bm1 & -> & Hu1); [by rewrite Hn0|]. cbn [bind].
  pose proof Hu1 as (Hw1 & Hn1 & _). rewrite Hn0 in Hn1.
  destruct (Bitmap.Mark_ok bm1 DirectorySector Hw1) as (bm2 & -> & Hu2); [by rewrite Hn1|].
  exists bm2. pose proof Hu2 as (Hw2 & Hn2 & _). split; [done|]. split; [done|]. split; [congruence|].
  rewrite (Bitmap.free_Mark _ _ _ Hu2), (Bitmap.free_Mark _ _ _ Hu1).
  rewrite Ht0. change FreeMapSector with 0. change DirectorySector with 1. by vm_compute.
Qed.

Lemma format_ok b s : usable (300 + b) s ->
  exists fs s', new_FileSystem fresh true s = Ok (fs, s') /\ usable b s' /\ represents fs s' ∅ 1019.
Proof using fresh_length.
  intros Hu. unfold new_FileSystem, format. destruct format_map as (bm & Hrun & Hw & Hn & Hfree).
  apply bind_ok in Hrun as (bm0 & -> & Hrun). apply bind_ok in Hrun as (bm1 & Hm1 & Hm2).
  cbn [bind]. rewrite Hm1. cbn [bind]. rewrite Hm2. cbn [bind].
  pose proof (newFileHeader_fresh) as Hfr. pose proof (NoDup_seqZ 0 NumSectors) as Hnd. rewrite <- Hfree in Hnd.
  assert (Hlen : length (Bitmap.free bm) = 1022%nat).
  { apply (f_equal length) in Hfree. rewrite length_app, length_seqZ in Hfree. change (Z.to_nat NumSectors) with 1024%nat in Hfree. cbn [length] in Hfree. lia. }
  destruct (Allocate_ok bm FreeMapFileSize (newFileHeader fresh) Hw Hn Hfr) as (ok & mh & bm2 & -> & -> & Ha); [by vm_compute|].
  rewrite bool_decide_eq_true_2 in Ha |- * by (rewrite Hlen; by vm_compute). cbn [bind assert]. destruct Ha as [A1 A2 A3 A4 A5].
  destruct (Allocate_ok bm2 DirectoryFileSize (newFileHeader fresh) A3) as (ok & dh & bm3 & -> & -> & Hb); [congruence|done|by vm_compute|].
  assert (Hl1 : length (blocks mh) = 1%nat) by (pose proof (length_blocks mh A1) as Hl; rewrite (hw_sectors _ A1), A2 in Hl; change (divRoundUp FreeMapFileSize SectorSize) with 1 in Hl; lia).
  assert (Hlen2 : length (Bitmap.free bm2) = 1021%nat) by (apply (f_equal length) in A5; rewrite length_app in A5; lia).
  rewrite bool_decide_eq_true_2 in Hb |- * by (rewrite Hlen2; by vm_compute). cbn [bind assert]. destruct Hb as [B1 B2 B3 B4 B5].
  assert (Hl2 : length (blocks dh) = 2%nat) by (pose proof (length_blocks dh B1) as Hl; rewrite (hw_sectors _ B1), B2 in Hl; change (divRoundUp DirectoryFileSize SectorSize) with 2 in Hl; lia).
  assert (Hlen3 : length (Bitmap.free bm3) = 1019%nat) by (apply (f_equal length) in B5; rewrite length_app in B5; lia).
  assert (Hall : [FreeMapSector; DirectorySector] ++ blocks mh ++ blocks dh ++ Bitmap.free bm3 = seqZ 0 NumSectors) by by rewrite <- B5, <- A5.
  rewrite A5, B5 in Hnd. clear Hfree A5 B5.
  apply NoDup_app in Hnd as (_ & N0 & Hnd). pose proof Hnd as Hnd1. apply NoDup_app in Hnd as (_ & N1 & Hnd). apply NoDup_app in Hnd as (_ & N2 & _).
  (* the two headers *)
  destruct (WriteSector_spec (290 + b) s FreeMapSector (to_sector mh)) as (s1 & HW1 & Hu1 & Hs1); [eapply usable_mono; [|exact Hu]; lia|apply valid_map|apply to_sector_length, A1|].
  destruct (WriteSector_spec (280 + b) s1 DirectorySector (to_sector dh)) as (s2 & HW2 & Hu2 & Hs2); [eapply usable_mono; [|exact Hu1]; lia|apply valid_dir|apply to_sector_length, B1|].
  unfold FileHdr.WriteBack. rewrite HW1. cbn [bind]. rewrite HW2. cbn [bind]. unfold OpenFile.Open.
  destruct (hdr_fetch (260 + b) FreeMapSector mh s2 valid_map A1) as (s3 & -> & Hu3 & Hs3).
  { rewrite Hs2, decide_False, Hs1, decide_True by (done || apply valid_map). done. } { eapply usable_mono; [|exact Hu2]; lia. }
  cbn [bind].
  destruct (hdr_fetch (250 + b) DirectorySector dh s3 valid_dir B1) as (s4 & -> & Hu4 & Hs4').
  { rewrite Hs3, Hs2, decide_True by (done || apply valid_dir). done. } { eapply usable_mono; [|exact Hu3]; lia. }
  cbn [bind]. pose proof (same_contents_trans _ _ _ Hs3 Hs4') as Hs4. clear Hs3 Hs4' Hu3 s3.
  assert (Hmw : FreeMapFileSize = Bitmap.numWords bm3 * 4) by (destruct B3 as (_ & -> & _); by rewrite B4, A4, Hn).
  destruct newDirectory_ok as (Hd & Hds & Hdm).
  destruct (PersistentBitmap.PersistentBitmap_WriteBack_ok fresh fresh_length (100 + b) (mkOpen mh 0) bm3 s4 A1) as (s5 & -> & Hu5 & Hc5 & Hs5);
    [cbn [hdr]; by rewrite A2|done|eapply usable_mono; [|exact Hu4]; lia|]. cbn [bind].
  destruct (Directory.Directory_WriteBack_ok fresh fresh_length b (mkOpen dh 0) (newDirectory fresh) s5 B1) as (s6 & -> & Hu6 & Hc6 & Hs6);
    [cbn [hdr]; rewrite B2, Hds; unfold DirectoryFileSize; lia|by rewrite Hds|done|eapply usable_mono; [|exact Hu5]; lia|]. cbn [bind].
  exists (mkFS (mkOpen mh 0) (mkOpen dh 0)), s6. split; [done|]. split; [done|].
  exists bm3, (newDirectory fresh), ∅. split; [|rewrite Hlen3; split; [by rewrite fmap_empty|done]].
  assert (Mm : FreeMapSector ∉ blocks mh ++ blocks dh) by (intros Hx; eapply (N0 FreeMapSector); [left|rewrite app_assoc; apply elem_of_app; by left]).
  assert (Dm : DirectorySector ∉ blocks mh ++ blocks dh) by (intros Hx; eapply (N0 DirectorySector); [right; left|rewrite app_assoc; apply elem_of_app; by left]).
  rewrite not_elem_of_app in Mm, Dm. cbn [hdr] in *.
  split; cbn [hdr freeMapFile directoryFile]; try done.
  - rewrite Hs6, Hs5, Hs4, Hs2, decide_False, Hs1, decide_True by (done || apply valid_map || apply Mm). done.
  - rewrite <- Hc5. apply (content_unchanged _ (blocks dh)); [apply A1| |exact Hs6]. intros x Hx Hx2. apply (N1 x Hx). apply elem_of_app. by left.
  - congruence.
  - rewrite Hs6, Hs5, Hs4, Hs2, decide_True by (done || apply valid_dir || apply Dm). done.
  - unfold owned, files_sectors. cbn [hdr freeMapFile directoryFile]. rewrite map_to_list_empty. cbn [fmap list_fmap concat]. rewrite app_nil_r.
    pose proof (NoDup_seqZ 0 NumSectors) as Hx. rewrite <- Hall, !app_assoc in Hx. apply NoDup_app in Hx as (Hx & _). by rewrite <- !app_assoc in Hx.
  - intros x. unfold owned, files_sectors. cbn [hdr freeMapFile directoryFile]. rewrite map_to_list_empty. cbn [fmap list_fmap concat]. rewrite app_nil_r.
    assert (Hv : valid x <-> x ∈ [FreeMapSector; DirectorySector] ++ blocks mh ++ blocks dh ++ Bitmap.free bm3).
    { rewrite Hall, elem_of_seqZ. unfold valid. lia. }
    pose proof (NoDup_seqZ 0 NumSectors) as Hx. rewrite <- Hall, !app_assoc in Hx. apply NoDup_app in Hx as (_ & Hdis & _).
    rewrite Hv, !app_assoc, (elem_of_app _ (Bitmap.free bm3)), <- !app_assoc. rewrite <- !app_assoc in Hdis. specialize (Hdis x). tauto.
Qed.

End operations.

(** ** Requests *)

(** What a client asks of the mounted file system; [RRead] and [RWrite] open the
    file, seek and transfer, [RMount] is a reboot on the same disk. *)
Inductive request : Type :=
| RCreate (nm : list byte) (size : Z)
| RRemove (nm : list byte)
| RRead (nm : list byte) (pos n : Z)
| RWrite (nm : list byte) (pos n : Z) (from : list byte)
| RMount.

Inductive reply : Type :=
| PDone (ok : bool)
| PData (bs : option (list byte))
| PCount (n : option Z)
| PMounted.

Section clients.
Context {S : Type} `{SectorDevice S} (fresh : Z -> list byte).

Definition serve (r : request) (fs : FileSystem) (s : S) : result (reply * FileSystem * S) :=
  match r with
  | RCreate nm size => '(ok, s) <- Create fresh nm size fs s ;; Ok (PDone ok, fs, s)
  | RRemove nm => '(ok, s) <- Remove fresh nm fs s ;; Ok (PDone ok, fs, s)
  | RRead nm pos n =>
      '(f, s) <- Open fresh nm fs s ;;
      match f with
      | None => Ok (PData None, fs, s)
      | Some f => '(bs, _, s) <- Read n (Seek pos f) s ;; Ok (PData (Some bs), fs, s)
      end
  | RWrite nm pos n from =>
      '(f, s) <- Open fresh nm fs s ;;
      match f with
      | None => Ok (PCount None, fs, s)
      | Some f => '(c, _, s) <- Write fresh from n (Seek pos f) s ;; Ok (PCount (Some c), fs, s)
      end
  | RMount => '(fs, s) <- new_FileSystem fresh false s ;; Ok (PMounted, fs, s)
  end.

Fixpoint run (rs : list request) (fs : FileSystem) (s : S) : result (list reply * FileSystem * S) :=
  match rs with
  | [] => Ok ([], fs, s)
  | r :: rs => '(p, fs, s) <- serve r fs s ;; '(ps, fs, s) <- run rs fs s ;; Ok (p :: ps, fs, s)
  end.
End clients.

(** The specification: files by name, and how many sectors are free. *)
Definition state : Type := gmap (list byte) (list byte) * Z.

Inductive spec_step : state -> request -> reply -> state -> Prop :=
| spec_create m n nm sz bs : creatable m n nm sz = true -> Z.of_nat (length bs) = sz ->
    spec_step (m, n) (RCreate nm sz) (PDone true) (<[Directory.key nm := bs]> m, n - 1 - divRoundUp sz SectorSize)
| spec_create_refused m n nm sz : creatable m n nm sz = false -> spec_step (m, n) (RCreate nm sz) (PDone false) (m, n)
| spec_remove m n nm : spec_step (m, n) (RRemove nm) (PDone (bool_decide (m !! Directory.key nm <> None)))
    (delete (Directory.key nm) m, n + released m nm)
| spec_read m n nm pos k : spec_step (m, n) (RRead nm pos k) (PData (slice pos k <$> m !! Directory.key nm)) (m, n)
| spec_write m n nm pos k from bs : m !! Directory.key nm = Some bs ->
    spec_step (m, n) (RWrite nm pos k from) (PCount (Some (stored bs pos k)))
      (<[Directory.key nm := overwritten bs pos k from]> m, n)
| spec_write_absent m n nm pos k from : m !! Directory.key nm = None -> spec_step (m, n) (RWrite nm pos k from) (PCount None) (m, n)
| spec_mount st : spec_step st RMount PMounted st.

Inductive spec_trace : state -> list request -> list reply -> state -> Prop :=
| trace_nil st : spec_trace st [] [] st
| trace_cons st1 st2 st3 r p rs ps : spec_step st1 r p st2 -> spec_trace st2 rs ps st3 -> spec_trace st1 (r :: rs) (p :: ps) st3.

(** Sizes and positions the model of [int] arithmetic covers without overflow. *)
Definition request_ok (r : request) : Prop :=
  match r with
  | RCreate _ sz => 0 <= sz <= MaxFileSize
  | RRead _ pos n => 0 <= pos /\ pos + n < 2 ^ 31
  | RWrite _ pos n from => 0 <= pos /\ pos + n < 2 ^ 31 /\ n <= Z.of_nat (length from)
  | RRemove _ | RMount => True
  end.

Section refinement.
Context {S : Type} `{SectorDevice S} (fresh : Z -> list byte).
Hypothesis fresh_length : forall n, 0 <= n -> Z.of_nat (length (fresh n)) = n.

Lemma serve_ok b r fs s m n : represents fs s m n -> usable (300 + b) s -> request_ok r ->
  exists p fs' s' m' n', serve fresh r fs s = Ok (p, fs', s') /\ usable b s' /\ represents fs' s' m' n' /\ spec_step (m, n) r p (m', n').
Proof using fresh_length.
  intros Hr Hu Hok. destruct r as [nm sz|nm|nm pos k|nm pos k from|]; cbn [serve request_ok] in *.
  - destruct (FileSystem_Create_ok fresh fresh_length b fs s m n nm sz Hr Hu Hok) as (s' & -> & Hu' & Hc). cbn [bind].
    destruct (creatable m n nm sz) eqn:E.
    + destruct Hc as (bs & Hl & Hr'). do 5 eexists. split; [done|]. split; [done|]. split; [done|]. by constructor.
    + do 5 eexists. split; [done|]. split; [done|]. split; [done|]. by constructor.
  - destruct (FileSystem_Remove_ok fresh fresh_length b fs s m n nm Hr Hu) as (s' & -> & Hu' & Hr'). cbn [bind].
    do 5 eexists. split; [done|]. split; [done|]. split; [done|]. constructor.
  - pose proof Hr as (bm & d & fm & Hl & Em & En).
    destruct (FileSystem_Open_ok fresh fresh_length (30 + b) fs s bm d fm nm Hl) as (s1 & -> & Hu1 & Hs1); [eapply usable_mono; [|exact Hu]; lia|]. cbn [bind].
    assert (Hr1 : represents fs s1 m n) by by eapply represents_same.
    assert (Hm : m !! Directory.key nm = (fun f => content f.2 s) <$> fm !! Directory.key nm) by by rewrite Em, lookup_fmap.
    destruct (fm !! Directory.key nm) as [[sec h]|] eqn:Hf; cbn [fmap option_fmap option_map snd] in Hm |- *.
    + destruct (ly_files _ _ _ _ _ Hl _ _ Hf) as (_ & Hh & _). cbn [snd] in Hh.
      unfold Read, Seek. cbn [hdr seekPosition].
      destruct (OpenFile_ReadAt_ok b h k pos s1 Hh Hu1) as (s2 & -> & Hu2 & Hs2); [lia|lia|]. cbn [bind].
      do 5 eexists. split; [done|]. split; [done|]. split; [by eapply represents_same|].
      rewrite (content_same h s s1) by (done || apply Hh). pose proof (spec_read m n nm pos k) as Hst. by rewrite Hm in Hst.
    + do 5 eexists. split; [done|]. split; [eapply usable_mono; [|exact Hu1]; lia|]. split; [done|].
      pose proof (spec_read m n nm pos k) as Hst. by rewrite Hm in Hst.
  - pose proof Hr as (bm & d & fm & Hl & Em & En).
    destruct (FileSystem_Open_ok fresh fresh_length (90 + b) fs s bm d fm nm Hl) as (s1 & -> & Hu1 & Hs1); [eapply usable_mono; [|exact Hu]; lia|]. cbn [bind].
    assert (Hm : m !! Directory.key nm = (fun f => content f.2 s) <$> fm !! Directory.key nm) by by rewrite Em, lookup_fmap.
    destruct (fm !! Directory.key nm) as [[sec h]|] eqn:Hf; cbn [fmap option_fmap option_map snd] in Hm |- *.
    + destruct (layout_frame fs s s1 bm d fm [] Hl) as [Hl1 Hc1]; [by apply same_unchanged|intros x _; apply not_elem_of_nil|].
      unfold Write, Seek. cbn [hdr seekPosition].
      destruct (Write_layout fresh fresh_length b fs s1 bm d fm _ sec h from k pos Hl1 Hu1 Hf) as (s2 & -> & Hu2 & Hl2 & Hc2); [lia|lia|lia|].
      destruct (ly_files _ _ _ _ _ Hl _ _ Hf) as (_ & Hh & _). cbn [snd] in Hh.
      rewrite Hc1, <- Em, (content_same h s s1) in Hc2 by (done || apply Hh). rewrite (content_same h s s1) by (done || apply Hh).
      cbn [bind]. eexists _, fs, s2, _, n. split; [done|]. split; [done|]. split; [exists bm, d, fm; split; [exact Hl2|]; split; [symmetry; exact Hc2|done]|]. by constructor.
    + do 5 eexists. split; [done|]. split; [eapply usable_mono; [|exact Hu1]; lia|]. split; [by eapply represents_same|]. by constructor.
  - destruct (mount_ok fresh b fs s m n Hr) as (fs' & s' & -> & Hu' & Hr'); [eapply usable_mono; [|exact Hu]; lia|]. cbn [bind].
    do 5 eexists. split; [done|]. split; [done|]. split; [done|]. constructor.
Qed.

Lemma run_ok b rs : forall fs s m n, represents fs s m n -> usable (300 * length rs + b) s -> Forall request_ok rs ->
  exists ps fs' s' m' n', run fresh rs fs s = Ok (ps, fs', s') /\ usable b s' /\ represents fs' s' m' n' /\
    spec_trace (m, n) rs ps (m', n').
Proof using fresh_length.
  induction rs as [|r rs IH]; intros fs s m n Hr Hu Hok.
  - do 5 eexists. split; [done|]. split; [eapply usable_mono; [|exact Hu]; lia|]. split; [done|]. constructor.
  - apply Forall_cons in Hok as [Hok Hrest]. cbn [run].
    destruct (serve_ok (300 * length rs + b) r fs s m n Hr) as (p & fs1 & s1 & m1 & n1 & -> & Hu1 & Hr1 & Hst); [|done|].
    { eapply usable_mono; [|exact Hu]. cbn [length]. lia. }
    cbn [bind]. destruct (IH fs1 s1 m1 n1 Hr1 Hu1 Hrest) as (ps & fs2 & s2 & m2 & n2 & -> & Hu2 & Hr2 & Htr). cbn [bind].
    do 5 eexists. split; [done|]. split; [done|]. split; [done|]. by econstructor.
Qed.

(** ** Properties *)

(** C7: the formatted file system implements a finite map: whatever the sequence
    of requests (creation, removal, reads and writes at any offset, remounting),
    on any device that keeps the promises of a [SectorDevice] for that many
    requests, no assertion fails and every answer is the one the abstract map of
    names to contents gives: creation succeeds exactly when the name is new, the
    directory has a free entry and the header and data sectors are available;
    a write changes that file only; a removal gives back every sector; a
    remount loses nothing. *)
Theorem FileSystem_implements_map (rs : list request) (b : nat) (s : S) :
  usable (300 * (1 + length rs) + b) s -> Forall request_ok rs ->
  exists fs0 s0 ps fs s' m n,
    new_FileSystem fresh true s = Ok (fs0, s0) /\ run fresh rs fs0 s0 = Ok (ps, fs, s') /\
    spec_trace (∅, 1019) rs ps (m, n) /\ represents fs s' m n /\ usable b s'.
Proof using fresh_length.
  intros Hu Hok. destruct (format_ok fresh fresh_length (300 * length rs + b) s) as (fs0 & s0 & Hf & Hu0 & Hr0).
  { eapply usable_mono; [|exact Hu]. lia. }
  destruct (run_ok b rs fs0 s0 ∅ 1019 Hr0 Hu0 Hok) as (ps & fs & s' & m & n & Hrun & Hu' & Hr & Htr).
  exists fs0, s0, ps, fs, s', m, n. exact (conj Hf (conj Hrun (conj Htr (conj Hr Hu')))).
Qed.
End refinement.

(** ** Witness *)

(** On the disk image: two files, a write across sectors, a refused creation, a
    reboot and a removal; [image_device] is usable for any number of requests. *)
Definition name_a : list byte := [x61; x00].
Definition name_b : list byte := [x62; x2e; x63; x00].

Definition session : list request :=
  [RCreate name_a 200; RCreate name_b 5; RCreate name_a 7; RWrite name_a 126 4 [x01; x02; x03; x04];
   RWrite name_b 3 4 [x05; x06; x07; x08]; RMount; RRead name_a 125 4; RRead name_b 0 100; RRemove name_a;
   RRead name_a 0 1; RRemove name_a].

Lemma session_ok : Forall request_ok session.
Proof. unfold session. repeat (apply Forall_cons; split; [cbn [request_ok]; split_and?; try done; lia|]). apply Forall_nil_2. Qed.

Lemma image_usable b : usable b (∅ : image).
Proof. apply map_Forall_empty. Qed.

Definition replies_of (r : result (list reply * FileSystem * image)) : option (list reply) :=
  match r with Ok (ps, _, _) => Some ps | Fault _ => None end.

Lemma FileSystem_implements_map_witness :
  (exists fs0 s0 ps fs s' m n,
    new_FileSystem zeros true (∅ : image) = Ok (fs0, s0) /\ run zeros session fs0 s0 = Ok (ps, fs, s') /\
    spec_trace (∅, 1019) session ps (m, n) /\ represents fs s' m n /\ usable 0 s') /\
  replies_of ('(fs, s) <- new_FileSystem zeros true (∅ : image) ;; run zeros session fs s) =
    Some [PDone true; PDone true; PDone false; PCount (Some 4); PCount (Some 2); PMounted;
          PData (Some [x00; x01; x02; x03]); PData (Some [x00; x00; x00; x05; x06]); PDone true; PData None; PDone false].
Proof.
  split; [apply (FileSystem_implements_map zeros zeros_length session 0 ∅); [apply image_usable|apply session_ok]|by vm_compute].
Defined.

End FileSys.
