(* ===== verification/Sysdep.v ===== *)
(** * lib/sysdep.cc: the files of the host

    The wrappers around the host's file calls, over what POSIX says of those
    calls for regular files: a name leads to an inode, an open descriptor is an
    inode with an offset, names can go away while a file is open. *)

From Stdlib Require Import Strings.Byte.
From S2P Require Import Prelude Disk.

Module Sysdep.
Import Disk.

Record descriptor := mkFd { inode : Z; offset : Z; readable : bool; writable : bool }.

(** [admits nm]: the host lets this process use the name (a non-empty path it
    may open and create); [fd_limit]: how many descriptors it may have. *)
Record host := mkHost {
  names : gmap (list byte) Z;
  inodes : gmap Z (list byte);
  fds : gmap Z descriptor;
  admits : list byte -> bool;
  fd_limit : Z
}.

Definition set_names n h := mkHost n (inodes h) (fds h) (admits h) (fd_limit h).
Definition set_inodes i h := mkHost (names h) i (fds h) (admits h) (fd_limit h).
Definition set_fds f h := mkHost (names h) (inodes h) f (admits h) (fd_limit h).

(** ** The host's calls *)

(** The lowest descriptor not in use. *)
Fixpoint lowest {A} (n : nat) (k : Z) (m : gmap Z A) : Z :=
  match n with O => k | S n => match m !! k with None => k | Some _ => lowest n (k + 1) m end end.
Definition unused {A} (m : gmap Z A) : Z := lowest (size m) 0 m.

Definition file_of (h : host) (d : descriptor) : list byte := default [] (inodes h !! inode d).

(** [open] of an existing file, or of one to be created or truncated. *)
Definition open_existing (nm : list byte) (w : bool) (h : host) : Z * host :=
  let fd := unused (fds h) in
  match names h !! nm with
  | Some i => if admits h nm && bool_decide (fd < fd_limit h) then (fd, set_fds (<[fd := mkFd i 0 true w]> (fds h)) h) else (-1, h)
  | None => (-1, h)
  end.

Definition open_create (nm : list byte) (h : host) : Z * host :=
  let fd := unused (fds h) in
  if admits h nm && bool_decide (fd < fd_limit h) then
    let i := default (unused (inodes h)) (names h !! nm) in
    (fd, set_fds (<[fd := mkFd i 0 true true]> (fds h)) (set_inodes (<[i := []]> (inodes h)) (set_names (<[nm := i]> (names h)) h)))
  else (-1, h).

(** [read]: the bytes, or -1. *)
Definition read (fd n : Z) (h : host) : option (list byte) * host :=
  match fds h !! fd with
  | Some d =>
      if readable d && bool_decide (0 <= n) then
        let bs := take (Z.to_nat n) (drop (Z.to_nat (offset d)) (file_of h d)) in
        (Some bs, set_fds (<[fd := mkFd (inode d) (offset d + Z.of_nat (length bs)) (readable d) (writable d)]> (fds h)) h)
      else (None, h)
  | None => (None, h)
  end.

(** [write] of [bs]; past the end of the file the gap is filled with zeros. *)
Definition pad (n : Z) (bs : list byte) : list byte := bs ++ replicate (Z.to_nat n - length bs) x00.

Definition write (fd : Z) (bs : list byte) (h : host) : Z * host :=
  match fds h !! fd with
  | Some d =>
      if writable d then
        (Z.of_nat (length bs),
         set_fds (<[fd := mkFd (inode d) (offset d + Z.of_nat (length bs)) (readable d) (writable d)]> (fds h))
           (set_inodes (<[inode d := match bs with [] => file_of h d | _ => splice (Z.to_nat (offset d)) bs (pad (offset d) (file_of h d)) end]> (inodes h)) h))
      else (-1, h)
  | None => (-1, h)
  end.

Inductive whence := SEEK_SET | SEEK_CUR | SEEK_END.

Definition lseek (fd off : Z) (w : whence) (h : host) : Z * host :=
  match fds h !! fd with
  | Some d =>
      let p := off + match w with SEEK_SET => 0 | SEEK_CUR => offset d | SEEK_END => Z.of_nat (length (file_of h d)) end in
      if bool_decide (0 <= p) then (p, set_fds (<[fd := mkFd (inode d) p (readable d) (writable d)]> (fds h)) h) else (-1, h)
  | None => (-1, h)
  end.

Definition close (fd : Z) (h : host) : Z * host :=
  match fds h !! fd with Some _ => (0, set_fds (delete fd (fds h)) h) | None => (-1, h) end.

Definition unlink (nm : list byte) (h : host) : Z * host :=
  match names h !! nm with Some _ => (0, set_names (delete nm (names h)) h) | None => (-1, h) end.

(** ** The wrappers *)

Definition OpenForWrite (nm : list byte) (h : host) : result (Z * host) :=
  let '(fd, h) := open_create nm h in assert (bool_decide (0 <= fd)) ;; Ok (fd, h).

Definition OpenForReadWrite (nm : list byte) (crashOnError : bool) (h : host) : result (Z * host) :=
  let '(fd, h) := open_existing nm true h in assert (negb crashOnError || bool_decide (0 <= fd)) ;; Ok (fd, h).

Definition OpenForRead (nm : list byte) (crashOnError : bool) (h : host) : result (Z * host) :=
  let '(fd, h) := open_existing nm false h in assert (negb crashOnError || bool_decide (0 <= fd)) ;; Ok (fd, h).

(** The bytes read, or [None] for -1. *)
Definition ReadPartial (fd n : Z) (h : host) : option (list byte) * host := read fd n h.

(** [from]: the bytes at the caller's pointer; [write] takes [n] of them, and
    returns -1 when [n] is negative. *)
Definition WriteFile (fd : Z) (from : list byte) (n : Z) (h : host) : result host :=
  if bool_decide (n < 0) then assert (bool_decide (n = -1)) ;; Ok h
  else if bool_decide (n <= Z.of_nat (length from)) then
    let '(r, h) := write fd (take (Z.to_nat n) from) h in assert (bool_decide (r = n)) ;; Ok h
  else Fault OutOfBounds.

Definition Lseek (fd off : Z) (w : whence) (h : host) : result host :=
  let '(r, h) := lseek fd off w h in assert (bool_decide (0 <= wrap32 r)) ;; Ok h.

Definition Tell (fd : Z) (h : host) : Z * host := let '(r, h) := lseek fd 0 SEEK_CUR h in (wrap32 r, h).

Definition Close (fd : Z) (h : host) : result (Z * host) :=
  let '(r, h) := close fd h in assert (bool_decide (0 <= r)) ;; Ok (r, h).

(** The [int] of [unlink] as a [bool]. *)
Definition Unlink (nm : list byte) (h : host) : bool * host :=
  let '(r, h) := unlink nm h in (negb (bool_decide (r = 0)), h).

(** ** Lemmas *)

Lemma lowest_ok {A} (n : nat) : forall k (m : gmap Z A), 0 <= k ->
  k <= lowest n k m /\ (m !! lowest n k m = None \/ forall j, k <= j < k + Z.of_nat n -> is_Some (m !! j)).
Proof.
  induction n as [|n IH]; intros k m Hk; cbn [lowest]; [split; [lia|right; intros; lia]|].
  destruct (m !! k) as [x|] eqn:E; [|split; [lia|by left]].
  destruct (IH (k + 1) m ltac:(lia)) as [H1 [H2|H2]]; split; [lia|by left|lia|]. right. intros j Hj.
  destruct (decide (j = k)) as [->|]; [by exists x|]. apply H2. lia.
Qed.

Lemma unused_ok {A} (m : gmap Z A) : 0 <= unused m /\ m !! unused m = None.
Proof.
  unfold unused. destruct (lowest_ok (size m) 0 m ltac:(lia)) as [H1 H2]. split; [done|].
  destruct H2 as [H2|H2]; [done|]. apply eq_None_not_Some. intros [x Hx].
  assert (Hend : forall n k, (forall j, k <= j < k + Z.of_nat n -> is_Some (m !! j)) -> lowest n k m = k + Z.of_nat n).
  { induction n as [|n IH]; intros k Hj; cbn [lowest]; [lia|]. destruct (Hj k ltac:(lia)) as [y ->]. rewrite IH; [lia|]. intros j Hjj. apply Hj. lia. }
  rewrite (Hend _ _ H2) in Hx. set (l := seqZ 0 (Z.of_nat (size m) + 1)).
  assert (Hsub : list_to_set l ⊆ dom m).
  { intros j Hj%elem_of_list_to_set. unfold l in Hj. apply elem_of_seqZ in Hj. apply elem_of_dom.
    destruct (decide (j = 0 + Z.of_nat (size m))) as [->|]; [by exists x|]. apply H2. lia. }
  apply subseteq_size in Hsub. rewrite size_dom, size_list_to_set in Hsub by apply NoDup_seqZ.
  unfold l in Hsub. rewrite length_seqZ in Hsub. lia.
Qed.

End Sysdep.
