(* ===== verification/Network.v ===== *)
(** * machine/network.{h,cc}, lib/sysdep.cc: packets between machines

    A network device sends fixed-size datagrams through the sockets of the host,
    and loses some of them on purpose.  Sockets are those of the local domain:
    a datagram sent to a bound name is queued there in order. *)

From Stdlib Require Import Strings.Byte Floats.SpecFloat.
From S2P Require Import Prelude Disk.

Module Network.
Import Disk.

(** ** Sockets of the host *)

Abbreviation wire := (list byte).
(** By the machine the name SOCKET_n belongs to. *)
Abbreviation sockets := (gmap Z (list wire)).

(** [sendto]: the number of bytes sent, or -1 when nobody has the name. *)
Definition sendto (buffer : wire) (name : Z) (s : sockets) : Z * sockets :=
  match s !! name with
  | Some q => (Z.of_nat (length buffer), <[name := q ++ [buffer]]> s)
  | None => (-1, s)
  end.

Definition recvfrom (name : Z) (s : sockets) : option (wire * sockets) :=
  match s !! name with
  | Some (b :: q) => Some (b, <[name := q]> s)
  | _ => None
  end.

(** [AssignNameToSocket]: the name is taken from whoever had it. *)
Definition AssignNameToSocket (name : Z) (s : sockets) : sockets := <[name := []]> s.
Definition DeAssignNameToSocket (name : Z) (s : sockets) : sockets := delete name s.

Definition PollSocket (name : Z) (s : sockets) : bool :=
  match s !! name with Some (_ :: _) => true | _ => false end.

Definition ReadFromSocket (name packetSize : Z) (s : sockets) : result (wire * sockets) :=
  match recvfrom name s with
  | Some (b, s) => assert (bool_decide (Z.of_nat (length b) = packetSize)) ;; Ok (b, s)
  | None => Fault AssertFailed
  end.

(** At most [n] attempts; then the packet is dropped. *)
Fixpoint send_loop (n : nat) (buffer : wire) (packetSize name : Z) (s : sockets) : result sockets :=
  match n with
  | O => Ok s
  | S n =>
      let '(retVal, s) := sendto buffer name s in
      if bool_decide (retVal = packetSize) then Ok s
      else assert (bool_decide (retVal < 0)) ;; send_loop n buffer packetSize name s
  end.
Definition SendToSocket (buffer : wire) (packetSize name : Z) (s : sockets) : result sockets :=
  send_loop 10 buffer packetSize name s.

(** ** Packets *)

Record PacketHeader := mkPacketHeader { to : Z; from : Z; length : Z }.
#[export] Instance PacketHeader_eq_dec : EqDecision PacketHeader.
Proof. solve_decision. Defined.

Abbreviation size := List.length.

Definition MaxWireSize : Z := 64.
Definition sizeof_PacketHeader : Z := 12.
Definition MaxPacketSize : Z := MaxWireSize - sizeof_PacketHeader.

(** The header as it lies in memory, and read back. *)
Definition header_bytes (h : PacketHeader) : list byte := words_bytes [to h; from h; length h].
Definition bytes_header (bs : list byte) : result PacketHeader :=
  if bool_decide (12 <= size bs)%nat then
    match bytes_words 3 bs with
    | [a; b; c] => Ok (mkPacketHeader (wrap32 a) (wrap32 b) c)
    | _ => Fault OutOfBounds
    end
  else Fault OutOfBounds.

(** [bcopy(from, buffer + off, n)]: [n] is an [unsigned] or a [size_t]. *)
Definition bcopy (from : list byte) (off n : Z) (buffer : list byte) : result (list byte) :=
  if bool_decide (0 <= n /\ n <= Z.of_nat (size from) /\ 0 <= off /\ off + n <= Z.of_nat (size buffer)) then
    Ok (splice (Z.to_nat off) (take (Z.to_nat n) from) buffer)
  else Fault OutOfBounds.

(** ** The output side *)

(** [chanceToWork] is a [double]; [interrupts]: how many [NetworkSendInt] are
    pending. *)
Record NetworkOutput := mkNetworkOutput { chanceToWork : spec_float; sendBusy : bool; interrupts : nat; numPacketsSent : Z }.

Definition double (z : Z) : spec_float := binary_normalize 53 1024 z 0 false.

(** [NetworkOutput::NetworkOutput] *)
Definition new_NetworkOutput (reliability : spec_float) : NetworkOutput :=
  mkNetworkOutput
    (if SFltb reliability (double 0) then double 0
     else if SFltb (double 1) reliability then double 1
     else reliability)
    false 0 0.

(** [RandomNumber() % 100 >= chanceToWork * 100] *)
Definition lost (random : Z) (chance : spec_float) : bool :=
  SFleb (SFmul 53 1024 chance (double 100)) (double (random mod 100)).

(** [NetworkOutput::Send] by machine [host]; [junk]: what [new char[64]] finds in
    the heap. *)
Definition Send (host : Z) (hdr : PacketHeader) (data : list byte) (random : Z) (junk : list byte)
    (o : NetworkOutput) (s : sockets) : result (NetworkOutput * sockets) :=
  assert (negb (sendBusy o) && bool_decide (0 < length hdr) && bool_decide (length hdr <= MaxPacketSize) && bool_decide (from hdr = host)) ;;
  let o := mkNetworkOutput (chanceToWork o) (sendBusy o) (S (interrupts o)) (numPacketsSent o) in
  if lost random (chanceToWork o) then Ok (o, s)
  else
    buffer <- bcopy (header_bytes hdr) 0 sizeof_PacketHeader junk ;;
    buffer <- bcopy data sizeof_PacketHeader (length hdr) buffer ;;
    s <- SendToSocket buffer MaxWireSize (to hdr) s ;;
    Ok (o, s).

(** [NetworkOutput::CallBack] up to the call of [callWhenDone], one pending
    interrupt taken off the queue. *)
Definition Output_CallBack (o : NetworkOutput) : NetworkOutput :=
  mkNetworkOutput (chanceToWork o) false (pred (interrupts o)) (numPacketsSent o + 1).

(** ** The input side *)

Record NetworkInput := mkNetworkInput { inHdr : PacketHeader; inbox : list byte; numPacketsRecvd : Z }.

(** [NetworkInput::NetworkInput]; the members it does not set are whatever the
    heap held. *)
Definition new_NetworkInput (host : Z) (a b : Z) (junk : list byte) (s : sockets) : NetworkInput * sockets :=
  (mkNetworkInput (mkPacketHeader a b 0) junk 0, AssignNameToSocket host s).

(** [NetworkInput::CallBack]: TRUE when it calls [callWhenAvail]. *)
Definition Input_CallBack (host : Z) (i : NetworkInput) (s : sockets) : result (bool * NetworkInput * sockets) :=
  if negb (bool_decide (length (inHdr i) = 0)) then Ok (false, i, s)
  else if negb (PollSocket host s) then Ok (false, i, s)
  else
    '(buffer, s) <- ReadFromSocket host MaxWireSize s ;;
    hdr <- bytes_header buffer ;;
    assert (bool_decide (to hdr = host) && bool_decide (length hdr <= MaxPacketSize)) ;;
    inbox <- bcopy (drop (Z.to_nat sizeof_PacketHeader) buffer) 0 (length hdr) (inbox i) ;;
    Ok (true, mkNetworkInput hdr inbox (numPacketsRecvd i + 1), s).

(** [NetworkInput::Receive], into the caller's buffer. *)
Definition Receive (data : list byte) (i : NetworkInput) : result (PacketHeader * list byte * NetworkInput) :=
  let hdr := inHdr i in
  let i := mkNetworkInput (mkPacketHeader (to hdr) (from hdr) 0) (inbox i) (numPacketsRecvd i) in
  if negb (bool_decide (length hdr = 0)) then
    data <- bcopy (inbox i) 0 (length hdr) data ;; Ok (hdr, data, i)
  else Ok (hdr, data, i).

(** ** Lemmas *)

Definition typed_header (h : PacketHeader) : Prop := int_range (to h) /\ int_range (from h) /\ 0 <= length h < 2 ^ 32.

Lemma size_header h : size (header_bytes h) = 12%nat.
Proof. unfold header_bytes. by rewrite length_words_bytes. Qed.

(** Three words of a header, read back. *)
Lemma three_words a b c rest : bytes_words 3 (words_bytes [a; b; c] ++ rest) = [u32 a; u32 b; u32 c].
Proof. apply (bytes_words_app [a; b; c] rest). Qed.

Lemma bytes_header_ok h rest : typed_header h -> bytes_header (header_bytes h ++ rest) = Ok h.
Proof.
  intros (Ht & Hf & Hl). unfold bytes_header. rewrite bool_decide_eq_true_2 by (rewrite length_app, size_header; lia).
  unfold header_bytes. rewrite three_words, !wrap32_u32, !wrap32_small, u32_small by done. by destruct h.
Qed.

Lemma bcopy_ok bs off n buf : 0 <= n <= Z.of_nat (size bs) -> 0 <= off -> off + n <= Z.of_nat (size buf) ->
  bcopy bs off n buf = Ok (splice (Z.to_nat off) (take (Z.to_nat n) bs) buf) /\
  size (splice (Z.to_nat off) (take (Z.to_nat n) bs) buf) = size buf.
Proof.
  intros Hn Ho Hb. split; [unfold bcopy; by rewrite bool_decide_eq_true_2 by lia|]. apply splice_length. rewrite length_take. lia.
Qed.

Lemma splice_start {A} (bs l : list A) : splice 0 bs l = bs ++ drop (size bs) l.
Proof. done. Qed.

(** Two pieces written one after the other from the start of a buffer. *)
Lemma splice_two {A} (x y l : list A) : (size x <= size l)%nat -> splice (size x) y (splice 0 x l) = x ++ y ++ drop (size x + size y) l.
Proof.
  intros Hx. rewrite splice_start. unfold splice. rewrite take_app_length, drop_app. f_equal. f_equal.
  rewrite drop_ge by lia. cbn [app]. rewrite drop_drop. f_equal. lia.
Qed.

Lemma send_loop_bound n buf name s q : s !! name = Some q -> Z.of_nat (size buf) = MaxWireSize ->
  send_loop (S n) buf MaxWireSize name s = Ok (<[name := q ++ [buf]]> s).
Proof. intros Hs Hb. cbn [send_loop]. unfold sendto. rewrite Hs. by rewrite bool_decide_eq_true_2. Qed.

Lemma send_loop_unbound n buf name s : s !! name = None -> send_loop n buf MaxWireSize name s = Ok s.
Proof.
  intros Hs. induction n as [|n IH]; [done|]. cbn [send_loop]. unfold sendto. rewrite Hs.
  rewrite bool_decide_eq_false_2 by done. by rewrite bool_decide_eq_true_2.
Qed.

(** What [Send] puts on the wire. *)
Definition packet (h : PacketHeader) (bs junk : list byte) : wire :=
  header_bytes h ++ take (Z.to_nat (length h)) bs ++ drop (12 + Z.to_nat (length h)) junk.

Lemma size_packet h bs junk : 0 <= length h <= MaxPacketSize -> length h <= Z.of_nat (size bs) -> size junk = 64%nat ->
  size (packet h bs junk) = 64%nat.
Proof.
  intros Hl Hb Hj. unfold packet. rewrite !length_app, size_header, length_take, length_drop.
  unfold MaxPacketSize, MaxWireSize, sizeof_PacketHeader in Hl. lia.
Qed.

(** Whether or not the packet is lost, the interrupt will come. *)
Lemma Send_ok host h bs random junk o s :
  sendBusy o = false -> 0 < length h <= MaxPacketSize -> from h = host -> length h <= Z.of_nat (size bs) -> size junk = 64%nat ->
  Send host h bs random junk o s =
    Ok (mkNetworkOutput (chanceToWork o) false (S (interrupts o)) (numPacketsSent o),
        if lost random (chanceToWork o) then s
        else match s !! to h with Some q => <[to h := q ++ [packet h bs junk]]> s | None => s end).
Proof.
  intros Hbusy Hl Hf Hb Hj. unfold Send. rewrite Hbusy, !bool_decide_eq_true_2 by lia. cbn [negb andb assert bind chanceToWork].
  destruct (lost random (chanceToWork o)); [done|].
  unfold MaxPacketSize, MaxWireSize, sizeof_PacketHeader in *.
  destruct (bcopy_ok (header_bytes h) 0 12 junk) as [-> Hs1]; [rewrite size_header; lia|lia|lia|]. cbn [bind].
  rewrite take_ge in Hs1 by (rewrite size_header; lia). rewrite take_ge by (rewrite size_header; lia).
  destruct (bcopy_ok bs 12 (length h) (splice (Z.to_nat 0) (header_bytes h) junk)) as [-> Hs2]; [lia|lia|rewrite Hs1; lia|]. cbn [bind].
  change (Z.to_nat 0) with 0%nat. change (Z.to_nat 12) with 12%nat. rewrite <- (size_header h) at 1.
  rewrite splice_two by (rewrite size_header; lia). rewrite size_header.
  assert (Hp : header_bytes h ++ take (Z.to_nat (length h)) bs ++ drop (12 + size (take (Z.to_nat (length h)) bs)) junk = packet h bs junk).
  { unfold packet. repeat f_equal. rewrite length_take. lia. }
  rewrite Hp. unfold SendToSocket. change 64 with MaxWireSize. destruct (s !! to h) as [q|] eqn:Hq.
  - rewrite (send_loop_bound 9 _ _ _ q) by (try done; rewrite size_packet; unfold MaxPacketSize, MaxWireSize, sizeof_PacketHeader; lia). done.
  - by rewrite send_loop_unbound.
Qed.

(** A datagram that holds a packet with header [h] and payload [bs]. *)
Definition carries (h : PacketHeader) (bs : list byte) (w : wire) : Prop :=
  size w = 64%nat /\ typed_header h /\ 0 < length h <= MaxPacketSize /\ Z.of_nat (size bs) = length h /\
  exists rest, w = header_bytes h ++ bs ++ rest.

Lemma packet_carries h bs junk : typed_header h -> 0 < length h <= MaxPacketSize -> length h <= Z.of_nat (size bs) -> size junk = 64%nat ->
  carries h (take (Z.to_nat (length h)) bs) (packet h bs junk).
Proof.
  intros Ht Hl Hb Hj. split; [apply size_packet; lia|]. split; [done|]. split; [done|].
  split; [rewrite length_take; lia|]. by eexists.
Qed.

(** A packet buffered in the device. *)
Definition buffered (h : PacketHeader) (bs : list byte) (i : NetworkInput) : Prop :=
  inHdr i = h /\ 0 < length h <= MaxPacketSize /\ Z.of_nat (size bs) = length h /\ take (size bs) (inbox i) = bs.

Lemma Input_CallBack_ok host i s h bs w q :
  length (inHdr i) = 0 -> size (inbox i) = 52%nat -> s !! host = Some (w :: q) -> carries h bs w -> to h = host ->
  exists i', Input_CallBack host i s = Ok (true, i', <[host := q]> s) /\ buffered h bs i' /\ size (inbox i') = 52%nat.
Proof.
  intros Hi Hb Hs (Hw & Ht & Hl & Hbs & rest & Hr) Hto. unfold Input_CallBack. rewrite Hi. unfold PollSocket. rewrite Hs.
  cbn [negb bool_decide decide]. rewrite bool_decide_eq_true_2 by done. cbn [negb].
  unfold ReadFromSocket, recvfrom. rewrite Hs, bool_decide_eq_true_2 by (rewrite Hw; done). cbn [assert bind].
  rewrite Hr, bytes_header_ok by done. cbn [bind]. rewrite !bool_decide_eq_true_2 by lia. cbn [andb assert bind].
  replace (drop (Z.to_nat sizeof_PacketHeader) (header_bytes h ++ bs ++ rest)) with (bs ++ rest)
    by (symmetry; apply drop_app_length'; by rewrite size_header).
  unfold MaxPacketSize, MaxWireSize, sizeof_PacketHeader in Hl.
  destruct (bcopy_ok (bs ++ rest) 0 (length h) (inbox i)) as [-> Hs2]; [rewrite length_app; lia|lia|rewrite Hb; lia|]. cbn [bind].
  eexists. split; [done|]. rewrite Hb in Hs2. split; [|done]. split; [done|]. split; [done|]. split; [done|]. cbn [inbox].
  change (Z.to_nat 0) with 0%nat. rewrite splice_start.
  replace (take (Z.to_nat (length h)) (bs ++ rest)) with bs by (symmetry; apply take_app_length'; lia). by rewrite take_app_length.
Qed.

Lemma Receive_ok h bs i buf : buffered h bs i -> size (inbox i) = 52%nat -> size buf = 52%nat ->
  exists rest, Receive buf i = Ok (h, bs ++ rest, mkNetworkInput (mkPacketHeader (to h) (from h) 0) (inbox i) (numPacketsRecvd i)) /\
    size (bs ++ rest) = 52%nat.
Proof.
  intros (Hi & Hl & Hs & Hbs) Hin Hb. unfold Receive. rewrite Hi, bool_decide_eq_false_2 by lia. cbn [negb inbox].
  unfold MaxPacketSize, MaxWireSize, sizeof_PacketHeader in Hl.
  destruct (bcopy_ok (inbox i) 0 (length h) buf) as [-> Hs2]; [lia|lia|lia|]. cbn [bind].
  change (Z.to_nat 0) with 0%nat in *. assert (Ht : take (Z.to_nat (length h)) (inbox i) = bs) by (rewrite <- Hbs; f_equal; lia).
  rewrite Ht in *. rewrite splice_start in *. eexists. split; [done|]. by rewrite Hs2.
Qed.

(** [lost] draws from 100 equally likely numbers: with reliability 1 nothing is
    lost, with reliability 0 everything, and the constructor clamps what lies
    outside. *)
Lemma lost_reliable random : lost random (double 1) = false.
Proof.
  unfold lost. pose proof (Z.mod_pos_bound random 100 ltac:(lia)) as Hb.
  assert (Hall : forallb (fun r => negb (SFleb (SFmul 53 1024 (double 1) (double 100)) (double r))) (seqZ 0 100) = true) by by vm_compute.
  rewrite forallb_forall in Hall. specialize (Hall (random mod 100)). apply negb_true_iff, Hall, list_elem_of_In, elem_of_seqZ. lia.
Qed.

Lemma lost_unreliable random : lost random (double 0) = true.
Proof.
  unfold lost. pose proof (Z.mod_pos_bound random 100 ltac:(lia)) as Hb.
  assert (Hall : forallb (fun r => SFleb (SFmul 53 1024 (double 0) (double 100)) (double r)) (seqZ 0 100) = true) by by vm_compute.
  rewrite forallb_forall in Hall. apply Hall, list_elem_of_In, elem_of_seqZ. lia.
Qed.
End Network.
