(* ===== verification/Post.v ===== *)
(** * network/post.{h,cc}: mailboxes on several machines

    The post offices of any number of machines over the network devices and the
    sockets of Network.v, as a step relation: each step is a section of one
    thread, or an interrupt handler, of one machine.  Semaphores and the lock
    appear as what Threads.v proves of them, a mailbox as the queue that
    SynchList.v proves a synchronized list to be (each [Mail] is a new object, so
    that [Append] never finds it in the list). *)

From Stdlib Require Import Strings.Byte Floats.SpecFloat.
From S2P Require Import Prelude Disk Network.

Module Post.
Abbreviation size := List.length.
#[local] Existing Instance Network.PacketHeader_eq_dec.

Record MailHeader := mkMailHeader { to : Z; from : Z; length : Z }.
#[export] Instance MailHeader_eq_dec : EqDecision MailHeader.
Proof. solve_decision. Defined.

Definition sizeof_MailHeader : Z := 12.
Definition MaxMailSize : Z := Network.MaxPacketSize - sizeof_MailHeader.

(** The layout is that of a [PacketHeader]. *)
Definition mail_bytes (h : MailHeader) : list byte := words_bytes [to h; from h; length h].
Definition bytes_mail (bs : list byte) : result MailHeader :=
  if bool_decide (12 <= size bs)%nat then
    match bytes_words 3 bs with
    | [a; b; c] => Ok (mkMailHeader (wrap32 a) (wrap32 b) c)
    | _ => Fault OutOfBounds
    end
  else Fault OutOfBounds.

(** Of the array [data] only the first [length] bytes are ever read. *)
Record Mail := mkMail { pktHdr : Network.PacketHeader; mailHdr : MailHeader; data : list byte }.
#[export] Instance Mail_eq_dec : EqDecision Mail.
Proof. solve_decision. Defined.

(** [Mail::Mail] *)
Definition new_Mail (pktH : Network.PacketHeader) (mailH : MailHeader) (msgData : list byte) : result Mail :=
  assert (bool_decide (length mailH <= MaxMailSize)) ;;
  if bool_decide (length mailH <= Z.of_nat (size msgData)) then Ok (mkMail pktH mailH (take (Z.to_nat (length mailH)) msgData))
  else Fault OutOfBounds.

(** Where the postal worker is: in [messageAvailable->P()]; returned from it;
    in [Append], the mail [m] for box [b] in hand. *)
Inductive position := Waiting | Awake | Holding (b : Z) (m : Mail).

(** [PostOfficeInput] and [PostOfficeOutput] of a machine.  [buffer] is the
    worker's; [sendLock] is TRUE while a thread is in [Send] between [Acquire] and
    [Release]. *)
Record office := mkOffice {
  input : Network.NetworkInput;
  messageAvailable : Z;
  numBoxes : Z;
  boxes : list (list Mail);
  worker : position;
  buffer : list byte;
  output : Network.NetworkOutput;
  messageSent : Z;
  sendLock : bool
}.

Definition set_input i o := mkOffice i (messageAvailable o) (numBoxes o) (boxes o) (worker o) (buffer o) (output o) (messageSent o) (sendLock o).
Definition set_messageAvailable v o := mkOffice (input o) v (numBoxes o) (boxes o) (worker o) (buffer o) (output o) (messageSent o) (sendLock o).
Definition set_boxes b o := mkOffice (input o) (messageAvailable o) (numBoxes o) b (worker o) (buffer o) (output o) (messageSent o) (sendLock o).
Definition set_worker p b o := mkOffice (input o) (messageAvailable o) (numBoxes o) (boxes o) p b (output o) (messageSent o) (sendLock o).
Definition set_output u o := mkOffice (input o) (messageAvailable o) (numBoxes o) (boxes o) (worker o) (buffer o) u (messageSent o) (sendLock o).
Definition set_sending v l o := mkOffice (input o) (messageAvailable o) (numBoxes o) (boxes o) (worker o) (buffer o) (output o) v l.

(** The constructors, the worker started. *)
Definition new_office (host nBoxes : Z) (reliability : spec_float) (a b : Z) (junk junk' : list byte) (s : Network.sockets) :
    result (office * Network.sockets) :=
  if bool_decide (0 <= nBoxes) then
    let '(i, s) := Network.new_NetworkInput host a b junk s in
    Ok (mkOffice i 0 nBoxes (replicate (Z.to_nat nBoxes) []) Waiting junk' (Network.new_NetworkOutput reliability) 0 false, s)
  else Fault BadAlloc.

(** ** Sending *)

(** [PostOfficeOutput::Send] up to [Acquire]: the packet. *)
Definition prepare (host : Z) (pktHdr : Network.PacketHeader) (mailHdr : MailHeader) (data junk : list byte) :
    result (Network.PacketHeader * list byte) :=
  assert (bool_decide (length mailHdr <= MaxMailSize)) ;;
  assert (bool_decide (0 <= to mailHdr)) ;;
  let pktHdr := Network.mkPacketHeader (Network.to pktHdr) host (u32 (length mailHdr + sizeof_MailHeader)) in
  buffer <- Network.bcopy (mail_bytes mailHdr) 0 sizeof_MailHeader junk ;;
  buffer <- Network.bcopy data sizeof_MailHeader (length mailHdr) buffer ;;
  Ok (pktHdr, buffer).

(** The call with the lock acquired, up to [messageSent->P()]. *)
Definition Send (host : Z) (pktHdr : Network.PacketHeader) (mailHdr : MailHeader) (data : list byte) (random : Z)
    (junk1 junk2 : list byte) (o : office) (s : Network.sockets) : result (office * Network.sockets) :=
  '(pktHdr, buffer) <- prepare host pktHdr mailHdr data junk1 ;;
  '(u, s) <- Network.Send host pktHdr buffer random junk2 (output o) s ;;
  Ok (set_sending (messageSent o) true (set_output u o), s).

(** [P] returns, [Release]. *)
Definition Send_end (o : office) : office := set_sending (messageSent o - 1) false o.

(** [NetworkOutput::CallBack] and [PostOfficeOutput::CallBack]. *)
Definition Output_CallBack (o : office) : office :=
  set_sending (messageSent o + 1) (sendLock o) (set_output (Network.Output_CallBack (output o)) o).

(** ** Receiving *)

(** [NetworkInput::CallBack] and [PostOfficeInput::CallBack]. *)
Definition Input_CallBack (host : Z) (o : office) (s : Network.sockets) : result (office * Network.sockets) :=
  '(arrived, i, s) <- Network.Input_CallBack host (input o) s ;;
  let o := set_input i o in
  Ok (if (arrived : bool) then set_messageAvailable (messageAvailable o + 1) o else o, s).

(** A turn of the loop of [PostalDelivery]: [P] returns; the packet is fetched and
    the [Mail] made; [MailBox::Put]. *)
Definition Delivery_P (o : office) : office :=
  set_messageAvailable (messageAvailable o - 1) (set_worker Awake (buffer o) o).

Definition Delivery_fetch (o : office) : result office :=
  '(pktHdr, buffer, i) <- Network.Receive (buffer o) (input o) ;;
  mailHdr <- bytes_mail buffer ;;
  assert (bool_decide (0 <= to mailHdr) && bool_decide (to mailHdr < numBoxes o)) ;;
  assert (bool_decide (length mailHdr <= MaxMailSize)) ;;
  mail <- new_Mail pktHdr mailHdr (drop (Z.to_nat sizeof_MailHeader) buffer) ;;
  Ok (set_input i (set_worker (Holding (to mailHdr) mail) buffer o)).

Definition Put (b : Z) (m : Mail) (o : office) : result office :=
  box <- lget (boxes o) b ;;
  bs <- lset (boxes o) b (box ++ [m]) ;;
  Ok (set_worker Waiting (buffer o) (set_boxes bs o)).

(** [MailBox::Get]: [None] while the box is empty, where the caller waits. *)
Definition Get (b : Z) (o : office) : result (option (Mail * office)) :=
  box <- lget (boxes o) b ;;
  match box with
  | [] => Ok None
  | m :: box => bs <- lset (boxes o) b box ;; Ok (Some (m, set_boxes bs o))
  end.

(** [PostOfficeInput::Receive] *)
Definition Receive (b : Z) (o : office) : result (option (Mail * office)) :=
  assert (bool_decide (0 <= b) && bool_decide (b < numBoxes o)) ;;
  got <- Get b o ;;
  match got with
  | None => Ok None
  | Some (m, o) => assert (bool_decide (length (mailHdr m) <= MaxMailSize)) ;; Ok (Some (m, o))
  end.

(** ** Machines and their steps *)

(** The last three record what happened: the mails put on the wire to each
    machine, those its worker has put into boxes, and those taken out of each box. *)
Record world := mkWorld {
  socks : Network.sockets;
  offices : gmap Z office;
  transmitted : Z -> list Mail;
  delivered : Z -> list Mail;
  received : Z -> Z -> list Mail
}.

Definition set_office (d : Z) (o : office) (w : world) : world :=
  mkWorld (socks w) (<[d := o]> (offices w)) (transmitted w) (delivered w) (received w).
Definition set_socks s w := mkWorld s (offices w) (transmitted w) (delivered w) (received w).
Definition log_transmitted d m w := mkWorld (socks w) (offices w) (<[d := transmitted w d ++ [m]]> (transmitted w)) (delivered w) (received w).
Definition log_delivered d m w := mkWorld (socks w) (offices w) (transmitted w) (<[d := delivered w d ++ [m]]> (delivered w)) (received w).
Definition log_received d b m w :=
  mkWorld (socks w) (offices w) (transmitted w) (delivered w) (<[d := <[b := received w d b ++ [m]]> (received w d)]> (received w)).

Inductive event :=
  | Boot (nBoxes : Z) (reliability : spec_float) (a b : Z) (junk junk' : list byte)
  | CallSend (pktHdr : Network.PacketHeader) (mailHdr : MailHeader) (data : list byte) (random : Z) (junk1 junk2 : list byte)
  | SendInt
  | SendReturns
  | RecvInt
  | WorkerP
  | WorkerFetch
  | WorkerPut
  | CallReceive (b : Z).

(** The values are those of [int]s and [unsigned]s, the junk that of arrays. *)
Definition typed_mail (h : MailHeader) : Prop := int_range (to h) /\ int_range (from h) /\ 0 <= length h < 2 ^ 32.
Definition typed (d : Z) (e : event) : Prop :=
  match e with
  | Boot _ _ _ _ junk junk' => int_range d /\ size junk = 52%nat /\ size junk' = 52%nat
  | CallSend ph mh _ _ junk1 junk2 => int_range (Network.to ph) /\ typed_mail mh /\ size junk1 = 52%nat /\ size junk2 = 64%nat
  | _ => True
  end.
#[export] Instance typed_dec d e : Decision (typed d e).
Proof. destruct e; unfold typed, typed_mail; apply _. Defined.

(** What machine [d] does; [None] when it cannot. *)
Definition react (d : Z) (e : event) (w : world) : option (result world) :=
  match e, offices w !! d with
  | Boot n rel a b junk junk', None =>
      if bool_decide (typed d e) then
        Some ('(o, s) <- new_office d n rel a b junk junk' (socks w) ;; Ok (set_office d o (set_socks s w)))
      else None
  | CallSend ph mh bs random junk1 junk2, Some o =>
      if negb (sendLock o) && bool_decide (typed d e) then
        Some ('(o, s) <- Send d ph mh bs random junk1 junk2 o (socks w) ;;
              let w' := set_office d o (set_socks s w) in
              let t := Network.to ph in
              Ok (if bool_decide (s !! t = socks w !! t) then w'
                  else log_transmitted t (mkMail (Network.mkPacketHeader t d (length mh + sizeof_MailHeader)) mh (take (Z.to_nat (length mh)) bs)) w'))
      else None
  | SendInt, Some o =>
      if bool_decide (Network.interrupts (output o) = 0%nat) then None else Some (Ok (set_office d (Output_CallBack o) w))
  | SendReturns, Some o =>
      if sendLock o && bool_decide (0 < messageSent o) then Some (Ok (set_office d (Send_end o) w)) else None
  | RecvInt, Some o => Some ('(o, s) <- Input_CallBack d o (socks w) ;; Ok (set_office d o (set_socks s w)))
  | WorkerP, Some o =>
      match worker o with
      | Waiting => if bool_decide (0 < messageAvailable o) then Some (Ok (set_office d (Delivery_P o) w)) else None
      | _ => None
      end
  | WorkerFetch, Some o =>
      match worker o with
      | Awake => Some (o <- Delivery_fetch o ;; Ok (set_office d o w))
      | _ => None
      end
  | WorkerPut, Some o =>
      match worker o with
      | Holding b m => Some (o <- Put b m o ;; Ok (log_delivered d m (set_office d o w)))
      | _ => None
      end
  | CallReceive b, Some o =>
      match Receive b o with
      | Fault f => Some (Fault f)
      | Ok None => None
      | Ok (Some (m, o)) => Some (Ok (log_received d b m (set_office d o w)))
      end
  | _, _ => None
  end.

Inductive step : world -> world -> Prop :=
  | step_react d e w w' : react d e w = Some (Ok w') -> step w w'.

(** No machine is up. *)
Definition initial : world := mkWorld ∅ ∅ (fun _ => []) (fun _ => []) (fun _ _ => []).

(** ** Mails as packets *)

Record mail_ok (d : Z) (m : Mail) : Prop := {
  m_to : Network.to (pktHdr m) = d;
  m_pkt : Network.typed_header (pktHdr m);
  m_mail : typed_mail (mailHdr m);
  m_max : length (mailHdr m) <= MaxMailSize;
  m_data : Z.of_nat (size (data m)) = length (mailHdr m);
  m_length : Network.length (pktHdr m) = length (mailHdr m) + sizeof_MailHeader;
  m_box : 0 <= to (mailHdr m)
}.

Definition body (m : Mail) : list byte := mail_bytes (mailHdr m) ++ data m.

Lemma size_mail h : size (mail_bytes h) = 12%nat.
Proof. unfold mail_bytes. by rewrite length_words_bytes. Qed.

Lemma bytes_mail_ok h rest : typed_mail h -> bytes_mail (mail_bytes h ++ rest) = Ok h.
Proof.
  intros (Ht & Hf & Hl). unfold bytes_mail. rewrite bool_decide_eq_true_2 by (rewrite length_app, size_mail; lia).
  unfold mail_bytes. rewrite Network.three_words, !wrap32_u32, !wrap32_small, u32_small by done. by destruct h.
Qed.

Lemma body_length d m : mail_ok d m ->
  Z.of_nat (size (body m)) = Network.length (pktHdr m) /\ 0 < Network.length (pktHdr m) <= Network.MaxPacketSize.
Proof.
  intros [H1 H2 (_ & _ & H3) H4 H5 H6 H7]. unfold body. rewrite length_app, size_mail, H6.
  unfold MaxMailSize, Network.MaxPacketSize, Network.MaxWireSize, Network.sizeof_PacketHeader, sizeof_MailHeader in *. lia.
Qed.

(** The mail a call of [Send] by [host] asks for. *)
Definition mail_of (host : Z) (ph : Network.PacketHeader) (mh : MailHeader) (bs : list byte) : Mail :=
  mkMail (Network.mkPacketHeader (Network.to ph) host (length mh + sizeof_MailHeader)) mh (take (Z.to_nat (length mh)) bs).

(** The call keeps to what the routine asserts and copies. *)
Definition proper (mh : MailHeader) (bs : list byte) : Prop :=
  length mh <= MaxMailSize /\ 0 <= to mh /\ length mh <= Z.of_nat (size bs).

Lemma mail_of_ok host ph mh bs : int_range host -> int_range (Network.to ph) -> typed_mail mh -> proper mh bs ->
  mail_ok (Network.to ph) (mail_of host ph mh bs).
Proof.
  intros Hh Ht Hm (H1 & H2 & H3). pose proof Hm as (_ & _ & Hl).
  split; cbn [mail_of pktHdr mailHdr data Network.to Network.length]; try done.
  - split; [done|]. split; [done|]. cbn. unfold MaxMailSize, Network.MaxPacketSize, Network.MaxWireSize, Network.sizeof_PacketHeader, sizeof_MailHeader in *. lia.
  - rewrite length_take. lia.
Qed.

Lemma mail_prepare_ok host ph mh bs junk : typed_mail mh -> proper mh bs -> size junk = 52%nat ->
  exists buf, prepare host ph mh bs junk = Ok (pktHdr (mail_of host ph mh bs), buf) /\ size buf = 52%nat /\
    take (size (body (mail_of host ph mh bs))) buf = body (mail_of host ph mh bs).
Proof.
  intros (_ & _ & Hl) (H1 & H2 & H3) Hj. unfold prepare. rewrite !bool_decide_eq_true_2 by done. cbn [assert bind].
  unfold MaxMailSize, Network.MaxPacketSize, Network.MaxWireSize, Network.sizeof_PacketHeader, sizeof_MailHeader in *.
  destruct (Network.bcopy_ok (mail_bytes mh) 0 12 junk) as [-> Hs1]; [rewrite size_mail; lia|lia|lia|]. cbn [bind].
  rewrite take_ge in Hs1 by (rewrite size_mail; lia). rewrite take_ge by (rewrite size_mail; lia).
  destruct (Network.bcopy_ok bs 12 (length mh) (Disk.splice (Z.to_nat 0) (mail_bytes mh) junk)) as [-> Hs2]; [lia|lia|rewrite Hs1; lia|]. cbn [bind].
  rewrite u32_small by lia. eexists. split; [done|]. rewrite Hs2, Hs1. split; [done|].
  change (Z.to_nat 0) with 0%nat. change (Z.to_nat 12) with 12%nat. rewrite <- (size_mail mh) at 1.
  rewrite Network.splice_two by (rewrite size_mail; lia). unfold body, mail_of. cbn [mailHdr data].
  rewrite app_assoc. by rewrite take_app_length.
Qed.

Lemma prepare_fails host ph mh bs junk f : typed_mail mh -> size junk = 52%nat -> prepare host ph mh bs junk = Fault f -> ~ proper mh bs.
Proof. intros Ht Hj Hp Hpr. destruct (mail_prepare_ok host ph mh bs junk Ht Hpr Hj) as (buf & E & _). congruence. Qed.

(** [Send] transmits the mail, or loses it. *)
Lemma mail_Send_ok host ph mh bs random junk1 junk2 o s :
  int_range host -> int_range (Network.to ph) -> typed_mail mh -> proper mh bs -> size junk1 = 52%nat -> size junk2 = 64%nat ->
  Network.sendBusy (output o) = false ->
  exists s', Send host ph mh bs random junk1 junk2 o s =
      Ok (set_sending (messageSent o) true (set_output (Network.mkNetworkOutput (Network.chanceToWork (output o)) false
             (S (Network.interrupts (output o))) (Network.numPacketsSent (output o))) o), s') /\
    (s' = s /\ (Network.lost random (Network.chanceToWork (output o)) = true \/ s !! Network.to ph = None) \/
     exists q w, s !! Network.to ph = Some q /\ s' = <[Network.to ph := q ++ [w]]> s /\
       Network.lost random (Network.chanceToWork (output o)) = false /\
       Network.carries (pktHdr (mail_of host ph mh bs)) (body (mail_of host ph mh bs)) w).
Proof.
  intros Hh Ht Hm Hp Hj1 Hj2 Hb. pose proof (mail_of_ok host ph mh bs Hh Ht Hm Hp) as Hok. set (m := mail_of host ph mh bs) in *.
  destruct (body_length _ _ Hok) as [Hbl Hl]. unfold Send. destruct (mail_prepare_ok host ph mh bs junk1 Hm Hp Hj1) as (buf & -> & Hsb & Hbuf).
  cbn [bind]. fold m in Hbuf |- *. rewrite (Network.Send_ok host (pktHdr m) buf random junk2 (output o) s); try done.
  2: { rewrite Hsb. unfold Network.MaxPacketSize, Network.MaxWireSize, Network.sizeof_PacketHeader in Hl. lia. }
  cbn [bind]. eexists. split; [done|]. change (Network.to (pktHdr m)) with (Network.to ph).
  destruct (Network.lost random (Network.chanceToWork (output o))); [left; split; [done|by left]|].
  destruct (s !! Network.to ph) as [q|] eqn:Hq; [|left; split; [done|by right]].
  right. exists q. eexists. split; [done|]. split; [done|]. split; [done|].
  replace (body m) with (take (Z.to_nat (Network.length (pktHdr m))) buf) by (rewrite <- Hbuf; f_equal; lia).
  apply Network.packet_carries; [apply (m_pkt _ _ Hok)|done| |done].
  rewrite Hsb. unfold Network.MaxPacketSize, Network.MaxWireSize, Network.sizeof_PacketHeader in Hl. lia.
Qed.

(** The worker fetches the mail that the packet in the device holds. *)
Lemma Delivery_fetch_ok d m o :
  mail_ok d m -> Network.buffered (pktHdr m) (body m) (input o) -> size (Network.inbox (input o)) = 52%nat -> size (buffer o) = 52%nat ->
  exists buf, size buf = 52%nat /\
    Delivery_fetch o = if bool_decide (to (mailHdr m) < numBoxes o) then
        Ok (set_input (Network.mkNetworkInput (Network.mkPacketHeader d (Network.from (pktHdr m)) 0) (Network.inbox (input o)) (Network.numPacketsRecvd (input o)))
              (set_worker (Holding (to (mailHdr m)) m) buf o))
      else Fault AssertFailed.
Proof.
  intros Hok Hbuf Hi Hb. destruct (Network.Receive_ok _ _ _ (buffer o) Hbuf Hi Hb) as (rest & Hr & Hs). exists (body m ++ rest). split; [done|].
  unfold Delivery_fetch. rewrite Hr. cbn [bind]. unfold body at 1. rewrite <- app_assoc, bytes_mail_ok by apply Hok. cbn [bind].
  rewrite (bool_decide_eq_true_2 (0 <= to (mailHdr m))) by apply Hok. cbn [andb].
  case_bool_decide; [|done]. cbn [assert bind]. rewrite bool_decide_eq_true_2 by apply (m_max _ _ Hok). cbn [assert bind].
  unfold body. rewrite <- app_assoc. replace (drop (Z.to_nat sizeof_MailHeader) (mail_bytes (mailHdr m) ++ data m ++ rest)) with (data m ++ rest)
    by (symmetry; apply drop_app_length'; by rewrite size_mail).
  unfold new_Mail. rewrite bool_decide_eq_true_2 by apply (m_max _ _ Hok). cbn [assert bind].
  pose proof (m_data _ _ Hok) as Hd. rewrite bool_decide_eq_true_2 by (rewrite length_app; lia). cbn [bind].
  rewrite take_app_length' by lia. rewrite (m_to _ _ Hok). by destruct m.
Qed.

(** ** The invariant of a machine *)

Definition for_box (b : Z) (m : Mail) : Prop := to (mailHdr m) = b.
#[export] Instance for_box_dec b m : Decision (for_box b m).
Proof. unfold for_box. apply _. Defined.

(** The mails that the worker has in hand, that the device has buffered, and that
    the socket has queued: [transit] is all of them, oldest first. *)
Definition in_hand (o : office) (ms : list Mail) : Prop :=
  match worker o with
  | Holding b m => ms = [m] /\ b = to (mailHdr m) /\ b < numBoxes o
  | _ => ms = []
  end.
Definition in_device (o : office) (ms : list Mail) : Prop :=
  if decide (Network.length (Network.inHdr (input o)) = 0) then ms = []
  else exists m, ms = [m] /\ Network.buffered (pktHdr m) (body m) (input o).
Definition in_socket (q : list Network.wire) (ms : list Mail) : Prop :=
  Forall2 (fun m w => Network.carries (pktHdr m) (body m) w) ms q.
Definition transit (o : office) (q : list Network.wire) (ms : list Mail) : Prop :=
  exists hand device sock, ms = hand ++ device ++ sock /\ in_hand o hand /\ in_device o device /\ in_socket q sock.

Record office_ok (d : Z) (o : office) (q : list Network.wire) (trans deliv : list Mail) (recv : Z -> list Mail) : Prop := {
  o_name : int_range d;
  o_inbox : size (Network.inbox (input o)) = 52%nat;
  o_buffer : size (buffer o) = 52%nat;
  o_boxes : Z.of_nat (size (boxes o)) = numBoxes o;
  o_avail : 0 <= messageAvailable o /\ messageAvailable o + (match worker o with Awake => 1 | _ => 0 end) =
    (if decide (Network.length (Network.inHdr (input o)) = 0) then 0 else 1);
  o_send : Network.sendBusy (output o) = false /\ 0 <= messageSent o /\
    Z.of_nat (Network.interrupts (output o)) + messageSent o = (if sendLock o then 1 else 0);
  o_mails : Forall (mail_ok d) trans;
  o_flow : exists ms, trans = deliv ++ ms /\ transit o q ms;
  o_fifo : forall b box, 0 <= b -> boxes o !! Z.to_nat b = Some box -> filter (for_box b) deliv = recv b ++ box
}.

Record inv (w : world) : Prop := {
  i_up : forall d o, offices w !! d = Some o -> exists q, socks w !! d = Some q /\
    office_ok d o q (transmitted w d) (delivered w d) (received w d);
  i_down : forall d, offices w !! d = None -> socks w !! d = None /\ transmitted w d = [] /\ delivered w d = [] /\ forall b, received w d b = []
}.

Lemma mail_initial_inv : inv initial.
Proof. by split. Qed.

(** Only machine [d] and, of the others, at most their incoming wires change. *)
Lemma inv_local w d o o' : inv w -> offices w !! d = Some o ->
  (forall q, socks w !! d = Some q -> office_ok d o q (transmitted w d) (delivered w d) (received w d) ->
     office_ok d o' q (transmitted w d) (delivered w d) (received w d)) ->
  inv (set_office d o' w).
Proof.
  intros [Hup Hdown] Hd Ho. split; cbn [set_office socks offices transmitted delivered received].
  - intros e oe He. destruct (decide (d = e)) as [<-|Hne].
    + rewrite lookup_insert_eq in He. injection He as <-. destruct (Hup d o Hd) as (q & Hq & Hok). exists q. split; [done|]. by apply Ho.
    + rewrite lookup_insert_ne in He by done. by apply Hup.
  - intros e He. destruct (decide (d = e)) as [<-|Hne]; [by rewrite lookup_insert_eq in He|]. rewrite lookup_insert_ne in He by done. by apply Hdown.
Qed.

(** A mail arrives in the socket of machine [t], which is up. *)
Lemma inv_transmit w t q m x : inv w -> socks w !! t = Some q -> mail_ok t m -> Network.carries (pktHdr m) (body m) x ->
  inv (log_transmitted t m (set_socks (<[t := q ++ [x]]> (socks w)) w)).
Proof.
  intros [Hup Hdown] Hq Hm Hx. split; cbn [log_transmitted set_socks socks offices transmitted delivered received].
  - intros e oe He. destruct (Hup e oe He) as (q' & Hq' & Hok). destruct (decide (t = e)) as [<-|Hne].
    + rewrite Hq in Hq'. injection Hq' as <-. exists (q ++ [x]). rewrite lookup_insert_eq, fn_lookup_insert. split; [done|].
      destruct Hok as [H1 H2 H3 H4 H5 H6 H7 (ms & Hms & hand & device & sock & -> & Hh & Hd & Hs) H9]. split; try done.
      * apply Forall_app. split; [done|by constructor].
      * exists ((hand ++ device ++ sock) ++ [m]). split; [by rewrite Hms, !app_assoc|].
        exists hand, device, (sock ++ [m]). split; [by rewrite !app_assoc|]. split; [done|]. split; [done|].
        apply Forall2_app; [done|by constructor].
    + exists q'. by rewrite lookup_insert_ne, fn_lookup_insert_ne.
  - intros e He. destruct (Hdown e He) as (H1 & H2 & H3 & H4). destruct (decide (t = e)) as [<-|Hne]; [congruence|].
    by rewrite lookup_insert_ne, fn_lookup_insert_ne.
Qed.

Lemma set_office_socks d o s w : set_office d o (set_socks s w) = set_socks s (set_office d o w).
Proof. done. Qed.

Lemma snoc_ne {A} (q : list A) x : q ++ [x] <> q.
Proof. intros E. apply (f_equal size) in E. rewrite length_app in E. cbn in E. lia. Qed.

Lemma set_socks_same w : set_socks (socks w) w = w.
Proof. by destruct w. Qed.

Lemma CallSend_ok d ph mh bs random junk1 junk2 w o r :
  inv w -> offices w !! d = Some o -> react d (CallSend ph mh bs random junk1 junk2) w = Some r -> proper mh bs ->
  exists w', r = Ok w' /\ inv w' /\ delivered w' = delivered w /\ received w' = received w /\
    (transmitted w' = transmitted w /\ (Network.lost random (Network.chanceToWork (output o)) = true \/ offices w !! Network.to ph = None) \/
     transmitted w' = <[Network.to ph := transmitted w (Network.to ph) ++ [mail_of d ph mh bs]]> (transmitted w) /\
       Network.lost random (Network.chanceToWork (output o)) = false).
Proof.
  intros Hinv Ho Hr Hp. unfold react in Hr. rewrite Ho in Hr. destruct (sendLock o) eqn:Hl; [done|]. cbn [negb andb] in Hr.
  case_bool_decide as Hty; [|done]. injection Hr as <-. destruct Hty as (Ht & Hm & Hj1 & Hj2).
  destruct (i_up _ Hinv d o Ho) as (q0 & Hq0 & Hok0). pose proof (o_name _ _ _ _ _ _ Hok0) as Hname. pose proof (o_send _ _ _ _ _ _ Hok0) as (Hbusy & _).
  destruct (mail_Send_ok d ph mh bs random junk1 junk2 o (socks w) Hname Ht Hm Hp Hj1 Hj2 Hbusy) as (s' & -> & Hs). cbn [bind].
  set (o' := set_sending _ true _).
  assert (Hloc : forall w1, offices w1 !! d = Some o -> inv w1 -> inv (set_office d o' w1)).
  { intros w1 Ho1 Hw1. eapply inv_local; [done|done|]. intros q Hq [H1 H2 H3 H4 H5 H6 H7 H8 H9]. split; try done.
    cbn. rewrite Hl in H6. destruct H6 as (_ & H6 & H6'). split; [done|]. split; [done|]. lia. }
  destruct Hs as [[-> Hwhy]|(q & x & Hq & -> & Hlost & Hx)].
  - rewrite bool_decide_eq_true_2 by done. eexists. split; [done|]. rewrite set_office_socks.
    split; [by apply (Hloc (set_socks (socks w) w)); [|rewrite set_socks_same]|]. split; [done|]. split; [done|]. left. split; [done|].
    destruct Hwhy as [|Hnone]; [by left|right]. destruct (offices w !! Network.to ph) as [o2|] eqn:E; [|done].
    destruct (i_up _ Hinv _ _ E) as (q & Hq & _). congruence.
  - rewrite bool_decide_eq_false_2 by (rewrite Hq, lookup_insert_eq; intros [= E]; by apply (snoc_ne q x)).
    eexists. split; [done|]. split; [|by do 2 (split; [done|]); right].
    apply (Hloc (log_transmitted (Network.to ph) (mail_of d ph mh bs) (set_socks (<[Network.to ph := q ++ [x]]> (socks w)) w))); [done|].
    apply inv_transmit; try done. by apply mail_of_ok.
Qed.

Lemma Boot_ok d n rel a b junk junk' w r :
  inv w -> react d (Boot n rel a b junk junk') w = Some r -> 0 <= n ->
  exists w', r = Ok w' /\ inv w' /\ offices w !! d = None.
Proof.
  intros Hinv Hr Hn. unfold react in Hr. destruct (offices w !! d) eqn:Hd; [done|]. case_bool_decide as Hty; [|done]. injection Hr as <-.
  destruct Hty as (Hname & Hj & Hj'). unfold new_office. rewrite bool_decide_eq_true_2 by done. cbn [Network.new_NetworkInput bind].
  eexists. split; [done|]. split; [|done]. destruct (i_down _ Hinv d Hd) as (_ & Htr & Hde & Hre). pose proof Hinv as [Hup Hdown].
  split; cbn [set_office set_socks socks offices transmitted delivered received]; unfold Network.AssignNameToSocket.
  - intros e oe He. destruct (decide (d = e)) as [<-|Hne].
    + rewrite lookup_insert_eq in He. injection He as <-. exists []. rewrite lookup_insert_eq. split; [done|].
      rewrite Htr, Hde. split; cbn; try done.
      * rewrite length_replicate. lia.
      * exists []. split; [done|]. exists [], [], []. split; [done|]. split; [done|]. split; [done|by constructor].
      * intros c box _ Hbox. apply lookup_replicate in Hbox as [-> _]. by rewrite Hre.
    + rewrite lookup_insert_ne in He by done. rewrite lookup_insert_ne by done. by apply Hup.
  - intros e He. destruct (decide (d = e)) as [<-|Hne]; [by rewrite lookup_insert_eq in He|]. rewrite lookup_insert_ne in He by done.
    rewrite lookup_insert_ne by done. by apply Hdown.
Qed.

Lemma inv_update w w' d o' q' :
  inv w -> offices w' = <[d := o']> (offices w) -> socks w' !! d = Some q' ->
  (forall e, e <> d -> socks w' !! e = socks w !! e /\ transmitted w' e = transmitted w e /\
     delivered w' e = delivered w e /\ received w' e = received w e) ->
  office_ok d o' q' (transmitted w' d) (delivered w' d) (received w' d) -> inv w'.
Proof.
  intros [Hup Hdown] Ho Hq Hsame Hok. split; rewrite Ho.
  - intros e oe He. destruct (decide (d = e)) as [<-|Hne].
    + rewrite lookup_insert_eq in He. injection He as <-. by exists q'.
    + rewrite lookup_insert_ne in He by done. destruct (Hsame e ltac:(done)) as (-> & -> & -> & ->). by apply Hup.
  - intros e He. destruct (decide (d = e)) as [<-|Hne]; [by rewrite lookup_insert_eq in He|]. rewrite lookup_insert_ne in He by done.
    destruct (Hsame e ltac:(done)) as (-> & -> & -> & ->). by apply Hdown.
Qed.

Section machine.
Context (w : world) (d : Z) (o : office) (q : list Network.wire).
Hypothesis (Hinv : inv w).
Hypothesis (Ho : offices w !! d = Some o).
Hypothesis (Hq : socks w !! d = Some q).

Lemma machine_ok : office_ok d o q (transmitted w d) (delivered w d) (received w d).
Proof using Hinv Ho Hq. destruct (i_up _ Hinv d o Ho) as (q' & Hq' & H). congruence. Qed.

Lemma SendInt_inv : Network.interrupts (output o) <> 0%nat -> inv (set_office d (Output_CallBack o) w).
Proof using All.
  intros Hi. eapply inv_local; [done|done|]. intros q0 _ [H1 H2 H3 H4 H5 (H6a & H6b & H6c) H7 H8 H9]. split; try done.
  cbn. split; [done|]. split; [lia|]. rewrite <- H6c. lia.
Qed.

Lemma SendReturns_inv : sendLock o = true -> 0 < messageSent o -> inv (set_office d (Send_end o) w).
Proof using All.
  intros Hl Hm. eapply inv_local; [done|done|]. intros q0 _ [H1 H2 H3 H4 H5 (H6a & H6b & H6c) H7 H8 H9]. split; try done.
  cbn. rewrite Hl in H6c. split; [done|]. lia.
Qed.

Lemma WorkerP_inv : worker o = Waiting -> 0 < messageAvailable o -> inv (set_office d (Delivery_P o) w).
Proof using All.
  intros Hw Hm. eapply inv_local; [done|done|]. intros q0 _ [H1 H2 H3 H4 (H5a & H5b) H6 H7 (ms & Hms & h & dv & sk & -> & Hh & Hd & Hs) H9].
  split; try done.
  - cbn. rewrite Hw in H5b. lia.
  - exists (h ++ dv ++ sk). split; [done|]. exists h, dv, sk. split; [done|]. split; [|done]. unfold in_hand in *. by rewrite Hw in Hh.
Qed.

(** A packet is waiting for the worker exactly when it has been told of one. *)
Lemma worker_awake : worker o = Awake -> exists m ms, transmitted w d = delivered w d ++ m :: ms /\ mail_ok d m /\
  Network.buffered (pktHdr m) (body m) (input o) /\ in_socket q ms /\ messageAvailable o = 0.
Proof using Hinv Ho Hq.
  intros Hw. destruct machine_ok as [H1 H2 H3 H4 (H5a & H5b) H6 H7 (ms & Hms & h & dv & sk & -> & Hh & Hd & Hs) H9].
  unfold in_hand in Hh. rewrite Hw in Hh, H5b. subst h. unfold in_device in Hd.
  destruct (decide (Network.length (Network.inHdr (input o)) = 0)); [lia|]. destruct Hd as (m & -> & Hm).
  exists m, sk. split; [done|]. split; [|split; [done|split; [done|lia]]].
  rewrite Hms in H7. apply Forall_app in H7 as [_ H7]. by inversion H7.
Qed.

Lemma WorkerFetch_inv : worker o = Awake -> exists m ms, transmitted w d = delivered w d ++ m :: ms /\
  if decide (to (mailHdr m) < numBoxes o) then exists o', Delivery_fetch o = Ok o' /\ inv (set_office d o' w) /\
      worker o' = Holding (to (mailHdr m)) m /\ Network.length (Network.inHdr (input o')) = 0
  else Delivery_fetch o = Fault AssertFailed.
Proof using All.
  intros Hw. destruct (worker_awake Hw) as (m & ms & Hms & Hm & Hbuf & Hs & Ha). exists m, ms. split; [done|].
  pose proof machine_ok as [H1 H2 H3 H4 H5 H6 H7 H8 H9].
  destruct (Delivery_fetch_ok d m o Hm Hbuf H2 H3) as (buf & Hsb & ->).
  destruct (decide (to (mailHdr m) < numBoxes o)) as [Hto|Hto]; [rewrite bool_decide_eq_true_2 by done|by rewrite bool_decide_eq_false_2].
  eexists. split; [done|]. split; [|done]. eapply inv_update; [done|done|exact Hq|done|].
  split; try done.
  - cbn -[decide]. rewrite decide_True by done. lia.
  - exists (m :: ms). split; [done|]. exists [m], [], ms. split; [done|]. split; [done|]. by split.
Qed.

Lemma WorkerPut_inv b m : worker o = Holding b m ->
  exists o' ms, Put b m o = Ok o' /\ inv (log_delivered d m (set_office d o' w)) /\ worker o' = Waiting /\ input o' = input o /\
    messageAvailable o' = messageAvailable o /\ transmitted w d = delivered w d ++ m :: ms.
Proof using All.
  intros Hw. destruct machine_ok as [H1 H2 H3 H4 (H5a & H5b) H6 H7 (ms & Hms & h & dv & sk & -> & Hh & Hd & Hs) H9].
  unfold in_hand in Hh. rewrite Hw in Hh. destruct Hh as (-> & -> & Hlt). pose proof H7 as Hall. rewrite Hms in Hall. apply Forall_app in Hall as [_ Hall].
  inversion Hall as [|? ? Hm _]; subst. pose proof (m_box _ _ Hm) as Hb.
  destruct (lget_is_ok (boxes o) (to (mailHdr m))) as (box & Hget & Hbox); [lia|]. unfold Put. rewrite Hget. cbn [bind].
  rewrite lset_in by lia. cbn [bind]. eexists _, _. split; [done|].
  split; [|split; [done|split; [done|split; [done|exact Hms]]]].
  eapply inv_update; [done|done|exact Hq| |].
  - intros e He. cbn. by rewrite fn_lookup_insert_ne.
  - cbn. rewrite fn_lookup_insert. split; cbn; try done.
    + by rewrite length_insert.
    + by rewrite Hw in H5b.
    + exists (dv ++ sk). split; [by rewrite Hms, <- app_assoc|]. exists [], dv, sk. by split.
    + intros b box' Hb0 Hbox'. rewrite filter_app, filter_cons, filter_nil.
      destruct (decide (Z.to_nat (to (mailHdr m)) = Z.to_nat b)) as [E|E].
      * rewrite E, list_lookup_insert_eq in Hbox' by (apply lookup_lt_Some in Hbox; lia). injection Hbox' as <-.
        assert (b = to (mailHdr m)) as -> by lia. rewrite decide_True by done. by rewrite (H9 _ box Hb Hbox), <- app_assoc.
      * rewrite list_lookup_insert_ne in Hbox' by done. rewrite decide_False by (unfold for_box; lia). rewrite app_nil_r. by apply H9.
Qed.

Lemma RecvInt_inv : exists o' s, Input_CallBack d o (socks w) = Ok (o', s) /\ inv (set_office d o' (set_socks s w)) /\
  worker o' = worker o /\
  (Network.length (Network.inHdr (input o)) = 0 -> forall x q', q = x :: q' ->
     s !! d = Some q' /\ Network.length (Network.inHdr (input o')) <> 0 /\ messageAvailable o' = messageAvailable o + 1).
Proof using All.
  pose proof machine_ok as [H1 H2 H3 H4 (H5a & H5b) H6 H7 (ms & Hms & h & dv & sk & -> & Hh & Hd & Hs) H9].
  assert (Hsame : inv (set_office d (set_input (input o) o) (set_socks (socks w) w))).
  { rewrite set_socks_same. eapply inv_local; [done|done|]. by destruct o. }
  unfold Input_CallBack. destruct (decide (Network.length (Network.inHdr (input o)) = 0)) as [Hz|Hz].
  - destruct q as [|x q'].
    + unfold Network.Input_CallBack, Network.PollSocket. rewrite Hz, Hq, bool_decide_eq_true_2 by done. cbn [negb bind].
      eexists _, _. split; [done|]. split; [done|]. split; [by destruct o|]. done.
    + unfold in_device in Hd. rewrite decide_True in Hd by done. subst dv. inversion Hs as [|m ? ms' ? Hx Hms']; subst. cbn [app] in Hms.
      assert (Hm : mail_ok d m).
      { rewrite Hms in H7. apply Forall_app in H7 as [_ H7]. apply Forall_app in H7 as [_ H7]. by inversion H7. }
      destruct (Network.Input_CallBack_ok d (input o) (socks w) _ _ x q' Hz H2 Hq Hx (m_to _ _ Hm)) as (i' & -> & Hbuf & Hsz).
      cbn [bind]. eexists _, _. split; [done|]. assert (Hnz : Network.length (Network.inHdr i') <> 0).
      { destruct Hbuf as (-> & Hl & _). lia. }
      split; [|split; [done|]].
      * eapply (inv_update w); [done|done|by apply lookup_insert_eq|intros e He; cbn; by rewrite lookup_insert_ne|].
        split; cbn; try done.
        -- split; [lia|]. rewrite decide_False by done. lia.
        -- exists (h ++ m :: ms'). split; [done|]. exists h, [m], ms'. split; [done|]. split; [done|]. split; [|done].
           unfold in_device. cbn. rewrite decide_False by done. by exists m.
      * intros _ x0 q0 [= <- <-]. by rewrite lookup_insert_eq.
  - unfold Network.Input_CallBack. rewrite bool_decide_eq_false_2 by done. cbn [negb bind].
    eexists _, _. split; [done|]. split; [done|]. split; [by destruct o|]. done.
Qed.

Lemma CallReceive_inv b : 0 <= b < numBoxes o -> exists box, boxes o !! Z.to_nat b = Some box /\
  match box with
  | [] => Receive b o = Ok None
  | m :: box' => exists o', Receive b o = Ok (Some (m, o')) /\ inv (log_received d b m (set_office d o' w))
  end.
Proof using All.
  intros Hb. destruct machine_ok as [H1 H2 H3 H4 H5 H6 H7 H8 H9].
  destruct (lget_is_ok (boxes o) b) as (box & Hget & Hbox); [lia|]. exists box. split; [done|]. unfold Receive.
  rewrite !bool_decide_eq_true_2 by lia. cbn [andb assert bind]. unfold Get. rewrite Hget. cbn [bind]. destruct box as [|m box']; [done|].
  rewrite lset_in by lia. cbn [bind]. assert (Hm : mail_ok d m).
  { destruct H8 as (ms & Hms & _). rewrite Hms in H7. apply Forall_app in H7 as [H7 _]. rewrite Forall_forall in H7. apply H7.
    assert (Hin : m ∈ filter (for_box b) (delivered w d)) by (rewrite (H9 b _ ltac:(lia) Hbox); apply elem_of_app; right; left).
    by apply list_elem_of_filter in Hin as [_ Hin]. }
  rewrite bool_decide_eq_true_2 by apply (m_max _ _ Hm). cbn [assert bind]. eexists. split; [done|].
  eapply inv_update; [done|done|exact Hq|intros e He; cbn; by rewrite fn_lookup_insert_ne|].
  cbn. rewrite fn_lookup_insert. split; cbn; try done.
  - by rewrite length_insert.
  - intros c box Hc Hbox'. destruct (decide (Z.to_nat b = Z.to_nat c)) as [E|E].
    + rewrite E, list_lookup_insert_eq in Hbox' by (rewrite <- E; apply lookup_lt_Some in Hbox; lia). injection Hbox' as <-.
      assert (c = b) as -> by lia. rewrite fn_lookup_insert, <- app_assoc. by rewrite (H9 b _ ltac:(lia) Hbox).
    + rewrite list_lookup_insert_ne in Hbox' by done. rewrite fn_lookup_insert_ne by (intros ->; lia). by apply H9.
Qed.
End machine.

(** ** Every step *)

(** A call outside what the interface allows; or a mail for a box that machine [d]
    does not have. *)
Definition improper (d : Z) (e : event) (w : world) : Prop :=
  match e with
  | Boot n _ _ _ _ _ => n < 0
  | CallSend _ mh bs _ _ _ => ~ proper mh bs
  | WorkerFetch => exists o m ms, offices w !! d = Some o /\ transmitted w d = delivered w d ++ m :: ms /\ numBoxes o <= to (mailHdr m)
  | CallReceive b => exists o, offices w !! d = Some o /\ ~ 0 <= b < numBoxes o
  | _ => False
  end.

#[export] Instance proper_dec mh bs : Decision (proper mh bs).
Proof. unfold proper. apply _. Defined.

Lemma mail_react_ok d e w r : inv w -> react d e w = Some r -> (exists w', r = Ok w' /\ inv w') \/ improper d e w.
Proof.
  intros Hinv Hr. destruct e as [n rel a b j j'|ph mh bs rnd j1 j2| | | | | | |b].
  { destruct (decide (0 <= n)) as [Hn|Hn]; [left|right; simpl; lia].
    destruct (Boot_ok _ _ _ _ _ _ _ _ _ Hinv Hr Hn) as (w' & -> & ? & _). by exists w'. }
  all: unfold react in Hr; destruct (offices w !! d) as [o|] eqn:Ho; [|done].
  { destruct (decide (proper mh bs)) as [Hp|]; [left|by right].
    destruct (CallSend_ok d ph mh bs rnd j1 j2 w o r Hinv Ho) as (w' & -> & ? & _); [by unfold react; rewrite Ho|done|]. by exists w'. }
  all: destruct (i_up _ Hinv d o Ho) as (q & Hq & _).
  - case_bool_decide; [done|]. injection Hr as <-. left. eexists. split; [done|]. by eapply SendInt_inv.
  - destruct (sendLock o) eqn:Hl; [|done]. cbn [andb] in Hr. case_bool_decide; [|done]. injection Hr as <-. left. eexists. split; [done|]. by eapply SendReturns_inv.
  - injection Hr as <-. left. destruct (RecvInt_inv w d o q Hinv Ho Hq) as (o' & s & -> & H & _). by eexists.
  - destruct (worker o) eqn:Hw; try done. case_bool_decide; [|done]. injection Hr as <-. left. eexists. split; [done|]. by eapply WorkerP_inv.
  - destruct (worker o) eqn:Hw; try done. injection Hr as <-. destruct (WorkerFetch_inv w d o q Hinv Ho Hq Hw) as (m & ms & Hms & H).
    destruct (decide (to (mailHdr m) < numBoxes o)) as [Hlt|Hlt]; [left|right].
    + destruct H as (o' & -> & H & _). by eexists.
    + exists o, m, ms. split; [done|]. split; [done|lia].
  - destruct (worker o) eqn:Hw; try done. injection Hr as <-. left.
    destruct (WorkerPut_inv w d o q Hinv Ho Hq _ _ Hw) as (o' & ms & -> & H & _). by eexists.
  - destruct (decide (0 <= b < numBoxes o)) as [Hb|Hb]; [left|right; by exists o].
    destruct (CallReceive_inv w d o q Hinv Ho Hq b Hb) as ([|m box] & _ & H); [by rewrite H in Hr|].
    destruct H as (o' & H & Hinv'). rewrite H in Hr. injection Hr as <-. by eexists.
Qed.

Lemma prepare_improper host ph mh bs junk : typed_mail mh -> size junk = 52%nat -> ~ proper mh bs ->
  exists f, prepare host ph mh bs junk = Fault f.
Proof.
  intros (_ & _ & Hl) Hj Hp. unfold prepare. case_bool_decide as H1; [|by eexists]. cbn [assert bind]. case_bool_decide as H2; [|by eexists].
  cbn [assert bind]. destruct (Network.bcopy_ok (mail_bytes mh) 0 12 junk) as [Hb _]; [rewrite size_mail; lia|lia|lia|].
  change sizeof_MailHeader with 12. rewrite Hb. cbn [bind]. unfold Network.bcopy. rewrite bool_decide_eq_false_2; [by eexists|].
  intros (_ & H3 & _). by apply Hp.
Qed.

Lemma react_improper d e w r : inv w -> react d e w = Some r -> improper d e w -> exists f, r = Fault f.
Proof.
  intros Hinv Hr Hi. destruct e as [n rel a b j j'|ph mh bs rnd j1 j2| | | | | | |b]; cbn [improper] in Hi; try done; unfold react in Hr;
    destruct (offices w !! d) as [o|] eqn:Ho; try done.
  - case_bool_decide; [|done]. injection Hr as <-. unfold new_office. rewrite bool_decide_eq_false_2 by lia. by eexists.
  - destruct (sendLock o); [done|]. cbn [negb andb] in Hr. case_bool_decide as Hty; [|done]. destruct Hty as (_ & Hm & Hj & _). injection Hr as <-.
    unfold Send. destruct (prepare_improper d ph mh bs j1 Hm Hj Hi) as [f ->]. by exists f.
  - destruct Hi as (o' & m & ms & [= <-] & Hms & Hto). destruct (worker o) eqn:Hw; try done. injection Hr as <-.
    destruct (i_up _ Hinv d o Ho) as (q & Hq & _). destruct (WorkerFetch_inv w d o q Hinv Ho Hq Hw) as (m' & ms' & Hms' & H).
    rewrite Hms in Hms'. apply app_inv_head in Hms' as [= <- <-]. rewrite decide_False in H by lia. rewrite H. by eexists.
  - destruct Hi as (o' & [= <-] & Hb). unfold Receive in Hr. destruct (decide (0 <= b)) as [H1|H1].
    + rewrite (bool_decide_eq_true_2 (0 <= b)), (bool_decide_eq_false_2 (b < numBoxes o)) in Hr by lia. cbn in Hr. injection Hr as <-. by eexists.
    + rewrite (bool_decide_eq_false_2 (0 <= b)) in Hr by lia. cbn in Hr. injection Hr as <-. by eexists.
Qed.

Lemma mail_step_inv w w' : inv w -> step w w' -> inv w'.
Proof.
  intros Hinv Hs. destruct Hs as [d e w w' Hr]. destruct (mail_react_ok d e w _ Hinv Hr) as [(w2 & [= ->] & ?)|Hi]; [done|].
  by destruct (react_improper d e w _ Hinv Hr Hi).
Qed.

Lemma mail_reachable_inv w : rtc step initial w -> inv w.
Proof. intros Hr. assert (H : forall a b, rtc step a b -> inv a -> inv b) by (induction 1; eauto using mail_step_inv). by eapply H, mail_initial_inv. Qed.

(** ** The receiver gets on with it *)

Definition receiver (e : event) : bool := match e with RecvInt | WorkerP | WorkerFetch | WorkerPut => true | _ => false end.
Inductive receives (d : Z) : world -> world -> Prop :=
  | receives_react e w w' : receiver e = true -> react d e w = Some (Ok w') -> receives d w w'.

Lemma Delivery_fetch_boxes o o' : Delivery_fetch o = Ok o' -> numBoxes o' = numBoxes o.
Proof. unfold Delivery_fetch. intros ([[? ?] ?] & _ & (? & _ & (? & _ & (? & _ & (? & _ & [= <-])%bind_ok)%bind_ok)%bind_ok)%bind_ok)%bind_ok. done. Qed.

Lemma Put_boxes b m o o' : Put b m o = Ok o' -> numBoxes o' = numBoxes o.
Proof. unfold Put. intros (? & _ & (? & _ & [= <-])%bind_ok)%bind_ok. done. Qed.

Lemma Input_CallBack_boxes d o s o' s' : Input_CallBack d o s = Ok (o', s') -> numBoxes o' = numBoxes o.
Proof. unfold Input_CallBack. intros ([[[] ?] ?] & _ & [= <- _])%bind_ok; done. Qed.

(** The next mail is put in its box after at most [k] more steps. *)
Definition will_deliver (k : nat) (d : Z) (m : Mail) (n : Z) (w : world) : Prop :=
  exists k' w' o', (k' <= k)%nat /\ nsteps (receives d) k' w w' /\ inv w' /\ offices w' !! d = Some o' /\ numBoxes o' = n /\
    transmitted w' d = transmitted w d /\ delivered w' d = delivered w d ++ [m].

Lemma will_deliver_step k d m n w w' : receives d w w' -> transmitted w' d = transmitted w d -> delivered w' d = delivered w d ->
  will_deliver k d m n w' -> will_deliver (S k) d m n w.
Proof.
  intros Hs Ht Hd (k' & w2 & o2 & Hk & Hn & Hi & Ho & Hb & Ht2 & Hd2). exists (S k'), w2, o2. split; [lia|].
  split; [by eapply nsteps_l|]. rewrite <- Ht, <- Hd. done.
Qed.

Section next_mail.
Context (d : Z) (m : Mail) (ms : list Mail).
Abbreviation next_is := (fun w => transmitted w d = delivered w d ++ m :: ms).

Lemma deliver_holding w o b m' : inv w -> offices w !! d = Some o -> next_is w -> worker o = Holding b m' -> will_deliver 1 d m (numBoxes o) w.
Proof using Type.
  intros Hinv Ho Hnext Hw. destruct (i_up _ Hinv d o Ho) as (q & Hq & _).
  destruct (WorkerPut_inv w d o q Hinv Ho Hq b m' Hw) as (o' & ms' & Hp & Hi & _ & _ & _ & Hms).
  rewrite Hnext in Hms. apply app_inv_head in Hms as [= <- <-].
  exists 1%nat. eexists _, o'. split; [done|]. split.
  - apply nsteps_once. apply (receives_react d WorkerPut); [done|]. unfold react. by rewrite Ho, Hw, Hp.
  - split; [exact Hi|]. cbn. rewrite lookup_insert_eq, fn_lookup_insert. by rewrite (Put_boxes _ _ _ _ Hp).
Qed.

Lemma deliver_awake w o : inv w -> offices w !! d = Some o -> next_is w -> to (mailHdr m) < numBoxes o -> worker o = Awake ->
  will_deliver 2 d m (numBoxes o) w.
Proof using Type.
  intros Hinv Ho Hnext Hto Hw. destruct (i_up _ Hinv d o Ho) as (q & Hq & _).
  destruct (WorkerFetch_inv w d o q Hinv Ho Hq Hw) as (m' & ms' & Hms & Hf).
  rewrite Hnext in Hms. apply app_inv_head in Hms as [= <- <-]. rewrite decide_True in Hf by done. destruct Hf as (o' & Hf & Hi & Hw' & _).
  apply (will_deliver_step _ _ _ _ _ (set_office d o' w)); [|done|done|].
  - apply (receives_react d WorkerFetch); [done|]. unfold react. by rewrite Ho, Hw, Hf.
  - rewrite <- (Delivery_fetch_boxes _ _ Hf). eapply deliver_holding; [done|by cbn; rewrite lookup_insert_eq|done|done].
Qed.

Lemma deliver_told w o : inv w -> offices w !! d = Some o -> next_is w -> to (mailHdr m) < numBoxes o -> worker o = Waiting ->
  0 < messageAvailable o -> will_deliver 3 d m (numBoxes o) w.
Proof using Type.
  intros Hinv Ho Hnext Hto Hw Ha. destruct (i_up _ Hinv d o Ho) as (q & Hq & _).
  pose proof (WorkerP_inv w d o q Hinv Ho Hq Hw Ha) as Hi. apply (will_deliver_step _ _ _ _ _ (set_office d (Delivery_P o) w)); [|done|done|].
  - apply (receives_react d WorkerP); [done|]. unfold react. by rewrite Ho, Hw, bool_decide_eq_true_2.
  - change (numBoxes o) with (numBoxes (Delivery_P o)). eapply deliver_awake; [done|by cbn; rewrite lookup_insert_eq|done|done|done].
Qed.

Lemma deliver_next w o : inv w -> offices w !! d = Some o -> next_is w -> to (mailHdr m) < numBoxes o -> will_deliver 4 d m (numBoxes o) w.
Proof using Type.
  assert (Hmore : forall k k' n w, (k <= k')%nat -> will_deliver k d m n w -> will_deliver k' d m n w).
  { intros k k' n w0 Hk (j & w' & o' & Hj & H). exists j, w', o'. split; [lia|done]. }
  intros Hinv Ho Hnext Hto. destruct (i_up _ Hinv d o Ho) as (q & Hq & Hok). destruct (worker o) as [| |b m'] eqn:Hw.
  - destruct (o_avail _ _ _ _ _ _ Hok) as [Ha0 Ha]. rewrite Hw in Ha.
    destruct (decide (Network.length (Network.inHdr (input o)) = 0)) as [Hz|Hz]; [|apply (Hmore 3%nat); [lia|]; apply deliver_told; try done; lia].
    destruct (RecvInt_inv w d o q Hinv Ho Hq) as (o' & s & Hr & Hi & Hw' & Hrest).
    destruct (o_flow _ _ _ _ _ _ Hok) as (ms' & Hms & h & dv & sk & -> & Hh & Hd & Hs). unfold in_hand in Hh. unfold in_device in Hd.
    rewrite Hw in Hh. rewrite decide_True in Hd by done. subst h dv. rewrite Hnext in Hms. apply app_inv_head in Hms. cbn [app] in Hms. subst sk.
    inversion Hs as [|? x ? q' _ _]; subst. destruct (Hrest Hz x q' eq_refl) as (Hs' & Hnz & Hav).
    apply (will_deliver_step _ _ _ _ _ (set_office d o' (set_socks s w))); [|done|done|].
    + apply (receives_react d RecvInt); [done|]. unfold react. by rewrite Ho, Hr.
    + rewrite <- (Input_CallBack_boxes _ _ _ _ _ Hr). eapply deliver_told; [done|by cbn; rewrite lookup_insert_eq|done| |by rewrite Hw'|lia].
      by rewrite (Input_CallBack_boxes _ _ _ _ _ Hr).
  - apply (Hmore 2%nat); [lia|]. by apply deliver_awake.
  - apply (Hmore 1%nat); [lia|]. by eapply deliver_holding.
Qed.
End next_mail.

Lemma deliver_all d ms : forall w o, inv w -> offices w !! d = Some o -> transmitted w d = delivered w d ++ ms ->
  Forall (fun m => to (mailHdr m) < numBoxes o) ms ->
  exists k w', (k <= 4 * size ms)%nat /\ nsteps (receives d) k w w' /\ inv w' /\ delivered w' d = transmitted w d.
Proof.
  induction ms as [|m ms IH]; intros w o Hinv Ho Hms Hall.
  - exists 0%nat, w. split; [done|]. split; [constructor|]. split; [done|]. by rewrite Hms, app_nil_r.
  - inversion Hall as [|? ? Hm Hrest]; subst.
    destruct (deliver_next d m ms w o Hinv Ho Hms Hm) as (k1 & w1 & o1 & Hk1 & Hs1 & Hi1 & Ho1 & Hb1 & Ht1 & Hd1).
    destruct (IH w1 o1 Hi1 Ho1) as (k2 & w2 & Hk2 & Hs2 & Hi2 & Hd2).
    + by rewrite Ht1, Hd1, Hms, <- app_assoc.
    + by rewrite Hb1.
    + exists (k1 + k2)%nat, w2. split; [cbn [List.length]; lia|]. split; [by eapply nsteps_trans|]. split; [done|]. by rewrite Hd2.
Qed.

(** ** Examples *)

Fixpoint run (es : list (Z * event)) (w : world) : option world :=
  match es with
  | [] => Some w
  | (d, e) :: es => match react d e w with Some (Ok w') => run es w' | _ => None end
  end.

Lemma mail_run_rtc es w w' : run es w = Some w' -> rtc step w w'.
Proof.
  revert w. induction es as [|[d e] es IH]; intros w H; simpl in H; [injection H as ->; done|].
  destruct (react d e w) as [[w1|]|] eqn:He; [|done|done]. eapply rtc_l; [by eapply step_react|]. by apply IH.
Qed.

Definition junk (n : nat) : list byte := replicate n xaa.
Definition boot : event := Boot 10 (Network.double 1) 7 8 (junk 52) (junk 52).
(** Machine 1 sends two bytes from its box 3 to box [b] of machine 2. *)
Definition greet (b : Z) (x : byte) : event :=
  CallSend (Network.mkPacketHeader 2 0 0) (mkMailHeader b 3 2) [x; x21] 42 (junk 52) (junk 64).
Definition greeting (b : Z) (x : byte) : Mail := mkMail (Network.mkPacketHeader 2 1 14) (mkMailHeader b 3 2) [x; x21].

(** Two mails on their way, the first one with the worker. *)
Definition example_events : list (Z * event) :=
  [(1, boot); (2, boot); (1, greet 4 x61); (1, SendInt); (1, SendReturns); (2, RecvInt); (2, WorkerP);
   (1, greet 5 x62); (2, RecvInt); (2, WorkerFetch); (2, RecvInt)].
Definition example_world : world := default initial (run example_events initial).
Definition example_office : office := default (mkOffice (Network.mkNetworkInput (Network.mkPacketHeader 0 0 0) [] 0) 0 0 [] Waiting []
  (Network.new_NetworkOutput (Network.double 0)) 0 false) (offices example_world !! 2).

(** The end of a run, without writing the world out. *)
Lemma run_default es : isSome (run es initial) = true -> run es initial = Some (default initial (run es initial)).
Proof. by destruct (run es initial). Qed.

Lemma example_run : run example_events initial = Some example_world.
Proof. apply run_default. vm_compute. reflexivity. Qed.

Lemma mail_example_reached : rtc step initial example_world.
Proof. apply (mail_run_rtc example_events), example_run. Qed.

Lemma example_up : offices example_world !! 2 = Some example_office.
Proof. vm_compute. reflexivity. Qed.

(** A mail for a box that the receiver does not have stops the receiver, not the
    sender, whose test of the number is one-sided. *)
Lemma foreign_box_stops_receiver : exists w, run [(1, boot); (2, boot); (1, greet 10 x61); (2, RecvInt); (2, WorkerP)] initial = Some w /\
  react 2 WorkerFetch w = Some (Fault AssertFailed).
Proof. eexists. split; [apply run_default; vm_compute; reflexivity|]. vm_compute. reflexivity. Qed.

(** [sendBusy] is never TRUE, so that the test in [NetworkOutput::Send] never
    refuses a second packet before the interrupt of the first. *)
Lemma sendBusy_never_set : exists u1 s1 u2 s2,
  Network.Send 1 (Network.mkPacketHeader 2 1 4) (junk 52) 0 (junk 64) (Network.new_NetworkOutput (Network.double 1)) ∅ = Ok (u1, s1) /\
  Network.Send 1 (Network.mkPacketHeader 2 1 4) (junk 52) 0 (junk 64) u1 s1 = Ok (u2, s2) /\ Network.interrupts u2 = 2%nat.
Proof. do 4 eexists. split; [vm_compute; reflexivity|]. split; vm_compute; reflexivity. Qed.

(** ** Properties *)

(** C17: The post offices carry mail in order and unharmed.  On every machine that is up, whatever the machines do
    and in whatever order: each box holds, after what was taken out of it, exactly the mails for it that the worker
    has put in, in order; the worker has put in all that was transmitted to the machine, in order, but for what is
    in its hand, in the device and in the socket; every one of those is the mail that was sent, headers and payload;
    and a step fails only on a call that the interface forbids or on a mail for a box that does not exist. *)
Theorem Post_fifo w d o :
  rtc step initial w -> offices w !! d = Some o ->
  (exists ms q, transmitted w d = delivered w d ++ ms /\ socks w !! d = Some q /\ transit o q ms) /\
  (forall b, 0 <= b < numBoxes o -> exists box, boxes o !! Z.to_nat b = Some box /\
     filter (for_box b) (delivered w d) = received w d b ++ box) /\
  Forall (mail_ok d) (transmitted w d) /\
  (forall e r, react d e w = Some r -> (exists w', r = Ok w') <-> ~ improper d e w).
Proof.
  intros Hr Ho. pose proof (mail_reachable_inv w Hr) as Hinv. destruct (i_up _ Hinv d o Ho) as (q & Hq & Hok).
  split; [|split; [|split]].
  - destruct (o_flow _ _ _ _ _ _ Hok) as (ms & Hms & Ht). by exists ms, q.
  - intros b Hb. pose proof (o_boxes _ _ _ _ _ _ Hok). destruct (lookup_lt_is_Some_2 (boxes o) (Z.to_nat b)) as [box Hbox]; [lia|].
    exists box. split; [done|]. apply (o_fifo _ _ _ _ _ _ Hok); [lia|done].
  - apply Hok.
  - intros e r He. split.
    + intros [w' ->] Hi. by destruct (react_improper d e w _ Hinv He Hi).
    + intros Hi. destruct (mail_react_ok d e w r Hinv He) as [(w' & -> & _)|]; [by eexists|done].
Qed.

(** C23: Mail arrives and senders go on.  From any reachable state, if the mails on their way to a machine name boxes
    it has, its own interrupts and its worker alone put all of them into their boxes, in at most four steps for each;
    and a thread inside [Send] returns after the interrupt of its packet, which is pending or has come. *)
Theorem Post_delivers w d o ms :
  rtc step initial w -> offices w !! d = Some o -> transmitted w d = delivered w d ++ ms ->
  Forall (fun m => to (mailHdr m) < numBoxes o) ms ->
  (exists k w', (k <= 4 * size ms)%nat /\ nsteps (receives d) k w w' /\ delivered w' d = transmitted w d) /\
  (sendLock o = true ->
     (exists w', react d SendReturns w = Some (Ok w')) \/
     (exists w' w'', react d SendInt w = Some (Ok w') /\ react d SendReturns w' = Some (Ok w''))).
Proof.
  intros Hr Ho Hms Hall. pose proof (mail_reachable_inv w Hr) as Hinv. split.
  - destruct (deliver_all d ms w o Hinv Ho Hms Hall) as (k & w' & Hk & Hs & _ & Hd). by exists k, w'.
  - intros Hl. destruct (i_up _ Hinv d o Ho) as (q & Hq & Hok). destruct (o_send _ _ _ _ _ _ Hok) as (_ & Hp & Hc). rewrite Hl in Hc.
    destruct (decide (0 < messageSent o)) as [Hm|Hm].
    + left. eexists. unfold react. by rewrite Ho, Hl, bool_decide_eq_true_2.
    + right. eexists _, _. split; unfold react.
      * rewrite Ho, bool_decide_eq_false_2 by lia. done.
      * cbn. rewrite lookup_insert_eq. cbn. rewrite Hl, bool_decide_eq_true_2 by lia. done.
Qed.

(** [Send] transmits the bytes it is given, with the sender's own address whatever the caller put there, at the
    end of the queue of the machine addressed; or nothing, when the device loses the packet or no such machine is up.
    Either way it succeeds.  With reliability 1 no packet is lost, with reliability 0 every one is. *)
Theorem Post_Send_transmits d ph mh bs random junk1 junk2 w o r :
  rtc step initial w -> offices w !! d = Some o -> proper mh bs ->
  react d (CallSend ph mh bs random junk1 junk2) w = Some r ->
  (exists w', r = Ok w' /\ delivered w' = delivered w /\ received w' = received w /\
     (transmitted w' = transmitted w /\ (Network.lost random (Network.chanceToWork (output o)) = true \/ offices w !! Network.to ph = None) \/
      transmitted w' = <[Network.to ph := transmitted w (Network.to ph) ++ [mail_of d ph mh bs]]> (transmitted w) /\
        Network.lost random (Network.chanceToWork (output o)) = false)) /\
  Network.lost random (Network.double 1) = false /\ Network.lost random (Network.double 0) = true.
Proof.
  intros Hr Ho Hp Hre. split; [|split; [apply Network.lost_reliable|apply Network.lost_unreliable]].
  destruct (CallSend_ok d ph mh bs random junk1 junk2 w o r (mail_reachable_inv w Hr) Ho Hre Hp) as (w' & -> & _ & H). by exists w'.
Qed.

Lemma Post_fifo_witness :
  worker example_office = Holding 4 (greeting 4 x61) /\ Network.inbox (input example_office) <> junk 52 /\
  (exists ms q, transmitted example_world 2 = delivered example_world 2 ++ ms /\ socks example_world !! 2 = Some q /\ transit example_office q ms) /\
  (forall b, 0 <= b < numBoxes example_office -> exists box, boxes example_office !! Z.to_nat b = Some box /\
     filter (for_box b) (delivered example_world 2) = received example_world 2 b ++ box) /\
  Forall (mail_ok 2) (transmitted example_world 2) /\
  (forall e r, react 2 e example_world = Some r -> (exists w', r = Ok w') <-> ~ improper 2 e example_world).
Proof.
  split; [vm_compute; reflexivity|]. split; [vm_compute; discriminate|].
  apply (Post_fifo example_world 2 example_office); [apply mail_example_reached|apply example_up].
Defined.

Lemma example_transit : transmitted example_world 2 = delivered example_world 2 ++ [greeting 4 x61; greeting 5 x62].
Proof. vm_compute. reflexivity. Qed.

Lemma Post_delivers_witness :
  (exists k w', (k <= 8)%nat /\ nsteps (receives 2) k example_world w' /\ delivered w' 2 = [greeting 4 x61; greeting 5 x62]) /\
  sendLock example_office = false.
Proof.
  destruct (Post_delivers example_world 2 example_office [greeting 4 x61; greeting 5 x62] mail_example_reached example_up example_transit) as [(k & w' & Hk & Hs & Hd) _].
  - repeat constructor; vm_compute; reflexivity.
  - split; [|vm_compute; reflexivity]. exists k, w'. split; [exact Hk|]. split; [exact Hs|]. rewrite Hd, example_transit. vm_compute. reflexivity.
Defined.

Definition two_machines : world := default initial (run [(1, boot); (2, boot)] initial).
Definition first_office : office := default example_office (offices two_machines !! 1).

Lemma two_machines_reached : rtc step initial two_machines.
Proof. apply (mail_run_rtc [(1, boot); (2, boot)]), run_default. vm_compute. reflexivity. Qed.

Lemma Post_Send_transmits_witness : exists w' r,
  react 1 (greet 4 x61) two_machines = Some r /\ r = Ok w' /\
  (transmitted w' = transmitted two_machines \/
   transmitted w' = <[2 := transmitted two_machines 2 ++ [greeting 4 x61]]> (transmitted two_machines)).
Proof.
  assert (Hs : isSome (react 1 (greet 4 x61) two_machines) = true) by (vm_compute; reflexivity).
  destruct (react 1 (greet 4 x61) two_machines) as [r|] eqn:Hr; [|discriminate Hs].
  destruct (Post_Send_transmits 1 (Network.mkPacketHeader 2 0 0) (mkMailHeader 4 3 2) [x61; x21] 42 (junk 52) (junk 64) two_machines first_office r) as [(w' & -> & _ & _ & H) _].
  - apply two_machines_reached.
  - vm_compute. reflexivity.
  - split; [|split]; vm_compute; intros H; discriminate H.
  - exact Hr.
  - exists w', (Ok w'). split; [reflexivity|]. split; [reflexivity|]. destruct H as [[H _]|[H _]]; [left; exact H|right; exact H].
Defined.
End Post.
