(* ===== verification/StubFS.v ===== *)
(** * filesys/{openfile,filesys}.h under FILESYS_STUB: the files of user programs

    The version of [OpenFile] and [FileSystem] the build selects: calls on the
    host's files, and for every process a table of ten open files whose first
    two entries are the console. *)

From Stdlib Require Import Strings.Byte.
From S2P Require Import Prelude Disk Sysdep.

Module StubFS.
Import Disk Sysdep.

Definition MAX_FILE_OPEN : Z := 10.
Definition INPUT_TYPE : Z := 1.
Definition OUTPUT_TYPE : Z := 0.
Definition READONLY_TYPE : Z := 3.
Definition READWRITE_TYPE : Z := 2.
Definition INDEX_STDIN : Z := 1.
Definition INDEX_STDOUT : Z := 0.

(** ** OpenFile *)

(** The constructor without a type leaves [type] uninitialised. *)
Record OpenFile := mkOpen { file : Z; currentOffset : Z; type : option Z }.

Definition new_OpenFile (f : Z) : OpenFile := mkOpen f 0 None.
Definition new_typed (f t : Z) : OpenFile := mkOpen f 0 (Some t).
Definition delete_OpenFile (f : OpenFile) (h : host) : result host := '(_, h) <- Close (file f) h ;; Ok h.

(** The value a read or write returns. *)
Definition count (r : option (list byte)) : Z := match r with Some bs => Z.of_nat (length bs) | None => -1 end.

Definition ReadAt (f : OpenFile) (numBytes position : Z) (h : host) : result (option (list byte) * host) :=
  h <- Lseek (file f) position SEEK_SET h ;; Ok (ReadPartial (file f) numBytes h).

Definition WriteAt (f : OpenFile) (from : list byte) (numBytes position : Z) (h : host) : result (Z * host) :=
  h <- Lseek (file f) position SEEK_SET h ;; h <- WriteFile (file f) from numBytes h ;; Ok (numBytes, h).

Definition set_offset (o : Z) (f : OpenFile) : OpenFile := mkOpen (file f) (wrap32 o) (type f).

Definition Read (f : OpenFile) (numBytes : Z) (h : host) : result (option (list byte) * OpenFile * host) :=
  '(r, h) <- ReadAt f numBytes (currentOffset f) h ;;
  Ok (r, set_offset (currentOffset f + count r) f, h).

Definition Write (f : OpenFile) (from : list byte) (numBytes : Z) (h : host) : result (Z * OpenFile * host) :=
  '(n, h) <- WriteAt f from numBytes (currentOffset f) h ;;
  Ok (n, set_offset (currentOffset f + n) f, h).

Definition Length (f : OpenFile) (h : host) : result (Z * host) :=
  h <- Lseek (file f) 0 SEEK_END h ;; Ok (Tell (file f) h).

Definition getCurrentOffset (f : OpenFile) (h : host) : Z * OpenFile * host :=
  let '(o, h) := Tell (file f) h in (o, set_offset o f, h).

Definition getType (f : OpenFile) : result Z := match type f with Some t => Ok t | None => Fault Uninitialised end.

Definition Seek (f : OpenFile) (position : Z) (h : host) : result (OpenFile * host) :=
  h <- Lseek (file f) position SEEK_SET h ;; let '(o, h) := Tell (file f) h in Ok (set_offset o f, h).

(** ** FileSystem *)

Record FileSystem := mkFS { fileTable : list (option OpenFile) }.

Definition Create (name : list byte) (h : host) : result (bool * host) :=
  '(fileDescriptor, h) <- OpenForWrite name h ;;
  if bool_decide (fileDescriptor = -1) then Ok (false, h) else '(_, h) <- Close fileDescriptor h ;; Ok (true, h).

Definition Open (name : list byte) (h : host) : result (option OpenFile * host) :=
  '(fileDescriptor, h) <- OpenForReadWrite name false h ;;
  Ok (if bool_decide (fileDescriptor = -1) then None else Some (new_OpenFile fileDescriptor), h).

(** A type that is none of the four leaves the descriptor uninitialised. *)
Definition Open_typed (name : list byte) (type : Z) (h : host) : result (option OpenFile * host) :=
  '(fileDescriptor, h) <-
    (if bool_decide (type = OUTPUT_TYPE) then OpenForWrite name h
     else if bool_decide (type = INPUT_TYPE) || bool_decide (type = READONLY_TYPE) then OpenForRead name false h
     else if bool_decide (type = READWRITE_TYPE) then OpenForReadWrite name false h
     else Fault Uninitialised) ;;
  Ok (if bool_decide (fileDescriptor = -1) then None else Some (new_typed fileDescriptor type), h).

Fixpoint FindFreeSlot_from (ks : list Z) (t : list (option OpenFile)) : result Z :=
  match ks with
  | [] => Ok (-1)
  | i :: ks => f <- lget t i ;; if isSome f then FindFreeSlot_from ks t else Ok i
  end.
Definition FindFreeSlot (fs : FileSystem) : result Z := FindFreeSlot_from (seqZ 2 (MAX_FILE_OPEN - 2)) (fileTable fs).

Definition Remove (name : list byte) (h : host) : bool * host :=
  let '(r, h) := Unlink name h in (negb r, h).

Definition name_stdin : list byte := [x73; x74; x64; x69; x6e].
Definition name_stdout : list byte := [x73; x74; x64; x6f; x75; x74].

(** [FileSystem::FileSystem()] *)
Definition new_FileSystem (h : host) : result (FileSystem * host) :=
  let t := replicate (Z.to_nat MAX_FILE_OPEN) None in
  '(_, h) <- Create name_stdin h ;;
  '(_, h) <- Create name_stdout h ;;
  '(f, h) <- Open_typed name_stdin INPUT_TYPE h ;;
  t <- lset t INDEX_STDIN f ;;
  '(f, h) <- Open_typed name_stdout OUTPUT_TYPE h ;;
  t <- lset t INDEX_STDOUT f ;;
  Ok (mkFS t, h).

(** [FileSystem::~FileSystem()] *)
Fixpoint close_all (t : list (option OpenFile)) (h : host) : result host :=
  match t with
  | [] => Ok h
  | None :: t => close_all t h
  | Some f :: t => h <- delete_OpenFile f h ;; close_all t h
  end.
Definition delete_FileSystem (fs : FileSystem) (h : host) : result host := close_all (fileTable fs) h.

(** ** The invariant of a file table *)

Definition fd_of (t : list (option OpenFile)) : list Z := omap (fmap (M:=option) file) t.

Record files_ok (fs : FileSystem) (h : host) : Prop := {
  fo_len : Z.of_nat (length (fileTable fs)) = MAX_FILE_OPEN;
  fo_open : Forall (fun fd => is_Some (fds h !! fd)) (fd_of (fileTable fs));
  fo_distinct : NoDup (fd_of (fileTable fs));
  fo_typed : Forall (fun o => match o with Some f => isSome (type f) = true | None => True end) (fileTable fs)
}.

(** ** Lemmas *)

Lemma insert_fds_twice fd d1 d2 h : set_fds (<[fd := d2]> (fds (set_fds (<[fd := d1]> (fds h)) h))) (set_fds (<[fd := d1]> (fds h)) h) = set_fds (<[fd := d2]> (fds h)) h.
Proof. unfold set_fds. cbn [fds names inodes admits fd_limit]. by rewrite insert_insert_eq. Qed.

Lemma Lseek_ok fd pos d h : fds h !! fd = Some d -> 0 <= pos < 2 ^ 31 ->
  Lseek fd pos SEEK_SET h = Ok (set_fds (<[fd := mkFd (inode d) pos (readable d) (writable d)]> (fds h)) h).
Proof.
  intros Hd Hp. unfold Lseek, lseek. rewrite Hd, Z.add_0_r. rewrite bool_decide_eq_true_2 by lia.
  rewrite wrap32_small by (unfold int_range; lia). by rewrite bool_decide_eq_true_2 by lia.
Qed.

Lemma stub_ReadAt_ok f n pos h d : fds h !! file f = Some d -> readable d = true -> 0 <= n -> 0 <= pos < 2 ^ 31 ->
  let bs := take (Z.to_nat n) (drop (Z.to_nat pos) (file_of h d)) in
  ReadAt f n pos h = Ok (Some bs, set_fds (<[file f := mkFd (inode d) (pos + Z.of_nat (length bs)) true (writable d)]> (fds h)) h).
Proof.
  intros Hd Hr Hn Hp bs. unfold ReadAt. rewrite (Lseek_ok _ _ d) by done. cbn [bind]. rewrite Hr. unfold ReadPartial, read.
  cbn [fds set_fds]. rewrite lookup_insert_eq. cbn [readable offset inode writable]. rewrite bool_decide_eq_true_2 by done.
  cbn [andb]. f_equal. f_equal. apply (insert_fds_twice (file f) _ _ h).
Qed.

(** The host while one more file is open. *)
Definition opened (fd i o : Z) (w : bool) (h : host) : host := set_fds (<[fd := mkFd i o true w]> (fds h)) h.

Lemma stub_Open_ok nm h i : names h !! nm = Some i -> admits h nm = true -> unused (fds h) < fd_limit h ->
  Open nm h = Ok (Some (new_OpenFile (unused (fds h))), opened (unused (fds h)) i 0 true h).
Proof.
  intros Hi Ha Hl. unfold Open, OpenForReadWrite, open_existing. rewrite Hi, Ha. rewrite (bool_decide_eq_true_2 (_ < _)) by done.
  cbn [andb negb orb assert bind]. destruct (unused_ok (fds h)) as [H0 _]. by rewrite bool_decide_eq_false_2 by lia.
Qed.

Lemma ReadAt_opened i o w h f n pos bs : inodes h !! i = Some bs -> 0 <= n -> 0 <= pos < 2 ^ 31 ->
  exists o', ReadAt f n pos (opened (file f) i o w h) = Ok (Some (take (Z.to_nat n) (drop (Z.to_nat pos) bs)), opened (file f) i o' w h).
Proof.
  intros Hi Hn Hp. pose proof (stub_ReadAt_ok f n pos (opened (file f) i o w h) (mkFd i o true w)) as H.
  rewrite H by (done || apply lookup_insert_eq). unfold file_of. cbn [inode inodes opened set_fds]. rewrite Hi. cbn [default id].
  eexists. f_equal. f_equal. unfold opened. cbn [inode writable readable]. apply insert_fds_twice.
Qed.

Lemma delete_opened fd i o w h f : file f = fd -> fds h !! fd = None -> delete_OpenFile f (opened fd i o w h) = Ok h.
Proof.
  intros Hf Hn. unfold delete_OpenFile, Close, close. rewrite Hf. unfold opened at 1. cbn [fds set_fds]. rewrite lookup_insert_eq.
  cbn [assert bool_decide bind]. f_equal. unfold opened. cbn [fds set_fds]. rewrite delete_insert_id by done. by destruct h.
Qed.

End StubFS.
