(* ===== verification/Console.v ===== *)
(** * machine/console.{h,cc}, userprog/synchconsole.{h,cc}: the terminal

    The keyboard and the display with their interrupts, and the routines that
    wait for them.  A wait hands the processor to the interrupt that is due, as
    [Thread::Sleep] does through the idle loop (SynchDisk.v follows that path in
    full); it does not return when no interrupt can come, or when the keyboard
    stays silent. *)

From Stdlib Require Import Strings.Byte.
From S2P Require Import Prelude.

Module Console.

(** As a [char]. *)
Definition EOF : Z := -1.

(** ** The keyboard *)

(** [typed]: what the host still has to deliver; [ends]: after it comes the end
    of the file (a regular file), rather than silence (a terminal).
    [scheduled]: a [ConsoleReadInt] is pending. *)
Record ConsoleInput := mkIn {
  typed : list byte;
  ends : bool;
  incoming : Z;
  scheduled : bool;
  in_lock : Z;
  in_waitFor : Z;
  RLineBlock : Z
}.

Definition set_in_lock v c := mkIn (typed c) (ends c) (incoming c) (scheduled c) v (in_waitFor c) (RLineBlock c).
Definition set_in_waitFor v c := mkIn (typed c) (ends c) (incoming c) (scheduled c) (in_lock c) v (RLineBlock c).
Definition set_RLineBlock v c := mkIn (typed c) (ends c) (incoming c) (scheduled c) (in_lock c) (in_waitFor c) v.

(** [ConsoleInput::ConsoleInput], [SynchConsoleInput::SynchConsoleInput] *)
Definition new_input (keys : list byte) (e : bool) : ConsoleInput := mkIn keys e EOF true 1 0 1.

Definition SynchInput_CallBack (c : ConsoleInput) : ConsoleInput := set_in_waitFor (in_waitFor c + 1) c.

(** [ConsoleInput::CallBack], the pending interrupt having been taken off the
    queue. *)
Definition Input_CallBack (c : ConsoleInput) : result ConsoleInput :=
  assert (bool_decide (incoming c = EOF)) ;;
  match typed c with
  | b :: keys => Ok (SynchInput_CallBack (mkIn keys (ends c) (charZ b) false (in_lock c) (in_waitFor c) (RLineBlock c)))
  | [] =>
      if ends c then Ok (SynchInput_CallBack (mkIn [] (ends c) (incoming c) false (in_lock c) (in_waitFor c) (RLineBlock c)))
      else Ok c
  end.

(** [ConsoleInput::GetChar] *)
Definition Input_GetChar (c : ConsoleInput) : Z * ConsoleInput :=
  let ch := incoming c in
  (ch, mkIn (typed c) (ends c) EOF (scheduled c || negb (bool_decide (incoming c = EOF))) (in_lock c) (in_waitFor c) (RLineBlock c)).

(** [waitFor->P()]; [None]: it does not return. *)
Definition Input_P (c : ConsoleInput) : result (option ConsoleInput) :=
  if bool_decide (0 < in_waitFor c) then Ok (Some (set_in_waitFor (in_waitFor c - 1) c))
  else if scheduled c then
    c <- Input_CallBack c ;;
    Ok (if bool_decide (0 < in_waitFor c) then Some (set_in_waitFor (in_waitFor c - 1) c) else None)
  else Ok None.

(** Sequencing after a call that may not return. *)
Definition andthen {A B} (m : result (option A)) (f : A -> result (option B)) : result (option B) :=
  r <- m ;; match r with Some a => f a | None => Ok None end.

(** [SynchConsoleInput::GetChar] *)
Definition GetChar (c : ConsoleInput) : result (option (Z * ConsoleInput)) :=
  if bool_decide (in_lock c = 0) then Ok None
  else
    andthen (Input_P (set_in_lock 0 c)) (fun c =>
    let '(ch, c) := Input_GetChar c in
    Ok (Some (ch, set_in_lock 1 c))).

(** One turn of the [do] loop of [Read], at most [n] times around. *)
Fixpoint Read_char (n : nat) (c : ConsoleInput) : result (option (Z * ConsoleInput)) :=
  match n with
  | O => Fault OutOfFuel
  | S n =>
      andthen (Input_P c) (fun c =>
      let '(ch, c) := Input_GetChar c in
      if bool_decide (ch = EOF) then Read_char n c else Ok (Some (ch, c)))
  end.

(** The [while] loop: [k] bytes may still be stored.  [last] is [ch] as the
    loop leaves it. *)
Fixpoint Read_loop (n k : nat) (got : list byte) (last : option Z) (c : ConsoleInput) : result (option (list byte * option Z * ConsoleInput)) :=
  match k with
  | O => Ok (Some (got, last, c))
  | S k =>
      andthen (Read_char n c) (fun '(ch, c) =>
      if bool_decide (ch = 10) || bool_decide (ch = 1) then Ok (Some (got, Some ch, c))
      else Read_loop n k (got ++ [Zbyte ch]) (Some ch) c)
  end.

(** [SynchConsoleInput::Read]: its value and the buffer; [n] bounds the number
    of times it meets the end of the input. *)
Definition Read (n : nat) (numBytes : Z) (c : ConsoleInput) : result (option (Z * list byte * ConsoleInput)) :=
  if bool_decide (RLineBlock c = 0) then Ok None
  else
    andthen (Read_loop n (Z.to_nat numBytes) [] None (set_RLineBlock (RLineBlock c - 1) c)) (fun '(got, last, c) =>
    let c := set_RLineBlock (RLineBlock c + 1) c in
    let into := got ++ replicate (Z.to_nat numBytes - length got) x00 in
    match last with
    | None => Fault Uninitialised
    | Some ch => Ok (Some (if bool_decide (ch = 1) then -1 else Z.of_nat (length got), into, c))
    end).

(** ** The display *)

Record ConsoleOutput := mkOut {
  written : list byte;
  putBusy : bool;
  out_lock : Z;
  out_waitFor : Z;
  WLineBlock : Z
}.

Definition set_out_lock v c := mkOut (written c) (putBusy c) v (out_waitFor c) (WLineBlock c).
Definition set_out_waitFor v c := mkOut (written c) (putBusy c) (out_lock c) v (WLineBlock c).
Definition set_WLineBlock v c := mkOut (written c) (putBusy c) (out_lock c) (out_waitFor c) v.

Definition new_output : ConsoleOutput := mkOut [] false 1 0 1.

Definition SynchOutput_CallBack (c : ConsoleOutput) : ConsoleOutput := set_out_waitFor (out_waitFor c + 1) c.

(** [ConsoleOutput::CallBack] *)
Definition Output_CallBack (c : ConsoleOutput) : ConsoleOutput :=
  SynchOutput_CallBack (mkOut (written c) false (out_lock c) (out_waitFor c) (WLineBlock c)).

(** [ConsoleOutput::PutChar]: its interrupt is pending exactly while [putBusy]. *)
Definition Output_PutChar (ch : byte) (c : ConsoleOutput) : result ConsoleOutput :=
  assert (negb (putBusy c)) ;; Ok (mkOut (written c ++ [ch]) true (out_lock c) (out_waitFor c) (WLineBlock c)).

Definition Output_P (c : ConsoleOutput) : option ConsoleOutput :=
  if bool_decide (0 < out_waitFor c) then Some (set_out_waitFor (out_waitFor c - 1) c)
  else if putBusy c then let c := Output_CallBack c in Some (set_out_waitFor (out_waitFor c - 1) c)
  else None.

(** [SynchConsoleOutput::PutChar] *)
Definition PutChar (ch : byte) (c : ConsoleOutput) : result (option ConsoleOutput) :=
  if bool_decide (out_lock c = 0) then Ok None
  else
    c <- Output_PutChar ch (set_out_lock 0 c) ;;
    Ok (set_out_lock 1 <$> Output_P c).

Fixpoint Write_loop (bs : list byte) (c : ConsoleOutput) : result (option ConsoleOutput) :=
  match bs with
  | [] => Ok (Some c)
  | ch :: bs => c <- Output_PutChar ch c ;; andthen (Ok (Output_P c)) (Write_loop bs)
  end.

(** [SynchConsoleOutput::Write] *)
Definition Write (from : list byte) (numBytes : Z) (c : ConsoleOutput) : result (option (Z * ConsoleOutput)) :=
  if bool_decide (WLineBlock c = 0) then Ok None
  else if bool_decide (numBytes <= Z.of_nat (length from)) then
    andthen (Write_loop (take (Z.to_nat numBytes) from) (set_WLineBlock (WLineBlock c - 1) c)) (fun c =>
    Ok (Some (numBytes, set_WLineBlock (WLineBlock c + 1) c)))
  else Fault OutOfBounds.

(** ** Between two calls *)

(** The keyboard, with [keys] to come; the display, with [out] shown. *)
Definition keyboard (keys : list byte) (e : bool) : ConsoleInput := mkIn keys e EOF true 1 0 1.
Definition display (out : list byte) : ConsoleOutput := mkOut out false 1 0 1.

(** The byte that is [EOF] as a [char]. *)
Definition plain (b : byte) : bool := negb (bool_decide (b = xff)).

Lemma plain_char b : plain b = true -> charZ b <> EOF.
Proof.
  unfold plain. rewrite negb_true_iff, bool_decide_eq_false. intros Hb Hc. apply Hb. apply byteZ_inj.
  pose proof (charZ_mod b) as Hm. rewrite Hc in Hm. rewrite <- Hm. by vm_compute.
Qed.

Lemma Zbyte_charZ b : Zbyte (charZ b) = b.
Proof. apply byteZ_inj. by rewrite byteZ_Zbyte, charZ_mod. Qed.

Lemma Input_P_key b keys e r l : Input_P (mkIn (b :: keys) e EOF true l 0 r) = Ok (Some (mkIn keys e (charZ b) false l 0 r)).
Proof. done. Qed.

Lemma Input_GetChar_key b keys e l r : plain b = true ->
  Input_GetChar (mkIn keys e (charZ b) false l 0 r) = (charZ b, mkIn keys e EOF true l 0 r).
Proof. intros Hb%plain_char. unfold Input_GetChar. cbn [incoming typed ends scheduled in_lock in_waitFor RLineBlock]. by rewrite bool_decide_eq_false_2. Qed.

Lemma GetChar_ok b keys e : plain b = true -> GetChar (keyboard (b :: keys) e) = Ok (Some (charZ b, keyboard keys e)).
Proof.
  intros Hb. unfold GetChar, keyboard. cbn [in_lock]. rewrite bool_decide_eq_false_2 by done.
  unfold set_in_lock at 1. cbn [typed ends incoming scheduled in_lock in_waitFor RLineBlock]. rewrite Input_P_key. cbn [andthen bind].
  by rewrite Input_GetChar_key.
Qed.

(** The byte 0xFF reads as the end of the input, and is the last byte ever read. *)
Lemma GetChar_eof_byte keys e :
  exists c, GetChar (keyboard (xff :: keys) e) = Ok (Some (EOF, c)) /\ GetChar c = Ok None.
Proof. eexists. split; reflexivity. Qed.

Lemma Read_char_ok n b keys e r : plain b = true ->
  Read_char (S n) (mkIn (b :: keys) e EOF true 1 0 r) = Ok (Some (charZ b, mkIn keys e EOF true 1 0 r)).
Proof.
  intros Hb. cbn [Read_char]. rewrite Input_P_key. cbn [andthen bind]. rewrite Input_GetChar_key by done.
  by rewrite bool_decide_eq_false_2 by by apply plain_char.
Qed.

(** A byte of a line: neither the end of it nor Control-A. *)
Definition line_char (b : byte) : bool := plain b && negb (bool_decide (b = x0a)) && negb (bool_decide (b = x01)).

Lemma line_char_ok b : line_char b = true -> plain b = true /\ charZ b <> 10 /\ charZ b <> 1.
Proof.
  unfold line_char. rewrite !andb_true_iff, !negb_true_iff, !bool_decide_eq_false. intros [[Hp H1] H2].
  split; [done|]. split; intros Hc; [apply H1|apply H2]; rewrite <- (Zbyte_charZ b), Hc; reflexivity.
Qed.

Lemma Read_loop_line n line : forall k got last keys e r,
  forallb line_char line = true -> (length line <= k)%nat ->
  Read_loop (S n) k got last (mkIn (line ++ keys) e EOF true 1 0 r) =
    Read_loop (S n) (k - length line) (got ++ line) (match rev line with [] => last | b :: _ => Some (charZ b) end) (mkIn keys e EOF true 1 0 r).
Proof.
  induction line as [|b line IH]; intros k got last keys e r Hl Hk; [by rewrite app_nil_r, Nat.sub_0_r|].
  cbn [forallb] in Hl. apply andb_true_iff in Hl as [Hb Hl]. apply line_char_ok in Hb as (Hp & H1 & H2).
  destruct k as [|k]; [cbn [length] in Hk; lia|]. cbn [Read_loop app]. rewrite Read_char_ok by done. cbn [andthen bind].
  rewrite (bool_decide_eq_false_2 (charZ b = 10)), (bool_decide_eq_false_2 (charZ b = 1)) by done. cbn [orb].
  rewrite IH by (cbn [length] in Hk; first [done|lia]). rewrite Zbyte_charZ, <- app_assoc. cbn [app length rev Nat.sub].
  f_equal. destruct (rev line); done.
Qed.

Lemma Write_loop_ok bs : forall out w, Write_loop bs (mkOut out false 1 0 w) = Ok (Some (mkOut (out ++ bs) false 1 0 w)).
Proof.
  induction bs as [|b bs IH]; intros out w; [by rewrite app_nil_r|].
  change (Write_loop bs (mkOut (out ++ [b]) false 1 0 w) = Ok (Some (mkOut (out ++ b :: bs) false 1 0 w))).
  rewrite IH. by rewrite <- app_assoc.
Qed.

Lemma Write_ok bs n out : 0 <= n <= Z.of_nat (length bs) ->
  Write bs n (display out) = Ok (Some (n, display (out ++ take (Z.to_nat n) bs))).
Proof.
  intros Hn. unfold Write, display. cbn [WLineBlock]. rewrite bool_decide_eq_false_2, bool_decide_eq_true_2 by lia.
  change (set_WLineBlock _ _) with (mkOut out false 1 0 0) at 1. by rewrite Write_loop_ok.
Qed.

Lemma PutChar_ok b out : PutChar b (display out) = Ok (Some (display (out ++ [b]))).
Proof. done. Qed.

(** ** Properties *)

(** the terminal passes bytes through in order.  Reading a line that fits
    returns its length and its bytes, padded with zeros, and takes the newline;
    a longer line is cut at the size asked for and the rest stays for the next
    read; whatever is written appears on the display, and the device is never
    found busy. *)
Theorem Console_line n numBytes line keys e out bs :
  forallb line_char line = true -> 0 < numBytes ->
  (Z.of_nat (length line) < numBytes ->
    Read (S n) numBytes (keyboard (line ++ x0a :: keys) e) =
      Ok (Some (Z.of_nat (length line), line ++ replicate (Z.to_nat numBytes - length line) x00, keyboard keys e))) /\
  (numBytes <= Z.of_nat (length line) ->
    Read (S n) numBytes (keyboard (line ++ keys) e) =
      Ok (Some (numBytes, take (Z.to_nat numBytes) line, keyboard (drop (Z.to_nat numBytes) line ++ keys) e))) /\
  Write bs (Z.of_nat (length bs)) (display out) = Ok (Some (Z.of_nat (length bs), display (out ++ bs))).
Proof.
  intros Hl Hn. split; [|split].
  - intros Hlt. unfold Read, keyboard. cbn [RLineBlock]. rewrite bool_decide_eq_false_2 by done.
    change (set_RLineBlock _ _) with (mkIn (line ++ x0a :: keys) e EOF true 1 0 0) at 1.
    rewrite Read_loop_line by (done || lia). destruct (Z.to_nat numBytes - length line)%nat as [|k] eqn:Hk; [lia|].
    cbn [Read_loop]. rewrite Read_char_ok by done. cbn [andthen bind].
    change (charZ x0a) with 10. rewrite !(bool_decide_eq_true_2 (10 = 10)) by done. cbn [orb andthen bind].
    rewrite (bool_decide_eq_false_2 (10 = 1)) by done. cbn [app]. by rewrite Hk.
  - intros Hge. unfold Read, keyboard. cbn [RLineBlock]. rewrite bool_decide_eq_false_2 by done.
    change (set_RLineBlock _ _) with (mkIn (line ++ keys) e EOF true 1 0 0) at 1.
    set (a := take (Z.to_nat numBytes) line). set (z := drop (Z.to_nat numBytes) line).
    assert (Hlen : length a = Z.to_nat numBytes) by (unfold a; rewrite length_take; lia).
    assert (Hs : line = a ++ z) by (unfold a, z; by rewrite take_drop). rewrite Hs, <- app_assoc.
    assert (Ha : forallb line_char a = true).
    { rewrite Hs, forallb_app in Hl. by apply andb_true_iff in Hl as [? _]. }
    rewrite Read_loop_line by (done || lia). rewrite Hlen, Nat.sub_diag. cbn [Read_loop andthen bind app].
    destruct (rev a) as [|b r] eqn:Hr.
    { apply (f_equal length) in Hr. rewrite length_rev in Hr. simpl in Hr. lia. }
    assert (Hb : line_char b = true).
    { rewrite forallb_forall in Ha. apply Ha. apply in_rev. rewrite Hr. by left. }
    apply line_char_ok in Hb as (_ & _ & H1). cbn [set_RLineBlock typed ends incoming scheduled in_lock in_waitFor RLineBlock].
    rewrite bool_decide_eq_false_2 by done. rewrite Hlen, Nat.sub_diag, Z2Nat.id by lia. cbn [replicate]. by rewrite app_nil_r.
  - rewrite Write_ok by lia. by rewrite take_ge by lia.
Qed.

Lemma Console_line_witness :
  Read 1 5 (keyboard [x68; x69; x0a; x21] true) = Ok (Some (2, [x68; x69; x00; x00; x00], keyboard [x21] true)) /\
  Write [x68; x69] 2 (display []) = Ok (Some (2, display [x68; x69])).
Proof.
  destruct (Console_line 0 5 [x68; x69] [x21] true [] [x68; x69]) as (H1 & _ & H2); [reflexivity|lia|].
  split; [apply H1; simpl; lia|exact H2].
Defined.

End Console.
