(* ===== verification/AddrSpace.v ===== *)
(** * userprog/addrspace.{h,cc}, userprog/noff.h: address spaces

    The constructor reads a NOFF header, takes page frames from the bitmap of
    physical pages under a lock and loads the segments into main memory; the
    destructor gives the frames back. *)

From Stdlib Require Import Strings.Byte.
From S2P Require Import Prelude LibBitmap Machine Disk Sysdep StubFS.

Module AddrSpace.
Import Machine Sysdep.

Definition UserStackSize : Z := 1024.
Definition NOFFMAGIC : Z := 0xbadfad.

Record Segment := mkSeg { virtualAddr : Z; inFileAddr : Z; size : Z }.
Record NoffHeader := mkNoff {
  noffMagic : Z;
  code : Segment;
  initData : Segment;
  readonlyData : Segment;
  uninitData : Segment
}.

(** The structure as its 13 [int]s in memory. *)
Definition NoffSize : Z := 52.
Definition noff_of (bs : list byte) : NoffHeader :=
  let w i := wrap32 (nth i (bytes_words 13 bs) 0) in
  mkNoff (w 0%nat) (mkSeg (w 1%nat) (w 2%nat) (w 3%nat)) (mkSeg (w 4%nat) (w 5%nat) (w 6%nat))
    (mkSeg (w 7%nat) (w 8%nat) (w 9%nat)) (mkSeg (w 10%nat) (w 11%nat) (w 12%nat)).

Definition swap_segment (s : Segment) : Segment :=
  mkSeg (WordToHost (virtualAddr s)) (WordToHost (inFileAddr s)) (WordToHost (size s)).

Definition SwapHeader (n : NoffHeader) : NoffHeader :=
  mkNoff (WordToHost (noffMagic n)) (swap_segment (code n)) (swap_segment (initData n)) (swap_segment (readonlyData n))
    (swap_segment (uninitData n)).

(** The header of an open executable; [stack]: the bytes the variable [noffH]
    holds before the read. *)
Definition read_header (stack : list byte) (executable : StubFS.OpenFile) (h : host) : result (NoffHeader * host) :=
  '(r, h) <- StubFS.ReadAt executable NoffSize 0 h ;;
  let bs := default [] r in
  let n := noff_of (bs ++ drop (length bs) stack) in
  let n := if negb (bool_decide (noffMagic n = NOFFMAGIC)) && bool_decide (WordToHost (noffMagic n) = NOFFMAGIC) then SwapHeader n else n in
  assert (bool_decide (noffMagic n = NOFFMAGIC)) ;;
  Ok (n, h).

Record AddrSpace := mkSpace { pageTable : list TranslationEntry; numPages : Z }.

(** What the constructor works on: the host, the global bitmap of frames, the
    value of [addrLock], and main memory. *)
Record world := mkW { the_host : host; gPhysPageBitmap : Bitmap.t; addrLock : Z; memory : gmap Z byte }.

Definition set_host h w := mkW h (gPhysPageBitmap w) (addrLock w) (memory w).
Definition set_bitmap b w := mkW (the_host w) b (addrLock w) (memory w).
Definition set_lock l w := mkW (the_host w) (gPhysPageBitmap w) l (memory w).
Definition set_memory m w := mkW (the_host w) (gPhysPageBitmap w) (addrLock w) m.

(** A read of the host into main memory. *)
Definition copy_in (a : Z) (bs : list byte) (mem : gmap Z byte) : result (gmap Z byte) :=
  match bs with
  | [] => Ok mem
  | _ => if bool_decide (0 <= a /\ a + Z.of_nat (length bs) <= MemorySize) then Ok (store_bytes a bs mem) else Fault OutOfBounds
  end.

Definition load (executable : StubFS.OpenFile) (a n position : Z) (w : world) : result world :=
  '(r, h) <- StubFS.ReadAt executable n position (the_host w) ;;
  mem <- copy_in a (default [] r) (memory w) ;;
  Ok (set_memory mem (set_host h w)).

(** The loop that fills the page table. *)
Fixpoint take_frames (ks : list Z) (bm : Bitmap.t) : result (list TranslationEntry * Bitmap.t) :=
  match ks with
  | [] => Ok ([], bm)
  | i :: ks =>
      '(f, bm) <- Bitmap.FindAndSet bm ;;
      '(pt, bm) <- take_frames ks bm ;;
      Ok (TE i f true false false false :: pt, bm)
  end.

(** The loop that loads a segment, page by page. *)
Fixpoint load_pages (ks : list Z) (executable : StubFS.OpenFile) (seg : Segment) (pt : list TranslationEntry) (w : world) : result world :=
  match ks with
  | [] => Ok w
  | i :: ks =>
      e <- lget pt i ;;
      w <- load executable (virtualAddr seg + physicalPage e * PageSize) PageSize (wrap32 (inFileAddr seg + i * PageSize)) w ;;
      load_pages ks executable seg pt w
  end.

Definition load_segment (executable : StubFS.OpenFile) (seg : Segment) (sp : AddrSpace) (w : world) : result world :=
  if bool_decide (0 < size seg) then load_pages (seqZ 0 (numPages sp)) executable seg (pageTable sp) w else Ok w.

Section constructor.
Context (stack : list byte).

(** [AddrSpace::AddrSpace(filename)].  [None]: [addrLock->P()] does not return
    before another thread leaves.  [Some (None, _)]: the file could not be
    opened, and the fields are left uninitialised. *)
Definition new_AddrSpace (filename : list byte) (w : world) : result (option (option AddrSpace * world)) :=
  '(executable, h) <- StubFS.Open filename (the_host w) ;;
  match executable with
  | None => Ok (Some (None, set_host h w))
  | Some executable =>
      '(noffH, h) <- read_header stack executable h ;;
      let w := set_host h w in
      if bool_decide (addrLock w = 0) then Ok None
      else
        let w := set_lock (addrLock w - 1) w in
        let n := divRoundUp (u32 (size (code noffH) + size (initData noffH) + size (uninitData noffH) + UserStackSize)) PageSize in
        numclear <- Bitmap.NumClear (gPhysPageBitmap w) ;;
        let short := bool_decide (numclear < n) in
        '(n, w) <- (if short then
                      h <- StubFS.delete_OpenFile executable (the_host w) ;; Ok (0, set_lock (addrLock w + 1) (set_host h w))
                    else Ok (n, w)) ;;
        '(pt, bm) <- take_frames (seqZ 0 n) (gPhysPageBitmap w) ;;
        let sp := mkSpace pt n in
        let w := set_bitmap bm w in
        let w := set_lock (addrLock w + 1) w in
        w <- load_segment executable (code noffH) sp w ;;
        w <- load_segment executable (initData noffH) sp w ;;
        if short then Fault DanglingPointer
        else h <- StubFS.delete_OpenFile executable (the_host w) ;; Ok (Some (Some sp, set_host h w))
  end.

(** [AddrSpace::Load]: FALSE when the file cannot be opened. *)
Definition Load (fileName : list byte) (sp : AddrSpace) (w : world) : result (bool * AddrSpace * world) :=
  '(executable, h) <- StubFS.Open fileName (the_host w) ;;
  match executable with
  | None => Ok (false, sp, set_host h w)
  | Some executable =>
      '(noffH, h) <- read_header stack executable h ;;
      let w := set_host h w in
      let n := divRoundUp (u32 (size (code noffH) + size (readonlyData noffH) + size (initData noffH) + size (uninitData noffH) + UserStackSize)) PageSize in
      assert (bool_decide (n <= NumPhysPages)) ;;
      let segment s w := if bool_decide (0 < size s) then load executable (virtualAddr s) (size s) (inFileAddr s) w else Ok w in
      w <- segment (code noffH) w ;;
      w <- segment (initData noffH) w ;;
      w <- segment (readonlyData noffH) w ;;
      h <- StubFS.delete_OpenFile executable (the_host w) ;;
      Ok (true, mkSpace (pageTable sp) n, set_host h w)
  end.
End constructor.

(** [AddrSpace::~AddrSpace] *)
Fixpoint clear_frames (ks : list Z) (pt : list TranslationEntry) (bm : Bitmap.t) : result Bitmap.t :=
  match ks with
  | [] => Ok bm
  | i :: ks => e <- lget pt i ;; bm <- Bitmap.Clear bm (physicalPage e) ;; clear_frames ks pt bm
  end.
Definition delete_AddrSpace (sp : AddrSpace) (bm : Bitmap.t) : result Bitmap.t :=
  clear_frames (seqZ 0 (numPages sp)) (pageTable sp) bm.

Fixpoint zero_registers (ks : list Z) (m : machine) : result machine :=
  match ks with [] => Ok m | i :: ks => m <- WriteRegister i 0 m ;; zero_registers ks m end.

Definition InitRegisters (sp : AddrSpace) (m : machine) : result machine :=
  m <- zero_registers (seqZ 0 NumTotalRegs) m ;;
  m <- WriteRegister PCReg 0 m ;;
  m <- WriteRegister NextPCReg 4 m ;;
  WriteRegister StackReg (wrap32 (numPages sp * PageSize - 16)) m.

Definition SaveState (sp : AddrSpace) (m : machine) : machine := m.

Definition RestoreState (sp : AddrSpace) (m : machine) : machine :=
  mkM (registers m) (mainMemory m) (tlb m) (Some (pageTable sp)) (numPages sp) (singleStep m) (runUntilTime m).

(** [AddrSpace::Execute], up to the call of [Machine::Run]. *)
Definition Execute (sp : AddrSpace) (m : machine) : result machine :=
  m <- InitRegisters sp m ;; Ok (RestoreState sp m).

(** [AddrSpace::Translate]: the exception, or the physical address. *)
Definition Translate (vaddr : Z) (isReadWrite : bool) (sp : AddrSpace) : result (AddrSpace * (ExceptionType + Z)) :=
  let vpn := vaddr / PageSize in
  let offset := vaddr mod PageSize in
  if bool_decide (numPages sp <= vpn) then Ok (sp, inl AddressErrorException)
  else
    pte <- lget (pageTable sp) vpn ;;
    if isReadWrite && readOnly pte then Ok (sp, inl ReadOnlyException)
    else
      let pfn := physicalPage pte in
      if bool_decide (NumPhysPages <= pfn) then Ok (sp, inl BusErrorException)
      else
        let pte' := TE (virtualPage pte) pfn (valid pte) (readOnly pte) true (isReadWrite || dirty pte) in
        let paddr := u32 (pfn * PageSize + offset) in
        assert (bool_decide (paddr < MemorySize)) ;;
        Ok (mkSpace (<[Z.to_nat vpn := pte']> (pageTable sp)) (numPages sp), inr paddr).

(** ** Page tables *)

Definition frames (sp : AddrSpace) : list Z := physicalPage <$> pageTable sp.

Record space_wf (sp : AddrSpace) : Prop := {
  sw_len : Z.of_nat (length (pageTable sp)) = numPages sp;
  sw_valid : Forall (fun e => valid e = true /\ readOnly e = false /\ 0 <= physicalPage e < NumPhysPages) (pageTable sp)
}.

Lemma RestoreState_install sp m : space_wf sp -> tlb m = None -> RestoreState sp m = install (pageTable sp) m.
Proof. intros [Hl _] Ht. unfold RestoreState, install. by rewrite Ht, Hl. Qed.

(** ** The simulated processor agrees *)

Lemma Translate_ok sp m vaddr w : space_wf sp -> tlb m = None -> 0 <= vaddr < 2 ^ 32 ->
  exists sp' r, Translate vaddr w sp = Ok (sp', r) /\
    Machine.Translate vaddr 1 w (RestoreState sp m) = Ok (RestoreState sp' m, r) /\ space_wf sp'.
Proof.
  intros Hw Ht Hv. pose proof Hw as [Hl Hall]. rewrite RestoreState_install by done.
  rewrite (Translate_paged _ (pageTable sp)) by (done || by left).
  unfold Translate, resolve, aligned. rewrite Z.mod_1_r, Z.eqb_refl, u32_small by done. cbn [negb].
  assert (Hvpn : 0 <= vaddr / PageSize) by (apply Z.div_pos; [lia|done]).
  case_bool_decide as Hge.
  { rewrite lookup_ge_None_2 by lia. exists sp, (inl AddressErrorException). split_and!; [done| |done]. by rewrite RestoreState_install. }
  destruct (lget_is_ok (pageTable sp) (vaddr / PageSize)) as (e & -> & He); [lia|]. cbn [bind]. rewrite He.
  destruct (Forall_lookup_1 _ _ _ _ Hall He) as (Hval & Hro & Hf). rewrite Hval, Hro, andb_false_r. cbn [negb andb].
  rewrite (u32_small (physicalPage e)) by (unfold NumPhysPages in Hf; lia).
  rewrite !(bool_decide_eq_false_2 (NumPhysPages <= _)) by lia. pose proof (Z.mod_pos_bound vaddr PageSize ltac:(done)) as Ho.
  assert (Hpa : 0 <= physicalPage e * PageSize + vaddr mod PageSize < MemorySize) by (unfold MemorySize, NumPhysPages, PageSize in *; lia).
  rewrite u32_small by (unfold MemorySize, NumPhysPages, PageSize in *; lia). rewrite bool_decide_eq_true_2 by lia. cbn [assert bind].
  do 2 eexists. split; [done|]. match goal with |- _ /\ space_wf ?x => set (sp' := x) end.
  assert (Hw' : space_wf sp').
  { unfold sp'. split; cbn [pageTable numPages]; [by rewrite length_insert|]. by apply Forall_insert. }
  split; [|done]. rewrite RestoreState_install by done. f_equal. f_equal. unfold install, set_pageTable, touch_page, sp'.
  cbn [registers mainMemory tlb Machine.pageTable pageTableSize singleStep runUntilTime AddrSpace.pageTable].
  rewrite u32_small by done. rewrite (list_alter_insert _ _ _ e He), length_insert. unfold touch. by rewrite Hval, Hro.
Qed.

(** ** Taking and giving back frames *)

Definition fresh_entry (i f : Z) : TranslationEntry := TE i f true false false false.

Lemma take_frames_ok n : forall i bm, Bitmap.wf bm -> (n <= length (Bitmap.free bm))%nat ->
  exists bm', take_frames (seqZ i (Z.of_nat n)) bm = Ok (zip_with fresh_entry (seqZ i (Z.of_nat n)) (take n (Bitmap.free bm)), bm') /\
    Bitmap.wf bm' /\ Bitmap.numBits bm' = Bitmap.numBits bm /\ Bitmap.free bm' = drop n (Bitmap.free bm).
Proof.
  induction n as [|n IH]; intros i bm Hw Hn.
  - rewrite seqZ_nil by done. exists bm. split; [done|]. by rewrite drop_0.
  - rewrite seqZ_cons by lia. cbn [take_frames]. destruct (Bitmap.FindAndSet_ok bm Hw) as ([f bm1] & -> & Hf).
    unfold Bitmap.found in Hf. destruct (Bitmap.free bm) as [|j rest]; [simpl in Hn; lia|]. destruct Hf as (E & Hu & Hr). simpl in E, Hu, Hr. subst j.
    cbn [bind]. replace (Z.pred (Z.of_nat (S n))) with (Z.of_nat n) by lia.
    destruct (IH (Z.succ i) bm1) as (bm' & -> & Hw' & Hn' & Hf'); [by eapply Bitmap.updated_wf|rewrite Hr; simpl in Hn; lia|].
    cbn [bind]. exists bm'. rewrite Hr in Hf' |- *. split; [done|]. split; [done|]. split; [rewrite Hn'; apply Hu|done].
Qed.

Lemma clear_frames_ok pt l : forall i bm, Bitmap.wf bm -> drop i pt = l -> (i <= length pt)%nat ->
  Forall (fun e => 0 <= physicalPage e < Bitmap.numBits bm) l ->
  exists bm', clear_frames (seqZ (Z.of_nat i) (Z.of_nat (length l))) pt bm = Ok bm' /\ Bitmap.wf bm' /\
    Bitmap.numBits bm' = Bitmap.numBits bm /\ forall x, x ∈ Bitmap.free bm' <-> x ∈ physicalPage <$> l \/ x ∈ Bitmap.free bm.
Proof.
  induction l as [|e l IH]; intros i bm Hw Hd Hi Hl.
  - rewrite seqZ_nil by done. exists bm. split_and!; try done. set_solver.
  - apply Forall_cons in Hl as [He Hl]. rewrite seqZ_cons by (cbn [length]; lia). cbn [clear_frames].
    assert (Hlk : pt !! i = Some e) by (pose proof (lookup_drop pt i 0) as Hlk; rewrite Nat.add_0_r in Hlk; rewrite <- Hlk, Hd; done).
    rewrite (proj2 (lget_ok _ _ e)) by (rewrite Nat2Z.id; split; [lia|done]). cbn [bind].
    destruct (Bitmap.Clear_ok bm (physicalPage e) Hw He) as (bm1 & -> & Hu). cbn [bind]. pose proof Hu as (Hw1 & Hn1 & _).
    replace (Z.succ (Z.of_nat i)) with (Z.of_nat (S i)) by lia. replace (Z.pred (Z.of_nat (length (e :: l)))) with (Z.of_nat (length l)) by (cbn [length]; lia).
    destruct (IH (S i) bm1 Hw1) as (bm' & -> & Hw' & Hn' & Hf').
    + rewrite (drop_S _ _ _ Hlk) in Hd. by injection Hd.
    + apply lookup_lt_Some in Hlk. lia.
    + by rewrite Hn1.
    + exists bm'. split; [done|]. split; [done|]. split; [congruence|]. intros x. rewrite Hf', (Bitmap.free_Clear_in bm _ bm1 x Hu He), fmap_cons, elem_of_cons. tauto.
Qed.

Lemma delete_AddrSpace_ok sp bm : space_wf sp -> Bitmap.wf bm -> Bitmap.numBits bm = NumPhysPages ->
  exists bm', delete_AddrSpace sp bm = Ok bm' /\ Bitmap.wf bm' /\ Bitmap.numBits bm' = NumPhysPages /\
    forall x, x ∈ Bitmap.free bm' <-> x ∈ frames sp \/ x ∈ Bitmap.free bm.
Proof.
  intros [Hl Hall] Hw Hn. unfold delete_AddrSpace. rewrite <- Hl. rewrite <- Hn. apply (clear_frames_ok (pageTable sp) _ 0); [done|done|lia|].
  eapply Forall_impl; [exact Hall|]. intros e (_ & _ & He). by rewrite Hn.
Qed.

Lemma load_bitmap ex a n p w w' : load ex a n p w = Ok w' -> gPhysPageBitmap w' = gPhysPageBitmap w.
Proof. unfold load. intros H. apply bind_ok in H as ([r h] & _ & H). apply bind_ok in H as (mem & _ & H). by injection H as <-. Qed.

Lemma load_segment_bitmap ex seg sp w w' : load_segment ex seg sp w = Ok w' -> gPhysPageBitmap w' = gPhysPageBitmap w.
Proof.
  unfold load_segment. case_bool_decide; [|by intros [= <-]]. generalize (seqZ 0 (numPages sp)) as ks. intros ks. revert w.
  induction ks as [|i ks IH]; intros w; cbn [load_pages]; [by intros [= <-]|]. intros Hr. apply bind_ok in Hr as (e & _ & Hr).
  apply bind_ok in Hr as (w1 & H1 & Hr). rewrite (IH _ Hr). by eapply load_bitmap.
Qed.

Lemma zip_fresh_frames ks fs : length fs = length ks -> physicalPage <$> zip_with fresh_entry ks fs = fs.
Proof. revert fs. induction ks as [|k ks IH]; intros [|f fs] Hl; try done. cbn. rewrite IH by (simpl in Hl; lia). done. Qed.

(** A successful construction took the first free frames. *)
Lemma new_AddrSpace_takes stack nm w sp w' :
  Bitmap.wf (gPhysPageBitmap w) -> Bitmap.numBits (gPhysPageBitmap w) = NumPhysPages ->
  new_AddrSpace stack nm w = Ok (Some (Some sp, w')) ->
  space_wf sp /\ Bitmap.wf (gPhysPageBitmap w') /\ Bitmap.numBits (gPhysPageBitmap w') = NumPhysPages /\
  Bitmap.free (gPhysPageBitmap w) = frames sp ++ Bitmap.free (gPhysPageBitmap w').
Proof.
  intros Hw Hn. unfold new_AddrSpace. intros Hr. apply bind_ok in Hr as ([[ex|] h] & _ & Hr); [|done].
  apply bind_ok in Hr as ([noffH h1] & _ & Hr). cbn [addrLock set_host] in Hr. case_bool_decide; [done|].
  cbn [gPhysPageBitmap set_lock set_host] in Hr. rewrite Bitmap.NumClear_ok in Hr by done. cbn [bind] in Hr.
  set (n := divRoundUp _ _) in Hr. case_bool_decide as Hshort.
  { exfalso. do 4 (apply bind_ok in Hr as (? & _ & Hr); repeat match goal with x : (_ * _)%type |- _ => destruct x end). done. }
  cbn [bind gPhysPageBitmap set_lock set_host] in Hr.
  assert (Hn0 : 0 <= n) by (apply divRoundUp_nonneg; [done|apply u32_range]).
  destruct (take_frames_ok (Z.to_nat n) 0 (gPhysPageBitmap w) Hw) as (bm & Ht & Hw' & Hn' & Hf); [lia|].
  rewrite Z2Nat.id in Ht by done. rewrite Ht in Hr. cbn [bind] in Hr. set (pt := zip_with _ _ _) in *.
  apply bind_ok in Hr as (w1 & H1 & Hr). apply bind_ok in Hr as (w2 & H2 & Hr). apply bind_ok in Hr as (h2 & _ & Hr). injection Hr as <- <-.
  apply load_segment_bitmap in H1, H2. cbn [gPhysPageBitmap set_host]. rewrite H2, H1. cbn [gPhysPageBitmap set_lock set_bitmap].
  assert (Hlen : length (take (Z.to_nat n) (Bitmap.free (gPhysPageBitmap w))) = length (seqZ 0 n)) by (rewrite length_take, length_seqZ; lia).
  assert (Hfr : frames (mkSpace pt n) = take (Z.to_nat n) (Bitmap.free (gPhysPageBitmap w))).
  { unfold frames, pt. cbn [pageTable]. by apply zip_fresh_frames. }
  split; [|split; [done|split; [congruence|by rewrite Hfr, Hf, take_drop]]]. split; cbn [pageTable numPages].
  - unfold pt. rewrite length_zip_with, Hlen, length_seqZ. lia.
  - apply Forall_forall. intros e He. assert (Hin : physicalPage e ∈ frames (mkSpace pt n)) by (unfold frames; by apply list_elem_of_fmap_2).
    rewrite Hfr in Hin. apply (elem_of_take _ _) in Hin as (j & Hj & _). apply list_elem_of_lookup_2 in Hj. apply Bitmap.elem_of_free in Hj as [Hj _].
    unfold pt in He. apply elem_of_lookup_zip_with in He as (k & a & c & -> & _). rewrite Hn in Hj. done.
Qed.

(** ** Loading *)

Definition frame_of (pt : list TranslationEntry) (k : Z) : Z := from_option physicalPage 0 (pt !! Z.to_nat k).

(** The bytes of page [k] of a segment, and where they go. *)
Definition chunk (file : list byte) (seg : Segment) (k : Z) : list byte :=
  take (Z.to_nat PageSize) (drop (Z.to_nat (inFileAddr seg + k * PageSize)) file).
Definition target (seg : Segment) (pt : list TranslationEntry) (k : Z) : Z := virtualAddr seg + frame_of pt k * PageSize.

Fixpoint loaded (file : list byte) (seg : Segment) (pt : list TranslationEntry) (ks : list Z) (a : Z) : option byte :=
  match ks with
  | [] => None
  | k :: ks =>
      match loaded file seg pt ks a with
      | Some b => Some b
      | None => if bool_decide (target seg pt k <= a) then chunk file seg k !! Z.to_nat (a - target seg pt k) else None
      end
  end.

Lemma copy_in_ok a bs mem : bs = [] \/ 0 <= a /\ a + Z.of_nat (length bs) <= MemorySize -> copy_in a bs mem = Ok (store_bytes a bs mem).
Proof. intros [-> | H]; [done|]. unfold copy_in. destruct bs; [done|]. by rewrite bool_decide_eq_true_2. Qed.

Section load.
Context (h : host) (ex : StubFS.OpenFile) (i : Z) (file : list byte).
Hypothesis file_there : inodes h !! i = Some file.

(** The world while the executable is open. *)
Definition loading (o : Z) (bm : Bitmap.t) (l : Z) (mem : gmap Z byte) : world :=
  mkW (StubFS.opened (StubFS.file ex) i o true h) bm l mem.

Lemma load_pages_ok seg pt bm l ks : forall o mem,
  Forall (fun k => 0 <= k < Z.of_nat (length pt) /\ 0 <= inFileAddr seg + k * PageSize < 2 ^ 31 /\
    (chunk file seg k = [] \/ 0 <= target seg pt k /\ target seg pt k + Z.of_nat (length (chunk file seg k)) <= MemorySize)) ks ->
  exists o' mem', load_pages ks ex seg pt (loading o bm l mem) = Ok (loading o' bm l mem') /\
    forall a, mem' !! a = match loaded file seg pt ks a with Some b => Some b | None => mem !! a end.
Proof using file_there.
  induction ks as [|k ks IH]; intros o mem Hks; [by exists o, mem|].
  apply Forall_cons in Hks as [(Hk & Hp & Hfit) Hks]. cbn [load_pages].
  destruct (lget_is_ok pt k Hk) as (e & -> & He). cbn [bind]. assert (Hfr : physicalPage e = frame_of pt k) by (unfold frame_of; by rewrite He).
  unfold load. cbn [the_host loading]. rewrite wrap32_small by (unfold int_range; lia).
  destruct (StubFS.ReadAt_opened i o true h ex PageSize (inFileAddr seg + k * PageSize) file file_there) as (o1 & ->); [done|done|].
  cbn [bind default]. rewrite Hfr. change (take _ _) with (chunk file seg k). change (virtualAddr seg + _) with (target seg pt k).
  cbn [memory id]. rewrite copy_in_ok by done. cbn [bind].
  change (set_memory _ _) with (loading o1 bm l (store_bytes (target seg pt k) (chunk file seg k) mem)).
  destruct (IH o1 (store_bytes (target seg pt k) (chunk file seg k) mem) Hks) as (o' & mem' & -> & Hm). exists o', mem'. split; [done|].
  intros a. rewrite Hm. cbn [loaded]. destruct (loaded file seg pt ks a); [done|]. rewrite lookup_store_bytes.
  destruct (decide (target seg pt k <= a)) as [Hle|Hle].
  - rewrite (bool_decide_eq_true_2 (_ <= a)) by done. destruct (decide (a < target seg pt k + Z.of_nat (length (chunk file seg k)))) as [Hlt|Hlt].
    + rewrite bool_decide_eq_true_2 by lia. destruct (lookup_lt_is_Some_2 (chunk file seg k) (Z.to_nat (a - target seg pt k))) as [b Hb]; [lia|]. by rewrite Hb.
    + rewrite bool_decide_eq_false_2 by lia. by rewrite lookup_ge_None_2 by lia.
  - rewrite bool_decide_eq_false_2 by lia. by rewrite (bool_decide_eq_false_2 (_ <= a)).
Qed.

Lemma load_segment_ok seg sp bm l o mem :
  space_wf sp ->
  (0 < size seg -> forall k, 0 <= k < numPages sp -> 0 <= inFileAddr seg + k * PageSize < 2 ^ 31 /\
    (chunk file seg k = [] \/ 0 <= target seg (pageTable sp) k /\ target seg (pageTable sp) k + Z.of_nat (length (chunk file seg k)) <= MemorySize)) ->
  exists o' mem', load_segment ex seg sp (loading o bm l mem) = Ok (loading o' bm l mem') /\
    forall a, mem' !! a = match (if bool_decide (0 < size seg) then loaded file seg (pageTable sp) (seqZ 0 (numPages sp)) a else None) with
                          | Some b => Some b | None => mem !! a end.
Proof using file_there.
  intros Hw Hfit. unfold load_segment. case_bool_decide as Hs; [|by exists o, mem]. apply load_pages_ok. apply Forall_forall. intros k Hk%elem_of_seqZ.
  pose proof (sw_len _ Hw). split; [lia|]. apply Hfit; lia.
Qed.
End load.

(** In consecutive frames a segment is a contiguous copy of the file. *)
Lemma loaded_contiguous file seg pt f n : 0 <= inFileAddr seg -> forall m i, 0 <= i ->
  (forall k, i <= k < i + Z.of_nat m -> frame_of pt k = f + k) -> i + Z.of_nat m <= n ->
  forall a, loaded file seg pt (seqZ i (Z.of_nat m)) a =
    if bool_decide (virtualAddr seg + (f + i) * PageSize <= a < virtualAddr seg + (f + i + Z.of_nat m) * PageSize)
    then file !! Z.to_nat (inFileAddr seg + (a - (virtualAddr seg + f * PageSize))) else None.
Proof.
  intros Hia. induction m as [|m IH]; intros i Hi Hfr Hm a.
  - rewrite seqZ_nil by done. rewrite bool_decide_eq_false_2 by lia. done.
  - rewrite seqZ_cons by lia. cbn [loaded]. replace (Z.pred (Z.of_nat (S m))) with (Z.of_nat m) by lia.
    rewrite IH by (first [lia | intros k Hk; apply Hfr; lia]). unfold target, chunk. rewrite (Hfr i) by lia. unfold PageSize.
    destruct (decide (virtualAddr seg + (f + i) * 512 <= a)) as [Hlo|Hlo].
    2: { rewrite !(bool_decide_eq_false_2 _) by lia. done. }
    rewrite (bool_decide_eq_true_2 (_ <= a)) by done.
    destruct (decide (a < virtualAddr seg + (f + i + 1) * 512)) as [H1|H1].
    + rewrite (bool_decide_eq_false_2 (virtualAddr seg + (f + Z.succ i) * 512 <= a < _)) by lia. rewrite bool_decide_eq_true_2 by lia.
      rewrite lookup_take_lt by lia. rewrite lookup_drop. f_equal. lia.
    + rewrite (lookup_ge_None_2 (take _ _)) by (rewrite length_take; lia).
      destruct (decide (a < virtualAddr seg + (f + Z.succ i + Z.of_nat m) * 512)) as [H2|H2].
      * rewrite !bool_decide_eq_true_2 by lia. by destruct (file !! _).
      * rewrite !bool_decide_eq_false_2 by lia. done.
Qed.

(** ** A whole program *)

(** The number of pages the constructor gives a program. *)
Definition pages (n : NoffHeader) : Z :=
  divRoundUp (u32 (size (code n) + size (initData n) + size (uninitData n) + UserStackSize)) PageSize.

(** A program file whose code starts at address 0, as coff2noff produces, and
    in which no more bytes follow the start of the initialised data than the
    address space has room for. *)
Record executable (h : host) (nm : list byte) (file : list byte) (n : NoffHeader) : Prop := {
  ex_named : exists i, names h !! nm = Some i /\ inodes h !! i = Some file;
  ex_admitted : admits h nm = true;
  ex_descriptor : unused (fds h) < fd_limit h;
  ex_header : NoffSize <= Z.of_nat (length file) /\ noff_of (take (Z.to_nat NoffSize) file) = n;
  ex_magic : noffMagic n = NOFFMAGIC;
  ex_code : virtualAddr (code n) = 0 /\ 0 <= inFileAddr (code n) /\ inFileAddr (code n) + pages n * PageSize < 2 ^ 31;
  ex_data : 0 <= virtualAddr (initData n) /\ 0 <= inFileAddr (initData n) /\ inFileAddr (initData n) + pages n * PageSize < 2 ^ 31;
  ex_fits : 0 < size (initData n) -> virtualAddr (initData n) + (Z.of_nat (length file) - inFileAddr (initData n)) <= pages n * PageSize
}.

(** The byte the program finds at address [v], if the file gives it one. *)
Definition image_byte (file : list byte) (n : NoffHeader) (v : Z) : option byte :=
  match (if bool_decide (0 < size (initData n) /\ virtualAddr (initData n) <= v)
         then file !! Z.to_nat (inFileAddr (initData n) + (v - virtualAddr (initData n))) else None) with
  | Some b => Some b
  | None => if bool_decide (0 < size (code n)) then file !! Z.to_nat (inFileAddr (code n) + v) else None
  end.

Lemma bytes_words_prefix n : forall bs r, (4 * n <= length bs)%nat -> bytes_words n (bs ++ r) = bytes_words n bs.
Proof.
  induction n as [|n IH]; intros bs r Hl; [done|]. cbn [bytes_words]. rewrite take_app_le, drop_app_le by lia.
  rewrite IH by (rewrite length_drop; lia). done.
Qed.

Lemma read_header_ok stack h nm file n i o ex : executable h nm file n -> inodes h !! i = Some file ->
  exists o', read_header stack ex (StubFS.opened (StubFS.file ex) i o true h) = Ok (n, StubFS.opened (StubFS.file ex) i o' true h).
Proof.
  intros He Hi. destruct (ex_header _ _ _ _ He) as [Hl Hn]. unfold read_header.
  destruct (StubFS.ReadAt_opened i o true h ex NoffSize 0 file Hi) as (o' & ->); [done|done|]. cbn [bind default id]. exists o'.
  rewrite drop_0. unfold noff_of. rewrite bytes_words_prefix by (rewrite length_take; change (Z.to_nat NoffSize) with 52%nat in *; unfold NoffSize in Hl; lia).
  change (mkNoff _ _ _ _ _) with (noff_of (take (Z.to_nat NoffSize) file)). rewrite Hn, (ex_magic _ _ _ _ He).
  rewrite !(bool_decide_eq_true_2 (NOFFMAGIC = NOFFMAGIC)) by done. cbn [negb andb].
  rewrite (ex_magic _ _ _ _ He), bool_decide_eq_true_2 by done. done.
Qed.

Lemma pages_nonneg n : 0 <= pages n.
Proof. apply divRoundUp_nonneg; [done|apply u32_range]. Qed.

Lemma fresh_frame f m k : 0 <= k < Z.of_nat m ->
  frame_of (zip_with fresh_entry (seqZ 0 (Z.of_nat m)) (seqZ f (Z.of_nat m))) k = f + k.
Proof.
  intros Hk. unfold frame_of. rewrite lookup_zip_with, !lookup_seqZ_lt by lia. cbn. lia.
Qed.

(** The two segments, loaded one after the other into consecutive frames. *)
Lemma segments_image h nm file n pt f (mem m2 m3 : gmap Z byte) :
  executable h nm file n -> (forall k, 0 <= k < pages n -> frame_of pt k = f + k) ->
  let part seg a := if bool_decide (0 < size seg) then loaded file seg pt (seqZ 0 (pages n)) a else None in
  (forall a, m2 !! a = match part (code n) a with Some b => Some b | None => mem !! a end) ->
  (forall a, m3 !! a = match part (initData n) a with Some b => Some b | None => m2 !! a end) ->
  (forall v, 0 <= v < pages n * PageSize ->
     m3 !! (f * PageSize + v) = match image_byte file n v with Some b => Some b | None => mem !! (f * PageSize + v) end) /\
  (forall a : Z, ~ (f * PageSize <= a < (f + pages n) * PageSize) -> m3 !! a = mem !! a).
Proof.
  intros He Hk part Hm2 Hm3. pose proof (pages_nonneg n) as Hp.
  destruct (ex_code _ _ _ _ He) as (C1 & C2 & C3). destruct (ex_data _ _ _ _ He) as (D1 & D2 & D3).
  assert (Hload : forall seg a, 0 <= inFileAddr seg -> loaded file seg pt (seqZ 0 (pages n)) a =
    if bool_decide (virtualAddr seg + f * PageSize <= a < virtualAddr seg + (f + pages n) * PageSize)
    then file !! Z.to_nat (inFileAddr seg + (a - (virtualAddr seg + f * PageSize))) else None).
  { intros seg a Hs. pose proof (loaded_contiguous file seg pt f (pages n) Hs (Z.to_nat (pages n)) 0) as Hc.
    rewrite Z2Nat.id in Hc by done. rewrite Hc by (try lia; intros k Hkk; apply Hk; lia). by rewrite Z.add_0_r. }
  split.
  - intros v Hv. rewrite Hm3, Hm2. unfold part. rewrite !Hload by done. rewrite C1. unfold image_byte.
    replace (f * PageSize + v - (0 + f * PageSize)) with v by lia.
    rewrite (bool_decide_eq_true_2 (0 + f * PageSize <= _ < _)) by (unfold PageSize in *; lia).
    destruct (decide (0 < size (initData n))) as [Hs|Hs].
    + rewrite (bool_decide_eq_true_2 (0 < size (initData n))) by done.
      destruct (decide (virtualAddr (initData n) <= v)) as [Hle|Hle].
      * rewrite (bool_decide_eq_true_2 (0 < size (initData n) /\ _)) by done.
        replace (f * PageSize + v - (virtualAddr (initData n) + f * PageSize)) with (v - virtualAddr (initData n)) by lia.
        rewrite bool_decide_eq_true_2 by (unfold PageSize in *; lia). by repeat case_match.
      * rewrite (bool_decide_eq_false_2 (virtualAddr (initData n) + f * PageSize <= _ < _)) by (unfold PageSize in *; lia).
        rewrite (bool_decide_eq_false_2 (0 < size (initData n) /\ _)) by lia. by repeat case_match.
    + rewrite (bool_decide_eq_false_2 (0 < size (initData n))) by done. rewrite (bool_decide_eq_false_2 (0 < size (initData n) /\ _)) by lia.
      by repeat case_match.
  - intros a Ha. rewrite Hm3, Hm2. unfold part. rewrite !Hload by done. rewrite C1.
    rewrite (bool_decide_eq_false_2 (0 + f * PageSize <= _ < _)) by (unfold PageSize in *; lia).
    assert (Hnone : (if bool_decide (0 < size (code n)) then @None byte else None) = None) by by destruct (bool_decide _). rewrite Hnone.
    destruct (decide (0 < size (initData n))) as [Hs|Hs]; [|by rewrite (bool_decide_eq_false_2 (0 < size (initData n)))].
    rewrite (bool_decide_eq_true_2 (0 < size (initData n))) by done. pose proof (ex_fits _ _ _ _ He Hs) as Hfit.
    destruct (decide (virtualAddr (initData n) + f * PageSize <= a < virtualAddr (initData n) + (f + pages n) * PageSize)) as [Hb|Hb].
    + rewrite bool_decide_eq_true_2 by done. by rewrite lookup_ge_None_2 by (unfold PageSize in *; lia).
    + by rewrite bool_decide_eq_false_2.
Qed.

(** The page table made of the free frames [f], [f + 1], ... *)
Lemma consecutive_wf f n : 0 <= n -> (forall k, 0 <= k < n -> 0 <= f + k < NumPhysPages) ->
  let sp := mkSpace (zip_with fresh_entry (seqZ 0 n) (seqZ f n)) n in
  space_wf sp /\ frames sp = seqZ f n /\ forall k, 0 <= k < n -> frame_of (pageTable sp) k = f + k.
Proof.
  intros Hn Hin sp. assert (Hfr : frames sp = seqZ f n) by (unfold frames, sp; cbn [pageTable]; apply zip_fresh_frames; by rewrite !length_seqZ).
  split; [|split; [done|]].
  - split; unfold sp; cbn [pageTable numPages]; [rewrite length_zip_with, !length_seqZ; lia|]. apply Forall_forall. intros e Hee.
    assert (Hx : physicalPage e ∈ frames sp) by (unfold frames; by apply list_elem_of_fmap_2). rewrite Hfr in Hx. apply elem_of_seqZ in Hx.
    pose proof (Hin (physicalPage e - f) ltac:(lia)). apply elem_of_lookup_zip_with in Hee as (? & ? & ? & -> & _).
    split; [done|]. split; [done|]. cbn [physicalPage fresh_entry] in *. lia.
  - intros k Hkk. pose proof (fresh_frame f (Z.to_nat n) k) as Hff. rewrite Z2Nat.id in Hff by done. by apply Hff.
Qed.

Lemma new_AddrSpace_ok stack nm w file n f rest :
  executable (the_host w) nm file n -> Bitmap.wf (gPhysPageBitmap w) -> Bitmap.numBits (gPhysPageBitmap w) = NumPhysPages ->
  addrLock w = 1 -> Bitmap.free (gPhysPageBitmap w) = seqZ f (pages n) ++ rest ->
  exists sp w', new_AddrSpace stack nm w = Ok (Some (Some sp, w')) /\
    numPages sp = pages n /\ frames sp = seqZ f (pages n) /\ the_host w' = the_host w /\ addrLock w' = 1 /\
    (forall v, 0 <= v < pages n * PageSize ->
       memory w' !! (f * PageSize + v) = match image_byte file n v with Some b => Some b | None => memory w !! (f * PageSize + v) end) /\
    (forall a, ~ (f * PageSize <= a < (f + pages n) * PageSize) -> memory w' !! a = memory w !! a).
Proof.
  intros He Hw Hn Hl Hfree. pose proof (pages_nonneg n) as Hp. destruct (ex_named _ _ _ _ He) as (i & Hnm & Hi).
  unfold new_AddrSpace. rewrite (StubFS.stub_Open_ok nm (the_host w) i) by (done || apply He). cbn [bind].
  set (ex := StubFS.new_OpenFile _). change (unused (fds (the_host w))) with (StubFS.file ex).
  destruct (read_header_ok stack (the_host w) nm file n i 0 ex He Hi) as (o1 & ->). cbn [bind].
  cbn [addrLock set_host]. rewrite Hl, bool_decide_eq_false_2 by done. cbn [gPhysPageBitmap set_lock set_host].
  rewrite Bitmap.NumClear_ok by done. cbn [bind]. change (divRoundUp _ _) with (pages n).
  assert (Hcap : Forall (fun x => 0 <= x < NumPhysPages) (seqZ f (pages n))).
  { apply Forall_forall. intros x Hx. assert (Hin : x ∈ Bitmap.free (gPhysPageBitmap w)) by (rewrite Hfree; apply elem_of_app; by left).
    apply Bitmap.elem_of_free in Hin as [Hin _]. by rewrite Hn in Hin. }
  rewrite bool_decide_eq_false_2 by (rewrite Hfree, length_app, length_seqZ; lia). cbn [bind gPhysPageBitmap set_lock set_host].
  destruct (take_frames_ok (Z.to_nat (pages n)) 0 (gPhysPageBitmap w) Hw) as (bm & Ht & _); [rewrite Hfree, length_app, length_seqZ; lia|].
  rewrite Z2Nat.id in Ht by done. rewrite Ht. cbn [bind]. clear Ht.
  rewrite Hfree, take_app_length' by (rewrite length_seqZ; lia).
  assert (Hin : forall k, 0 <= k < pages n -> 0 <= f + k < NumPhysPages).
  { intros k Hkk. apply (proj1 (Forall_forall _ _) Hcap). apply elem_of_seqZ. lia. }
  destruct (consecutive_wf f (pages n) Hp Hin) as (Hsw & Hfr & Hk). set (sp := mkSpace _ (pages n)) in *.
  change (set_lock _ _) with (loading (the_host w) ex i o1 bm 1 (memory w)).
  destruct (ex_code _ _ _ _ He) as (C1 & C2 & C3). destruct (ex_data _ _ _ _ He) as (D1 & D2 & D3).
  destruct (load_segment_ok (the_host w) ex i file Hi (code n) sp bm 1 o1 (memory w) Hsw) as (o2 & m2 & -> & Hm2).
  { intros Hs k Hkk. change (numPages sp) with (pages n) in Hkk. split; [unfold PageSize in *; lia|]. right. unfold target. rewrite C1, Hk by done.
    pose proof (Hin k Hkk). assert (length (chunk file (code n) k) <= 512)%nat by (unfold chunk; rewrite length_take; unfold PageSize; lia).
    unfold MemorySize, NumPhysPages, PageSize in *. lia. }
  cbn [bind].
  destruct (load_segment_ok (the_host w) ex i file Hi (initData n) sp bm 1 o2 m2 Hsw) as (o3 & m3 & -> & Hm3).
  { intros Hs k Hkk. change (numPages sp) with (pages n) in Hkk. split; [unfold PageSize in *; lia|]. pose proof (ex_fits _ _ _ _ He Hs) as Hfit.
    destruct (decide (inFileAddr (initData n) + k * PageSize < Z.of_nat (length file))) as [Hlt|Hge].
    - right. unfold target. rewrite Hk by done. pose proof (Hin k Hkk). pose proof (Hin (pages n - 1) ltac:(lia)).
      assert (Z.of_nat (length (chunk file (initData n) k)) <= Z.of_nat (length file) - (inFileAddr (initData n) + k * PageSize)).
      { unfold chunk. rewrite length_take, length_drop. lia. }
      unfold MemorySize, NumPhysPages, PageSize in *. lia.
    - left. unfold chunk. rewrite drop_ge by lia. done. }
  cbn [bind]. unfold loading at 1. cbn [the_host]. rewrite (StubFS.delete_opened (StubFS.file ex)) by (done || apply unused_ok). cbn [bind].
  exists sp. eexists. split; [done|]. split; [done|]. split; [done|]. split; [done|]. split; [done|]. cbn [memory set_host loading].
  by eapply segments_image.
Qed.

(** ** The address spaces of a running system *)

(** The bitmap of frames and the address spaces alive. *)
Definition memory_state : Type := Bitmap.t * list AddrSpace.

Inductive memory_step : memory_state -> memory_state -> Prop :=
| step_new stack nm w w' sp spaces :
    new_AddrSpace stack nm w = Ok (Some (Some sp, w')) ->
    memory_step (gPhysPageBitmap w, spaces) (gPhysPageBitmap w', sp :: spaces)
| step_delete bm bm' sp l1 l2 :
    delete_AddrSpace sp bm = Ok bm' -> memory_step (bm, l1 ++ sp :: l2) (bm', l1 ++ l2).

(** Every frame is in one page table, once, or free. *)
Definition accounted (st : memory_state) : Prop :=
  Bitmap.wf st.1 /\ Bitmap.numBits st.1 = NumPhysPages /\ Forall space_wf st.2 /\
  concat (frames <$> st.2) ++ Bitmap.free st.1 ≡ₚ seqZ 0 NumPhysPages.

Lemma accounted_step st st' : accounted st -> memory_step st st' -> accounted st'.
Proof.
  intros (Hw & Hn & Hs & Hp) Hst. destruct Hst as [stack nm w w' sp spaces Hnew|bm bm' sp l1 l2 Hdel]; cbn [fst snd] in *.
  - destruct (new_AddrSpace_takes stack nm w sp w' Hw Hn Hnew) as (Hsp & Hw' & Hn' & Hfree). split_and!; [done|done|by constructor|].
    cbn [fst snd]. rewrite fmap_cons. cbn [concat]. rewrite <- Hp, Hfree. by rewrite (app_assoc (concat _)), (Permutation_app_comm (concat _) (frames sp)).
  - apply Forall_app in Hs as [Hs1 Hs2]. apply Forall_cons in Hs2 as [Hsp Hs2].
    destruct (delete_AddrSpace_ok sp bm Hsp Hw Hn) as (bm2 & Hd & Hw' & Hn' & Hf). rewrite Hdel in Hd. injection Hd as <-.
    split_and!; [done|done|by apply Forall_app|]. cbn [fst snd].
    assert (Hsplit : concat (frames <$> l1 ++ sp :: l2) ≡ₚ frames sp ++ concat (frames <$> l1 ++ l2)).
    { rewrite !fmap_app, fmap_cons, !concat_app. cbn [concat]. rewrite !app_assoc. by rewrite (Permutation_app_comm (concat (frames <$> l1)) (frames sp)). }
    rewrite Hsplit in Hp. apply NoDup_Permutation.
    + pose proof (NoDup_seqZ 0 NumPhysPages) as Hnd. rewrite <- Hp, <- app_assoc in Hnd. apply NoDup_app in Hnd as (_ & Hx & Hnd).
      apply NoDup_app in Hnd as (Hnd & Hy & _). apply NoDup_app. split; [done|]. split; [|apply Bitmap.free_NoDup].
      intros x Hx1 Hx2. apply Hf in Hx2 as [Hx2|Hx2]; [|by apply (Hy x)]. apply (Hx x Hx2). apply elem_of_app. by left.
    + apply NoDup_seqZ.
    + intros x. rewrite <- Hp, !elem_of_app, Hf. tauto.
Qed.

Lemma initial_accounted bm : Bitmap.Bitmap NumPhysPages = Ok bm -> accounted (bm, []).
Proof.
  intros Hb. destruct (Bitmap.Bitmap_ok NumPhysPages) as (bm' & Hb' & Hw & Hn & Hf); [done|]. rewrite Hb in Hb'. injection Hb' as <-.
  split_and!; [done|done|by constructor|]. cbn [fst snd fmap list_fmap concat app]. by rewrite Hf.
Qed.

Lemma reachable_accounted st st' : accounted st -> rtc memory_step st st' -> accounted st'.
Proof. intros Ha Hr. induction Hr as [|x y z Hxy _ IH]; [done|]. by eapply IH, accounted_step. Qed.

(** Two address spaces at different places of the list have no frame in common. *)
Lemma accounted_disjoint st sp1 sp2 l1 l2 l3 : accounted st -> st.2 = l1 ++ sp1 :: l2 ++ sp2 :: l3 ->
  forall x, x ∈ frames sp1 -> x ∉ frames sp2.
Proof.
  intros (_ & _ & _ & Hp) Hl x Hx1 Hx2. pose proof (NoDup_seqZ 0 NumPhysPages) as Hnd. rewrite <- Hp, Hl in Hnd.
  apply NoDup_app in Hnd as (Hnd & _ & _). rewrite !fmap_app, fmap_cons, fmap_app, fmap_cons, concat_app in Hnd. cbn [concat] in Hnd.
  rewrite concat_app in Hnd. cbn [concat] in Hnd. apply NoDup_app in Hnd as (_ & _ & Hnd). apply NoDup_app in Hnd as (_ & Hd & _).
  apply (Hd x Hx1). rewrite !elem_of_app. tauto.
Qed.

Lemma frames_disjoint sp1 sp2 : space_wf sp1 -> space_wf sp2 -> (forall x, x ∈ frames sp1 -> x ∉ frames sp2) ->
  disjoint_frames (pageTable sp1) (pageTable sp2).
Proof.
  intros [_ H1] [_ H2] Hd i j e1 e2 He1 He2 _ _. destruct (Forall_lookup_1 _ _ _ _ H1 He1) as (_ & _ & Hb1). destruct (Forall_lookup_1 _ _ _ _ H2 He2) as (_ & _ & Hb2).
  unfold NumPhysPages in *. rewrite !u32_small by lia. intros E. apply (Hd (physicalPage e1)).
  - apply list_elem_of_fmap_2. by eapply list_elem_of_lookup_2.
  - rewrite E. apply list_elem_of_fmap_2. by eapply list_elem_of_lookup_2.
Qed.

(** The read of a byte through a page table of consecutive frames. *)
Lemma read_consecutive sp m f v : space_wf sp -> (forall k, 0 <= k < numPages sp -> frame_of (pageTable sp) k = f + k) ->
  0 <= v < numPages sp * PageSize ->
  read_value v 1 (install (pageTable sp) m) = Ok (inr (charZ (byte_at m (f * PageSize + v)))).
Proof.
  intros Hw Hf Hv. unfold read_value. rewrite (ReadMem_paged _ (pageTable sp)) by (done || by left).
  assert (Hp : 0 <= v / PageSize < numPages sp) by (unfold PageSize in *; dlia).
  pose proof (sw_len _ Hw) as Hlen. destruct (lookup_lt_is_Some_2 (pageTable sp) (Z.to_nat (v / PageSize))) as [e He]; [lia|].
  destruct (Forall_lookup_1 _ _ _ _ (sw_valid _ Hw) He) as (Hval & Hro & Hb).
  pose proof (Hf _ Hp) as Hfk. unfold frame_of in Hfk. rewrite He in Hfk. cbn [from_option] in Hfk.
  assert (Hmax : numPages sp <= NumPhysPages).
  { destruct (lookup_lt_is_Some_2 (pageTable sp) (Z.to_nat (numPages sp - 1))) as [e1 He1]; [lia|].
    destruct (lookup_lt_is_Some_2 (pageTable sp) 0) as [e0 He0]; [lia|].
    pose proof (Hf (numPages sp - 1) ltac:(lia)) as F1. pose proof (Hf 0 ltac:(lia)) as F0. unfold frame_of in F1, F0. change (Z.to_nat 0) with 0%nat in F0. rewrite He1 in F1. rewrite He0 in F0. cbn in F1, F0.
    destruct (Forall_lookup_1 _ _ _ _ (sw_valid _ Hw) He1) as (_ & _ & B1). destruct (Forall_lookup_1 _ _ _ _ (sw_valid _ Hw) He0) as (_ & _ & B0). lia. }
  unfold resolve, aligned. rewrite Z.mod_1_r, Z.eqb_refl. cbn [negb].
  rewrite (u32_small v) by (unfold NumPhysPages, PageSize in *; lia). rewrite He, Hval, Hro. cbn [negb andb].
  rewrite u32_small by (unfold NumPhysPages in Hb; lia). rewrite bool_decide_eq_false_2 by lia. cbn [bind]. do 2 f_equal.
  rewrite Hfk. replace ((f + v / PageSize) * PageSize + v mod PageSize) with (f * PageSize + v); [done|]. unfold PageSize. dlia.
Qed.

(** A program that was loaded, read by the processor. *)
Lemma loads_program_ok stack nm w file n f rest m :
  executable (the_host w) nm file n -> Bitmap.wf (gPhysPageBitmap w) -> Bitmap.numBits (gPhysPageBitmap w) = NumPhysPages ->
  addrLock w = 1 -> Bitmap.free (gPhysPageBitmap w) = seqZ f (pages n) ++ rest -> tlb m = None ->
  exists sp w', new_AddrSpace stack nm w = Ok (Some (Some sp, w')) /\
    numPages sp = pages n /\ the_host w' = the_host w /\ addrLock w' = 1 /\
    let run := RestoreState sp (Machine.set_memory (fun _ => memory w') m) in
    (forall v b, 0 <= v < pages n * PageSize -> image_byte file n v = Some b -> read_value v 1 run = Ok (inr (charZ b))) /\
    (forall a, ~ (f * PageSize <= a < (f + pages n) * PageSize) -> memory w' !! a = memory w !! a).
Proof.
  intros He Hw Hn Hl Hfree Ht. destruct (new_AddrSpace_ok stack nm w file n f rest He Hw Hn Hl Hfree) as (sp & w' & Hnew & Hnp & Hfr & Hh & Hlk & Him & Hout).
  exists sp, w'. split; [exact Hnew|]. split; [exact Hnp|]. split; [exact Hh|]. split; [exact Hlk|]. destruct (new_AddrSpace_takes stack nm w sp w' Hw Hn Hnew) as (Hsw & _). split; [|exact Hout].
  intros v b Hv Hb. rewrite RestoreState_install by done. rewrite (read_consecutive sp _ f v Hsw).
  - unfold byte_at. cbn [mainMemory Machine.set_memory]. by rewrite Him, Hb.
  - intros k Hk. unfold frame_of. pose proof (list_lookup_fmap physicalPage (pageTable sp) (Z.to_nat k)) as Hlk2. change (physicalPage <$> pageTable sp) with (frames sp) in Hlk2.
    rewrite Hfr, lookup_seqZ_lt in Hlk2 by lia. destruct (pageTable sp !! Z.to_nat k) as [e|]; [|done]. cbn in Hlk2 |- *. injection Hlk2 as E. lia.
  - by rewrite Hnp.
Qed.

(** ** Properties *)


(** C10: whatever sequence of address spaces is created, from whatever program
    files, and destroyed, in whatever order, every physical page belongs to
    exactly one of them or is free; the destructor of each never fails; and no
    address space can, by a write through its page table, change what another
    reads through its own. *)
Theorem AddrSpaces_isolated bm0 st : Bitmap.Bitmap NumPhysPages = Ok bm0 -> rtc memory_step (bm0, []) st ->
  concat (frames <$> st.2) ++ Bitmap.free st.1 ≡ₚ seqZ 0 NumPhysPages /\
  (forall sp, sp ∈ st.2 -> exists bm', delete_AddrSpace sp st.1 = Ok bm') /\
  forall l1 sp1 l2 sp2 l3, st.2 = l1 ++ sp1 :: l2 ++ sp2 :: l3 ->
    forall m a sz v m1 r b sz', regs_ok m -> tlb m = None -> mem_size sz -> mem_size sz' -> int_range a -> int_range b ->
      (WriteMem a sz v (RestoreState sp1 m) = Ok (m1, r) -> read_value b sz' (RestoreState sp2 m1) = read_value b sz' (RestoreState sp2 m)) /\
      (WriteMem a sz v (RestoreState sp2 m) = Ok (m1, r) -> read_value b sz' (RestoreState sp1 m1) = read_value b sz' (RestoreState sp1 m)).
Proof.
  intros Hb Hr. pose proof (reachable_accounted _ _ (initial_accounted bm0 Hb) Hr) as Ha. clear Hb Hr. pose proof Ha as (Hw & Hn & Hs & Hp).
  split; [done|]. split.
  - intros sp Hsp. pose proof (proj1 (Forall_forall _ _) Hs sp Hsp) as Hsw. destruct (delete_AddrSpace_ok sp st.1 Hsw Hw Hn) as (bm' & Hd & _). by exists bm'.
  - intros l1 sp1 l2 sp2 l3 Hl m a sz v m1 r b sz' Hreg Ht Hsz Hsz' Ha1 Hb1. pose proof (accounted_disjoint st sp1 sp2 l1 l2 l3 Ha Hl) as Hd.
    rewrite Hl in Hs. apply Forall_app in Hs as [_ Hs]. apply Forall_cons in Hs as [Hs1 Hs]. apply Forall_app in Hs as [_ Hs]. apply Forall_cons in Hs as [Hs2 _].
    assert (Htlb : forall sp, WriteMem a sz v (install (pageTable sp) m) = Ok (m1, r) -> tlb m1 = None).
    { intros sp HW. rewrite (WriteMem_paged _ _ _ _ _ (install_paged (pageTable sp) m) Hsz) in HW. destruct (resolve (pageTable sp) a sz true) as [e|pa].
      - apply bind_ok in HW as (m2 & Hm2 & HW). injection HW as <- _. destruct (RaiseException_ok (install (pageTable sp) m) a) as (m3 & Hm3 & _ & _ & _ & _ & Htl & _); [exact Hreg|exact Ha1|].
        rewrite Hm2 in Hm3. injection Hm3 as <-. by rewrite Htl.
      - by injection HW as <- _. }
    split; intros HW; rewrite (RestoreState_install _ m) in HW by done; pose proof (Htlb _ HW) as Ht1; rewrite !RestoreState_install by done.
    + by apply (writes_isolated m (pageTable sp1) (pageTable sp2) a sz v m1 r b sz'); [apply frames_disjoint|..].
    + apply (writes_isolated m (pageTable sp2) (pageTable sp1) a sz v m1 r b sz'); try done. apply frames_disjoint; [done|done|]. intros x H2 H1. by apply (Hd x).
Qed.


(** ** Witnesses *)

(** Two instructions and one word of data. *)
Definition program_example : list byte :=
  words_bytes [NOFFMAGIC; 0; 52; 8; 8; 60; 4; 0; 0; 0; 0; 0; 0] ++
  [x01; x02; x03; x04; x05; x06; x07; x08; x0a; x0b; x0c; x0d].
Definition header_example : NoffHeader :=
  mkNoff NOFFMAGIC (mkSeg 0 52 8) (mkSeg 8 60 4) (mkSeg 0 0 0) (mkSeg 0 0 0).
Definition name_example : list byte := [x70].
Definition host_example : host := mkHost {[ name_example := 0 ]} {[ 0 := program_example ]} ∅ (fun _ => true) 16.
Definition bitmap_example : Bitmap.t := Bitmap.mk NumPhysPages 4 [0; 0; 0; 0].
Definition world_example : world := mkW host_example bitmap_example 1 ∅.

Lemma bitmap_example_ok : Bitmap.Bitmap NumPhysPages = Ok bitmap_example.
Proof. vm_compute. reflexivity. Qed.

Lemma executable_example : executable host_example name_example program_example header_example.
Proof.
  split.
  - exists 0. split; vm_compute; reflexivity.
  - reflexivity.
  - vm_compute. reflexivity.
  - split; [vm_compute; discriminate|vm_compute; reflexivity].
  - reflexivity.
  - split; [reflexivity|]. split; [vm_compute; discriminate|vm_compute; reflexivity].
  - split; [vm_compute; discriminate|]. split; [vm_compute; discriminate|vm_compute; reflexivity].
  - intros _. vm_compute. discriminate.
Qed.

Definition built (w : world) : option (AddrSpace * world) :=
  match new_AddrSpace [] name_example w with Ok (Some (Some sp, w')) => Some (sp, w') | _ => None end.

Lemma built_step w spaces sp w' : built w = Some (sp, w') -> memory_step (gPhysPageBitmap w, spaces) (gPhysPageBitmap w', sp :: spaces).
Proof.
  unfold built. destruct (new_AddrSpace [] name_example w) as [[[[sp1|] w1]|]|] eqn:E; try done. intros [= -> ->]. by eapply step_new.
Qed.

(** Two address spaces of the same program, one after the other. *)
Lemma two_spaces : exists st sp1 sp2, rtc memory_step (bitmap_example, []) st /\ st.2 = [sp2; sp1].
Proof.
  assert (H1 : isSome (built world_example) = true) by (vm_compute; reflexivity).
  destruct (built world_example) as [[sp1 w1]|] eqn:E1; [|discriminate].
  assert (H2 : isSome (built w1) = true).
  { assert (Hr : isSome (match built world_example with Some (_, w) => built w | None => None end) = true) by (vm_compute; reflexivity). by rewrite E1 in Hr. }
  destruct (built w1) as [[sp2 w2]|] eqn:E2; [|discriminate].
  exists (gPhysPageBitmap w2, [sp2; sp1]), sp1, sp2. split; [|reflexivity].
  apply (rtc_l _ _ (gPhysPageBitmap w1, [sp1])); [exact (built_step world_example [] sp1 w1 E1)|].
  apply rtc_once. exact (built_step w1 [sp1] sp2 w2 E2).
Qed.

Definition space_example : AddrSpace := mkSpace [frame 5] 1.

Lemma space_example_wf : space_wf space_example.
Proof. split; [reflexivity|]. repeat constructor; vm_compute; congruence. Qed.


Lemma AddrSpaces_isolated_witness :
  exists st sp1 sp2, rtc memory_step (bitmap_example, []) st /\ st.2 = [sp2; sp1] /\
    (exists bm', delete_AddrSpace sp1 st.1 = Ok bm') /\
    forall m1 r, WriteMem 8 4 7 (RestoreState sp2 example_machine) = Ok (m1, r) ->
      read_value 8 4 (RestoreState sp1 m1) = read_value 8 4 (RestoreState sp1 example_machine).
Proof.
  destruct two_spaces as (st & sp1 & sp2 & Hr & Hl).
  destruct (AddrSpaces_isolated bitmap_example st bitmap_example_ok Hr) as (_ & Hd & Hi).
  exists st, sp1, sp2. split; [exact Hr|]. split; [exact Hl|]. split; [apply Hd; rewrite Hl; apply elem_of_cons; right; apply list_elem_of_singleton; reflexivity|].
  intros m1 r HW. apply (Hi [] sp2 [] sp1 [] Hl example_machine 8 4 7 m1 r 8 4).
  - split; [reflexivity|]. split; [apply Forall_replicate; unfold int_range; lia|vm_compute; split; congruence].
  - reflexivity.
  - by right; right.
  - by right; right.
  - unfold int_range; lia.
  - unfold int_range; lia.
  - exact HW.
Defined.


(** ** Where the constructor goes wrong *)

(** With too few free frames it goes on after releasing the lock and deleting
    the executable, releases the lock again, and deletes the executable again. *)
Lemma new_AddrSpace_short stack nm w file n :
  executable (the_host w) nm file n -> Bitmap.wf (gPhysPageBitmap w) -> addrLock w = 1 ->
  Z.of_nat (length (Bitmap.free (gPhysPageBitmap w))) < pages n ->
  new_AddrSpace stack nm w = Fault DanglingPointer.
Proof.
  intros He Hw Hl Hs. destruct (ex_named _ _ _ _ He) as (i & Hnm & Hi).
  unfold new_AddrSpace. rewrite (StubFS.stub_Open_ok nm (the_host w) i) by (done || apply He). cbn [bind].
  set (ex := StubFS.new_OpenFile _). change (unused (fds (the_host w))) with (StubFS.file ex).
  destruct (read_header_ok stack (the_host w) nm file n i 0 ex He Hi) as (o1 & ->). cbn [bind].
  cbn [addrLock set_host]. rewrite Hl, bool_decide_eq_false_2 by done. cbn [gPhysPageBitmap set_lock set_host].
  rewrite Bitmap.NumClear_ok by done. cbn [bind]. change (divRoundUp _ _) with (pages n).
  rewrite bool_decide_eq_true_2 by done. cbn [the_host set_lock set_host].
  rewrite (StubFS.delete_opened (StubFS.file ex)) by (done || apply unused_ok). cbn [bind gPhysPageBitmap set_lock set_host].
  rewrite seqZ_nil by done. cbn [take_frames bind]. unfold load_segment. cbn [numPages]. rewrite !(seqZ_nil 0 0) by done. cbn [load_pages].
  by destruct (bool_decide _), (bool_decide _).
Qed.

(** In frames that are not consecutive the initialised data goes to the wrong
    place: the loop adds the segment's virtual address to the frame's address
    instead of translating it.  Here the data belongs on the second page. *)
Definition fragmented_program : list byte :=
  words_bytes [NOFFMAGIC; 0; 52; 4; 512; 56; 4; 0; 0; 0; 0; 0; 0] ++ [x01; x02; x03; x04; x0a; x0b; x0c; x0d].
Definition fragmented_world : world :=
  mkW (mkHost {[ name_example := 0 ]} {[ 0 := fragmented_program ]} ∅ (fun _ => true) 16) (Bitmap.mk NumPhysPages 4 [2; 0; 0; 0]) 1 ∅.

Lemma new_AddrSpace_fragmented :
  match built fragmented_world with
  | Some (sp, w') =>
      frames sp = [0; 2; 3] /\
      read_value 512 1 (RestoreState sp (Machine.set_memory (fun _ => memory w') example_machine)) = Ok (inr 0) /\
      memory w' !! 512 = Some x0a
  | None => False
  end.
Proof. vm_compute. split_and!; reflexivity. Qed.

End AddrSpace.
