(* ===== verification/Noff.v ===== *)
(** * coff2noff/coff2noff.c, coff2noff/coff.h: from COFF executables to NOFF

    The tool that turns what the MIPS linker produces into what
    [AddrSpace::AddrSpace] loads.  The build is for a 32-bit host with RDATA
    (coff2noff/Makefile), so a [long] has four bytes.  It runs on the host's files
    (Sysdep.v); a computation either goes on or ends the process with [exit]. *)

From Stdlib Require Import Strings.Byte.
From S2P Require Import Prelude LibBitmap Machine Disk Sysdep StubFS AddrSpace.

Module Coff2Noff.
Import Machine Sysdep AddrSpace.

(** ** The structures of coff.h *)

Definition MIPSELMAGIC : Z := 0x0162.
Definition OMAGIC : Z := 263. (* 0407 *)

(** The fields of a structure in memory. *)
Definition u16_at (o : nat) (bs : list byte) : Z := le_val (take 2 (drop o bs)).
Definition long_at (o : nat) (bs : list byte) : Z := wrap32 (le_val (take 4 (drop o bs))).
Definition to_short (z : Z) : Z := let r := z mod 2 ^ 16 in if bool_decide (r < 2 ^ 15) then r else r - 2 ^ 16.

Record filehdr := mkFilehdr {
  f_magic : Z; f_nscns : Z; f_timdat : Z; f_symptr : Z; f_nsyms : Z; f_opthdr : Z; f_flags : Z
}.
Definition size_filehdr : Z := 20.
Definition filehdr_of (bs : list byte) : filehdr :=
  mkFilehdr (u16_at 0 bs) (u16_at 2 bs) (long_at 4 bs) (long_at 8 bs) (long_at 12 bs) (u16_at 16 bs) (u16_at 18 bs).

Record aouthdr := mkAouthdr {
  magic : Z; vstamp : Z; tsize : Z; dsize : Z; bsize : Z; entry : Z; text_start : Z; data_start : Z; bss_start : Z;
  gprmask : Z; cprmask : list Z; gp_value : Z
}.
Definition size_aouthdr : Z := 56.
Definition aouthdr_of (bs : list byte) : aouthdr :=
  mkAouthdr (to_short (u16_at 0 bs)) (to_short (u16_at 2 bs)) (long_at 4 bs) (long_at 8 bs) (long_at 12 bs) (long_at 16 bs)
    (long_at 20 bs) (long_at 24 bs) (long_at 28 bs) (long_at 32 bs)
    [long_at 36 bs; long_at 40 bs; long_at 44 bs; long_at 48 bs] (long_at 52 bs).

Record scnhdr := mkScnhdr {
  s_name : list byte; s_paddr : Z; s_vaddr : Z; s_size : Z; s_scnptr : Z; s_relptr : Z; s_lnnoptr : Z;
  s_nreloc : Z; s_nlnno : Z; s_flags : Z
}.
Definition size_scnhdr : Z := 40.
Definition scnhdr_of (bs : list byte) : scnhdr :=
  mkScnhdr (take 8 bs) (long_at 8 bs) (long_at 12 bs) (long_at 16 bs) (long_at 20 bs) (long_at 24 bs) (long_at 28 bs)
    (u16_at 32 bs) (u16_at 34 bs) (long_at 36 bs).
Fixpoint sections_of (n : nat) (bs : list byte) : list scnhdr :=
  match n with O => [] | S n => scnhdr_of bs :: sections_of n (drop (Z.to_nat size_scnhdr) bs) end.

(** ** The host's byte order is the machine's *)

Definition WordToHost (word : Z) : Z := word.
Definition ShortToHost (shortword : Z) : Z := shortword.
Definition WordToMachine (word : Z) : Z := WordToHost word.
Definition ShortToMachine (shortword : Z) : Z := ShortToHost shortword.

(** Through [unsigned int] and back to [int]. *)
Definition swap_int (z : Z) : Z := wrap32 (WordToHost (u32 z)).
Definition swap_segment (s : Segment) : Segment :=
  mkSeg (swap_int (virtualAddr s)) (swap_int (inFileAddr s)) (swap_int (size s)).
Definition SwapHeader (n : NoffHeader) : NoffHeader :=
  mkNoff (swap_int (noffMagic n)) (swap_segment (code n)) (swap_segment (initData n)) (swap_segment (readonlyData n))
    (swap_segment (uninitData n)).

(** ** Programs that may exit *)

Definition prog (A : Type) : Type := host -> (A + Z) * host.
Definition ret {A} (a : A) : prog A := fun h => (inl a, h).
Definition seq {A B} (m : prog A) (k : A -> prog B) : prog B :=
  fun h => match m h with (inl a, h) => k a h | (inr status, h) => (inr status, h) end.
Definition exit {A} (status : Z) : prog A := fun h => (inr status, h).
Definition sys {A} (f : host -> A * host) : prog A := fun h => let '(a, h) := f h in (inl a, h).
Notation "'let!' x := m 'in' k" := (seq m (fun x => k)) (at level 200, x pattern, m at level 100, k at level 200).

(** A null name makes [open] and [unlink] fail. *)
Definition unlink_name (nm : option (list byte)) : prog Z := sys (fun h => match nm with Some nm => unlink nm h | None => (-1, h) end).

(** [open] with O_WRONLY|O_CREAT|O_TRUNC. *)
Definition create_name (nm : option (list byte)) : prog Z :=
  sys (fun h => match nm with
    | Some nm =>
        let fd := unused (fds h) in
        if admits h nm && bool_decide (fd < fd_limit h) then
          let i := default (unused (inodes h)) (names h !! nm) in
          (fd, set_fds (<[fd := mkFd i 0 false true]> (fds h)) (set_inodes (<[i := []]> (inodes h)) (set_names (<[nm := i]> (names h)) h)))
        else (-1, h)
    | None => (-1, h)
    end).

Section tool.
(** The global [noffFileName], once set. *)
Context (noffFileName : option (list byte)).

(** The exits of the error messages. *)
Definition fail {A} : prog A := let! _ := unlink_name noffFileName in exit 1.

Definition Read (fd nBytes : Z) : prog (list byte) :=
  let! r := sys (read fd nBytes) in
  if bool_decide (from_option (fun bs => Z.of_nat (length bs)) (-1) r = nBytes) then ret (default [] r) else fail.

(** [buf]: what the buffer holds. *)
Definition Write (fd : Z) (buf : list byte) (nBytes : Z) : prog unit :=
  let! r := sys (fun h => if bool_decide (nBytes < 0) then (-1, h) else write fd (take (Z.to_nat nBytes) buf) h) in
  if bool_decide (r = nBytes) then ret tt else fail.

(** [strcmp] of a name of eight characters against a shorter constant. *)
Definition named (s : list byte) (sec : scnhdr) : bool := bool_decide (take (S (length s)) (s_name sec) = s ++ [x00]).
Definition text_name : list byte := [x2e; x74; x65; x78; x74].
Definition data_name : list byte := [x2e; x64; x61; x74; x61].
Definition rdata_name : list byte := [x2e; x72; x64; x61; x74; x61].
Definition bss_name : list byte := [x2e; x62; x73; x73].

Definition set_code s n := mkNoff (noffMagic n) s (initData n) (readonlyData n) (uninitData n).
Definition set_initData s n := mkNoff (noffMagic n) (code n) s (readonlyData n) (uninitData n).
Definition set_readonlyData s n := mkNoff (noffMagic n) (code n) (initData n) s (uninitData n).
Definition set_uninitData s n := mkNoff (noffMagic n) (code n) (initData n) (readonlyData n) s.

(** The copy of a section's bytes, the same in three branches. *)
Definition copy_section (fdIn fdOut : Z) (sec : scnhdr) : prog unit :=
  let! _ := sys (lseek fdIn (s_scnptr sec) SEEK_SET) in
  let! buffer := Read fdIn (s_size sec) in
  Write fdOut buffer (s_size sec).

Definition contiguous (sec : scnhdr) (s : Segment) : bool := bool_decide (s_paddr sec = wrap32 (virtualAddr s + size s)).

(** The body of the loop, on the header and [inNoffFile]. *)
Definition section_body (fdIn fdOut : Z) (sec : scnhdr) (st : NoffHeader * Z) : prog (NoffHeader * Z) :=
  let '(noffH, inNoffFile) := st in
  let seg := mkSeg (s_paddr sec) inNoffFile (s_size sec) in
  let after := wrap32 (inNoffFile + s_size sec) in
  if bool_decide (s_size sec = 0) then ret st
  else if named text_name sec then
    let! _ := copy_section fdIn fdOut sec in ret (set_code seg noffH, after)
  else if named data_name sec then
    let! _ := copy_section fdIn fdOut sec in ret (set_initData seg noffH, after)
  else if named rdata_name sec then
    let! _ := copy_section fdIn fdOut sec in ret (set_readonlyData seg noffH, after)
  else if named bss_name sec then
    let bss := uninitData noffH in
    if negb (bool_decide (size bss = 0)) then
      if contiguous sec bss then fail
      else ret (set_uninitData (mkSeg (virtualAddr bss) (inFileAddr bss) (wrap32 (size bss + s_size sec))) noffH, inNoffFile)
    else ret (set_uninitData (mkSeg (s_paddr sec) (inFileAddr bss) (s_size sec)) noffH, inNoffFile)
  else fail.

Fixpoint sections_loop (fdIn fdOut : Z) (sections : list scnhdr) (st : NoffHeader * Z) : prog (NoffHeader * Z) :=
  match sections with
  | [] => ret st
  | sec :: sections => let! st := section_body fdIn fdOut sec st in sections_loop fdIn fdOut sections st
  end.

(** The header before the loop; what the code does not set is what the stack
    held. *)
Definition no_size (s : Segment) : Segment := mkSeg (virtualAddr s) (inFileAddr s) 0.
Definition init_header (stack : NoffHeader) : NoffHeader :=
  mkNoff NOFFMAGIC (no_size (code stack)) (no_size (initData stack)) (no_size (readonlyData stack)) (no_size (uninitData stack)).

Definition segment_words (s : Segment) : list Z := [virtualAddr s; inFileAddr s; size s].
Definition noff_bytes (n : NoffHeader) : list byte :=
  words_bytes (noffMagic n :: segment_words (code n) ++ segment_words (initData n) ++ segment_words (readonlyData n) ++
    segment_words (uninitData n)).

Definition swap_section (sec : scnhdr) : scnhdr :=
  mkScnhdr (s_name sec) (swap_int (s_paddr sec)) (s_vaddr sec) (swap_int (s_size sec)) (swap_int (s_scnptr sec)) (s_relptr sec)
    (s_lnnoptr sec) (s_nreloc sec) (s_nlnno sec) (s_flags sec).

(** [main] with both files open. *)
Definition convert (stack : NoffHeader) (fdIn fdOut : Z) : prog unit :=
  let! bs := Read fdIn size_filehdr in
  let fileh := filehdr_of bs in
  if negb (bool_decide (ShortToHost (f_magic fileh) = MIPSELMAGIC)) then fail
  else
    let! bs := Read fdIn size_aouthdr in
    let systemh := aouthdr_of bs in
    if negb (bool_decide (to_short (ShortToHost (magic systemh mod 2 ^ 16)) = OMAGIC)) then fail
    else
      let numsections := ShortToHost (f_nscns fileh) in
      let! bs := Read fdIn (numsections * size_scnhdr) in
      let sections := swap_section <$> sections_of (Z.to_nat numsections) bs in
      let! _ := sys (lseek fdOut NoffSize SEEK_SET) in
      let! st := sections_loop fdIn fdOut sections (init_header stack, NoffSize) in
      let '(noffH, _) := st in
      let! _ := sys (lseek fdOut 0 SEEK_SET) in
      let! _ := Write fdOut (noff_bytes (SwapHeader noffH)) NoffSize in
      let! _ := sys (close fdIn) in
      let! _ := sys (close fdOut) in
      exit 0.
End tool.

(** [main], with the arguments before the null pointer that ends them. *)
Definition main (stack : NoffHeader) (argv : list (list byte)) : prog unit :=
  match argv with
  | _ :: coffFileName :: rest =>
      let! fdIn := sys (open_existing coffFileName false) in
      if bool_decide (fdIn = -1) then exit 1
      else
        let! fdOut := create_name (head rest) in
        if bool_decide (fdIn = -1) then exit 1 else convert (head rest) stack fdIn fdOut
  | _ => exit 1
  end.

(** ** What it is to do *)

Inductive kind := Text | Data | Rdata | Bss.
#[export] Instance kind_eq_dec : EqDecision kind.
Proof. solve_decision. Defined.

Definition name_of (k : kind) : list byte :=
  match k with Text => text_name | Data => data_name | Rdata => rdata_name | Bss => bss_name end.
Definition segment_of (k : kind) (n : NoffHeader) : Segment :=
  match k with Text => code n | Data => initData n | Rdata => readonlyData n | Bss => uninitData n end.

(** The sections that are not empty. *)
Definition live (secs : list scnhdr) : list scnhdr := filter (fun sec => s_size sec <> 0) secs.

(** The bytes of a section, and of all the sections that have bytes. *)
Definition raw (file : list byte) (sec : scnhdr) : list byte := take (Z.to_nat (s_size sec)) (drop (Z.to_nat (s_scnptr sec)) file).
Definition payload (file : list byte) (secs : list (scnhdr * kind)) : list byte :=
  concat ((fun '(sec, k) => match k with Bss => [] | _ => raw file sec end) <$> secs).

(** A section of kind [k] that lies within the file. *)
Definition section_ok (file : list byte) (sec : scnhdr) (k : kind) : Prop :=
  named (name_of k) sec = true /\ 0 < s_size sec < 2 ^ 31 /\ int_range (s_paddr sec) /\
  (k = Bss \/ 0 <= s_scnptr sec /\ s_scnptr sec + s_size sec <= Z.of_nat (length file)).

(** The header of a COFF file, and its sections. *)
Record coff (file : list byte) (secs : list scnhdr) : Prop := {
  c_magic : u16_at 0 file = MIPSELMAGIC;
  c_system : u16_at 20 file = OMAGIC;
  c_long : 76 + u16_at 2 file * size_scnhdr <= Z.of_nat (length file);
  c_sections : secs = sections_of (Z.to_nat (u16_at 2 file)) (drop 76 file)
}.

(** ** Bytes *)

Lemma u16_at_take o n bs : (o + 2 <= n)%nat -> u16_at o (take n bs) = u16_at o bs.
Proof. intros H. unfold u16_at. by rewrite skipn_firstn_comm, take_take, Nat.min_l by lia. Qed.

Lemma u16_at_drop o n bs : u16_at o (drop n bs) = u16_at (n + o) bs.
Proof. unfold u16_at. by rewrite drop_drop. Qed.

Lemma long_at_range o bs : int_range (long_at o bs).
Proof. apply wrap32_range. Qed.

Lemma swap_int_id z : int_range z -> swap_int z = z.
Proof. intros H. unfold swap_int, WordToHost. rewrite wrap32_u32. by apply wrap32_small. Qed.

Lemma sections_of_swap n bs : swap_section <$> sections_of n bs = sections_of n bs.
Proof.
  revert bs. induction n as [|n IH]; intros bs; [done|]. cbn [sections_of fmap list_fmap]. rewrite IH. f_equal.
  unfold swap_section, scnhdr_of. cbn. by rewrite !swap_int_id by apply long_at_range.
Qed.

Lemma sections_of_take n bs m : (Z.to_nat size_scnhdr * n <= m)%nat -> sections_of n (take m bs) = sections_of n bs.
Proof.
  revert bs m. induction n as [|n IH]; intros bs m Hm; [done|]. cbn [sections_of]. change (Z.to_nat size_scnhdr) with 40%nat in *.
  rewrite skipn_firstn_comm, IH by lia. f_equal. unfold scnhdr_of, long_at. rewrite !u16_at_take by lia.
  rewrite !skipn_firstn_comm, !take_take. rewrite !Nat.min_l by lia. done.
Qed.

Lemma noff_of_bytes n : noff_of (noff_bytes (SwapHeader n)) = SwapHeader n.
Proof.
  unfold noff_of. change 13%nat with (length (noffMagic (SwapHeader n) :: segment_words (code (SwapHeader n)) ++
    segment_words (initData (SwapHeader n)) ++ segment_words (readonlyData (SwapHeader n)) ++ segment_words (uninitData (SwapHeader n)))).
  unfold noff_bytes. rewrite bytes_words_words. cbn. unfold SwapHeader, swap_segment, swap_int.
  by rewrite !wrap32_u32, !(wrap32_small (wrap32 _)) by apply wrap32_range.
Qed.

Lemma length_noff_bytes n : length (noff_bytes n) = 52%nat.
Proof. unfold noff_bytes. by rewrite length_words_bytes. Qed.

(** ** The host while the tool runs *)

Lemma seq_eq {A B} (m : prog A) (k : A -> prog B) h a h' : m h = (inl a, h') -> seq m k h = k a h'.
Proof. unfold seq. by intros ->. Qed.

Section running.
Context (h : host) (nm : list byte) (i o fdIn fdOut : Z) (file : list byte).
Hypothesis input_there : inodes h !! i = Some file.
Hypothesis other_inode : i <> o.
Hypothesis other_fd : fdIn <> fdOut.
Hypothesis in_free : fds h !! fdIn = None.
Hypothesis out_free : fds h !! fdOut = None.

(** The offsets of the two descriptors, and what has been written. *)
Definition during (oi oo : Z) (out : list byte) : host :=
  set_fds (<[fdOut := mkFd o oo false true]> (<[fdIn := mkFd i oi true false]> (fds h)))
    (set_inodes (<[o := out]> (inodes h)) (set_names (<[nm := o]> (names h)) h)).

Lemma during_in oi oo out : fds (during oi oo out) !! fdIn = Some (mkFd i oi true false).
Proof using other_fd. cbn. by rewrite lookup_insert_ne, lookup_insert_eq by done. Qed.
Lemma during_out oi oo out : fds (during oi oo out) !! fdOut = Some (mkFd o oo false true).
Proof using. cbn. by rewrite lookup_insert_eq. Qed.
Lemma during_file oi oo out d : inode d = i -> file_of (during oi oo out) d = file.
Proof using input_there other_inode. intros Hd. unfold file_of, during. cbn. by rewrite Hd, lookup_insert_ne, input_there by done. Qed.
Lemma during_written oi oo out d : inode d = o -> file_of (during oi oo out) d = out.
Proof using. intros Hd. unfold file_of, during. cbn. by rewrite Hd, lookup_insert_eq. Qed.

Lemma during_set_in oi oi' oo out :
  set_fds (<[fdIn := mkFd i oi' true false]> (fds (during oi oo out))) (during oi oo out) = during oi' oo out.
Proof using other_fd. unfold during, set_fds. cbn. f_equal. by rewrite insert_insert_ne, insert_insert_eq by done. Qed.
Lemma during_set_out oi oo oo' out out' :
  set_fds (<[fdOut := mkFd o oo' false true]> (fds (during oi oo out)))
    (set_inodes (<[o := out']> (inodes (during oi oo out))) (during oi oo out)) = during oi oo' out'.
Proof using. unfold during, set_fds, set_inodes. cbn. f_equal; by rewrite insert_insert_eq. Qed.

Lemma Read_during n oi oo out : 0 <= oi -> 0 <= n -> oi + n <= Z.of_nat (length file) ->
  Read (Some nm) fdIn n (during oi oo out) = (inl (take (Z.to_nat n) (drop (Z.to_nat oi) file)), during (oi + n) oo out).
Proof using input_there other_inode other_fd.
  intros Ho Hn Hl. unfold Read. erewrite seq_eq; [|unfold sys, read; rewrite during_in; cbn [readable offset inode writable andb];
    rewrite during_file by done; rewrite bool_decide_eq_true_2 by done; reflexivity].
  cbn [andb from_option]. assert (Hlen : Z.of_nat (length (take (Z.to_nat n) (drop (Z.to_nat oi) file))) = n) by (rewrite length_take, length_drop; lia).
  rewrite Hlen, bool_decide_eq_true_2 by done. unfold ret. by rewrite during_set_in.
Qed.

Lemma lseek_in p oi oo out : 0 <= p -> sys (lseek fdIn p SEEK_SET) (during oi oo out) = (inl p, during p oo out).
Proof using other_fd. intros Hp. unfold sys, lseek. rewrite during_in, Z.add_0_r, bool_decide_eq_true_2 by done. cbn [inode readable writable]. by rewrite during_set_in. Qed.

Lemma during_seek oi oo oo' out :
  set_fds (<[fdOut := mkFd o oo' false true]> (fds (during oi oo out))) (during oi oo out) = during oi oo' out.
Proof using. unfold during, set_fds. cbn. f_equal. by rewrite insert_insert_eq. Qed.

Lemma lseek_out p oi oo out : 0 <= p -> sys (lseek fdOut p SEEK_SET) (during oi oo out) = (inl p, during oi p out).
Proof using. intros Hp. unfold sys, lseek. rewrite during_out, Z.add_0_r, bool_decide_eq_true_2 by done. cbn [inode readable writable]. by rewrite during_seek. Qed.

Lemma Write_during bs oi oo out : bs <> [] ->
  Write (Some nm) fdOut bs (Z.of_nat (length bs)) (during oi oo out) =
  (inl tt, during oi (oo + Z.of_nat (length bs)) (Disk.splice (Z.to_nat oo) bs (pad oo out))).
Proof using.
  intros Hbs. unfold Write. rewrite bool_decide_eq_false_2 by lia. rewrite Nat2Z.id, firstn_all.
  erewrite seq_eq; [|unfold sys, write; rewrite during_out; cbn [readable offset inode writable andb];
    rewrite during_written by done; reflexivity].
  rewrite bool_decide_eq_true_2 by done. unfold ret. destruct bs as [|b bs]; [done|]. by rewrite during_set_out.
Qed.

(** What the file holds when [p] has been written after the header's place. *)
Definition written (p : list byte) : list byte := match p with [] => [] | _ => replicate 52 x00 ++ p end.
Definition copied (oi : Z) (p : list byte) : host := during oi (NoffSize + Z.of_nat (length p)) (written p).

Lemma splice_end {A} (n : nat) (bs l : list A) : length l = n -> Disk.splice n bs l = l ++ bs.
Proof using. intros <-. unfold Disk.splice. rewrite take_ge, drop_ge, app_nil_r by lia. done. Qed.

Lemma Write_copied bs oi p : bs <> [] -> Write (Some nm) fdOut bs (Z.of_nat (length bs)) (copied oi p) = (inl tt, copied oi (p ++ bs)).
Proof using.
  intros Hbs. unfold copied. rewrite Write_during by done. f_equal. f_equal; [rewrite length_app; lia|].
  destruct p as [|b p].
  - change (NoffSize + Z.of_nat (length [])) with 52. change (pad 52 (written [])) with (replicate 52 x00).
    rewrite splice_end by done. destruct bs; done.
  - unfold pad. replace (Z.to_nat (NoffSize + Z.of_nat (length (b :: p))) - length (written (b :: p)))%nat with 0%nat
      by (unfold written; rewrite length_app, length_replicate; unfold NoffSize; lia). cbn [replicate].
    rewrite app_nil_r, splice_end by (unfold written; rewrite length_app, length_replicate; unfold NoffSize; lia).
    unfold written. cbn [app]. by rewrite <- app_assoc.
Qed.

Lemma finish_copied oi p n :
  (let! _ := sys (lseek fdOut 0 SEEK_SET) in
   let! _ := Write (Some nm) fdOut (noff_bytes n) NoffSize in
   let! _ := sys (close fdIn) in let! _ := sys (close fdOut) in exit (A := unit) 0) (copied oi p) =
  (inr 0, set_inodes (<[o := noff_bytes n ++ p]> (inodes h)) (set_names (<[nm := o]> (names h)) h)).
Proof using other_fd in_free out_free.
  unfold copied. erewrite seq_eq by (apply lseek_out; lia). pose proof (length_noff_bytes n) as Hl.
  pose proof (Write_during (noff_bytes n) oi 0 (written p)) as HW. rewrite Hl in HW. change (Z.of_nat 52) with NoffSize in HW.
  erewrite seq_eq by (apply HW; intros E; by rewrite E in Hl). clear HW.
  assert (Hout : Disk.splice (Z.to_nat 0) (noff_bytes n) (pad 0 (written p)) = noff_bytes n ++ p).
  { unfold Disk.splice, pad. change (Z.to_nat 0) with 0%nat. cbn [Nat.sub replicate]. rewrite take_0, app_nil_r. cbn [app Nat.add]. rewrite Hl. by destruct p. }
  rewrite Hout. unfold seq at 1. unfold sys, close. rewrite during_in. unfold seq. cbn [fds set_fds].
  rewrite lookup_delete_ne, during_out by done. unfold exit. f_equal. unfold during, set_fds. cbn. f_equal.
  rewrite (delete_insert_ne _ fdIn fdOut) by done. rewrite (delete_insert_id (fds h)) by done. by rewrite delete_insert_id.
Qed.

Lemma copy_section_during sec k oi p : section_ok file sec k -> k <> Bss ->
  exists oi', copy_section (Some nm) fdIn fdOut sec (copied oi p) = (inl tt, copied oi' (p ++ raw file sec)).
Proof using input_there other_inode other_fd.
  intros (_ & Hs & _ & [?|Hp]) Hk; [done|]. unfold copy_section, copied. erewrite seq_eq by (apply lseek_in; lia).
  erewrite seq_eq by (apply Read_during; lia). change (take _ _) with (raw file sec).
  assert (Hl : Z.of_nat (length (raw file sec)) = s_size sec) by (unfold raw; rewrite length_take, length_drop; lia).
  eexists. rewrite <- Hl at 1. apply Write_copied. intros E. rewrite E in Hl. simpl in Hl. lia.
Qed.
(** ** The loop over the sections *)

Definition piece (s : scnhdr * kind) : list byte := payload file [s].

Definition set_segment (k : kind) (s : Segment) (n : NoffHeader) : NoffHeader :=
  match k with Text => set_code s n | Data => set_initData s n | Rdata => set_readonlyData s n | Bss => set_uninitData s n end.

(** The segment of a section met when [p] has been copied. *)
Definition placed (s : scnhdr * kind) (n : NoffHeader) (p : list byte) : Segment :=
  mkSeg (s_paddr s.1) (match s.2 with Bss => inFileAddr (uninitData n) | _ => NoffSize + Z.of_nat (length p) end) (s_size s.1).

Fixpoint layout (l : list (scnhdr * kind)) (n : NoffHeader) (p : list byte) : NoffHeader :=
  match l with [] => n | s :: l => layout l (set_segment s.2 (placed s n p) n) (p ++ piece s) end.

Lemma named_one sec k k' : named (name_of k) sec = true -> named (name_of k') sec = bool_decide (k' = k).
Proof using.
  unfold named. rewrite bool_decide_eq_true. intros Hk. destruct (decide (k' = k)) as [->|Hne]; [by rewrite !bool_decide_eq_true_2|].
  rewrite !bool_decide_eq_false_2; [done|done|]. intros Hk'.
  destruct (s_name sec) as [|c0 [|c1 [|c2 [|c3 [|c4 [|c5 cs]]]]]]; destruct k, k'; cbn in Hk, Hk'; congruence.
Qed.

Lemma payload_cons s l : payload file (s :: l) = piece s ++ payload file l.
Proof using. destruct s as [sec k]. unfold piece, payload. cbn. by rewrite app_nil_r. Qed.

Ltac decide_kinds :=
  repeat match goal with
  | |- context [bool_decide (?a = ?b :> kind)] => let v := eval vm_compute in (bool_decide (a = b)) in change (bool_decide (a = b)) with v; cbv iota
  end.

Lemma section_body_during sec k n oi p : section_ok file sec k -> (k = Bss -> size (uninitData n) = 0) ->
  NoffSize + Z.of_nat (length (p ++ piece (sec, k))) < 2 ^ 31 ->
  exists oi', section_body (Some nm) fdIn fdOut sec (n, NoffSize + Z.of_nat (length p)) (copied oi p) =
    (inl (set_segment k (placed (sec, k) n p) n, NoffSize + Z.of_nat (length (p ++ piece (sec, k)))), copied oi' (p ++ piece (sec, k))).
Proof using input_there other_inode other_fd.
  intros Hok Hb Hl. pose proof Hok as (Hn & Hs & _ & Hp). unfold section_body. rewrite bool_decide_eq_false_2 by lia.
  pose proof (named_one sec k Text Hn) as H1. pose proof (named_one sec k Data Hn) as H2. pose proof (named_one sec k Rdata Hn) as H3.
  pose proof (named_one sec k Bss Hn) as H4. cbn [name_of] in *. rewrite H1, H2, H3, H4. clear H1 H2 H3 H4.
  assert (Hpiece : piece (sec, k) = match k with Bss => [] | _ => raw file sec end) by (unfold piece, payload; cbn; by rewrite app_nil_r).
  rewrite Hpiece in *. destruct (decide (k = Bss)) as [->|Hk].
  - cbn. rewrite Hb by done. cbn. exists oi. unfold ret. by rewrite app_nil_r.
  - destruct (copy_section_during sec k oi p Hok Hk) as (oi' & Hc). exists oi'.
    assert (Hraw : Z.of_nat (length (raw file sec)) = s_size sec).
    { destruct Hp as [?|Hp]; [done|]. unfold raw. rewrite length_take, length_drop. lia. }
    destruct k; [| | |done]; decide_kinds; rewrite (seq_eq _ _ _ _ _ Hc); unfold ret; rewrite length_app in *;
      rewrite wrap32_small by (unfold int_range, NoffSize in *; lia); do 3 f_equal; lia.
Qed.

Lemma layout_bss k s n : (k = Bss -> size (uninitData n) = 0) -> s.2 <> k -> forall p,
  k = Bss -> size (uninitData (set_segment s.2 (placed s n p) n)) = 0.
Proof using. intros Hb Hs p ->. destruct s as [sec []]; cbn in *; try by apply Hb. done. Qed.

Lemma sections_loop_during l : forall n oi p,
  Forall (fun s => section_ok file s.1 s.2) l -> NoDup l.*2 -> (Bss ∈ l.*2 -> size (uninitData n) = 0) ->
  NoffSize + Z.of_nat (length (p ++ payload file l)) < 2 ^ 31 ->
  exists oi', sections_loop (Some nm) fdIn fdOut l.*1 (n, NoffSize + Z.of_nat (length p)) (copied oi p) =
    (inl (layout l n p, NoffSize + Z.of_nat (length (p ++ payload file l))), copied oi' (p ++ payload file l)).
Proof using input_there other_inode other_fd.
  induction l as [|[sec k] l IH]; intros n oi p Hok Hnd Hb Hl.
  - cbn. exists oi. unfold payload. cbn. by rewrite app_nil_r.
  - rewrite payload_cons, app_assoc in *. apply Forall_cons in Hok as [Hs Hok]. cbn [fmap list_fmap fst snd] in *. apply NoDup_cons in Hnd as [Hk Hnd].
    cbn [sections_loop]. destruct (section_body_during sec k n oi p Hs) as (oi1 & Hbody).
    + intros ->. apply Hb, elem_of_cons. by left.
    + rewrite (length_app _ (payload _ _)) in Hl. lia.
    + rewrite (seq_eq _ _ _ _ _ Hbody). cbn [layout snd]. apply IH; try done. intros Hin. apply (layout_bss Bss (sec, k) n); try done.
      * intros _. apply Hb, elem_of_cons. by right.
      * cbn. by intros ->.
Qed.

Lemma segment_set k k' s n : segment_of k (set_segment k' s n) = if decide (k = k') then s else segment_of k n.
Proof using. by destruct k, k'. Qed.

Lemma layout_other k l : forall n p, k ∉ l.*2 -> segment_of k (layout l n p) = segment_of k n.
Proof using.
  induction l as [|s l IH]; intros n p Hk; [done|]. cbn [fmap list_fmap layout] in *. apply not_elem_of_cons in Hk as [Hk Hl].
  rewrite IH by done. by rewrite segment_set, decide_False.
Qed.

Lemma layout_at sec k l1 : forall l2 n p, NoDup (l1 ++ (sec, k) :: l2).*2 ->
  let s := segment_of k (layout (l1 ++ (sec, k) :: l2) n p) in
  virtualAddr s = s_paddr sec /\ size s = s_size sec /\
  (k <> Bss -> inFileAddr s = NoffSize + Z.of_nat (length (p ++ payload file l1))).
Proof using.
  induction l1 as [|s l1 IH]; intros l2 n p Hnd; cbn [app fmap list_fmap layout snd] in *; apply NoDup_cons in Hnd as [Hk Hnd].
  - rewrite layout_other, segment_set, decide_True by done. cbn. unfold payload. cbn. rewrite app_nil_r. split_and!; try done. by destruct k.
  - rewrite payload_cons, app_assoc. by apply IH.
Qed.
End running.

(** ** The whole run *)

Lemma sections_loop_live nm fdIn fdOut secs : forall st h,
  sections_loop nm fdIn fdOut secs st h = sections_loop nm fdIn fdOut (live secs) st h.
Proof.
  induction secs as [|sec secs IH]; intros st h; [done|]. unfold live. rewrite filter_cons. case_decide as Hs.
  - cbn [sections_loop]. unfold seq. destruct (section_body _ _ _ sec st h) as [[st'|r] h']; [apply IH|done].
  - cbn [sections_loop]. erewrite seq_eq; [apply IH|]. destruct st as [n a]. cbn [section_body]. rewrite bool_decide_eq_true_2; [done|].
    destruct (decide (s_size sec = 0)); [done|by destruct Hs].
Qed.

Lemma layout_magic file l : forall n p, noffMagic (layout file l n p) = noffMagic n.
Proof. induction l as [|[sec k] l IH]; intros n p; [done|]. cbn [layout]. rewrite IH. by destruct k. Qed.

(** Files the tool is run on: the input is there and may be read, the output may
    be written and is not the input, and two descriptors are free. *)
Record runnable (h : host) (cn nn : list byte) (i : Z) (file : list byte) : Prop := {
  r_input : names h !! cn = Some i /\ inodes h !! i = Some file;
  r_admits : admits h cn = true /\ admits h nn = true;
  r_other : names h !! nn <> Some i;
  r_descriptors : unused (fds h) < fd_limit h /\ forall d, unused (<[unused (fds h) := d]> (fds h)) < fd_limit h
}.

(** The header the tool writes. *)
Definition header_of (stack : NoffHeader) (file : list byte) (l : list (scnhdr * kind)) : NoffHeader :=
  SwapHeader (layout file l (init_header stack) []).

(** The host after a run. *)
Definition converted (h : host) (nn : list byte) (o : Z) (out : list byte) : host :=
  set_inodes (<[o := out]> (inodes h)) (set_names (<[nn := o]> (names h)) h).

Lemma convert_ok stack h nm i o fdIn fdOut file secs l :
  inodes h !! i = Some file -> i <> o -> fdIn <> fdOut -> fds h !! fdIn = None -> fds h !! fdOut = None ->
  coff file secs -> live secs = l.*1 -> Forall (fun s => section_ok file s.1 s.2) l -> NoDup l.*2 ->
  NoffSize + Z.of_nat (length (payload file l)) < 2 ^ 31 ->
  convert (Some nm) stack fdIn fdOut (during h nm i o fdIn fdOut 0 0 []) =
  (inr 0, converted h nm o (noff_bytes (header_of stack file l) ++ payload file l)).
Proof.
  intros Hi Hio Hfd Hf1 Hf2 [Hm Hs Hlen Hsecs] Hlive Hok Hnd Hsz. unfold size_scnhdr in Hlen.
  assert (Hns : 0 <= u16_at 2 file) by apply le_val_range.
  unfold convert. erewrite seq_eq by (apply Read_during; unfold size_filehdr; try done; lia).
  unfold filehdr_of. cbn [f_magic f_nscns]. rewrite drop_0, !u16_at_take by (cbv; lia). unfold ShortToHost.
  rewrite Hm, bool_decide_eq_true_2 by done. cbn [negb].
  erewrite seq_eq by (apply Read_during; unfold size_filehdr, size_aouthdr; try done; lia).
  unfold aouthdr_of. cbn [magic]. rewrite u16_at_take, u16_at_drop by (cbv; lia). change (Z.to_nat (0 + size_filehdr) + 0)%nat with 20%nat. rewrite Hs.
  rewrite bool_decide_eq_true_2 by done. cbn [negb].
  erewrite seq_eq by (apply Read_during; unfold size_filehdr, size_aouthdr, size_scnhdr; try done; lia).
  rewrite sections_of_take by (unfold size_scnhdr; lia). change (Z.to_nat (0 + size_filehdr + size_aouthdr)) with 76%nat. rewrite <- Hsecs.
  replace (swap_section <$> secs) with secs by (rewrite Hsecs; symmetry; apply sections_of_swap).
  erewrite seq_eq by (apply lseek_out; by unfold NoffSize).
  match goal with |- seq _ _ (during _ _ _ _ _ _ ?oi _ _) = _ => 
    change (during h nm i o fdIn fdOut oi NoffSize []) with (copied h nm i o fdIn fdOut oi []);
    destruct (sections_loop_during h nm i o fdIn fdOut file Hi Hio Hfd l (init_header stack) oi []) as (oi' & Hloop); try done end.
  unfold seq at 1. rewrite sections_loop_live, Hlive. change (NoffSize + Z.of_nat (length [])) with NoffSize in Hloop. rewrite Hloop.
  by apply finish_copied.
Qed.

Lemma coff2noff_ok stack h prog cn nn i file secs l :
  runnable h cn nn i file -> coff file secs -> live secs = l.*1 -> Forall (fun s => section_ok file s.1 s.2) l -> NoDup l.*2 ->
  NoffSize + Z.of_nat (length (payload file l)) < 2 ^ 31 ->
  exists o, o <> i /\ main stack [prog; cn; nn] h = (inr 0, converted h nn o (noff_bytes (header_of stack file l) ++ payload file l)).
Proof.
  intros [[Hcn Hi] [Ha1 Ha2] Ho [Hd1 Hd2]] Hc Hlive Hok Hnd Hsz. set (fdIn := unused (fds h)) in *.
  set (d := mkFd i 0 true false). set (fdOut := unused (<[fdIn := d]> (fds h))). set (o := default (unused (inodes h)) (names h !! nn)).
  destruct (unused_ok (fds h)) as [Hp1 Hf1]. destruct (unused_ok (<[fdIn := d]> (fds h))) as [Hp2 Hf2]. fold fdIn in Hp1, Hf1. fold fdOut in Hp2, Hf2.
  destruct (decide (fdIn = fdOut)) as [E|Hne]; [rewrite <- E, lookup_insert_eq in Hf2; done|]. rewrite lookup_insert_ne in Hf2 by done.
  assert (Hio : i <> o).
  { unfold o. destruct (names h !! nn) as [j|]; cbn; [congruence|]. intros E. destruct (unused_ok (inodes h)) as [_ Hu]. by rewrite <- E, Hi in Hu. }
  exists o. split; [done|]. unfold main. erewrite seq_eq.
  2: { unfold sys, open_existing. rewrite Hcn, Ha1, bool_decide_eq_true_2 by done. reflexivity. }
  fold fdIn. fold d. rewrite bool_decide_eq_false_2 by lia. erewrite seq_eq.
  2: { unfold create_name, sys. cbn [head fds set_fds admits fd_limit inodes names]. fold fdOut.
       rewrite Ha2, (bool_decide_eq_true_2 (fdOut < _)) by apply Hd2. reflexivity. }
  by apply (convert_ok stack h nn i o fdIn fdOut file secs l).
Qed.

(** ** What the header says *)

Lemma segment_swap k n : segment_of k (SwapHeader n) = swap_segment (segment_of k n).
Proof. by destruct k. Qed.

Lemma header_round stack file l r : noff_of (take (Z.to_nat NoffSize) (noff_bytes (header_of stack file l) ++ r)) = header_of stack file l.
Proof. rewrite take_app_length' by (by rewrite length_noff_bytes). apply noff_of_bytes. Qed.

Lemma header_magic stack file l : noffMagic (header_of stack file l) = NOFFMAGIC.
Proof. unfold header_of. cbn [noffMagic SwapHeader]. by rewrite layout_magic. Qed.

Lemma header_absent stack file l k : k ∉ l.*2 -> size (segment_of k (header_of stack file l)) = 0.
Proof. intros Hk. unfold header_of. rewrite segment_swap. cbn [size swap_segment]. rewrite layout_other by done. by destruct k. Qed.

Lemma payload_app file l1 l2 : payload file (l1 ++ l2) = payload file l1 ++ payload file l2.
Proof. unfold payload. by rewrite fmap_app, concat_app. Qed.

Lemma length_raw file sec k : section_ok file sec k -> k <> Bss -> Z.of_nat (length (raw file sec)) = s_size sec.
Proof. intros (_ & Hs & _ & [?|Hp]) Hk; [done|]. unfold raw. rewrite length_take, length_drop. lia. Qed.

Lemma header_present stack file l1 sec k l2 : let l := l1 ++ (sec, k) :: l2 in
  Forall (fun s => section_ok file s.1 s.2) l -> NoDup l.*2 -> NoffSize + Z.of_nat (length (payload file l)) < 2 ^ 31 ->
  let s := segment_of k (header_of stack file l) in
  virtualAddr s = s_paddr sec /\ size s = s_size sec /\ (k <> Bss -> inFileAddr s = NoffSize + Z.of_nat (length (payload file l1))).
Proof.
  intros l Hok Hnd Hsz. unfold header_of. rewrite segment_swap. pose proof (layout_at file sec k l1 l2 (init_header stack) [] Hnd) as (H1 & H2 & H3).
  fold l in H1, H2, H3. assert (Hs : section_ok file sec k) by (apply Forall_app in Hok as [_ Hok]; by apply Forall_cons in Hok as [? _]).
  destruct Hs as (_ & Hs & Hpa & _). cbn [virtualAddr size inFileAddr swap_segment]. rewrite H1, H2, !swap_int_id by (first [done|unfold int_range; lia]).
  split; [done|]. split; [done|]. intros Hk. rewrite H3 by done. cbn [app]. apply swap_int_id. unfold l in Hsz. rewrite payload_app, length_app in Hsz.
  unfold int_range, NoffSize in *. lia.
Qed.

(** ** A converted program is one the kernel loads *)

(** A program as the linker lays it out: code at 0, then data, then perhaps a
    segment to be zeroed, and room for all of it in [size] bytes of memory. *)
Definition bss_size (r : list (scnhdr * kind)) : Z := match r with (sec, _) :: _ => s_size sec | [] => 0 end.
Definition image_size (t d : scnhdr) (r : list (scnhdr * kind)) : Z := s_size t + s_size d + bss_size r + UserStackSize.

Record linked (t d : scnhdr) (r : list (scnhdr * kind)) : Prop := {
  l_bss : r = [] \/ exists b, r = [(b, Bss)];
  l_code : s_paddr t = 0 /\ s_size t <= s_paddr d;
  l_data : s_paddr d + s_size d <= image_size t d r;
  l_small : image_size t d r < 2 ^ 30
}.

Section loadable.
Context (stack : NoffHeader) (file : list byte) (t d : scnhdr) (r : list (scnhdr * kind)).
Notation l := ((t, Text) :: (d, Data) :: r).
Hypothesis sections_fit : Forall (fun s => section_ok file s.1 s.2) l.
Hypothesis distinct : NoDup l.*2.
Hypothesis linked_here : linked t d r.

Definition n_of : NoffHeader := header_of stack file l.
Definition out_of : list byte := noff_bytes n_of ++ payload file l.

Lemma linked_payload : payload file l = raw file t ++ raw file d.
Proof using sections_fit distinct linked_here. destruct (l_bss _ _ _ linked_here) as [->|[b ->]]; unfold payload; cbn; by rewrite app_nil_r. Qed.

Lemma sizes : Z.of_nat (length (raw file t)) = s_size t /\ Z.of_nat (length (raw file d)) = s_size d /\ 0 < s_size t /\ 0 < s_size d.
Proof using sections_fit.
  pose proof sections_fit as Hok. apply Forall_cons in Hok as [Ht Hok]. apply Forall_cons in Hok as [Hd _]. cbn [fst snd] in Ht, Hd.
  split; [by eapply length_raw|]. split; [by eapply length_raw|]. destruct Ht as (_ & Ht & _), Hd as (_ & Hd & _). lia.
Qed.

Lemma image_range : 0 < image_size t d r < 2 ^ 30 /\ s_size t + s_size d + UserStackSize <= image_size t d r /\ 0 <= bss_size r.
Proof using sections_fit distinct linked_here.
  destruct sizes as (_ & _ & H1 & H2). pose proof (l_small _ _ _ linked_here) as H3. unfold image_size, UserStackSize in *.
  assert (0 <= bss_size r); [|lia]. destruct (l_bss _ _ _ linked_here) as [->|[b ->]]; [done|]. cbn.
  apply Forall_cons in sections_fit as [_ Hok]. apply Forall_cons in Hok as [_ Hok]. apply Forall_cons in Hok as [(_ & Hb & _) _]. cbn in Hb. lia.
Qed.

Lemma small_file : NoffSize + Z.of_nat (length (payload file l)) < 2 ^ 31.
Proof using sections_fit distinct linked_here.
  destruct sizes as (H1 & H2 & _). destruct image_range as (H4 & H3 & _). rewrite linked_payload, length_app. unfold NoffSize, UserStackSize in *. lia.
Qed.

Lemma n_code : virtualAddr (code n_of) = 0 /\ size (code n_of) = s_size t /\ inFileAddr (code n_of) = 52.
Proof using sections_fit distinct linked_here.
  destruct (header_present stack file [] t Text ((d, Data) :: r) sections_fit distinct small_file) as (H1 & H2 & H3).
  change (segment_of Text _) with (code n_of) in H1, H2, H3. rewrite H1, H2, H3 by done. split; [apply linked_here|done].
Qed.

Lemma n_data : virtualAddr (initData n_of) = s_paddr d /\ size (initData n_of) = s_size d /\ inFileAddr (initData n_of) = 52 + s_size t.
Proof using sections_fit distinct linked_here.
  destruct (header_present stack file [(t, Text)] d Data r sections_fit distinct small_file) as (H1 & H2 & H3).
  change (segment_of Data _) with (initData n_of) in H1, H2, H3. rewrite H1, H2, H3 by done. split; [done|]. split; [done|].
  unfold payload. cbn. rewrite app_nil_r. destruct sizes as (-> & _). done.
Qed.

Lemma n_bss : size (uninitData n_of) = bss_size r.
Proof using sections_fit distinct linked_here.
  destruct (l_bss _ _ _ linked_here) as [E|[b E]].
  - unfold n_of. change (uninitData ?n) with (segment_of Bss n). rewrite header_absent; [by rewrite E|]. rewrite E. cbn. set_solver.
  - pose proof (header_present stack file [(t, Text); (d, Data)] b Bss []) as H. cbn [app] in H. rewrite <- E in H.
    destruct (H sections_fit distinct small_file) as (_ & H2 & _). unfold n_of. change (uninitData ?n) with (segment_of Bss n). by rewrite H2, E.
Qed.

Lemma n_pages : pages n_of = divRoundUp (image_size t d r) PageSize.
Proof using sections_fit distinct linked_here.
  unfold pages. destruct n_code as (_ & -> & _), n_data as (_ & -> & _). rewrite n_bss. f_equal. apply u32_small.
  destruct image_range as (H & _). unfold image_size in *. lia.
Qed.

Lemma pages_room : image_size t d r <= pages n_of * PageSize < image_size t d r + PageSize.
Proof using sections_fit distinct linked_here.
  rewrite n_pages. destruct image_range as (H & _). pose proof (divRoundUp_spec (image_size t d r) PageSize) as Hs. unfold PageSize in *. lia.
Qed.

Lemma out_executable h nn o : names h !! nn = Some o -> inodes h !! o = Some out_of -> admits h nn = true ->
  unused (fds h) < fd_limit h -> executable h nn out_of n_of.
Proof using sections_fit distinct linked_here.
  intros Hn Hi Ha Hf. destruct n_code as (C1 & C2 & C3), n_data as (D1 & D2 & D3). pose proof pages_room as Hp. destruct image_range as (Him & Hsz & _).
  destruct sizes as (S1 & S2 & S3 & S4). pose proof (l_data _ _ _ linked_here) as Hd. destruct (l_code _ _ _ linked_here) as [_ Hc].
  assert (Hlen : Z.of_nat (length out_of) = 52 + s_size t + s_size d).
  { unfold out_of. rewrite length_app, length_noff_bytes, linked_payload, length_app. lia. }
  unfold PageSize, UserStackSize in *. split.
  - by exists o.
  - done.
  - done.
  - split; [unfold NoffSize; lia|]. apply header_round.
  - apply header_magic.
  - rewrite C1, C3. unfold PageSize. lia.
  - rewrite D1, D3. unfold PageSize. lia.
  - rewrite D1, D3. unfold PageSize. lia.
Qed.

Lemma out_image_code j b : raw file t !! j = Some b -> image_byte out_of n_of (Z.of_nat j) = Some b.
Proof using sections_fit distinct linked_here.
  intros Hj. destruct n_code as (C1 & C2 & C3), n_data as (D1 & D2 & D3). destruct sizes as (S1 & S2 & S3 & S4). destruct (l_code _ _ _ linked_here) as [_ Hc].
  pose proof (lookup_lt_Some _ _ _ Hj) as Hl. unfold image_byte. rewrite D1, C2, C3, bool_decide_eq_false_2 by lia. rewrite bool_decide_eq_true_2 by done.
  unfold out_of. rewrite lookup_app_r by (rewrite length_noff_bytes; lia). rewrite length_noff_bytes, linked_payload.
  replace (Z.to_nat (52 + Z.of_nat j) - 52)%nat with j by lia. by rewrite lookup_app_l by lia.
Qed.

Lemma out_image_data j b : raw file d !! j = Some b -> image_byte out_of n_of (s_paddr d + Z.of_nat j) = Some b.
Proof using sections_fit distinct linked_here.
  intros Hj. destruct n_data as (D1 & D2 & D3). destruct sizes as (S1 & S2 & S3 & S4).
  unfold image_byte. rewrite D1, D2, D3, bool_decide_eq_true_2 by lia.
  unfold out_of. rewrite lookup_app_r by (rewrite length_noff_bytes; lia). rewrite length_noff_bytes, linked_payload.
  rewrite lookup_app_r by lia. replace (Z.to_nat _ - 52 - length (raw file t))%nat with j by lia. by rewrite Hj.
Qed.
End loadable.

(** ** Every exit *)

Section exits.
Context (nm : list byte) (fdIn fdOut : Z) (output : option Z).
Hypothesis distinct_fds : fdIn <> fdOut.

(** The output while it is open; [None]: it could not be opened. *)
Definition open_output (h : host) : Prop :=
  match output with
  | Some o => names h !! nm = Some o /\ exists oo, fds h !! fdOut = Some (mkFd o oo false true)
  | None => fds h !! fdOut = None
  end.

(** How the process may end. *)
Definition well_ended (status : Z) (h : host) : Prop :=
  status = 1 /\ names h !! nm = None \/
  status = 0 /\ exists o out, names h !! nm = Some o /\ inodes h !! o = Some out /\ NoffSize <= Z.of_nat (length out) /\
    noffMagic (noff_of (take (Z.to_nat NoffSize) out)) = NOFFMAGIC.

Definition triple {A} (P : host -> Prop) (m : prog A) (Q : A -> host -> Prop) : Prop :=
  forall h, P h -> match m h with (inl a, h') => Q a h' | (inr status, h') => well_ended status h' end.

Lemma triple_seq {A B} P (m : prog A) Q (k : A -> prog B) R : triple P m Q -> (forall a, triple (Q a) (k a) R) -> triple P (seq m k) R.
Proof using.
  intros Hm Hk h Hp. unfold seq. specialize (Hm h Hp). destruct (m h) as [[a|st] h']; [by apply (Hk a)|done].
Qed.

Lemma triple_ret {A} (P : host -> Prop) (a : A) (Q : A -> host -> Prop) : (forall h, P h -> Q a h) -> triple P (ret a) Q.
Proof using. intros H h Hp. by apply H. Qed.

Lemma triple_fail {A} P (Q : A -> host -> Prop) : triple P (fail (Some nm)) Q.
Proof using.
  intros h _. unfold fail, seq, unlink_name, sys, unlink. destruct (names h !! nm) eqn:E; left; cbn; [by rewrite lookup_delete_eq|done].
Qed.

(** A change of the input's descriptor. *)
Lemma open_output_in d h : open_output h -> open_output (set_fds (<[fdIn := d]> (fds h)) h).
Proof using distinct_fds. unfold open_output. destruct output; cbn; by rewrite lookup_insert_ne. Qed.

Lemma triple_Read n : triple open_output (Read (Some nm) fdIn n) (fun _ => open_output).
Proof using distinct_fds.
  unfold Read. apply (triple_seq _ _ (fun _ => open_output)).
  - intros h Hh. unfold sys, read. destruct (fds h !! fdIn) as [d|]; [|done]. destruct (readable d && _); [|done]. by apply open_output_in.
  - intros r. case_bool_decide; [by apply triple_ret|apply triple_fail].
Qed.

Lemma triple_lseek_in p : triple open_output (sys (lseek fdIn p SEEK_SET)) (fun _ => open_output).
Proof using distinct_fds.
  intros h Hh. unfold sys, lseek. destruct (fds h !! fdIn) as [d|]; [|done]. case_bool_decide; [|done]. by apply open_output_in.
Qed.

Lemma triple_Write bs n : triple open_output (Write (Some nm) fdOut bs n) (fun _ => open_output).
Proof using.
  unfold Write. apply (triple_seq _ _ (fun _ => open_output)).
  - intros h Hh. unfold sys. case_bool_decide; [done|]. unfold write, open_output in *. destruct output as [o|]; [|by rewrite Hh].
    destruct Hh as [Hn (oo & Hf)]. rewrite Hf. cbn. split; [done|]. eexists. by rewrite lookup_insert_eq.
  - intros r. case_bool_decide; [by apply triple_ret|apply triple_fail].
Qed.

Lemma triple_copy sec : triple open_output (copy_section (Some nm) fdIn fdOut sec) (fun _ => open_output).
Proof using distinct_fds.
  unfold copy_section. eapply triple_seq; [apply triple_lseek_in|]. intros ?. cbn beta.
  eapply triple_seq; [apply triple_Read|]. intros bs. apply triple_Write.
Qed.

(** The loop keeps the magic number. *)
Definition magic_kept (st : NoffHeader * Z) (h : host) : Prop := open_output h /\ noffMagic st.1 = NOFFMAGIC.

Lemma triple_body sec st : noffMagic st.1 = NOFFMAGIC -> triple open_output (section_body (Some nm) fdIn fdOut sec st) magic_kept.
Proof using distinct_fds.
  intros Hm. destruct st as [n a]. unfold section_body.
  assert (Hcopy : forall st', noffMagic st'.1 = NOFFMAGIC ->
    triple open_output (let! _ := copy_section (Some nm) fdIn fdOut sec in ret st') magic_kept).
  { intros st' Hst. eapply triple_seq; [apply triple_copy|]. intros ?. cbn beta. apply triple_ret. by split. }
  case_bool_decide; [apply triple_ret; by split|]. do 3 (destruct (named _ _); [by apply Hcopy|]).
  destruct (named _ _); [|apply triple_fail]. destruct (negb _); [destruct (contiguous _ _); [apply triple_fail|]|]; apply triple_ret; by split.
Qed.

Lemma triple_loop secs : forall st, noffMagic st.1 = NOFFMAGIC -> triple open_output (sections_loop (Some nm) fdIn fdOut secs st) magic_kept.
Proof using distinct_fds.
  induction secs as [|sec secs IH]; intros st Hm; [apply triple_ret; by split|]. cbn [sections_loop].
  eapply triple_seq; [by apply triple_body|]. intros st' h [Ho Hm']. by apply IH.
Qed.

(** The output at its first byte, and with a header there. *)
Definition at_start (h : host) : Prop :=
  match output with
  | Some o => names h !! nm = Some o /\ fds h !! fdOut = Some (mkFd o 0 false true)
  | None => fds h !! fdOut = None
  end.
Definition headed (h : host) : Prop :=
  exists o out, names h !! nm = Some o /\ inodes h !! o = Some out /\ NoffSize <= Z.of_nat (length out) /\
    noffMagic (noff_of (take (Z.to_nat NoffSize) out)) = NOFFMAGIC.

Lemma triple_start : triple open_output (sys (lseek fdOut 0 SEEK_SET)) (fun _ => at_start).
Proof using.
  intros h Hh. unfold sys, lseek, open_output, at_start in *. destruct output as [o|]; [|by rewrite Hh]. destruct Hh as [Hn (oo & Hf)].
  rewrite Hf, bool_decide_eq_true_2 by done. split; [done|]. apply lookup_insert_eq.
Qed.

Lemma triple_lseek_out p : triple open_output (sys (lseek fdOut p SEEK_SET)) (fun _ => open_output).
Proof using.
  intros h Hh. unfold sys, lseek, open_output in *. destruct output as [o|]; [|by rewrite Hh]. destruct Hh as [Hn (oo & Hf)].
  rewrite Hf. case_bool_decide; (split; [done|]); [eexists; apply lookup_insert_eq|by exists oo].
Qed.

Lemma triple_header n : noffMagic n = NOFFMAGIC ->
  triple at_start (Write (Some nm) fdOut (noff_bytes (SwapHeader n)) NoffSize) (fun _ => headed).
Proof using.
  intros Hm h Hh. pose proof (length_noff_bytes (SwapHeader n)) as Hl. remember (noff_bytes (SwapHeader n)) as hdr eqn:Hhdr.
  unfold Write, seq, sys. rewrite bool_decide_eq_false_2 by done. rewrite (take_ge hdr) by (rewrite Hl; by vm_compute).
  unfold write, at_start in *. destruct output as [o|].
  - destruct Hh as [Hn Hf]. rewrite Hf. cbn [writable]. rewrite bool_decide_eq_true_2 by (by rewrite Hl). cbn.
    exists o, (hdr ++ drop 52 (pad 0 (file_of h (mkFd o 0 false true)))). split; [done|]. split.
    + cbn [inodes set_fds set_inodes]. rewrite lookup_insert_eq. f_equal. destruct hdr; [done|]. unfold Disk.splice. cbn [Nat.add]. by rewrite Hl.
    + split; [rewrite length_app, Hl; unfold NoffSize; lia|]. rewrite take_app_length' by (by rewrite Hl).
      rewrite Hhdr, noff_of_bytes. cbn. by rewrite Hm.
  - rewrite Hh. rewrite bool_decide_eq_false_2 by done. by apply (triple_fail (A := unit) (fun _ => True) (fun _ => headed) h).
Qed.

Lemma triple_close fd : triple headed (sys (close fd)) (fun _ => headed).
Proof using. intros h Hh. unfold sys, close. by destruct (fds h !! fd). Qed.

Lemma triple_convert stack : triple open_output (convert (Some nm) stack fdIn fdOut) (fun _ _ => False).
Proof using distinct_fds.
  unfold convert. eapply triple_seq; [apply triple_Read|]. intros bs. case_bool_decide; cbn [negb]; [|apply triple_fail].
  eapply triple_seq; [apply triple_Read|]. intros bs'. case_bool_decide; cbn [negb]; [|apply triple_fail].
  eapply triple_seq; [apply triple_Read|]. intros bs''. eapply triple_seq.
  - apply triple_lseek_out.
  - intros ?. eapply triple_seq; [by apply triple_loop|]. intros [n ia] h [Ho Hm]. cbn [fst] in Hm. revert h Ho.
    eapply triple_seq; [apply triple_start|]. intros ?. eapply triple_seq; [by apply triple_header|]. intros ?.
    eapply triple_seq; [apply triple_close|]. intros ?. eapply triple_seq; [apply triple_close|]. intros ? h Hh. by right.
Qed.
End exits.

Lemma main_exits stack h prog cn nn : fds h !! (-1) = None ->
  match main stack [prog; cn; nn] h with
  | (inl _, _) => False
  | (inr status, h') => status = 1 /\ h' = h \/ well_ended nn status h'
  end.
Proof.
  intros Hneg. unfold main. unfold seq at 1. unfold sys, open_existing. destruct (unused_ok (fds h)) as [Hp Hf].
  set (fdIn := unused (fds h)) in *. destruct (names h !! cn) as [i|]; [|by left].
  destruct (admits h cn && bool_decide (fdIn < fd_limit h)); [|by left]. rewrite bool_decide_eq_false_2 by lia.
  set (d := mkFd i 0 true false). set (h1 := set_fds (<[fdIn := d]> (fds h)) h). cbn [head].
  unfold seq, create_name, sys. destruct (unused_ok (fds h1)) as [Hp1 Hf1].
  assert (Hne : fdIn <> unused (fds h1)) by (intros E; rewrite <- E in Hf1; unfold h1 in Hf1; cbn [fds set_fds] in Hf1; by rewrite lookup_insert_eq in Hf1).
  set (o := default (unused (inodes h1)) (names h1 !! nn)). destruct (admits h1 nn && bool_decide (unused (fds h1) < fd_limit h1)).
  - match goal with |- context [convert _ _ _ _ ?h2] => pose proof (triple_convert nn fdIn (unused (fds h1)) (Some o) Hne stack h2) as H end.
    destruct (convert _ _ _ _ _) as [[u|status] h']; [|right]; (apply H; split; [apply lookup_insert_eq|eexists; apply lookup_insert_eq]).
  - pose proof (triple_convert nn fdIn (-1) None ltac:(lia) stack h1) as H.
    destruct (convert _ _ _ _ _) as [[u|status] h']; [|right]; (apply H; unfold open_output, h1; cbn [fds set_fds]; rewrite lookup_insert_ne by lia; done).
Qed.

(** ** Properties *)

(** [coff2noff] converts: of any COFF executable with the right magic numbers
    whose non-empty sections are at most one each of .text, .data, .rdata and
    .bss, it makes, with exit status 0, a file with a NOFF header that gives each
    section its address, its size and the place of its bytes in the new file,
    and size 0 to a kind of section that is absent; the bytes there are those of
    the section in the COFF file; nothing else of the host changes and both
    descriptors are closed. *)
Theorem coff2noff_converts stack h prog cn nn i file secs l :
  runnable h cn nn i file -> coff file secs -> live secs = l.*1 -> Forall (fun s => section_ok file s.1 s.2) l -> NoDup l.*2 ->
  NoffSize + Z.of_nat (length (payload file l)) < 2 ^ 31 ->
  exists o out, o <> i /\ main stack [prog; cn; nn] h = (inr 0, converted h nn o out) /\
    let n := noff_of (take (Z.to_nat NoffSize) out) in
    noffMagic n = NOFFMAGIC /\ length out = (52 + length (payload file l))%nat /\
    (forall k, k ∉ l.*2 -> size (segment_of k n) = 0) /\
    (forall sec k, (sec, k) ∈ l -> let s := segment_of k n in
       virtualAddr s = s_paddr sec /\ size s = s_size sec /\
       (k <> Bss -> NoffSize <= inFileAddr s /\ take (Z.to_nat (size s)) (drop (Z.to_nat (inFileAddr s)) out) = raw file sec)).
Proof.
  intros Hr Hc Hlive Hok Hnd Hsz. destruct (coff2noff_ok stack h prog cn nn i file secs l Hr Hc Hlive Hok Hnd Hsz) as (o & Ho & Hmain).
  do 2 eexists. split; [exact Ho|]. split; [exact Hmain|]. cbv zeta. rewrite header_round. split; [apply header_magic|].
  split; [by rewrite length_app, length_noff_bytes|]. split; [apply header_absent|]. intros sec k Hin.
  apply list_elem_of_split in Hin as (l1 & l2 & ->). destruct (header_present stack file l1 sec k l2 Hok Hnd Hsz) as (H1 & H2 & H3).
  cbv zeta. split; [done|]. split; [done|]. intros Hk. rewrite H2, H3 by done. split; [lia|].
  assert (Hs : section_ok file sec k) by (apply Forall_app in Hok as [_ Hok]; by apply Forall_cons in Hok as [? _]).
  pose proof (length_raw file sec k Hs Hk) as Hl. rewrite payload_app, payload_cons, app_assoc.
  assert (Hp : piece file (sec, k) = raw file sec) by (unfold piece, payload; cbn; rewrite app_nil_r; by destruct k). rewrite Hp.
  rewrite drop_app_length' by (rewrite length_app, length_noff_bytes; unfold NoffSize; lia). apply take_app_length'. lia.
Qed.

(** C28: from the linker's output to a running program: of a COFF executable with
    its code at address 0 and its data after it, [coff2noff] makes a file from
    which [AddrSpace::AddrSpace], on any later occasion when memory has free
    frames in a row, builds an address space in which the processor reads each
    byte of both sections at the address the linker gave it. *)
Theorem coff2noff_then_load stack h prog cn nn i file secs t d r :
  runnable h cn nn i file -> coff file secs -> live secs = t :: d :: r.*1 ->
  Forall (fun s => section_ok file s.1 s.2) ((t, Text) :: (d, Data) :: r) -> NoDup ((t, Text) :: (d, Data) :: r).*2 -> linked t d r ->
  exists h', main stack [prog; cn; nn] h = (inr 0, h') /\
    forall stack' w f rest m, names (the_host w) = names h' -> inodes (the_host w) = inodes h' -> admits (the_host w) nn = true ->
      unused (fds (the_host w)) < fd_limit (the_host w) -> Bitmap.wf (gPhysPageBitmap w) -> Bitmap.numBits (gPhysPageBitmap w) = NumPhysPages ->
      addrLock w = 1 -> Bitmap.free (gPhysPageBitmap w) = seqZ f (divRoundUp (image_size t d r) PageSize) ++ rest -> tlb m = None ->
      exists sp w', new_AddrSpace stack' nn w = Ok (Some (Some sp, w')) /\
        let run := RestoreState sp (Machine.set_memory (fun _ => memory w') m) in
        forall sec j b, sec = t \/ sec = d -> raw file sec !! j = Some b ->
          read_value (s_paddr sec + Z.of_nat j) 1 run = Ok (inr (charZ b)).
Proof.
  intros Hr Hc Hlive Hok Hnd Hl. pose proof (small_file file t d r Hok Hnd Hl) as Hsz.
  destruct (coff2noff_ok stack h prog cn nn i file secs ((t, Text) :: (d, Data) :: r) Hr Hc Hlive Hok Hnd Hsz) as (o & Ho & Hmain). eexists. split; [exact Hmain|].
  intros stack' w f rest m Hn Hi Ha Hf Hw Hb Hk Hfree Ht. cbn [names inodes converted set_names set_inodes] in Hn, Hi.
  rewrite <- (n_pages stack file t d r Hok Hnd Hl) in Hfree.
  assert (He : executable (the_host w) nn (out_of stack file t d r) (n_of stack file t d r)).
  { apply (out_executable stack file t d r Hok Hnd Hl _ nn o); try done; [by rewrite Hn, lookup_insert_eq|by rewrite Hi, lookup_insert_eq]. }
  destruct (loads_program_ok stack' nn w _ _ f rest m He Hw Hb Hk Hfree Ht) as (sp & w' & Hnew & _ & _ & _ & Hread & _).
  exists sp, w'. split; [exact Hnew|]. intros run sec j b Hsec Hj. pose proof (lookup_lt_Some _ _ _ Hj) as Hlt.
  destruct (pages_room stack file t d r Hok Hnd Hl) as [Hp _]. destruct (sizes file t d r Hok) as (S1 & S2 & S3 & S4).
  pose proof (l_code _ _ _ Hl) as [Hc0 Hcd]. pose proof (l_data _ _ _ Hl) as Hdd.
  destruct Hsec as [-> | ->]; (apply Hread; [lia|]).
  - rewrite Hc0. by apply out_image_code.
  - by apply out_image_data.
Qed.

(** [coff2noff] never leaves a bad output behind: given any two names and
    whatever the input holds, it ends with status 1 having done nothing, or with
    status 1 and no file of the output's name, or with status 0 and there a file
    with the header's magic number. *)
Theorem coff2noff_exits stack h prog cn nn : fds h !! (-1) = None ->
  match main stack [prog; cn; nn] h with
  | (inl _, _) => False
  | (inr status, h') => status = 1 /\ h' = h \/ well_ended nn status h'
  end.
Proof. exact (main_exits stack h prog cn nn). Qed.

(** ** Witnesses *)

Definition scn_bytes (s_name : list byte) (paddr sz ptr : Z) : list byte :=
  take 8 (s_name ++ replicate 8 x00) ++ words_bytes [paddr; paddr; sz; ptr; 0; 0; 0; 0].
Definition coff_bytes (scns : list (list byte)) (data : list byte) : list byte :=
  le_bytes 2 MIPSELMAGIC ++ le_bytes 2 (Z.of_nat (length scns)) ++ replicate 16 x00 ++ le_bytes 2 OMAGIC ++ replicate 54 x00 ++
  concat scns ++ data.

(** Two instructions and a word of data. *)
Definition example_data : list byte := [x01; x02; x03; x04; x05; x06; x07; x08; x0a; x0b; x0c; x0d].
Definition example_coff : list byte := coff_bytes [scn_bytes text_name 0 8 156; scn_bytes data_name 8 4 164] example_data.
Definition example_text : scnhdr := scnhdr_of (scn_bytes text_name 0 8 156).
Definition example_init : scnhdr := scnhdr_of (scn_bytes data_name 8 4 164).
Definition in_name : list byte := [x61].
Definition out_name : list byte := [x62].
Definition host_with (file : list byte) : host := mkHost {[ in_name := 0 ]} {[ 0 := file ]} ∅ (fun _ => true) 16.
Definition no_segment : Segment := mkSeg 0 0 0.
Definition example_stack : NoffHeader := mkNoff 1 (mkSeg 7 7 7) no_segment (mkSeg 5 5 5) no_segment.

Lemma example_runnable : runnable (host_with example_coff) in_name out_name 0 example_coff.
Proof.
  split.
  - by vm_compute.
  - done.
  - by vm_compute.
  - split; [by vm_compute|]. intros d. by vm_compute.
Qed.

Lemma example_coff_ok : coff example_coff [example_text; example_init].
Proof. split; try (vm_compute; reflexivity). by vm_compute. Qed.

Lemma example_sections_ok : Forall (fun s => section_ok example_coff s.1 s.2) [(example_text, Text); (example_init, Data)].
Proof.
  repeat constructor; try (vm_compute; reflexivity); try (vm_compute; discriminate); right; split; vm_compute; congruence.
Qed.

Lemma example_distinct : NoDup [(example_text, Text); (example_init, Data)].*2.
Proof. repeat constructor; set_solver. Qed.

Lemma example_linked : linked example_text example_init [].
Proof. split; [by left|split; by vm_compute|by vm_compute|by vm_compute]. Qed.

Lemma coff2noff_converts_witness :
  exists o out, main example_stack [[]; in_name; out_name] (host_with example_coff) = (inr 0, converted (host_with example_coff) out_name o out) /\
    length out = 64%nat /\ size (readonlyData (noff_of (take 52 out))) = 0.
Proof.
  destruct (coff2noff_converts example_stack (host_with example_coff) [] in_name out_name 0 example_coff [example_text; example_init]
    [(example_text, Text); (example_init, Data)]) as (o & out & _ & H1 & _ & H2 & H3 & _).
  - exact example_runnable.
  - exact example_coff_ok.
  - vm_compute. reflexivity.
  - exact example_sections_ok.
  - exact example_distinct.
  - vm_compute. reflexivity.
  - exists o, out. split; [exact H1|]. split; [rewrite H2; vm_compute; reflexivity|]. apply (H3 Rdata).
    cbn. intros [E|[E|E]%elem_of_cons]%elem_of_cons; [discriminate|discriminate|by apply elem_of_nil in E].
Defined.

(** Another process on the same files. *)
Definition rebooted (h : host) : host := mkHost (names h) (inodes h) ∅ (fun _ => true) 16.

Lemma coff2noff_then_load_witness :
  exists h', main example_stack [[]; in_name; out_name] (host_with example_coff) = (inr 0, h') /\
    exists sp w', new_AddrSpace [] out_name (mkW (rebooted h') bitmap_example 1 ∅) = Ok (Some (Some sp, w')) /\
      read_value 9 1 (RestoreState sp (Machine.set_memory (fun _ => memory w') example_machine)) = Ok (inr 11).
Proof.
  destruct (coff2noff_then_load example_stack (host_with example_coff) [] in_name out_name 0 example_coff [example_text; example_init]
    example_text example_init []) as (h' & H1 & H2).
  - exact example_runnable.
  - exact example_coff_ok.
  - vm_compute. reflexivity.
  - exact example_sections_ok.
  - exact example_distinct.
  - exact example_linked.
  - exists h'. split; [exact H1|].
    destruct (H2 [] (mkW (rebooted h') bitmap_example 1 ∅) 0 (seqZ 3 125) example_machine) as (sp & w' & Hnew & Hread).
    + reflexivity.
    + reflexivity.
    + reflexivity.
    + vm_compute. reflexivity.
    + apply initial_accounted. exact bitmap_example_ok.
    + reflexivity.
    + reflexivity.
    + vm_compute. reflexivity.
    + reflexivity.
    + exists sp, w'. split; [exact Hnew|]. apply (Hread example_init 1%nat x0b); [by right|vm_compute; reflexivity].
Defined.

Lemma coff2noff_exits_witness :
  match main example_stack [[]; in_name; out_name] (host_with []) with
  | (inl _, _) => False
  | (inr status, h') => status = 1 /\ h' = host_with [] \/ well_ended out_name status h'
  end.
Proof. apply (coff2noff_exits example_stack (host_with []) [] in_name out_name). reflexivity. Defined.

(** ** What it gets wrong *)

Definition status_of (file : list byte) (argv : list (list byte)) : unit + Z := (main example_stack argv (host_with file)).1.
Definition files_after (file : list byte) (argv : list (list byte)) : gmap (list byte) Z :=
  names (main example_stack argv (host_with file)).2.

(** The test of two uninitialised sections is the wrong way round: it refuses
    the second when it follows the first, and adds its size when it does not. *)
Lemma coff2noff_bss_inverted :
  let two a := coff_bytes [scn_bytes text_name 0 8 196; scn_bytes bss_name 64 16 0; scn_bytes bss_name a 16 0] example_data in
  status_of (two 80) [[]; in_name; out_name] = inr 1 /\ status_of (two 4096) [[]; in_name; out_name] = inr 0.
Proof. vm_compute. done. Qed.

(** A section .sbss, which the comments promise and the linker script makes, is
    refused. *)
Lemma coff2noff_sbss_refused :
  status_of (coff_bytes [scn_bytes [x2e; x73; x62; x73; x73] 64 16 0] []) [[]; in_name; out_name] = inr 1.
Proof. vm_compute. done. Qed.

(** With one argument, which the test of [argc] accepts, it fails at the first
    write; with the same name twice it empties the input and then deletes it. *)
Lemma coff2noff_one_argument : status_of example_coff [[]; in_name] = inr 1.
Proof. vm_compute. done. Qed.
Lemma coff2noff_same_name : status_of example_coff [[]; in_name; in_name] = inr 1 /\ files_after example_coff [[]; in_name; in_name] = ∅.
Proof. vm_compute. done. Qed.

End Coff2Noff.
