(* ===== verification/STable.v ===== *)
(** * threads/stable.{h,cc}: the named semaphores of user programs

    Ten slots, a bitmap of those in use, and in each a semaphore with its name.
    The specification is a finite map from names to values. *)

From Stdlib Require Import Strings.Byte.
From S2P Require Import Prelude LibBitmap.

Module STable.

Definition MAX_SEMAPHORE : Z := 10.

(** [sem] is the value of the [Semaphore]; names are the bytes of C strings. *)
Record Sem := mkSem { name : list byte; sem : Z }.

(** [Sem::Sem]: the name is copied into an array of 50 [char]s. *)
Definition new_Sem (na : list byte) (i : Z) : result Sem :=
  if bool_decide (length na < 50)%nat then Ok (mkSem na i) else Fault OutOfBounds.

(** [Sem::wait]: [P] sleeps while the value is 0 ([None]). *)
Definition wait (s : Sem) : option Sem := if bool_decide (sem s = 0) then None else Some (mkSem (name s) (sem s - 1)).
Definition signal (s : Sem) : Sem := mkSem (name s) (sem s + 1).

Record STable := mkST { bm : Bitmap.t; semTab : list (option Sem) }.

Definition new_STable : result STable :=
  bm <- Bitmap.Bitmap MAX_SEMAPHORE ;; Ok (mkST bm (replicate (Z.to_nat MAX_SEMAPHORE) None)).

Definition sem_at (i : Z) (st : STable) : result Sem :=
  o <- lget (semTab st) i ;; match o with Some s => Ok s | None => Fault NullPointer end.

(** The loop over the slots that [Create], [Wait] and [Signal] start with. *)
Fixpoint find_sem (ks : list Z) (nm : list byte) (st : STable) : result (option Z) :=
  match ks with
  | [] => Ok None
  | i :: ks =>
      b <- Bitmap.Test (bm st) i ;;
      if b then
        s <- sem_at i st ;;
        if bool_decide (nm = name s) then Ok (Some i) else find_sem ks nm st
      else find_sem ks nm st
  end.

Definition FindFreeSlot (st : STable) : result (Z * STable) :=
  '(id, b) <- Bitmap.FindAndSet (bm st) ;; Ok (id, mkST b (semTab st)).

Definition set_sem (i : Z) (s : Sem) (st : STable) : result STable :=
  t <- lset (semTab st) i (Some s) ;; Ok (mkST (bm st) t).

Definition Create (nm : list byte) (init : Z) (st : STable) : result (Z * STable) :=
  r <- find_sem (seqZ 0 MAX_SEMAPHORE) nm st ;;
  match r with
  | Some _ => Ok (-1, st)
  | None =>
      '(id, st) <- FindFreeSlot st ;;
      if bool_decide (id < 0) then Ok (-1, st)
      else s <- new_Sem nm init ;; st <- set_sem id s st ;; Ok (0, st)
  end.

(** [None]: the calling thread sleeps on the semaphore. *)
Definition Wait (nm : list byte) (st : STable) : result (option (Z * STable)) :=
  r <- find_sem (seqZ 0 MAX_SEMAPHORE) nm st ;;
  match r with
  | None => Ok (Some (-1, st))
  | Some i =>
      s <- sem_at i st ;;
      match wait s with
      | None => Ok None
      | Some s => st <- set_sem i s st ;; Ok (Some (0, st))
      end
  end.

Definition Signal (nm : list byte) (st : STable) : result (Z * STable) :=
  r <- find_sem (seqZ 0 MAX_SEMAPHORE) nm st ;;
  match r with
  | None => Ok (-1, st)
  | Some i => s <- sem_at i st ;; st <- set_sem i (signal s) st ;; Ok (0, st)
  end.

(** ** The abstract table *)

Definition binding (s : Sem) : list byte * Z := (name s, sem s).
Definition bindings (t : list (option Sem)) : list (list byte * Z) := omap (fmap (M:=option) binding) t.

Record table_wf (st : STable) : Prop := {
  t_bm : Bitmap.wf (bm st);
  t_bits : Bitmap.numBits (bm st) = MAX_SEMAPHORE;
  t_len : Z.of_nat (length (semTab st)) = MAX_SEMAPHORE;
  t_used : forall i o, semTab st !! i = Some o -> Bitmap.test (bm st) (Z.of_nat i) = isSome o;
  t_names : NoDup ((bindings (semTab st)).*1)
}.

Definition represents (st : STable) (m : gmap (list byte) Z) : Prop :=
  table_wf st /\ m = list_to_map (bindings (semTab st)).

Lemma bindings_app t1 t2 : bindings (t1 ++ t2) = bindings t1 ++ bindings t2.
Proof. apply omap_app. Qed.

Lemma lookup_ne_slot {A} (t : list (option A)) (i : nat) : (i < length t)%nat -> exists o, t !! i = Some o.
Proof. intros Hi. destruct (lookup_lt_is_Some_2 t i Hi) as [o Ho]. by exists o. Qed.

Lemma find_sem_ok st nm : table_wf st -> forall n i, (i + n)%nat = Z.to_nat MAX_SEMAPHORE ->
  match find_sem (seqZ (Z.of_nat i) (Z.of_nat n)) nm st with
  | Ok (Some k) => exists s, 0 <= k /\ semTab st !! Z.to_nat k = Some (Some s) /\ name s = nm
  | Ok None => nm ∉ (bindings (drop i (semTab st))).*1
  | Fault _ => False
  end.
Proof.
  intros Hw n. induction n as [|n IH]; intros i Hi.
  - pose proof (t_len _ Hw) as Hl. rewrite seqZ_nil by done. cbn [find_sem]. rewrite drop_ge by lia. apply not_elem_of_nil.
  - pose proof (t_len _ Hw) as Hl. change MAX_SEMAPHORE with 10 in *. rewrite seqZ_cons by lia. cbn [find_sem].
    destruct (lookup_ne_slot (semTab st) i) as [o Ho]; [lia|].
    rewrite Bitmap.Test_ok by (first [apply Hw|rewrite (t_bits _ Hw); change MAX_SEMAPHORE with 10; lia]). rewrite (t_used _ Hw i o Ho). cbn [bind].
    replace (Z.succ (Z.of_nat i)) with (Z.of_nat (S i)) by lia. replace (Z.pred (Z.of_nat (S n))) with (Z.of_nat n) by lia.
    specialize (IH (S i) ltac:(lia)). rewrite (drop_S _ _ _ Ho). destruct o as [s|]; cbn [isSome].
    + unfold sem_at. rewrite (proj2 (lget_ok _ _ (Some s))) by (rewrite Nat2Z.id; split; [lia|done]). cbn [bind].
      destruct (decide (nm = name s)) as [E|E].
      * rewrite bool_decide_eq_true_2 by done. exists s. rewrite Nat2Z.id. split; [lia|done].
      * rewrite bool_decide_eq_false_2 by done. destruct (find_sem _ nm st) as [[k|]|]; [done| |done].
        change (bindings (Some s :: ?l)) with (binding s :: bindings l). rewrite fmap_cons. apply not_elem_of_cons. done.
    + destruct (find_sem _ nm st) as [[k|]|]; done.
Qed.

(** Where [find_sem] looks for a name, in terms of the map. *)
Lemma find_ok st m nm : represents st m ->
  (find_sem (seqZ 0 MAX_SEMAPHORE) nm st = Ok None /\ m !! nm = None) \/
  (exists k t1 s t2, find_sem (seqZ 0 MAX_SEMAPHORE) nm st = Ok (Some k) /\ semTab st = t1 ++ Some s :: t2 /\ k = Z.of_nat (length t1) /\
     name s = nm /\ m !! nm = Some (sem s)).
Proof.
  intros [Hw ->]. pose proof (find_sem_ok st nm Hw (Z.to_nat MAX_SEMAPHORE) 0 ltac:(done)) as Hf.
  change (Z.of_nat (Z.to_nat MAX_SEMAPHORE)) with MAX_SEMAPHORE in Hf. change (Z.of_nat 0) with 0 in Hf.
  destruct (find_sem _ nm st) as [[k|]|]; [right|left|done].
  - destruct Hf as (s & Hk & Hs & Hn). apply list_elem_of_split_length in Hs as (t1 & t2 & Ht & Hl). exists k, t1, s, t2.
    split; [done|]. split; [done|]. split; [lia|]. split; [done|]. apply elem_of_list_to_map; [apply Hw|].
    rewrite Ht, bindings_app. apply elem_of_app. right. rewrite <- Hn. left.
  - split; [done|]. rewrite drop_0 in Hf. by apply not_elem_of_list_to_map.
Qed.

(** ** Changing a slot *)

Lemma bindings_slot t1 s t2 : bindings (t1 ++ Some s :: t2) = bindings t1 ++ binding s :: bindings t2.
Proof. by rewrite bindings_app. Qed.

(** Any new contents of a slot, with the bits and the names in order. *)
Lemma slot_wf st t1 o o' t2 b : table_wf st -> semTab st = t1 ++ o :: t2 ->
  Bitmap.wf b -> Bitmap.numBits b = MAX_SEMAPHORE ->
  (forall i, 0 <= i < MAX_SEMAPHORE -> Bitmap.test b i = if decide (i = Z.of_nat (length t1)) then isSome o' else Bitmap.test (bm st) i) ->
  NoDup ((bindings (t1 ++ o' :: t2)).*1) -> table_wf (mkST b (t1 ++ o' :: t2)).
Proof.
  intros Hw Ht Hb Hn Hbit Hnd. pose proof (t_len _ Hw) as Hl. rewrite Ht in Hl. split; cbn [bm semTab]; try done.
  - by rewrite length_app in *.
  - intros i x Hi. assert (Hlt : (i < length (t1 ++ o :: t2))%nat) by (apply lookup_lt_Some in Hi; by rewrite length_app in *).
    rewrite Hbit by lia. destruct (decide (Z.of_nat i = Z.of_nat (length t1))) as [E|E].
    + assert (i = length t1) as -> by lia. rewrite list_lookup_middle in Hi by done. by injection Hi as <-.
    + apply (t_used _ Hw). rewrite Ht, (slot_other _ _ o o') by lia. done.
Qed.

Lemma set_sem_ok st m t1 s s' t2 : represents st m -> semTab st = t1 ++ Some s :: t2 -> name s' = name s ->
  exists st', set_sem (Z.of_nat (length t1)) s' st = Ok st' /\ represents st' (<[name s := sem s']> m).
Proof.
  intros [Hw ->] Ht Hn. unfold set_sem. rewrite Ht, slot_set. cbn [bind]. eexists. split; [done|].
  pose proof (t_names _ Hw) as Hnd. rewrite Ht, bindings_slot in Hnd.
  assert (Hnd' : NoDup ((bindings (t1 ++ Some s' :: t2)).*1)).
  { rewrite bindings_slot. rewrite fmap_app, fmap_cons in *. unfold binding in *. cbn [fst] in *. by rewrite Hn. }
  split; [apply (slot_wf st t1 (Some s) _ t2); try done; try apply Hw|].
  - intros i Hi. case_decide as E; [|done]. subst i. apply (t_used _ Hw _ (Some s)). rewrite Ht. by apply list_lookup_middle.
  - cbn [semTab]. rewrite bindings_slot in Hnd'. rewrite !bindings_slot.
    change (binding s) with (name s, sem s) in Hnd |- *. change (binding s') with (name s', sem s') in Hnd' |- *.
    destruct (list_to_map_middle _ _ _ _ Hnd) as [E _]. destruct (list_to_map_middle _ _ _ _ Hnd') as [E' _].
    rewrite E, E', Hn. by rewrite insert_insert_eq.
Qed.

(** The number of semaphores and the free slots. *)
Lemma bindings_full t : (forall o, o ∈ t -> isSome o = true) -> length (bindings t) = length t.
Proof.
  induction t as [|[s|] t IH]; intros Ht; [done| |].
  - change (bindings (Some s :: t)) with (binding s :: bindings t). cbn [length]. rewrite IH; [done|]. intros o Ho. apply Ht. by right.
  - specialize (Ht None ltac:(left)). done.
Qed.

Lemma bindings_le t : (length (bindings t) <= length t)%nat.
Proof. induction t as [|[s|] t IH]; [done| |]; unfold bindings in *; cbn; lia. Qed.

Lemma size_bindings st m : represents st m -> size m = length (bindings (semTab st)).
Proof. intros [Hw ->]. by rewrite map_size_list_to_map by apply Hw. Qed.

Lemma Create_ok st m nm init : represents st m -> (length nm < 50)%nat ->
  let ok := bool_decide (m !! nm = None) && bool_decide (Z.of_nat (size m) < MAX_SEMAPHORE) in
  exists st', Create nm init st = Ok (if ok then 0 else -1, st') /\ represents st' (if ok then <[nm := init]> m else m).
Proof.
  intros Hr Hlen ok. pose proof Hr as [Hw Hm]. unfold Create, ok.
  destruct (find_ok st m nm Hr) as [[-> Hnone]|(k & t1 & s & t2 & -> & _ & _ & _ & Hsome)]; cbn [bind].
  2: { rewrite Hsome, bool_decide_eq_false_2 by done. cbn [andb]. by exists st. }
  rewrite (bool_decide_eq_true_2 (m !! nm = None)) by done. cbn [andb]. unfold FindFreeSlot.
  destruct (Bitmap.FindAndSet_ok (bm st) (t_bm _ Hw)) as ([i b] & -> & Hf). cbn [bind]. unfold Bitmap.found in Hf.
  pose proof (t_len _ Hw) as Hl. rewrite (size_bindings st m Hr). destruct (Bitmap.free (bm st)) as [|j rest] eqn:Hfree.
  - injection Hf as -> ->. rewrite (bool_decide_eq_true_2 (-1 < 0)) by done. rewrite bool_decide_eq_false_2.
    { exists st. by destruct st. }
    rewrite bindings_full; [lia|]. intros o (i & Ho)%list_elem_of_lookup_1. rewrite <- (t_used _ Hw i o Ho).
    destruct (Bitmap.test (bm st) (Z.of_nat i)) eqn:E; [done|]. exfalso. apply lookup_lt_Some in Ho.
    assert (Hin : Z.of_nat i ∈ Bitmap.free (bm st)) by (apply Bitmap.elem_of_free; rewrite (t_bits _ Hw); split; [lia|done]).
    rewrite Hfree in Hin. by apply not_elem_of_nil in Hin.
  - destruct Hf as (E & Hu & _). cbn [fst snd] in E, Hu. subst j.
    assert (Hin : i ∈ Bitmap.free (bm st)) by (rewrite Hfree; left). apply Bitmap.elem_of_free in Hin as [Hi Ht]. rewrite (t_bits _ Hw) in Hi.
    rewrite (bool_decide_eq_false_2 (i < 0)) by lia. unfold new_Sem. rewrite (bool_decide_eq_true_2 (_ < 50)%nat) by done. cbn [bind].
    destruct (lookup_ne_slot (semTab st) (Z.to_nat i)) as [o Ho]; [lia|]. pose proof (t_used _ Hw _ _ Ho) as Hused. rewrite Z2Nat.id, Ht in Hused by lia.
    destruct o as [s|]; [done|]. apply list_elem_of_split_length in Ho as (t1 & t2 & Htab & Hi1).
    unfold set_sem. cbn [semTab bm]. rewrite Htab. replace i with (Z.of_nat (length t1)) by lia. rewrite slot_set. cbn [bind].
    assert (Hb : bindings (t1 ++ None :: t2) = bindings t1 ++ bindings t2) by by rewrite bindings_app.
    assert (Hnd : NoDup ((bindings t1 ++ (nm, init) :: bindings t2).*1)).
    { pose proof (t_names _ Hw) as Hnd. rewrite Htab, Hb, fmap_app in Hnd. rewrite fmap_app, fmap_cons, <- Permutation_middle. constructor; [|done].
      rewrite Hm in Hnone. apply not_elem_of_list_to_map in Hnone. by rewrite Htab, Hb, fmap_app in Hnone. }
    rewrite bool_decide_eq_true_2.
    + eexists. split; [done|]. split.
      * apply (slot_wf st t1 None _ t2); try done; [apply Hu|destruct Hu as (_ & -> & _); apply Hw| |by rewrite bindings_slot].
        intros x Hx. destruct Hu as (_ & _ & ->); [|by rewrite (t_bits _ Hw)]. replace (Z.of_nat (length t1)) with i by lia. cbn [isSome].
        destruct (decide (x = i)), (decide (i = x)); try done; congruence.
      * cbn [semTab]. change (bindings (t1 ++ Some (mkSem nm init) :: t2)) with (bindings (t1 ++ Some (mkSem nm init) :: t2)). rewrite bindings_slot.
        destruct (list_to_map_middle _ _ _ _ Hnd) as [E _]. change (binding (mkSem nm init)) with (nm, init). by rewrite E, Hm, Htab, Hb.
    + rewrite Hb, length_app. pose proof (bindings_le t1). pose proof (bindings_le t2). rewrite Htab, length_app in Hl. cbn [length] in Hl. lia.
Qed.

Lemma Wait_ok st m nm : represents st m ->
  match m !! nm with
  | None => Wait nm st = Ok (Some (-1, st))
  | Some v =>
      if decide (v = 0) then Wait nm st = Ok None
      else exists st', Wait nm st = Ok (Some (0, st')) /\ represents st' (<[nm := v - 1]> m)
  end.
Proof.
  intros Hr. unfold Wait. destruct (find_ok st m nm Hr) as [[-> ->]|(k & t1 & s & t2 & -> & Ht & -> & Hn & ->)]; cbn [bind]; [done|].
  unfold sem_at. rewrite Ht, slot_get. cbn [bind]. unfold wait. case_decide as Hv; [by rewrite bool_decide_eq_true_2|].
  rewrite bool_decide_eq_false_2 by done. destruct (set_sem_ok st m t1 s (mkSem (name s) (sem s - 1)) t2 Hr Ht) as (st' & -> & Hr'); [done|].
  cbn [bind]. exists st'. split; [done|]. by rewrite <- Hn.
Qed.

Lemma Signal_ok st m nm : represents st m ->
  match m !! nm with
  | None => Signal nm st = Ok (-1, st)
  | Some v => exists st', Signal nm st = Ok (0, st') /\ represents st' (<[nm := v + 1]> m)
  end.
Proof.
  intros Hr. unfold Signal. destruct (find_ok st m nm Hr) as [[-> ->]|(k & t1 & s & t2 & -> & Ht & -> & Hn & ->)]; cbn [bind]; [done|].
  unfold sem_at. rewrite Ht, slot_get. cbn [bind]. destruct (set_sem_ok st m t1 s (signal s) t2 Hr Ht) as (st' & -> & Hr'); [done|].
  cbn [bind]. exists st'. split; [done|]. by rewrite <- Hn.
Qed.

Lemma new_STable_ok : exists st, new_STable = Ok st /\ represents st ∅.
Proof.
  unfold new_STable. destruct (Bitmap.Bitmap_ok MAX_SEMAPHORE) as (b & -> & Hw & Hn & Hf); [done|]. cbn [bind]. eexists. split; [done|].
  split; [|done]. split; cbn [bm semTab]; try done; [|constructor]. intros i o Hi. apply lookup_replicate in Hi as [-> Hi]. cbn [isSome].
  assert (Hin : Z.of_nat i ∈ Bitmap.free b) by (rewrite Hf; apply elem_of_seqZ; change (Z.to_nat MAX_SEMAPHORE) with 10%nat in Hi; change MAX_SEMAPHORE with 10; lia).
  by apply Bitmap.elem_of_free in Hin as [_ Hin].
Qed.

(** ** Properties *)

(** the table is a map from names to semaphore values: it starts empty, and
    whatever is in it, creating succeeds exactly for a new name while fewer than
    ten exist and gives it its value; waiting answers -1 for an unknown name,
    sleeps on a value of 0 and otherwise takes one unit of that semaphore only;
    signalling adds one.  No slot is read that holds no semaphore. *)
Theorem STable_implements_map :
  (exists st, new_STable = Ok st /\ represents st ∅) /\
  forall st m nm init, represents st m -> (length nm < 50)%nat ->
    (let ok := bool_decide (m !! nm = None) && bool_decide (Z.of_nat (size m) < MAX_SEMAPHORE) in
     exists st', Create nm init st = Ok (if ok then 0 else -1, st') /\ represents st' (if ok then <[nm := init]> m else m)) /\
    match m !! nm with
    | None => Wait nm st = Ok (Some (-1, st)) /\ Signal nm st = Ok (-1, st)
    | Some v =>
        (if decide (v = 0) then Wait nm st = Ok None
         else exists st', Wait nm st = Ok (Some (0, st')) /\ represents st' (<[nm := v - 1]> m)) /\
        exists st', Signal nm st = Ok (0, st') /\ represents st' (<[nm := v + 1]> m)
    end.
Proof.
  split; [apply new_STable_ok|]. intros st m nm init Hr Hl. split; [by apply Create_ok|].
  pose proof (Wait_ok st m nm Hr) as Hw. pose proof (Signal_ok st m nm Hr) as Hs. by destruct (m !! nm).
Qed.

Definition table_of (r : result (Z * STable)) : STable := match r with Ok (_, st) => st | Fault _ => mkST (Bitmap.mk 0 0 []) [] end.

Lemma STable_implements_map_witness :
  exists st st', new_STable = Ok st /\ Create [x61] 1 st = Ok (0, st') /\
    (exists st2, Wait [x61] st' = Ok (Some (0, st2)) /\ Wait [x61] st2 = Ok None) /\ Wait [x62] st' = Ok (Some (-1, st')).
Proof.
  destruct STable_implements_map as [(st & Hnew & Hr) Hstep].
  destruct (Hstep st ∅ [x61] 1 Hr) as [(st' & Hc & Hr') _]; [simpl; lia|]. cbn in Hc, Hr'.
  destruct (Hstep st' _ [x61] 0 Hr') as [_ Hw]; [simpl; lia|]. rewrite lookup_insert_eq in Hw. cbn in Hw. destruct Hw as [(st2 & Hw2 & Hr2) _].
  destruct (Hstep st2 _ [x61] 0 Hr2) as [_ Hw]; [simpl; lia|]. rewrite lookup_insert_eq in Hw. cbn in Hw. destruct Hw as [Hw3 _].
  destruct (Hstep st' _ [x62] 0 Hr') as [_ Hw]; [simpl; lia|]. rewrite lookup_insert_ne, lookup_empty in Hw by discriminate. destruct Hw as [Hw4 _].
  exists st, st'. split; [exact Hnew|]. split; [exact Hc|]. split; [by exists st2|exact Hw4].
Defined.

(** A semaphore created with a negative value never makes anyone sleep. *)
Lemma negative_semaphore_never_sleeps s : sem s < 0 -> exists s', wait s = Some s' /\ sem s' < 0.
Proof. intros Hs. unfold wait. rewrite bool_decide_eq_false_2 by lia. eexists. split; [done|]. cbn [sem]. lia. Qed.

End STable.
