(* ===== verification/PTable.v ===== *)
(** * threads/pcb.{h,cc}, threads/ptable.{h,cc}: processes

    The table of processes and the protocol by which a parent waits for a child.
    The routines run in the threads of several processes at once; each is cut
    into the sections between two points where interrupts come back on (the end
    of a [P], a [V] or a [Fork]), and a step relation runs them in any order. *)

From Stdlib Require Import Strings.Byte.
From S2P Require Import Prelude LibBitmap Sysdep StubFS.

Module PTable.
Import Sysdep.

Definition MAXPROCESS : Z := 10.

(** The semaphores of a [PCB] are their values; [thread] is the process ID of
    the thread, [FileName] is uninitialised at first. *)
Record PCB := mkPCB {
  joinsem : Z;
  exitsem : Z;
  multex : Z;
  exitcode : Z;
  numwait : Z;
  thread : option Z;
  FileName : option (list byte);
  fileTable : StubFS.FileSystem;
  parentID : Z
}.

Definition set_joinsem v p := mkPCB v (exitsem p) (multex p) (exitcode p) (numwait p) (thread p) (FileName p) (fileTable p) (parentID p).
Definition set_exitsem v p := mkPCB (joinsem p) v (multex p) (exitcode p) (numwait p) (thread p) (FileName p) (fileTable p) (parentID p).
Definition set_multex v p := mkPCB (joinsem p) (exitsem p) v (exitcode p) (numwait p) (thread p) (FileName p) (fileTable p) (parentID p).
Definition SetExitCode v p := mkPCB (joinsem p) (exitsem p) (multex p) v (numwait p) (thread p) (FileName p) (fileTable p) (parentID p).
Definition set_numwait v p := mkPCB (joinsem p) (exitsem p) (multex p) (exitcode p) v (thread p) (FileName p) (fileTable p) (parentID p).
Definition set_thread t p := mkPCB (joinsem p) (exitsem p) (multex p) (exitcode p) (numwait p) t (FileName p) (fileTable p) (parentID p).
Definition set_FileName f p := mkPCB (joinsem p) (exitsem p) (multex p) (exitcode p) (numwait p) (thread p) f (fileTable p) (parentID p).
Definition set_parentID v p := mkPCB (joinsem p) (exitsem p) (multex p) (exitcode p) (numwait p) (thread p) (FileName p) (fileTable p) v.

(** A [PCB] object is named by its address; [heap] holds those not destroyed.
    [pcb]: the array of pointers, NULL at first and never reset. *)
Abbreviation loc := nat.
Record kstate := mkK {
  bm : Bitmap.t;
  pcb : list (option loc);
  bmsem : Z;
  heap : gmap loc PCB;
  allocated : nat;
  the_host : host
}.

Definition set_bm b k := mkK b (pcb k) (bmsem k) (heap k) (allocated k) (the_host k).
Definition set_pcb a k := mkK (bm k) a (bmsem k) (heap k) (allocated k) (the_host k).
Definition set_bmsem v k := mkK (bm k) (pcb k) v (heap k) (allocated k) (the_host k).
Definition set_heap h k := mkK (bm k) (pcb k) (bmsem k) h (allocated k) (the_host k).
Definition set_host h k := mkK (bm k) (pcb k) (bmsem k) (heap k) (allocated k) h.

(** [pcb[i]], and an object through a pointer. *)
Definition pointer (i : Z) (k : kstate) : result loc :=
  o <- lget (pcb k) i ;; match o with Some l => Ok l | None => Fault NullPointer end.
Definition object (l : loc) (k : kstate) : result PCB :=
  match heap k !! l with Some p => Ok p | None => Fault DanglingPointer end.
Definition store (l : loc) (p : PCB) (k : kstate) : kstate := set_heap (<[l := p]> (heap k)) k.

(** ** PCB *)

(** [PCB::PCB(id)], [current] being the process ID of the current thread. *)
Definition new_PCB (id current : Z) (h : host) : result (PCB * host) :=
  '(fs, h) <- StubFS.new_FileSystem h ;;
  Ok (mkPCB 0 0 1 0 0 None None fs (if bool_decide (id = 0) then -1 else current), h).

(** [strcpy] into the 32 [char]s of [FileName]. *)
Definition SetFileName (fn : list byte) (p : PCB) : result PCB :=
  if bool_decide (length fn < 32)%nat then Ok (set_FileName (Some fn) p) else Fault OutOfBounds.

Definition GetFileName (p : PCB) : result (list byte) := match FileName p with Some f => Ok f | None => Fault Uninitialised end.
Definition GetExitCode (p : PCB) : Z := exitcode p.
Definition GetNumWait (p : PCB) : Z := numwait p.
Definition GetID (p : PCB) : result Z := match thread p with Some t => Ok t | None => Fault NullPointer end.

(** ** PTable *)

Definition new_PTable (size : Z) (h : host) : result kstate :=
  b <- Bitmap.Bitmap size ;;
  b <- Bitmap.Mark b 0 ;;
  '(p, h) <- new_PCB 0 0 h ;;
  a <- lset (replicate (Z.to_nat MAXPROCESS) None) 0 (Some 0%nat) ;;
  Ok (mkK b a 1 {[ 0%nat := set_parentID (-1) p ]} 1 h).

Definition GetFreeSlot (k : kstate) : result (Z * kstate) :=
  '(i, b) <- Bitmap.FindAndSet (bm k) ;; Ok (i, set_bm b k).

Definition IsExist (pID : Z) (k : kstate) : result bool :=
  if bool_decide (pID < 0) || bool_decide (MAXPROCESS <= pID) then Ok false else Bitmap.Test (bm k) pID.

Definition getFileTable (id : Z) (k : kstate) : result StubFS.FileSystem :=
  l <- pointer id k ;; p <- object l k ;; Ok (fileTable p).

Definition GetFileName_of (id : Z) (k : kstate) : result (list byte) :=
  l <- pointer id k ;; p <- object l k ;; GetFileName p.

Definition SetFileNameMainThread (fn : list byte) (k : kstate) : result kstate :=
  l <- pointer 0 k ;; p <- object l k ;; p <- SetFileName fn p ;; Ok (store l p k).

(** ** Threads *)

(** Where a thread stands in the kernel: in its user program, with the value
    its last call returned, or at a section of [ExecUpdate] (and [PCB::Exec]),
    [JoinUpdate] (and [IncNumWait], [JoinWait], [ExitRelease]) or [ExitUpdate]
    (and [DecNumWait], [JoinRelease], [ExitWait], [Remove]). *)
Inductive kcode :=
| User (r : Z)
| Exec0 (filename : option (list byte))
| Exec1 (filename : option (list byte))
| Exec2 (id : Z) (l : loc) (f : StubFS.OpenFile)
| Exec3 (id : Z) (l : loc) (f : StubFS.OpenFile)
| Exec4 (id : Z) (l : loc) (f : StubFS.OpenFile)
| Exec5 (id : Z) (f : StubFS.OpenFile)
| Join0 (pID : Z)
| Join1 (pID : Z) (l : loc)
| Join2 (pID : Z) (l : loc)
| Join3 (pID : Z)
| Join4 (pID : Z)
| Exit0 (ec : Z)
| Exit1 (ec : Z) (l : loc)
| Exit2 (ec : Z) (l : loc)
| Exit3 (ec : Z)
| Exit4 (ec : Z)
| Exit5 (ec : Z)
| Gone
| Halted.

(** [tname]: what [getName()] returns; [None] for a forked thread, whose name is
    the buffer that the handler of Exec deletes. *)
Record Thread := mkThread { processID : Z; tname : option (list byte); at_ : kcode }.

(** A section that has run: where the thread goes on, the state, and the thread
    it forked. *)
Definition outcome : Type := result (kcode * kstate * option Thread).

Definition goto (c : kcode) (k : kstate) : outcome := Ok (c, k, None).

(** [ExecUpdate] once it holds [bmsem], up to [PCB::Exec]. *)
Definition exec_section (t : Thread) (filename : option (list byte)) (k : kstate) : outcome :=
  let refuse k := goto (User (-1)) (set_bmsem (bmsem k + 1) k) in
  match filename with
  | None => refuse k
  | Some fn =>
      nm <- (match tname t with Some n => Ok n | None => Fault DanglingPointer end) ;;
      if bool_decide (fn = nm) then refuse k
      else
        _ <- getFileTable (processID t) k ;;
        '(fileOpen, h) <- StubFS.Open fn (the_host k) ;;
        let k := set_host h k in
        match fileOpen with
        | None => refuse k
        | Some f =>
            '(idSlot, k) <- GetFreeSlot k ;;
            if bool_decide (idSlot = -1) then refuse k
            else
              '(p, h) <- new_PCB idSlot (processID t) (the_host k) ;;
              let l := allocated k in
              a <- lset (pcb k) idSlot (Some l) ;;
              p <- SetFileName fn p ;;
              let p := set_parentID (processID t) p in
              b <- Bitmap.Mark (bm k) idSlot ;;
              goto (Exec2 idSlot l f) (mkK b a (bmsem k) (<[l := p]> (heap k)) (S l) h)
        end
  end.

(** [PCB::Exec] between its [P] and its [V]: the thread it makes and forks. *)
Definition fork_section (t : Thread) (id : Z) (l : loc) (f : StubFS.OpenFile) (k : kstate) : outcome :=
  p <- object l k ;;
  Ok (Exec4 id l f, store l (set_parentID (processID t) (set_thread (Some id) p)) k, Some (mkThread id None (User 0))).

(** [PTable::Remove] of the caller, and what [ExitUpdate] does after it: the
    destructor of the [PCB] ends in [Finish] and does not come back when the
    object has a thread. *)
Definition remove_section (t : Thread) (ec : Z) (k : kstate) : outcome :=
  let pID := processID t in
  if bool_decide (pID < 0) || bool_decide (MAXPROCESS <= pID) then goto (User ec) k
  else
    b <- Bitmap.Test (bm k) pID ;;
    if b then
      bmp <- Bitmap.Clear (bm k) pID ;;
      l <- pointer pID k ;;
      p <- object l k ;;
      let k := set_heap (delete l (heap k)) (set_bm bmp k) in
      match thread p with
      | Some _ => goto Gone k
      | None => h <- StubFS.delete_FileSystem (fileTable p) (the_host k) ;; goto (User ec) (set_host h k)
      end
    else goto (User ec) k.

(** The next section of a thread; [None] while its [P] finds the value 0. *)
Definition section (t : Thread) (k : kstate) : option outcome :=
  let me := processID t in
  (* [P] and [V] on a semaphore of the object [l] *)
  let down (get : PCB -> Z) (set : Z -> PCB -> PCB) (l : loc) (c : kcode) :=
    match heap k !! l with
    | None => Some (Fault DanglingPointer)
    | Some p => if bool_decide (get p = 0) then None else Some (goto c (store l (set (get p - 1) p) k))
    end in
  let through (i : Z) (f : loc -> option outcome) := match pointer i k with Ok l => f l | Fault e => Some (Fault e) end in
  match at_ t with
  | User _ | Gone | Halted => None
  | Exec0 fn => if bool_decide (bmsem k = 0) then None else Some (goto (Exec1 fn) (set_bmsem (bmsem k - 1) k))
  | Exec1 fn => Some (exec_section t fn k)
  | Exec2 id l f => down multex set_multex l (Exec3 id l f)
  | Exec3 id l f => Some (fork_section t id l f k)
  | Exec4 id l f => Some (p <- object l k ;; goto (Exec5 id f) (store l (set_multex (multex p + 1) p) k))
  | Exec5 id f => Some (h <- StubFS.delete_OpenFile f (the_host k) ;; goto (User id) (set_bmsem (bmsem k + 1) (set_host h k)))
  | Join0 pID =>
      Some (b <- IsExist pID k ;;
            if negb b then goto (User (-1)) k
            else if bool_decide (me = pID) then goto (User (-1)) k
            else
              l <- pointer pID k ;; p <- object l k ;;
              if negb (bool_decide (me = parentID p)) then goto (User (-1)) k
              else l <- pointer (parentID p) k ;; goto (Join1 pID l) k)
  | Join1 pID l => down multex set_multex l (Join2 pID l)
  | Join2 pID l => Some (p <- object l k ;; goto (Join3 pID) (store l (set_multex (multex p + 1) (set_numwait (numwait p + 1) p)) k))
  | Join3 pID => through pID (fun l => down joinsem set_joinsem l (Join4 pID))
  | Join4 pID =>
      Some (l <- pointer pID k ;; p <- object l k ;;
            goto (User (GetExitCode p)) (store l (set_exitsem (exitsem p + 1) p) k))
  | Exit0 ec =>
      Some (if bool_decide (me = 0) then goto Halted k
            else
              b <- IsExist me k ;;
              if negb b then goto (User (-1)) k
              else
                l <- pointer me k ;; p <- object l k ;;
                let k := store l (SetExitCode ec p) k in
                l <- pointer (parentID p) k ;; goto (Exit1 ec l) k)
  | Exit1 ec l => down multex set_multex l (Exit2 ec l)
  | Exit2 ec l =>
      Some (p <- object l k ;;
            let n := if bool_decide (0 < numwait p) then numwait p - 1 else numwait p in
            goto (Exit3 ec) (store l (set_multex (multex p + 1) (set_numwait n p)) k))
  | Exit3 ec => Some (l <- pointer me k ;; p <- object l k ;; goto (Exit4 ec) (store l (set_joinsem (joinsem p + 1) p) k))
  | Exit4 ec => through me (fun l => down exitsem set_exitsem l (Exit5 ec))
  | Exit5 ec => Some (remove_section t ec k)
  end.

(** The calls of a user program. *)
Inductive call := CExec (filename : option (list byte)) | CJoin (pID : Z) | CExit (ec : Z).
Definition enter (c : call) : kcode := match c with CExec f => Exec0 f | CJoin p => Join0 p | CExit e => Exit0 e end.

Definition move (c : kcode) (t : Thread) : Thread := mkThread (processID t) (tname t) c.

Definition system : Type := kstate * list Thread.

(** A thread runs its next section. *)
Inductive kernel_step : system -> system -> Prop :=
| step_section k l1 t l2 c k' new :
    section t k = Some (Ok (c, k', new)) ->
    kernel_step (k, l1 ++ t :: l2) (k', l1 ++ move c t :: l2 ++ option_list new).

(** Or a user program makes a call, whichever it likes. *)
Inductive step : system -> system -> Prop :=
| step_kernel st st' : kernel_step st st' -> step st st'
| step_user k l1 t l2 r c : at_ t = User r -> step (k, l1 ++ t :: l2) (k, l1 ++ move (enter c) t :: l2).

(** ** The table and the objects it points to *)

Record slots_ok (k : kstate) : Prop := {
  s_bm : Bitmap.wf (bm k);
  s_bits : Bitmap.numBits (bm k) = MAXPROCESS;
  s_len : Z.of_nat (length (pcb k)) = MAXPROCESS;
  s_live : forall i, 0 <= i < MAXPROCESS -> Bitmap.test (bm k) i = true ->
    exists l, pcb k !! Z.to_nat i = Some (Some l) /\ is_Some (heap k !! l);
  s_inj : forall i j l, 0 <= i < MAXPROCESS -> 0 <= j < MAXPROCESS -> Bitmap.test (bm k) i = true -> Bitmap.test (bm k) j = true ->
    pcb k !! Z.to_nat i = Some (Some l) -> pcb k !! Z.to_nat j = Some (Some l) -> i = j;
  s_fresh : forall l, is_Some (heap k !! l) -> (l < allocated k)%nat
}.

(** Nothing but the contents of objects, [bmsem] and the host has changed. *)
Definition same_table (k k' : kstate) : Prop :=
  bm k' = bm k /\ pcb k' = pcb k /\ allocated k' = allocated k /\ forall l, is_Some (heap k' !! l) <-> is_Some (heap k !! l).

Lemma same_table_ok k k' : same_table k k' -> slots_ok k -> slots_ok k'.
Proof.
  intros (Hb & Hp & Ha & Hh) [H1 H2 H3 H4 H5 H6]. split; rewrite ?Hb, ?Hp, ?Ha; try done.
  - intros i Hi Ht. destruct (H4 i Hi Ht) as (l & Hl & Hs). exists l. split; [done|by apply Hh].
  - intros l Hl. by apply H6, Hh.
Qed.

Lemma same_refl k : same_table k k.
Proof. by split_and!. Qed.

Lemma same_store l p k : is_Some (heap k !! l) -> same_table k (store l p k).
Proof.
  intros Hl. split_and!; try done. intros x. cbn [store heap set_heap]. destruct (decide (l = x)) as [->|Hne].
  - rewrite lookup_insert_eq. split; [done|by eexists].
  - by rewrite lookup_insert_ne.
Qed.

Lemma object_some l k p : object l k = Ok p -> heap k !! l = Some p.
Proof. unfold object. destruct (heap k !! l); [by intros [= ->]|done]. Qed.

Lemma pointer_some i k l : pointer i k = Ok l -> 0 <= i /\ pcb k !! Z.to_nat i = Some (Some l).
Proof.
  unfold pointer. intros H. apply bind_ok in H as ([x|] & Hg & H); [|done]. injection H as ->. by apply lget_ok in Hg.
Qed.

Lemma IsExist_ok k p : slots_ok k -> IsExist p k = Ok true <-> 0 <= p < MAXPROCESS /\ Bitmap.test (bm k) p = true.
Proof.
  intros Hk. unfold IsExist. destruct (bool_decide (p < 0) || bool_decide (MAXPROCESS <= p)) eqn:E.
  - apply orb_true_iff in E. rewrite !bool_decide_eq_true in E. split; [done|]. intros [? _]. lia.
  - apply orb_false_iff in E as [E1%bool_decide_eq_false E2%bool_decide_eq_false].
    rewrite Bitmap.Test_ok by (first [apply Hk|rewrite (s_bits _ Hk); lia]). split; [intros [= ->]; split; [lia|done]|by intros [_ ->]].
Qed.

(** ** Creating and removing *)

(** The slot [i], free before, holds a new object [l]. *)
Record created (i : Z) (l : loc) (k k' : kstate) : Prop := {
  c_in : 0 <= i < MAXPROCESS;
  c_free : Bitmap.test (bm k) i = false;
  c_new : heap k !! l = None;
  c_wf : Bitmap.wf (bm k');
  c_bits : Bitmap.numBits (bm k') = Bitmap.numBits (bm k);
  c_test : forall j, 0 <= j < MAXPROCESS -> Bitmap.test (bm k') j = if decide (j = i) then true else Bitmap.test (bm k) j;
  c_pcb : pcb k' = <[Z.to_nat i := Some l]> (pcb k);
  c_heap : exists p, heap k' = <[l := p]> (heap k);
  c_alloc : l = allocated k /\ allocated k' = S l
}.

(** The slot [i] is free and its object [l] is destroyed. *)
Record removed (i : Z) (l : loc) (k k' : kstate) : Prop := {
  r_in : 0 <= i < MAXPROCESS;
  r_set : Bitmap.test (bm k) i = true;
  r_l : pcb k !! Z.to_nat i = Some (Some l);
  r_wf : Bitmap.wf (bm k');
  r_bits : Bitmap.numBits (bm k') = Bitmap.numBits (bm k);
  r_test : forall j, 0 <= j < MAXPROCESS -> Bitmap.test (bm k') j = if decide (j = i) then false else Bitmap.test (bm k) j;
  r_pcb : pcb k' = pcb k;
  r_heap : heap k' = delete l (heap k);
  r_alloc : allocated k' = allocated k
}.

Lemma created_ok i l k k' : created i l k k' -> slots_ok k -> slots_ok k'.
Proof.
  intros [Hi Hf Hnew Hw Hn Ht Hp [p Hh] [Hl Ha]] Hk. pose proof (s_len _ Hk) as Hlen.
  split; rewrite ?Hp, ?Hh, ?Ha, ?Hn; [done|apply Hk|by rewrite length_insert| | |].
  - intros j Hj. rewrite Ht by done. destruct (decide (j = i)) as [->|Hne].
    + intros _. exists l. rewrite list_lookup_insert_eq by lia. split; [done|]. rewrite lookup_insert_eq. by eexists.
    + intros Htj. destruct (s_live _ Hk j Hj Htj) as (x & Hx & Hs). exists x. rewrite list_lookup_insert_ne by lia. split; [done|].
      rewrite lookup_insert_ne; [done|]. intros <-. destruct Hs as [y Hy]. congruence.
  - assert (Hdis : forall j, 0 <= j < MAXPROCESS -> Bitmap.test (bm k) j = true -> pcb k !! Z.to_nat j <> Some (Some l)).
    { intros j Hj Htj E. destruct (s_live _ Hk j Hj Htj) as (x & Hx & [y Hy]). rewrite E in Hx. injection Hx as <-. congruence. }
    intros j1 j2 x Hj1 Hj2. rewrite !Ht by done. destruct (decide (j1 = i)) as [->|N1], (decide (j2 = i)) as [->|N2]; [done| | |].
    + intros _ H2. rewrite list_lookup_insert_eq, list_lookup_insert_ne by lia. intros [= <-] E. by apply Hdis in E.
    + intros H1 _. rewrite list_lookup_insert_eq, list_lookup_insert_ne by lia. intros E [= <-]. by apply Hdis in E.
    + rewrite !list_lookup_insert_ne by lia. by apply Hk.
  - intros x. destruct (decide (l = x)) as [->|Hne]; [lia|]. rewrite lookup_insert_ne by done. intros Hx. pose proof (s_fresh _ Hk x Hx). lia.
Qed.

Lemma removed_ok i l k k' : removed i l k k' -> slots_ok k -> slots_ok k'.
Proof.
  intros [Hi Hti Hl Hw Hn Ht Hp Hh Ha] Hk. split; rewrite ?Hp, ?Hh, ?Ha, ?Hn; [done|apply Hk|apply Hk| | |].
  - intros j Hj. rewrite Ht by done. case_decide as Hji; [done|]. intros Htj.
    destruct (s_live _ Hk j Hj Htj) as (x & Hx & Hs). exists x. split; [done|]. rewrite lookup_delete_ne; [done|]. intros <-.
    apply Hji. by apply (s_inj _ Hk j i l).
  - intros j1 j2 x Hj1 Hj2. rewrite !Ht by done. repeat case_decide; try done. by apply Hk.
  - intros x Hs. apply (s_fresh _ Hk). destruct (decide (l = x)) as [->|Hne]; [by rewrite lookup_delete_eq in Hs; destruct Hs|by rewrite lookup_delete_ne in Hs].
Qed.

(** Objects keep their threads: what a section that creates and removes nothing
    does. *)
Definition quiet (k k' : kstate) : Prop :=
  same_table k k' /\ forall l p, heap k !! l = Some p -> exists p', heap k' !! l = Some p' /\ (is_Some (thread p) -> is_Some (thread p')).

Lemma quiet_same k k' : same_table k k' -> heap k' = heap k -> quiet k k'.
Proof. intros Hs Hh. split; [done|]. rewrite Hh. intros l p Hp. by exists p. Qed.

Lemma quiet_store l p p' k : object l k = Ok p -> (is_Some (thread p) -> is_Some (thread p')) -> quiet k (store l p' k).
Proof.
  intros Hp%object_some Hth. split; [apply same_store; by exists p|]. intros x q Hq. cbn [store heap set_heap].
  destruct (decide (l = x)) as [<-|Hne]; [|by exists q; rewrite lookup_insert_ne].
  exists p'. rewrite lookup_insert_eq. replace q with p by congruence. done.
Qed.

Lemma exec_section_spec t fn k c k' new : slots_ok k -> exec_section t fn k = Ok (c, k', new) -> new = None /\
  (c = User (-1) /\ quiet k k' \/ exists i l f, c = Exec2 i l f /\ created i l k k').
Proof.
  intros Hk. assert (Hrefuse : forall k1, same_table k k1 -> heap k1 = heap k -> goto (User (-1)) (set_bmsem (bmsem k1 + 1) k1) = Ok (c, k', new) ->
    new = None /\ (c = User (-1) /\ quiet k k' \/ exists i l f, c = Exec2 i l f /\ created i l k k')).
  { intros k1 Hs Hh [= <- <- <-]. split; [done|]. left. split; [done|]. by apply quiet_same. }
  unfold exec_section. destruct fn as [fn|]; [|by apply Hrefuse]. intros H. apply bind_ok in H as (nm & _ & H).
  case_bool_decide; [by apply (Hrefuse k (same_refl k))|]. apply bind_ok in H as (fs & _ & H). apply bind_ok in H as ([[f|] h] & _ & H).
  2: { by apply (Hrefuse (set_host h k)). }
  unfold GetFreeSlot in H. cbn [bm set_host] in H. destruct (Bitmap.FindAndSet_ok (bm k) (s_bm _ Hk)) as ([i b] & Hfs & Hf). rewrite Hfs in H.
  cbn [bind] in H. unfold Bitmap.found in Hf. destruct (Bitmap.free (bm k)) as [|j rest] eqn:Hfree.
  { injection Hf as -> ->. by apply (Hrefuse (set_bm (bm k) (set_host h k))). }
  destruct Hf as (E & Hu & _). cbn [fst snd] in E, Hu. subst j.
  assert (Hin : i ∈ Bitmap.free (bm k)) by (rewrite Hfree; left). apply Bitmap.elem_of_free in Hin as [Hin Hti].
  rewrite bool_decide_eq_false_2 in H by lia.
  apply bind_ok in H as ([p h2] & _ & H). apply bind_ok in H as (a & Ha & H). apply bind_ok in H as (p2 & _ & H). apply bind_ok in H as (b2 & Hb2 & H).
  injection H as <- <- <-. cbn [pcb allocated heap set_bm set_host bm] in *. apply lset_ok in Ha as [Hia ->].
  destruct Hu as (Hw1 & Hn1 & Ht1). destruct (Bitmap.Mark_ok b i Hw1 ltac:(lia)) as (b3 & Hm & Hw2 & Hn2 & Ht2).
  rewrite Hb2 in Hm. injection Hm as <-. split; [done|]. right. exists i, (allocated k), f. split; [done|].
  rewrite (s_bits _ Hk) in *. split; cbn [bm pcb heap allocated]; try done; try lia.
  - destruct (heap k !! allocated k) as [x|] eqn:E; [|done]. pose proof (s_fresh _ Hk (allocated k) ltac:(by exists x)). lia.
  - rewrite (s_bits _ Hk). congruence.
  - intros j Hj. rewrite Ht2 by (rewrite Hn1; done). destruct (decide (j = i)); [done|]. rewrite Ht1 by done. by rewrite decide_False.
  - by eexists.
Qed.

(** [remove_section] of a process of the table. *)
Lemma remove_section_spec t ec k c k' new l p : slots_ok k -> 0 <= processID t < MAXPROCESS -> Bitmap.test (bm k) (processID t) = true ->
  pcb k !! Z.to_nat (processID t) = Some (Some l) -> heap k !! l = Some p -> remove_section t ec k = Ok (c, k', new) ->
  new = None /\ removed (processID t) l k k' /\ (is_Some (thread p) -> c = Gone).
Proof.
  intros Hk Hi Hti Hl Hp. set (i := processID t) in *. assert (Hib : 0 <= i < Bitmap.numBits (bm k)) by (by rewrite (s_bits _ Hk)).
  unfold remove_section. fold i. rewrite !bool_decide_eq_false_2 by lia. cbn [orb]. rewrite Bitmap.Test_ok, Hti by first [apply Hk|done]. cbn [bind].
  destruct (Bitmap.Clear_ok (bm k) i (s_bm _ Hk) Hib) as (b2 & -> & Hw & Hn & Ht). cbn [bind].
  unfold pointer, object. rewrite (proj2 (lget_ok _ _ (Some l))) by (split; [lia|done]). cbn [bind]. rewrite Hp. cbn [bind].
  rewrite (s_bits _ Hk) in *. destruct (thread p) as [th|].
  - intros [= <- <- <-]. split; [done|]. split; [|done]. by split; rewrite ?(s_bits _ Hk).
  - intros H. apply bind_ok in H as (h & _ & H). injection H as <- <- <-. split; [done|]. split; [|by intros []]. by split; rewrite ?(s_bits _ Hk).
Qed.

Lemma remove_section_ok t ec k c k' new : slots_ok k -> remove_section t ec k = Ok (c, k', new) -> slots_ok k'.
Proof.
  intros Hk H. destruct (decide (0 <= processID t < MAXPROCESS)) as [Hi|Hi].
  - destruct (Bitmap.test (bm k) (processID t)) eqn:Ht.
    + destruct (s_live _ Hk _ Hi Ht) as (l & Hl & [p Hp]).
      destruct (remove_section_spec t ec k c k' new l p Hk Hi Ht Hl Hp H) as (_ & Hr & _). by eapply removed_ok.
    + revert H. unfold remove_section. rewrite !bool_decide_eq_false_2 by lia. cbn [orb].
      rewrite Bitmap.Test_ok, Ht by (first [apply Hk|by rewrite (s_bits _ Hk)]). by intros [= _ <- _].
  - revert H. unfold remove_section. replace (bool_decide (processID t < 0) || bool_decide (MAXPROCESS <= processID t)) with true; [by intros [= _ <- _]|].
    symmetry. apply orb_true_iff. rewrite !bool_decide_eq_true. lia.
Qed.

Lemma exec_section_ok t fn k c k' new : slots_ok k -> exec_section t fn k = Ok (c, k', new) -> slots_ok k'.
Proof.
  intros Hk H. destruct (exec_section_spec t fn k c k' new Hk H) as (_ & [[_ [Hs _]]|(i & l & f & _ & Hc)]);
    [by apply (same_table_ok k)|by eapply created_ok].
Qed.

Lemma section_ok t k c k' new : slots_ok k -> section t k = Some (Ok (c, k', new)) -> slots_ok k'.
Proof.
  intros Hk. assert (Hdown : forall get set l c0, match heap k !! l with None => Some (Fault DanglingPointer)
      | Some p => if bool_decide (get p = 0) then None else Some (goto c0 (store l (set (get p - 1) p) k)) end = Some (Ok (c, k', new)) -> slots_ok k').
  { intros get set l c0. destruct (heap k !! l) as [p|] eqn:Hl; [|done]. case_bool_decide; [done|]. intros [= _ <- _].
    apply (same_table_ok k); [|done]. apply same_store. by exists p. }
  assert (Hstore : forall l p p', object l k = Ok p -> slots_ok (store l p' k)).
  { intros l p p' Hp%object_some. apply (same_table_ok k); [|done]. apply same_store. by exists p. }
  unfold section. destruct (at_ t) as [r|fn|fn|id l f|id l f|id l f|id f|p|p l|p l|p|p|ec|ec l|ec l|ec|ec|ec| |]; try done.
  - case_bool_decide; [done|]. intros [= _ <- _]. by apply (same_table_ok k).
  - intros [= H]. by eapply exec_section_ok.
  - apply Hdown.
  - intros [= H]. apply bind_ok in H as (p & Hp & H). injection H as _ <- _. by eapply Hstore.
  - intros [= H]. apply bind_ok in H as (p & Hp & H). injection H as _ <- _. by eapply Hstore.
  - intros [= H]. apply bind_ok in H as (h & _ & H). injection H as _ <- _. by apply (same_table_ok k).
  - intros [= H]. apply bind_ok in H as (b & _ & H). destruct (negb b); [by injection H as _ <- _|]. case_bool_decide; [by injection H as _ <- _|].
    apply bind_ok in H as (l & _ & H). apply bind_ok in H as (q & _ & H). destruct (negb _); [by injection H as _ <- _|].
    apply bind_ok in H as (l2 & _ & H). by injection H as _ <- _.
  - apply Hdown.
  - intros [= H]. apply bind_ok in H as (q & Hq & H). injection H as _ <- _. by eapply Hstore.
  - destruct (pointer p k); [|done]. apply Hdown.
  - intros [= H]. apply bind_ok in H as (l & _ & H). apply bind_ok in H as (q & Hq & H). injection H as _ <- _. by eapply Hstore.
  - intros [= H]. case_bool_decide; [by injection H as _ <- _|]. apply bind_ok in H as (b & _ & H). destruct (negb b); [by injection H as _ <- _|].
    apply bind_ok in H as (l & _ & H). apply bind_ok in H as (q & Hq & H). apply bind_ok in H as (l2 & _ & H). injection H as _ <- _. by eapply Hstore.
  - apply Hdown.
  - intros [= H]. apply bind_ok in H as (q & Hq & H). injection H as _ <- _. by eapply Hstore.
  - intros [= H]. apply bind_ok in H as (l & _ & H). apply bind_ok in H as (q & Hq & H). injection H as _ <- _. by eapply Hstore.
  - destruct (pointer _ k); [|done]. apply Hdown.
  - intros [= H]. by eapply remove_section_ok.
Qed.

Lemma step_ok st st' : slots_ok st.1 -> step st st' -> slots_ok st'.1.
Proof.
  intros Hk Hst. destruct Hst as [st1 st2 Hs|k l1 t l2 r c Ha]; [|exact Hk]. destruct Hs as [k l1 t l2 c k' new Hs]. by eapply section_ok.
Qed.

Lemma nsteps_slots n st st' : slots_ok st.1 -> nsteps kernel_step n st st' -> slots_ok st'.1.
Proof. intros Hk Hn. induction Hn as [|n x y z Hxy _ IH]; [done|]. by eapply IH, step_ok, step_kernel. Qed.

Lemma new_PTable_ok h k : new_PTable MAXPROCESS h = Ok k -> slots_ok k /\ Bitmap.test (bm k) 0 = true.
Proof.
  unfold new_PTable. destruct (Bitmap.Bitmap_ok MAXPROCESS) as (b & -> & Hw & Hn & Hf); [done|]. cbn [bind].
  destruct (Bitmap.Mark_ok b 0 Hw) as (b2 & -> & Hw2 & Hn2 & Ht2); [by rewrite Hn|]. cbn [bind]. intros H.
  apply bind_ok in H as ([p h2] & _ & H). apply bind_ok in H as (a & Ha & H). injection H as <-. apply lset_ok in Ha as [_ ->].
  assert (Htest : forall i, 0 <= i < MAXPROCESS -> Bitmap.test b2 i = true -> i = 0).
  { intros i Hi. rewrite Ht2 by (rewrite Hn; done). case_decide as E; [done|]. assert (Hin : i ∈ Bitmap.free b) by (rewrite Hf; by apply elem_of_seqZ).
    apply Bitmap.elem_of_free in Hin as [_ Hin]. congruence. }
  split; [|cbn [bm]; rewrite Ht2 by (by rewrite Hn); done]. split; cbn [bm pcb heap allocated]; [done|congruence|done| | |].
  - intros i Hi Ht. rewrite (Htest i Hi Ht). exists 0%nat. split; [done|]. rewrite lookup_singleton_eq. by eexists.
  - intros i j l Hi Hj Hti Htj _ _. by rewrite (Htest i), (Htest j).
  - intros l Hl. destruct (decide (0%nat = l)) as [<-|Hne]; [lia|]. rewrite lookup_singleton_ne in Hl by done. by destruct Hl.
Qed.

(** ** Who owns a slot *)

(** The slot and the object that [ExecUpdate] has made and not yet given to a
    thread. *)
Definition pend (c : kcode) : option (Z * loc) := match c with Exec2 i l _ | Exec3 i l _ => Some (i, l) | _ => None end.
Definition exiting (c : kcode) : bool := match c with Exit1 _ _ | Exit2 _ _ | Exit3 _ | Exit4 _ | Exit5 _ => true | _ => false end.
Definition claims (t : Thread) : list Z :=
  match at_ t with Gone => [] | _ => [processID t] end ++ option_list (fst <$> pend (at_ t)).

Record own (k : kstate) (t : Thread) : Prop := {
  o_bits : forall i, i ∈ claims t -> 0 <= i < MAXPROCESS /\ Bitmap.test (bm k) i = true;
  o_thread : at_ t <> Gone -> processID t <> 0 ->
    exists l p, pcb k !! Z.to_nat (processID t) = Some (Some l) /\ heap k !! l = Some p /\ is_Some (thread p);
  o_pend : forall i l, pend (at_ t) = Some (i, l) -> pcb k !! Z.to_nat i = Some (Some l);
  o_exit : exiting (at_ t) = true -> processID t <> 0
}.

Definition owned (k : kstate) (ts : list Thread) : Prop := slots_ok k /\ NoDup (ts ≫= claims) /\ Forall (own k) ts.

Lemma claims_own t : at_ t <> Gone -> processID t ∈ claims t.
Proof. unfold claims. intros Hg. destruct (at_ t); try done; left. Qed.
Lemma claims_pend t i l : pend (at_ t) = Some (i, l) -> i ∈ claims t.
Proof. unfold claims. intros ->. apply elem_of_app. right. left. Qed.

Lemma own_quiet k k' t : quiet k k' -> own k t -> own k' t.
Proof.
  intros [(Hb & Hp & _) Hh] [H1 H2 H3 H4]. split; rewrite ?Hb, ?Hp; try done.
  intros Hg Hi. destruct (H2 Hg Hi) as (l & p & Hl & Hlp & Hth). destruct (Hh l p Hlp) as (p' & Hp' & Ht'). exists l, p'. split_and!; [done|done|by apply Ht'].
Qed.

Lemma own_created i l k k' t : created i l k k' -> own k t -> own k' t.
Proof.
  intros [Hi Hf Hnew _ _ Ht Hp [p Hh] _] H. split; rewrite ?Hp, ?Hh; [..|apply H].
  - intros j Hj. destruct (o_bits _ _ H j Hj) as [Hr Hs]. split; [done|]. rewrite Ht by done. by case_decide.
  - intros Hg Hz. destruct (o_bits _ _ H _ (claims_own t Hg)) as [Hr Hs]. destruct (o_thread _ _ H Hg Hz) as (x & q & Hx & Hq & Hth).
    exists x, q. rewrite list_lookup_insert_ne, lookup_insert_ne by (intros E; first [subst l; congruence|replace i with (processID t) in Hf by lia; congruence]). done.
  - intros j x Hj. destruct (o_bits _ _ H j (claims_pend t j x Hj)) as [Hr Hs].
    rewrite list_lookup_insert_ne by (intros E; replace i with j in Hf by lia; congruence). by apply H.
Qed.

Lemma own_removed i l k k' t : slots_ok k -> removed i l k k' -> i ∉ claims t -> own k t -> own k' t.
Proof.
  intros Hk [Hi Hti Hl _ _ Ht Hp Hh _] Hni H. split; rewrite ?Hp, ?Hh; [|..|apply H|apply H].
  - intros j Hj. destruct (o_bits _ _ H j Hj) as [Hr Hs]. split; [done|]. rewrite Ht by done. rewrite decide_False; [done|]. by intros ->.
  - intros Hg Hz. pose proof (claims_own t Hg) as Hc. destruct (o_bits _ _ H _ Hc) as [Hr Hs]. destruct (o_thread _ _ H Hg Hz) as (x & q & Hx & Hq & Hth).
    exists x, q. rewrite lookup_delete_ne; [done|]. intros <-. apply Hni. by rewrite (s_inj _ Hk i (processID t) l).
Qed.

(** What one section does to the slots and to the thread's claims. *)
Inductive effect (t : Thread) (k : kstate) : kcode -> kstate -> option Thread -> Prop :=
| eff_quiet c k' : quiet k k' -> c <> Gone -> pend c = pend (at_ t) -> (exiting c = true -> processID t <> 0) -> effect t k c k' None
| eff_create i l c k' : created i l k k' -> pend (at_ t) = None -> pend c = Some (i, l) -> exiting c = false -> effect t k c k' None
| eff_fork i l p c k' : pend (at_ t) = Some (i, l) -> pend c = None -> c <> Gone -> exiting c = false -> quiet k k' ->
    heap k' !! l = Some p -> is_Some (thread p) -> effect t k c k' (Some (mkThread i None (User 0)))
| eff_remove l k' : removed (processID t) l k k' -> pend (at_ t) = None -> effect t k Gone k' None.

Lemma down_effect t k get set l c c' k' new : (forall v p, thread (set v p) = thread p) -> c <> Gone -> pend c = pend (at_ t) ->
  (exiting c = true -> processID t <> 0) ->
  match heap k !! l with None => Some (Fault DanglingPointer)
  | Some p => if bool_decide (get p = 0) then None else Some (goto c (store l (set (get p - 1) p) k)) end = Some (Ok (c', k', new)) ->
  effect t k c' k' new.
Proof.
  intros Hset Hg Hp He. destruct (heap k !! l) as [p|] eqn:Hl; [|done]. case_bool_decide; [done|]. intros [= <- <- <-].
  apply eff_quiet; [|done..]. apply (quiet_store l p); [unfold object; by rewrite Hl|by rewrite Hset].
Qed.

Lemma store_effect t k l p p' c : object l k = Ok p -> thread p' = thread p -> c <> Gone -> pend c = pend (at_ t) ->
  (exiting c = true -> processID t <> 0) -> effect t k c (store l p' k) None.
Proof. intros Hp Hth. intros. apply eff_quiet; [|done..]. apply (quiet_store l p); [done|by rewrite Hth]. Qed.

Lemma same_effect t k c k' : same_table k k' -> heap k' = heap k -> c <> Gone -> pend c = pend (at_ t) ->
  (exiting c = true -> processID t <> 0) -> effect t k c k' None.
Proof. intros Hs Hh. intros. apply eff_quiet; [by apply quiet_same|done..]. Qed.

Ltac inv_goto := unfold goto in *; match goal with H : Ok _ = Ok (_, _, _) |- _ => injection H as <- <- <- end.

Lemma section_effect t k c k' new : slots_ok k -> own k t -> section t k = Some (Ok (c, k', new)) -> effect t k c k' new.
Proof.
  intros Hk Ho. unfold section. destruct (at_ t) as [r|fn|fn|id l f|id l f|id l f|id f|p|p l|p l|p|p|ec|ec l|ec l|ec|ec|ec| |] eqn:Eat; try done;
    (assert (He : exiting (at_ t) = true -> processID t <> 0) by apply Ho); rewrite Eat in He; cbn [exiting] in He.
  - case_bool_decide; [done|]. intros [= <- <- <-]. by apply same_effect; rewrite ?Eat.
  - intros [= H]. destruct (exec_section_spec t fn k c k' new Hk H) as (-> & [[-> Hq]|(i & l & f & -> & Hc)]).
    + by apply eff_quiet; rewrite ?Eat.
    + by apply (eff_create _ _ i l); rewrite ?Eat.
  - by apply down_effect; rewrite ?Eat.
  - intros [= H]. apply bind_ok in H as (p & Hp & H). injection H as <- <- <-.
    apply (eff_fork _ _ id l (set_parentID (processID t) (set_thread (Some id) p))); rewrite ?Eat;
      [done|done|done|done|by apply (quiet_store l p)| |by eexists].
    cbn [store heap set_heap]. by rewrite lookup_insert_eq.
  - intros [= H]. apply bind_ok in H as (p & Hp & H). inv_goto. by apply (store_effect _ _ _ p); rewrite ?Eat.
  - intros [= H]. apply bind_ok in H as (h & _ & H). inv_goto. by apply same_effect; rewrite ?Eat.
  - intros [= H]. apply bind_ok in H as (b & _ & H). destruct (negb b); [inv_goto; by apply same_effect; rewrite ?Eat|].
    case_bool_decide; [inv_goto; by apply same_effect; rewrite ?Eat|].
    apply bind_ok in H as (l & _ & H). apply bind_ok in H as (q & _ & H). destruct (negb _); [inv_goto; by apply same_effect; rewrite ?Eat|].
    apply bind_ok in H as (l2 & _ & H). inv_goto. by apply same_effect; rewrite ?Eat.
  - by apply down_effect; rewrite ?Eat.
  - intros [= H]. apply bind_ok in H as (q & Hq & H). inv_goto. by apply (store_effect _ _ _ q); rewrite ?Eat.
  - destruct (pointer p k); [|done]. by apply down_effect; rewrite ?Eat.
  - intros [= H]. apply bind_ok in H as (l & _ & H). apply bind_ok in H as (q & Hq & H). inv_goto. by apply (store_effect _ _ _ q); rewrite ?Eat.
  - intros [= H]. case_bool_decide as Hz; [inv_goto; by apply same_effect; rewrite ?Eat|]. apply bind_ok in H as (b & _ & H).
    destruct (negb b); [inv_goto; by apply same_effect; rewrite ?Eat|].
    apply bind_ok in H as (l & _ & H). apply bind_ok in H as (q & Hq & H). apply bind_ok in H as (l2 & _ & H). inv_goto.
    by apply (store_effect _ _ _ q); rewrite ?Eat.
  - apply down_effect; rewrite ?Eat; auto.
  - intros [= H]. apply bind_ok in H as (q & Hq & H). inv_goto. apply (store_effect _ _ _ q); rewrite ?Eat; auto.
  - intros [= H]. apply bind_ok in H as (l & _ & H). apply bind_ok in H as (q & Hq & H). inv_goto. apply (store_effect _ _ _ q); rewrite ?Eat; auto.
  - destruct (pointer _ k); [|done]. apply down_effect; rewrite ?Eat; auto.
  - intros [= H]. assert (Hg : at_ t <> Gone) by (by rewrite Eat). destruct (o_bits _ _ Ho _ (claims_own t Hg)) as [Hr Hs].
    destruct (o_thread _ _ Ho Hg (He eq_refl)) as (l & p & Hl & Hp & Hth).
    destruct (remove_section_spec t ec k c k' new l p Hk Hr Hs Hl Hp H) as (-> & Hrm & Hc). rewrite (Hc Hth). apply (eff_remove _ _ l); [done|by rewrite Eat].
Qed.

Lemma owned_perm k ts ts' : ts ≡ₚ ts' -> owned k ts -> owned k ts'.
Proof. intros Hp (Hk & Hn & Hf). split; [done|]. split; [by rewrite <- Hp|by rewrite <- Hp]. Qed.

Lemma claims_cons t R : (t :: R) ≫= claims = claims t ++ (R ≫= claims).
Proof. done. Qed.

Lemma claims_move c t : at_ t <> Gone -> c <> Gone -> claims (move c t) = processID t :: option_list (fst <$> pend c).
Proof. intros _ Hc. unfold claims. cbn [at_ move processID]. by destruct c. Qed.

(** The moved thread owns its slots when it keeps its claims. *)
Lemma own_move k t c : own k t -> at_ t <> Gone -> (c = Gone \/ pend c = pend (at_ t) \/ pend c = None) ->
  (exiting c = true -> processID t <> 0) -> own k (move c t).
Proof.
  intros H Hg Hp He. pose proof (claims_own t Hg) as Hc. split; cbn [at_ move processID]; [| |intros i l Hi; apply H|done].
  - intros i Hi. unfold claims in Hi. cbn [at_ move processID] in Hi. apply (o_bits _ _ H). apply elem_of_app in Hi as [Hi|Hi].
    + destruct c; try by apply list_elem_of_singleton in Hi as ->. by apply elem_of_nil in Hi.
    + destruct Hp as [->|[Hp|Hp]]; [by apply elem_of_nil in Hi| |]; rewrite Hp in Hi; [|by apply elem_of_nil in Hi].
      destruct (pend (at_ t)) as [[j l]|] eqn:E; [|by apply elem_of_nil in Hi]. apply list_elem_of_singleton in Hi as ->. by eapply claims_pend.
  - intros _ Hz. by apply H.
  - destruct Hp as [->|[Hp|Hp]]; [done|congruence|congruence].
Qed.

Lemma owned_section t k c k' new R : at_ t <> Gone -> owned k (t :: R) -> effect t k c k' new -> owned k' (option_list new ++ move c t :: R).
Proof.
  intros Hg (Hk & Hn & [Ho Hf]%Forall_cons) Heff. rewrite claims_cons in Hn. apply NoDup_app in Hn as (Hn1 & Hn2 & Hn3).
  assert (Ht : claims t = processID t :: option_list (fst <$> pend (at_ t))) by (unfold claims; by destruct (at_ t)).
  assert (Hout : forall i, i ∈ claims t -> forall u, u ∈ R -> i ∉ claims u).
  { intros i Hi u Hu Hiu. apply (Hn2 i Hi). apply list_elem_of_bind. by exists u. }
  destruct Heff as [c k' Hq Hc Hp He|i l c k' Hcr Hp0 Hp He|i l p c k' Hp0 Hp Hc He Hq Hl Hth|l k' Hr Hp0]; cbv [option_list option_rect app].
  - assert (Hk' : slots_ok k') by (apply (same_table_ok k); [apply Hq|done]). split; [done|]. split.
    + rewrite ?claims_cons. rewrite claims_move, Hp, <- Ht by done. by apply NoDup_app.
    + apply Forall_cons. split; [apply own_move; [by apply (own_quiet k)|done|by right; left|done]|].
      apply (Forall_impl (own k)); [done|]. intros u. by apply own_quiet.
  - assert (Hc : c <> Gone) by (by destruct c). split; [by eapply created_ok|]. split.
    + rewrite ?claims_cons. rewrite claims_move, Hp by done. cbn.
      assert (Hi : forall u, u ∈ t :: R -> i ∉ claims u).
      { intros u Hu Hi. assert (Hou : own k u) by (apply (proj1 (Forall_forall _ (t :: R))); [by apply Forall_cons|done]).
        destruct (o_bits _ _ Hou i Hi) as [_ Hti]. rewrite (c_free _ _ _ _ Hcr) in Hti. done. }
      rewrite Ht, Hp0 in Hn2. cbn in Hn2.
      assert (HiR : i ∉ R ≫= claims) by (intros [u [Hiu Hu]]%list_elem_of_bind; by apply (Hi u); [right|]).
      apply NoDup_cons. split; [|by apply NoDup_cons].
      rewrite elem_of_cons. intros [E|E]; [|by apply (Hn2 (processID t)); [left|]]. apply (Hi t); [left|]. rewrite Ht, Hp0, E. left.
    + apply Forall_cons. split; [|apply (Forall_impl (own k)); [done|]; intros u; by eapply own_created].
      assert (Ho' : own k' t) by (by eapply own_created). split; cbn [at_ move processID]; [|intros _ Hz; by apply Ho'| |congruence].
      * intros j Hj. rewrite claims_move, Hp in Hj by done. cbn in Hj. apply elem_of_cons in Hj as [->|Hj]; [apply (o_bits _ _ Ho'); by apply claims_own|].
        apply list_elem_of_singleton in Hj as ->. split; [apply Hcr|]. rewrite (c_test _ _ _ _ Hcr) by apply Hcr. by rewrite decide_True.
      * intros j x. rewrite Hp. intros [= <- <-]. rewrite (c_pcb _ _ _ _ Hcr). apply list_lookup_insert_eq.
        pose proof (s_len _ Hk). pose proof (c_in _ _ _ _ Hcr). lia.
  - rewrite Hp0 in Ht. cbn in Ht. assert (Hpcb : pcb k' = pcb k) by apply Hq. assert (Ho' : own k' t) by (by apply (own_quiet k)).
    split; [apply (same_table_ok k); [apply Hq|done]|]. split.
    + rewrite ?claims_cons. rewrite claims_move, Hp by done. unfold claims at 1. cbn.
      rewrite Ht in Hn1, Hn2. apply (NoDup_Permutation_proper _ ([processID t; i] ++ R ≫= claims)); [by apply perm_swap|]. by apply NoDup_app.
    + apply Forall_cons. split.
      { split; cbn; [|intros _ _; exists l, p; rewrite Hpcb; split; [by apply Ho|done]|done|done].
        intros j ->%list_elem_of_singleton. apply (o_bits _ _ Ho'). rewrite Ht. right. left. }
      apply Forall_cons. split; [apply own_move; auto; congruence|]. apply (Forall_impl (own k)); [done|]. intros u. by apply own_quiet.
  - assert (Hi : processID t ∈ claims t) by by apply claims_own. split; [by eapply removed_ok|]. split.
    + rewrite ?claims_cons. done.
    + apply Forall_cons. split; [|apply Forall_forall; intros u Hu; eapply own_removed; [done|done|by apply Hout|by apply (proj1 (Forall_forall _ R))]].
      split; cbn; try done. intros j Hj. by apply elem_of_nil in Hj.
Qed.

Lemma owned_step st st' : step st st' -> owned st.1 st.2 -> owned st'.1 st'.2.
Proof.
  intros Hst H. destruct Hst as [st st' Hs|k l1 t l2 r c Hr]; cbn [fst snd] in *.
  - destruct Hs as [k l1 t l2 c k' new Hs]. cbn [fst snd] in *.
    apply (owned_perm _ (option_list new ++ move c t :: (l1 ++ l2))); [solve_Permutation|].
    assert (H' : owned k (t :: (l1 ++ l2))) by (apply (owned_perm _ (l1 ++ t :: l2)); [solve_Permutation|done]).
    assert (Hg : at_ t <> Gone) by (intros E; unfold section in Hs; by rewrite E in Hs).
    apply (owned_section t k); [done|done|]. apply section_effect; [apply H'| |done]. by destruct H' as (_ & _ & [Ho _]%Forall_cons).
  - apply (owned_perm _ (move (enter c) t :: (l1 ++ l2))); [solve_Permutation|].
    apply (owned_section t k (enter c) k None); [by rewrite Hr|apply (owned_perm _ (l1 ++ t :: l2)); [solve_Permutation|done]|].
    apply eff_quiet; [apply quiet_same; [apply same_refl|done]|by destruct c|rewrite Hr; by destruct c|by destruct c].
Qed.

Lemma owned_reachable st st' : rtc step st st' -> owned st.1 st.2 -> owned st'.1 st'.2.
Proof. intros Hr. induction Hr as [|x y z Hxy _ IH]; [done|]. intros H. by eapply IH, owned_step. Qed.

(** ** A parent that joins and its child that exits *)

Section JoinExit.
Context (pp c ec : Z) (nmp nmc : option (list byte)) (lp lc : loc).

(** Where the two stand after [i] sections of [JoinUpdate] and [j] of
    [ExitUpdate]. *)
Definition parent_at (i : nat) : Thread :=
  mkThread pp nmp (match i with
    | 0 => Join0 c | 1 => Join1 c lp | 2 => Join2 c lp | 3 => Join3 c | 4 => Join4 c | _ => User ec end%nat).
Definition child_at (j : nat) : Thread :=
  mkThread c nmc (match j with
    | 0 => Exit0 ec | 1 => Exit1 ec lp | 2 => Exit2 ec lp | 3 => Exit3 ec | 4 => Exit4 ec | 5 => Exit5 ec | _ => Gone end%nat).

(** A child that can be joined: its object has been through [PCB::Exec] and
    nobody has joined it or exited. *)
Record joinable (q : PCB) : Prop := {
  q_join : joinsem q = 0;
  q_exit : exitsem q = 0;
  q_parent : parentID q = pp;
  q_thread : is_Some (thread q)
}.

(** The values of the semaphores follow from [i] and [j]. *)
Definition flag (P : Prop) (x : Z) : Prop := P /\ x = 1 \/ ~ P /\ x = 0.
Record handshake (i j : nat) (k : kstate) : Prop := {
  h_slots : slots_ok k;
  h_child : 0 < c < MAXPROCESS;
  h_parent : 0 <= pp < MAXPROCESS;
  h_ne : pp <> c /\ lp <> lc;
  h_lp : pointer pp k = Ok lp;
  h_lc : pointer c k = Ok lc;
  h_le : (i <= 5 /\ j <= 6)%nat;
  h_excl : ~ (i = 2 /\ j = 2)%nat;
  h_order : (4 <= i -> 4 <= j)%nat /\ (5 <= j -> 5 <= i)%nat;
  h_p : exists p, heap k !! lp = Some p /\ flag (i <> 2 /\ j <> 2)%nat (multex p);
  h_q : (j < 6)%nat -> exists q, heap k !! lc = Some q /\ flag (i < 4 <= j)%nat (joinsem q)
    /\ flag (j < 5 <= i)%nat (exitsem q) /\ parentID q = pp /\ is_Some (thread q) /\ ((1 <= j)%nat -> exitcode q = ec);
  h_bit : Bitmap.test (bm k) c = bool_decide (j < 6)%nat
}.

(** A store into one of the two objects leaves what [pointer] and the table
    say. *)
Lemma handshake_store i j k i' j' l p p' : handshake i j k -> heap k !! l = Some p ->
  (i' <= 5 /\ j' <= 6)%nat -> (j < 6 /\ j' < 6)%nat -> ~ (i' = 2 /\ j' = 2)%nat -> (4 <= i' -> 4 <= j')%nat /\ (5 <= j' -> 5 <= i')%nat ->
  (exists q, heap (store l p' k) !! lp = Some q /\ flag (i' <> 2 /\ j' <> 2)%nat (multex q)) ->
  (exists q, heap (store l p' k) !! lc = Some q /\ flag (i' < 4 <= j')%nat (joinsem q)
    /\ flag (j' < 5 <= i')%nat (exitsem q) /\ parentID q = pp /\ is_Some (thread q) /\ ((1 <= j')%nat -> exitcode q = ec)) ->
  handshake i' j' (store l p' k).
Proof.
  intros H Hl Hle [Hj Hj'] Hex Hord Hp Hq. split; try done; try apply H.
  - apply (same_table_ok k); [|apply H]. apply same_store. by exists p.
  - change (bm (store l p' k)) with (bm k). rewrite (h_bit _ _ _ H), !bool_decide_eq_true_2 by done. done.
Qed.

(** Each half of [handshake_store], for a store into either object. *)
Ltac halves H Hp Hq :=
  let Hne := fresh in pose proof (proj2 (h_ne _ _ _ H)) as Hne;
  unfold store; cbn [heap set_heap]; rewrite ?lookup_insert_eq, ?(lookup_insert_ne _ lp lc), ?(lookup_insert_ne _ lc lp) by congruence;
  eexists; split; [first [exact Hp|exact Hq|reflexivity]|];
  cbn [joinsem exitsem multex exitcode parentID thread set_joinsem set_exitsem set_multex set_numwait SetExitCode];
  unfold flag in *; split_and?; first [assumption|intros; first [assumption|reflexivity|lia]|lia].

Lemma IsExist_child i j k : handshake i j k -> IsExist c k = Ok (bool_decide (j < 6)%nat).
Proof.
  intros H. pose proof (h_child _ _ _ H) as Hc. unfold IsExist. rewrite !bool_decide_eq_false_2 by lia. cbn [orb].
  rewrite Bitmap.Test_ok by (first [apply (s_bm _ (h_slots _ _ _ H))|rewrite (s_bits _ (h_slots _ _ _ H)); lia]). by rewrite (h_bit _ _ _ H).
Qed.

Lemma parent_step i j k : handshake i j k -> (i < 5)%nat ->
  (section (parent_at i) k = None /\ (i = 1 /\ j = 2 \/ i = 3 /\ j < 4)%nat) \/
  exists k', section (parent_at i) k = Some (goto (at_ (parent_at (S i))) k') /\ handshake (S i) j k'.
Proof.
  intros H Hi. pose proof (h_order _ _ _ H) as Hord. pose proof (h_le _ _ _ H) as Hle. pose proof (h_excl _ _ _ H) as Hex.
  assert (Hj : (j < 6)%nat) by lia. destruct (h_p _ _ _ H) as (p & Hp & Hm). destruct (h_q _ _ _ H Hj) as (q & Hq & Hjs & Hes & Hpar & Hth & Hec).
  destruct i as [|[|[|[|[|i]]]]]; [..|lia]; unfold section; cbn [parent_at at_ processID].
  - right. exists k. rewrite (IsExist_child _ _ _ H), bool_decide_eq_true_2 by done. cbn [bind negb].
    rewrite bool_decide_eq_false_2, (h_lc _ _ _ H) by apply H. unfold object. cbn [bind]. rewrite Hq. cbn [bind].
    rewrite Hpar, bool_decide_eq_true_2, (h_lp _ _ _ H) by done. split; [done|].
    split; try apply H; try lia; [exists p; split; [done|]; unfold flag in *; lia|]. intros _. exists q. unfold flag in *. split_and!; try done; lia.
  - rewrite Hp. unfold flag in Hm. case_bool_decide as E; [left; split; [done|lia]|]. right. eexists. split; [reflexivity|].
    apply (handshake_store 1 j k _ _ lp p); try done; try lia; halves H Hp Hq.
  - right. unfold object. rewrite Hp. eexists. split; [reflexivity|].
    apply (handshake_store 2 j k _ _ lp p); try done; try lia; halves H Hp Hq.
  - rewrite (h_lc _ _ _ H), Hq. unfold flag in Hjs. case_bool_decide as E; [left; split; [done|lia]|]. right. eexists. split; [reflexivity|].
    apply (handshake_store 3 j k _ _ lc q); try done; try lia; halves H Hp Hq.
  - right. rewrite (h_lc _ _ _ H). unfold object. cbn [bind]. rewrite Hq. cbn [bind]. eexists. split.
    + unfold GetExitCode. rewrite Hec by lia. reflexivity.
    + apply (handshake_store 4 j k _ _ lc q); try done; try lia; halves H Hp Hq.
Qed.

Lemma child_step i j k : handshake i j k -> (j < 6)%nat ->
  (section (child_at j) k = None /\ (j = 1 /\ i = 2 \/ j = 4 /\ i < 5)%nat) \/
  exists k', section (child_at j) k = Some (goto (at_ (child_at (S j))) k') /\ handshake i (S j) k'.
Proof.
  intros H Hj. pose proof (h_order _ _ _ H) as Hord. pose proof (h_le _ _ _ H) as Hle. pose proof (h_excl _ _ _ H) as Hex.
  destruct (h_p _ _ _ H) as (p & Hp & Hm). destruct (h_q _ _ _ H Hj) as (q & Hq & Hjs & Hes & Hpar & Hth & Hec).
  pose proof (h_child _ _ _ H) as Hc. destruct j as [|[|[|[|[|[|j]]]]]]; [..|lia]; unfold section; cbn [child_at at_ processID].
  - right. rewrite bool_decide_eq_false_2 by lia. rewrite (IsExist_child _ _ _ H), bool_decide_eq_true_2 by done. cbn [bind negb].
    rewrite (h_lc _ _ _ H). unfold object. cbn [bind]. rewrite Hq. cbn [bind]. rewrite Hpar.
    change (pointer pp (store lc (SetExitCode ec q) k)) with (pointer pp k). rewrite (h_lp _ _ _ H). eexists. split; [reflexivity|].
    apply (handshake_store i 0 k _ _ lc q); try done; try lia; halves H Hp Hq.
  - rewrite Hp. unfold flag in Hm. case_bool_decide as E; [left; split; [done|lia]|]. right. eexists. split; [reflexivity|].
    apply (handshake_store i 1 k _ _ lp p); try done; try lia; halves H Hp Hq.
  - right. unfold object. rewrite Hp. eexists. split; [reflexivity|].
    apply (handshake_store i 2 k _ _ lp p); try done; try lia; halves H Hp Hq.
  - right. rewrite (h_lc _ _ _ H). unfold object. cbn [bind]. rewrite Hq. eexists. split; [reflexivity|].
    apply (handshake_store i 3 k _ _ lc q); try done; try lia; halves H Hp Hq.
  - rewrite (h_lc _ _ _ H), Hq. unfold flag in Hes. case_bool_decide as E; [left; split; [done|lia]|]. right. eexists. split; [reflexivity|].
    apply (handshake_store i 4 k _ _ lc q); try done; try lia; halves H Hp Hq.
  - right. pose proof (h_slots _ _ _ H) as Hk. destruct Hth as [th Hth].
    assert (Hb : 0 <= c < Bitmap.numBits (bm k)) by (rewrite (s_bits _ Hk); lia).
    destruct (Bitmap.Clear_ok (bm k) c (s_bm _ Hk) Hb) as (b & Hcl & Hw & Hn & Ht).
    set (k' := set_heap (delete lc (heap k)) (set_bm b k)).
    assert (E : remove_section (child_at 5) ec k = goto Gone k').
    { unfold remove_section. cbn [child_at processID]. rewrite !bool_decide_eq_false_2 by lia. cbn [orb].
      rewrite Bitmap.Test_ok, (h_bit _ _ _ H) by first [apply Hk|done]. cbn [bind]. rewrite bool_decide_eq_true_2, Hcl by lia. cbn [bind].
      rewrite (h_lc _ _ _ H). unfold object. cbn [bind]. rewrite Hq. cbn [bind]. by rewrite Hth. }
    exists k'. split; [by f_equal|]. split; try done; try lia; try apply H.
    + exact (remove_section_ok (child_at 5) ec k Gone k' None Hk E).
    + exists p. split; [|unfold flag in *; lia]. unfold k'. cbn [heap set_heap]. rewrite lookup_delete_ne; [done|]. symmetry. apply H.
    + unfold k'. cbn [bm set_heap set_bm]. rewrite Ht by done. by rewrite decide_True, bool_decide_eq_false_2 by lia.
Qed.

(** The parent and the child, whichever runs next: after [i + j] sections. *)
Lemma handshake_kernel_step i j k st' : handshake i j k -> kernel_step (k, [parent_at i; child_at j]) st' ->
  exists i' j' k', st' = (k', [parent_at i'; child_at j']) /\ handshake i' j' k' /\ (i' + j' = S (i + j))%nat.
Proof.
  intros H Hst. remember (k, [parent_at i; child_at j]) as st eqn:Est. destruct Hst as [k0 l1 t l2 c0 k' new Hs]. injection Est as -> El.
  pose proof (h_le _ _ _ H) as Hle. destruct l1 as [|t1 [|t2 l1]]; cbn in El.
  - injection El as -> ->. destruct (decide (i = 5)%nat) as [->|Hi]; [done|].
    destruct (parent_step i j k H) as [[E _]|(k1 & E & H1)]; [lia|congruence|]. rewrite E in Hs. injection Hs as <- <- <-.
    exists (S i), j, k1. split_and!; [|done|lia]. by destruct i as [|[|[|[|[|i]]]]].
  - injection El as -> -> ->. destruct (decide (j = 6)%nat) as [->|Hj]; [done|].
    destruct (child_step i j k H) as [[E _]|(k1 & E & H1)]; [lia|congruence|]. rewrite E in Hs. injection Hs as <- <- <-.
    exists i, (S j), k1. split_and!; [|done|lia]. by destruct j as [|[|[|[|[|[|j]]]]]].
  - injection El as -> -> El. by destruct l1.
Qed.

Lemma handshake_steps n i j k st' : handshake i j k -> nsteps kernel_step n (k, [parent_at i; child_at j]) st' ->
  exists i' j' k', st' = (k', [parent_at i'; child_at j']) /\ handshake i' j' k' /\ (i' + j' = n + (i + j))%nat.
Proof.
  revert i j k. induction n as [|n IH]; intros i j k H Hn; inversion Hn as [|? ? y ? Hs Hn']; subst; [by exists i, j, k|].
  destruct (handshake_kernel_step _ _ _ _ H Hs) as (i1 & j1 & k1 & -> & H1 & E1).
  destruct (IH _ _ _ H1 Hn') as (i2 & j2 & k2 & -> & H2 & E2). exists i2, j2, k2. split_and!; [done|done|lia].
Qed.

(** No fault, and never both asleep. *)
Lemma handshake_progress i j k : handshake i j k ->
  (forall t e, t ∈ [parent_at i; child_at j] -> section t k <> Some (Fault e)) /\
  ((i + j < 11)%nat -> exists st', kernel_step (k, [parent_at i; child_at j]) st').
Proof.
  intros H. pose proof (h_le _ _ _ H) as Hle. pose proof (h_order _ _ _ H) as Hord. split.
  - intros t e Ht E. apply elem_of_cons in Ht as [->|Ht%list_elem_of_singleton]; [|subst t].
    + destruct (decide (i = 5)%nat) as [->|]; [done|]. destruct (parent_step i j k H) as [[? _]|(? & E1 & _)]; [lia|congruence|by rewrite E1 in E].
    + destruct (decide (j = 6)%nat) as [->|]; [done|]. destruct (child_step i j k H) as [[? _]|(? & E1 & _)]; [lia|congruence|by rewrite E1 in E].
  - intros Hn. assert (Hc : (i < 5)%nat /\ ~ (i = 1 /\ j = 2 \/ i = 3 /\ j < 4)%nat \/ (j < 6)%nat /\ ~ (j = 1 /\ i = 2 \/ j = 4 /\ i < 5)%nat) by lia.
    destruct Hc as [[Hi Hb]|[Hj Hb]].
    + destruct (parent_step i j k H Hi) as [[_ ?]|(k1 & E & _)]; [done|]. eexists. exact (step_section k [] (parent_at i) [child_at j] _ k1 None E).
    + destruct (child_step i j k H Hj) as [[_ ?]|(k1 & E & _)]; [done|]. eexists. exact (step_section k [parent_at i] (child_at j) [] _ k1 None E).
Qed.
End JoinExit.

Lemma new_PTable_owned h k nm : new_PTable MAXPROCESS h = Ok k -> owned k [mkThread 0 nm (User 0)].
Proof.
  intros [Hk Ht]%new_PTable_ok. split; [done|]. split; [apply NoDup_singleton|]. apply Forall_singleton. split; cbn; try done.
  by intros i ->%list_elem_of_singleton.
Qed.

(** ** An example: a process, its child, and both at the end *)

(** The threads run their sections in the order of the list. *)
Fixpoint sched (order : list nat) (st : system) : option system :=
  match order with
  | [] => Some st
  | i :: order =>
      match st.2 !! i with
      | Some t =>
          match section t st.1 with
          | Some (Ok (c, k', new)) => sched order (k', take i st.2 ++ move c t :: drop (S i) st.2 ++ option_list new)
          | _ => None
          end
      | None => None
      end
  end.

Lemma sched_steps order st st' : sched order st = Some st' -> nsteps kernel_step (length order) st st'.
Proof.
  revert st. induction order as [|i order IH]; intros [k ts]; cbn [sched fst snd length]; [intros [= <-]; constructor|].
  destruct (ts !! i) as [t|] eqn:Ht; [|done]. destruct (section t k) as [[[[c k'] new]|]|] eqn:Hs; try done. intros H.
  econstructor; [|by apply IH]. rewrite <- (take_drop_middle ts i t Ht) at 1. by constructor.
Qed.

Definition name_example : list byte := [x70; x72; x6f; x67].
Definition main_name : list byte := [x6d; x61; x69; x6e].
Definition host_example : host := mkHost {[ name_example := 0 ]} {[ 0 := [] ]} ∅ (fun _ => true) 16.
Definition parent_example (c : kcode) : Thread := mkThread 0 (Some main_name) c.
Definition k0_example : kstate := match new_PTable MAXPROCESS host_example with Ok k => k | Fault _ => mkK (Bitmap.mk 0 0 []) [] 0 ∅ 0 host_example end.
Definition forked_example : kstate :=
  match sched (replicate 6 0%nat) (k0_example, [parent_example (Exec0 (Some name_example))]) with Some st => st.1 | None => k0_example end.

(** ** Properties *)

(** C12: from the start, whatever the processes call and in whatever order their
    threads run, every process that has not ended owns a slot of the table: the
    bit of its ID is set, its [PCB] is a live object, no two processes share an
    ID, and no two IDs in use share an object. *)
Theorem PTable_processes_own_slots h k0 nm st a t :
  new_PTable MAXPROCESS h = Ok k0 -> rtc step (k0, [mkThread 0 nm (User 0)]) st -> st.2 !! a = Some t -> at_ t <> Gone ->
  IsExist (processID t) st.1 = Ok true /\
  (exists l p, pointer (processID t) st.1 = Ok l /\ object l st.1 = Ok p /\
    forall i, i <> processID t -> IsExist i st.1 = Ok true -> pointer i st.1 <> Ok l) /\
  (forall b t', b <> a -> st.2 !! b = Some t' -> at_ t' <> Gone -> processID t' <> processID t).
Proof.
  intros Hnew Hr Ha Hg. destruct st as [k ts]. cbn [fst snd] in *.
  assert (Ho : owned k ts) by exact (owned_reachable _ _ Hr (new_PTable_owned h k0 nm Hnew)).
  pose proof (owned_perm _ _ _ (delete_Permutation ts a t Ha) Ho) as (Hk & Hn & [Ht _]%Forall_cons).
  destruct (o_bits _ _ Ht _ (claims_own t Hg)) as [Hi Hti]. split; [by apply IsExist_ok|]. split.
  - destruct (s_live _ Hk _ Hi Hti) as (l & Hl & [p Hp]). exists l, p. unfold object. rewrite Hp.
    split; [unfold pointer; by rewrite (proj2 (lget_ok _ _ (Some l))) by (split; [lia|done])|]. split; [done|].
    intros i Hne Hex [_ Hil]%pointer_some. apply IsExist_ok in Hex as [Hri Hsi]; [|done]. apply Hne. by apply (s_inj _ Hk i (processID t) l).
  - intros b t' Hne Hb Hg' E. rewrite claims_cons in Hn. apply NoDup_app in Hn as (_ & Hn & _). apply (Hn _ (claims_own t Hg)).
    apply list_elem_of_bind. exists t'. rewrite <- E. split; [by apply claims_own|]. destruct (decide (b < a)%nat).
    + apply (list_elem_of_lookup_2 _ b). by rewrite list_lookup_delete_lt.
    + apply (list_elem_of_lookup_2 _ (Nat.pred b)). rewrite list_lookup_delete_ge by lia. by replace (S (Nat.pred b)) with b by lia.
Qed.

Lemma PTable_processes_own_slots_witness : exists st,
  rtc step (k0_example, [parent_example (User 0)]) st /\ length st.2 = 2%nat /\ forall t, st.2 !! 1%nat = Some t -> IsExist (processID t) st.1 = Ok true.
Proof.
  exists (forked_example, [parent_example (User 1); mkThread 1 None (User 0)]).
  assert (Hr : rtc step (k0_example, [parent_example (User 0)]) (forked_example, [parent_example (User 1); mkThread 1 None (User 0)])).
  { apply (rtc_l _ _ (k0_example, [parent_example (Exec0 (Some name_example))])).
    - exact (step_user k0_example [] (parent_example (User 0)) [] 0 (CExec (Some name_example)) eq_refl).
    - apply (rtc_subrel kernel_step); [exact step_kernel|]. apply (rtc_nsteps_2 6). apply (sched_steps (replicate 6 0%nat)). vm_compute. reflexivity. }
  split; [exact Hr|]. split; [reflexivity|]. intros t Ht.
  refine (proj1 (PTable_processes_own_slots host_example k0_example (Some main_name) _ 1 t _ Hr Ht _)); [vm_compute; reflexivity|].
  injection Ht as <-. done.
Defined.

(** C16: a parent that joins a child and the child that exits with [ec], from the
    moment both enter the kernel: whichever of the two runs next, nothing
    faults, they are never both asleep, and after eleven sections and no
    sooner the parent is back in its program with [ec], the child has ended
    and its slot is free. *)
Theorem PTable_join_exit pp c ec nmp nmc lp lc p q k n st :
  slots_ok k -> 0 < c < MAXPROCESS -> 0 <= pp < MAXPROCESS -> pp <> c ->
  Bitmap.test (bm k) pp = true -> Bitmap.test (bm k) c = true ->
  pointer pp k = Ok lp -> object lp k = Ok p -> multex p = 1 ->
  pointer c k = Ok lc -> object lc k = Ok q -> joinable pp q ->
  nsteps kernel_step n (k, [mkThread pp nmp (Join0 c); mkThread c nmc (Exit0 ec)]) st ->
  (forall t e, t ∈ st.2 -> section t st.1 <> Some (Fault e)) /\
  ((n < 11)%nat /\ (exists st', kernel_step st st') \/
   n = 11%nat /\ st.2 = [mkThread pp nmp (User ec); mkThread c nmc Gone] /\ IsExist c st.1 = Ok false).
Proof.
  intros Hk Hc Hpp Hne Htp Htc Hlp Hp Hm Hlc Hq [Hj Hx Hpar Hth] Hn.
  assert (H : handshake pp c ec lp lc 0 0 k).
  { apply object_some in Hp, Hq. split; try done; try lia.
    - split; [done|]. intros <-. apply pointer_some in Hlp as [_ Hlp], Hlc as [_ Hlc]. apply Hne. apply (s_inj _ Hk pp c lp); [done|lia|done..].
    - exists p. split; [done|]. unfold flag. lia.
    - intros _. exists q. unfold flag. split_and!; try done; lia. }
  destruct (handshake_steps pp c ec nmp nmc lp lc n 0 0 k st H Hn) as (i & j & k' & -> & H' & E).
  destruct (handshake_progress pp c ec nmp nmc lp lc i j k' H') as [Hf Hg]. split; [done|].
  pose proof (h_le _ _ _ _ _ _ _ _ H') as Hle. destruct (decide (n < 11)%nat) as [Hlt|Hge]; [left; split; [done|]; apply Hg; lia|].
  right. assert (i = 5 /\ j = 6)%nat as [-> ->] by lia. split_and!; [lia|done|]. exact (IsExist_child _ _ _ _ _ _ _ _ H').
Qed.

Lemma PTable_join_exit_witness : exists st,
  nsteps kernel_step 11 (forked_example, [mkThread 0 (Some main_name) (Join0 1); mkThread 1 None (Exit0 7)]) st /\
  st.2 = [mkThread 0 (Some main_name) (User 7); mkThread 1 None Gone] /\ IsExist 1 st.1 = Ok false.
Proof.
  destruct (sched [0; 0; 0; 1; 1; 1; 1; 0; 0; 1; 1]%nat (forked_example, [mkThread 0 (Some main_name) (Join0 1); mkThread 1 None (Exit0 7)])) as [st|] eqn:E;
    [|vm_compute in E; discriminate E].
  exists st. pose proof (sched_steps _ _ _ E) as Hn. cbn [length] in Hn. split; [exact Hn|]. clear E.
  assert (Hnew : new_PTable MAXPROCESS host_example = Ok k0_example) by (vm_compute; reflexivity).
  assert (Hk : slots_ok forked_example).
  { apply (nsteps_slots 6 (k0_example, [parent_example (Exec0 (Some name_example))]) (forked_example, [parent_example (User 1); mkThread 1 None (User 0)])).
    - exact (proj1 (new_PTable_ok _ _ Hnew)).
    - apply (sched_steps (replicate 6 0%nat)). vm_compute. reflexivity. }
  destruct (object 0 forked_example) as [p|] eqn:Ep; [|vm_compute in Ep; discriminate Ep].
  destruct (object 1 forked_example) as [q|] eqn:Eq; [|vm_compute in Eq; discriminate Eq].
  assert (Hm : multex p = 1) by (vm_compute in Ep; injection Ep as <-; reflexivity).
  assert (Hq : joinable 0 q) by (vm_compute in Eq; injection Eq as <-; split; try reflexivity; eexists; reflexivity).
  destruct (PTable_join_exit 0 1 7 (Some main_name) None 0 1 p q forked_example 11 st) as [_ [[Hl _]|[_ Hend]]];
    try first [exact Hk|exact Ep|exact Eq|exact Hm|exact Hq|exact Hn|lia|vm_compute; reflexivity|unfold MAXPROCESS; lia].
  exact Hend.
Defined.

End PTable.
