(* ===== verification/Syscalls.v ===== *)
(** * userprog/exception.cc, userprog/ksyscall.h: system calls

    The exception handler of the kernel: every system call, its arguments in
    registers and in the memory of the user program, its effect on the console,
    the files, the semaphores, and its result in register 2. *)

From Stdlib Require Import Strings.Byte.
From S2P Require Import Prelude LibBitmap Machine Mips Disk Sysdep StubFS Console STable PTable.

Module Syscalls.
Import Machine Disk.

(** What the handler reaches: the processor, the host's files, the open files of
    the calling process, the console, and the named semaphores. *)
Record kernel := mkKernel {
  cpu : machine;
  the_host : Sysdep.host;
  files : StubFS.FileSystem;
  synchConsoleIn : Console.ConsoleInput;
  synchConsoleOut : Console.ConsoleOutput;
  sTab : STable.STable
}.

Definition set_cpu m k := mkKernel m (the_host k) (files k) (synchConsoleIn k) (synchConsoleOut k) (sTab k).
Definition set_host h k := mkKernel (cpu k) h (files k) (synchConsoleIn k) (synchConsoleOut k) (sTab k).
Definition set_files f k := mkKernel (cpu k) (the_host k) f (synchConsoleIn k) (synchConsoleOut k) (sTab k).
Definition set_in c k := mkKernel (cpu k) (the_host k) (files k) c (synchConsoleOut k) (sTab k).
Definition set_out c k := mkKernel (cpu k) (the_host k) (files k) (synchConsoleIn k) c (sTab k).
Definition set_sTab s k := mkKernel (cpu k) (the_host k) (files k) (synchConsoleIn k) (synchConsoleOut k) s.

(** How a piece of the handler ends: it goes on with a value; [SysHalt] has shut
    the machine down; the thread sleeps and nothing this handler does will wake
    it; or it enters the process table, where other threads run, and goes on in
    [resume]. *)
Inductive outcome (A : Type) :=
| Value (a : A) (k : kernel)
| Halted (k : kernel)
| Sleeps
| Calls (c : PTable.call) (k : kernel).
Arguments Value {A} a k.
Arguments Halted {A} k.
Arguments Sleeps {A}.
Arguments Calls {A} c k.

Definition M (A : Type) : Type := kernel -> result (outcome A).

Definition ret {A} (a : A) : M A := fun k => Ok (Value a k).
Definition seq {A B} (m : M A) (f : A -> M B) : M B := fun k =>
  match m k with
  | Fault e => Fault e
  | Ok (Value a k) => f a k
  | Ok (Halted k) => Ok (Halted k)
  | Ok Sleeps => Ok Sleeps
  | Ok (Calls c k) => Ok (Calls c k)
  end.

Declare Scope syscall_scope.
Notation "'let*' x := m 'in' f" := (seq m (fun x => f)) (at level 200, x name, f at level 200) : syscall_scope.
Notation "'let*' ' p := m 'in' f" := (seq m (fun x => match x with p => f end)) (at level 200, p pattern, f at level 200) : syscall_scope.
Notation "m ;;; f" := (seq m (fun _ => f)) (at level 199, right associativity) : syscall_scope.
Open Scope syscall_scope.

(** A part of the kernel's state, and the components' own steps on it. *)
Definition gets {A} (f : kernel -> A) : M A := fun k => Ok (Value (f k) k).
Definition modify (f : kernel -> kernel) : M unit := fun k => Ok (Value tt (f k)).
Definition lift {A} (r : result A) : M A := fun k => a <- r ;; Ok (Value a k).
Definition halt {A} : M A := fun k => Ok (Halted k).

(** ** The processor *)

Definition ReadRegister (i : Z) : M Z := let* m := gets cpu in lift (Machine.ReadRegister m i).
Definition WriteRegister (i v : Z) : M unit := let* m := gets cpu in let* m := lift (Machine.WriteRegister i v m) in modify (set_cpu m).

(** A failing access raises an exception, whose handler halts the machine: the
    four kinds of a failing translation all do. *)
Definition ReadMem (addr : Z) : M Z :=
  let* m := gets cpu in
  let* '(m, r) := lift (Machine.ReadMem addr 1 m) in
  modify (set_cpu m) ;;; match r with inl _ => halt | inr v => ret v end.
Definition WriteMem (addr v : Z) : M unit :=
  let* m := gets cpu in
  let* '(m, r) := lift (Machine.WriteMem addr 1 v m) in
  modify (set_cpu m) ;;; match r with inl _ => halt | inr _ => ret tt end.

Definition increasePC : M unit :=
  let* pc := ReadRegister PCReg in
  WriteRegister PrevPCReg pc ;;;
  let* pc := ReadRegister PCReg in
  WriteRegister PCReg (wrap32 (pc + 4)) ;;;
  let* pc := ReadRegister PCReg in
  WriteRegister NextPCReg (wrap32 (pc + 4)).

(** [WriteRegister(2, v); increasePC(); return;] *)
Definition return_with (v : Z) : M unit := WriteRegister 2 v ;;; increasePC.

(** ** Between user and kernel memory *)

(** [new char[n]] *)
Definition new_chars (n : Z) : M unit := if bool_decide (n < 0) then lift (Fault BadAlloc) else ret tt.

(** The loop of [User2System], at the index [i] with [n] to go: the bytes it
    stores. *)
Fixpoint user_bytes (n : nat) (virAddr i : Z) : M (list byte) :=
  match n with
  | O => ret []
  | S n =>
      let* oneChar := ReadMem (wrap32 (virAddr + i)) in
      if bool_decide (oneChar = 0) then ret [Zbyte oneChar]
      else let* bs := user_bytes n virAddr (i + 1) in ret (Zbyte oneChar :: bs)
  end.

(** The buffer of [limit + 1] bytes. *)
Definition User2System (virAddr limit : Z) : M (list byte) :=
  new_chars (wrap32 (limit + 1)) ;;;
  let* bs := user_bytes (Z.to_nat limit) virAddr 0 in
  ret (bs ++ replicate (Z.to_nat (limit + 1) - length bs) x00).

(** The [do] loop, at the index [i] with [n] left. *)
Fixpoint to_user (n : nat) (virtAddr i : Z) (buffer : list byte) : M Z :=
  match n with
  | O => ret i
  | S n =>
      let* b := lift (lget buffer i) in
      WriteMem (wrap32 (virtAddr + i)) (charZ b) ;;;
      if bool_decide (charZ b = 0) then ret (i + 1) else to_user n virtAddr (i + 1) buffer
  end.

Definition System2User (virtAddr len : Z) (buffer : list byte) : M Z :=
  if bool_decide (len < 0) then ret (-1) else if bool_decide (len = 0) then ret len else to_user (Z.to_nat len) virtAddr 0 buffer.

(** ** The console *)

(** A call of the console that may not return. *)
Definition console_in {A} (f : Console.ConsoleInput -> result (option (A * Console.ConsoleInput))) : M A := fun k =>
  r <- f (synchConsoleIn k) ;;
  Ok (match r with Some (a, c) => Value a (set_in c k) | None => Sleeps end).
Definition console_out (f : Console.ConsoleOutput -> result (option Console.ConsoleOutput)) : M unit := fun k =>
  r <- f (synchConsoleOut k) ;;
  Ok (match r with Some c => Value tt (set_out c k) | None => Sleeps end).

Definition GetChar : M Z := console_in Console.GetChar.
Definition PutChar (b : byte) : M unit := console_out (Console.PutChar b).
Definition Console_Write (bs : list byte) (n : Z) : M unit :=
  console_out (fun c => r <- Console.Write bs n c ;; Ok (snd <$> r)).
(** After the end of the input the next read does not return, so two rounds of
    the loop in [Read] are enough. *)
Definition Console_Read (n : Z) : M (Z * list byte) :=
  console_in (fun c => r <- Console.Read 2 n c ;; Ok ((fun '(v, bs, c) => (v, bs, c)) <$> r)).

(** One call of [GetChar] for every character that can still come, and one for
    the end of the input. *)
Definition reads : M nat := gets (fun k => S (S (length (Console.typed (synchConsoleIn k))))).

Definition newline : Z := 10.
Definition space : Z := 32.
Definition minus : Z := 45.
Definition zero : Z := 48.
Definition isDigit (c : Z) : bool := bool_decide (48 <= c) && bool_decide (c <= 57).

Fixpoint clear_loop (n : nat) : M unit :=
  match n with
  | O => lift (Fault OutOfFuel)
  | S n =>
      let* c := GetChar in
      if negb (bool_decide (c = newline)) && negb (bool_decide (c = Console.EOF)) then clear_loop n else ret tt
  end.
Definition clearInputBuffer : M unit := let* n := reads in clear_loop n.

(** ** Arithmetic and the console *)

Definition SysHalt : M unit := halt.
Definition SysAdd (op1 op2 : Z) : Z := wrap32 (op1 + op2).

Definition handle_Halt : M unit := SysHalt ;;; lift (Fault AssertFailed).

Definition handle_Add : M unit :=
  let* op1 := ReadRegister 4 in let* op2 := ReadRegister 5 in return_with (SysAdd op1 op2).

(** A 64-bit [long long]. *)
Definition wrap64 (z : Z) : Z := (z + 2 ^ 63) mod 2 ^ 64 - 2 ^ 63.
Definition INT_MIN : Z := -2147483647.
Definition INT_MAX : Z := 2147483647.

Fixpoint skip_spaces (n : nat) : M Z :=
  match n with
  | O => lift (Fault OutOfFuel)
  | S n => let* c := GetChar in if bool_decide (c = space) then skip_spaces n else ret c
  end.

(** The loop up to the newline: [res] and [flagZero], or [None] at a character
    that does not belong. *)
Fixpoint number_loop (n : nat) (res : Z) (isEnd flagZero : bool) : M (option (Z * bool)) :=
  match n with
  | O => lift (Fault OutOfFuel)
  | S n =>
      let* c := GetChar in
      if bool_decide (c = newline) then ret (Some (res, flagZero))
      else if isDigit c && negb isEnd then number_loop n (wrap64 (res * 10 + (c - zero))) isEnd true
      else if bool_decide (c = space) then number_loop n res true flagZero
      else ret None
  end.

Definition not_a_number : M unit := WriteRegister 2 0 ;;; clearInputBuffer ;;; increasePC.

Definition read_digits (isNegative : bool) (res : Z) : M unit :=
  let* n := reads in
  let* r := number_loop n res false false in
  match r with
  | None => not_a_number
  | Some (res, flagZero) =>
      let res := if isNegative then wrap64 (- res) else res in
      if bool_decide (INT_MAX < res) then return_with 0
      else if bool_decide (res < INT_MIN) then return_with 0
      else if isNegative && bool_decide (res = 0) && negb flagZero then return_with 0
      else return_with (wrap32 res)
  end.

Definition handle_ReadNum : M unit :=
  let* n := reads in
  let* c := skip_spaces n in
  if bool_decide (c = minus) then read_digits true 0
  else if isDigit c then read_digits false (0 * 10 + (c - zero))
  else if bool_decide (c = newline) then return_with 0
  else not_a_number.

(** The number of digits of a positive [int], and the digits, from the last to
    the first. *)
Fixpoint count_digits (n : nat) (temp : Z) : result nat :=
  match n with
  | O => Fault OutOfFuel
  | S n => if bool_decide (0 < temp) then k <- count_digits n (Z.quot temp 10) ;; Ok (S k) else Ok O
  end.
Fixpoint digits (n : nat) (number : Z) (buffer : list byte) : list byte :=
  match n with O => buffer | S n => digits n (Z.quot number 10) (Zbyte (Z.rem number 10 + zero) :: buffer) end.

Fixpoint put_chars (bs : list byte) : M unit :=
  match bs with [] => ret tt | b :: bs => PutChar b ;;; put_chars bs end.

Definition MAX_SIZE_BUFFER : nat := 11.

Definition handle_PrintNum : M unit :=
  let* number := ReadRegister 4 in
  if bool_decide (number = 0) then PutChar (Zbyte zero) ;;; increasePC
  else
    let negative := bool_decide (number < 0) in
    let number := if negative then wrap32 (- number) else number in
    let* n := lift (count_digits MAX_SIZE_BUFFER number) in
    put_chars ((if negative then [Zbyte minus] else []) ++ digits n number []) ;;;
    increasePC.

Definition handle_PrintString : M unit :=
  let* virtAddr := ReadRegister 4 in
  let* buffer := User2System virtAddr 255 in
  let* str := lift (cstring buffer) in
  Console_Write buffer (Z.of_nat (length str) + 1) ;;;
  increasePC.

(** The characters up to the newline, each stored in [strName]. *)
Fixpoint line_loop (n : nat) (len : Z) (strName : list byte) : M (list byte) :=
  match n with
  | O => lift (Fault OutOfFuel)
  | S n =>
      let* c := GetChar in
      if bool_decide (c = newline) then ret strName
      else if bool_decide (Z.of_nat (length strName) < len) then line_loop n len (strName ++ [Zbyte c])
      else lift (Fault OutOfBounds)
  end.

Definition handle_ReadString : M unit :=
  let* virAddr := ReadRegister 4 in
  let* len := ReadRegister 5 in
  new_chars len ;;;
  let* n := reads in
  let* strName := line_loop n len [] in
  (if bool_decide (Z.of_nat (length strName) < len) then ret tt else lift (Fault OutOfBounds)) ;;;
  let* numBytes := System2User virAddr (Z.of_nat (length strName)) (strName ++ [x00]) in
  increasePC.

(** [random seed]: what the host's [rand] returns after [srand(seed)]. *)
Definition handle_RandomNum (random : Z -> Z) (now : Z) : M unit := return_with (wrap32 (random now)).

Definition handle_ReadChar : M unit :=
  let* result := GetChar in
  if bool_decide (result = newline) then return_with result
  else
    let* c := GetChar in
    if bool_decide (c = newline) then return_with result
    else clearInputBuffer ;;; return_with 0.

Definition handle_PrintChar : M unit :=
  let* c := ReadRegister 4 in Console_Write [Zbyte c] 1 ;;; increasePC.

(** ** Files *)

Definition MAX_LENGTH_FILENAME : Z := 32.
Definition RW_ERROR_FILE : Z := -1.
Definition RW_END_FILE : Z := -2.

Definition host_op {A} (f : Sysdep.host -> result (A * Sysdep.host)) : M A := fun k =>
  '(a, h) <- f (the_host k) ;; Ok (Value a (set_host h k)).

(** [fileSystem->fileTable[id]], and a method of the object it points to. *)
Definition file_at (id : Z) : M (option StubFS.OpenFile) := let* fs := gets files in lift (lget (StubFS.fileTable fs) id).
Definition set_file (id : Z) (o : option StubFS.OpenFile) : M unit :=
  let* fs := gets files in let* t := lift (lset (StubFS.fileTable fs) id o) in modify (set_files (StubFS.mkFS t)).
Definition file_op {A} (id : Z) (op : StubFS.OpenFile -> Sysdep.host -> result (A * StubFS.OpenFile * Sysdep.host)) : M A :=
  let* o := file_at id in
  match o with
  | None => lift (Fault NullPointer)
  | Some f => let* '(a, f) := host_op (fun h => '(a, f, h) <- op f h ;; Ok ((a, f), h)) in set_file id (Some f) ;;; ret a
  end.

Definition file_Length (id : Z) : M Z := file_op id (fun f h => '(n, h) <- StubFS.Length f h ;; Ok (n, f, h)).
Definition file_Seek (id position : Z) : M unit := file_op id (fun f h => '(f, h) <- StubFS.Seek f position h ;; Ok (tt, f, h)).
Definition file_getCurrentOffset (id : Z) : M Z := file_op id (fun f h => Ok (StubFS.getCurrentOffset f h)).
Definition file_getType (id : Z) : M Z := file_op id (fun f h => t <- StubFS.getType f ;; Ok (t, f, h)).
Definition file_Read (id n : Z) : M (option (list byte)) := file_op id (fun f h => StubFS.Read f n h).
Definition file_Write (id n : Z) (bs : list byte) : M Z := file_op id (fun f h => StubFS.Write f bs n h).

Definition handle_CreateFile : M unit :=
  let* virAddr := ReadRegister 4 in
  let* buffer := User2System virAddr MAX_LENGTH_FILENAME in
  let* filename := lift (cstring buffer) in
  let* ok := host_op (StubFS.Create filename) in
  if negb ok then return_with (-1) else return_with 0.

(** [break] out of the inner [switch] leads to ASSERTNOTREACHED. *)
Definition handle_Open : M unit :=
  let* virAddr := ReadRegister 4 in
  let* type := ReadRegister 5 in
  let* buffer := User2System virAddr MAX_LENGTH_FILENAME in
  let* fs := gets files in
  let* freeSlot := lift (StubFS.FindFreeSlot fs) in
  let refuse := WriteRegister 2 (-1) ;;; increasePC ;;; lift (Fault AssertFailed) in
  if bool_decide (type = StubFS.INPUT_TYPE) then WriteRegister 2 0 ;;; refuse
  else if bool_decide (type = StubFS.OUTPUT_TYPE) then WriteRegister 2 1 ;;; refuse
  else if negb (bool_decide (freeSlot = -1)) then
    let* fileName := lift (cstring buffer) in
    let* file := host_op (StubFS.Open_typed fileName type) in
    (match file with Some f => set_file freeSlot (Some f) ;;; WriteRegister 2 freeSlot | None => ret tt end) ;;;
    increasePC
  else refuse.

Definition handle_Close : M unit :=
  let* file_Id := ReadRegister 4 in
  if bool_decide (2 <= file_Id) && bool_decide (file_Id <= StubFS.MAX_FILE_OPEN - 1) then
    let* o := file_at file_Id in
    match o with
    | Some f =>
        host_op (fun h => h <- StubFS.delete_OpenFile f h ;; Ok (tt, h)) ;;;
        set_file file_Id None ;;;
        return_with 0
    | None => return_with (-1)
    end
  else WriteRegister 2 (-1) ;;; increasePC ;;; lift (Fault AssertFailed).

Definition handle_Seek : M unit :=
  let* position := ReadRegister 4 in
  let* id := ReadRegister 5 in
  if bool_decide (id < 0) || bool_decide (StubFS.MAX_FILE_OPEN <= id) then return_with (-1)
  else
    let* o := file_at id in
    if negb (isSome o) then return_with (-1)
    else if bool_decide (id = 0) || bool_decide (id = 1) then return_with (-1)
    else
      let* position := (if bool_decide (position = -1) then file_Length id else ret position) in
      let* len := file_Length id in
      if bool_decide (len < position) || bool_decide (position < 0) then return_with (-1)
      else file_Seek id position ;;; return_with position.

Definition handle_Read : M unit :=
  let* virAddr := ReadRegister 4 in
  let* charcount := ReadRegister 5 in
  let* id := ReadRegister 6 in
  if bool_decide (id < 0) || bool_decide (StubFS.MAX_FILE_OPEN < id) then return_with RW_ERROR_FILE
  else
    let* o := file_at id in
    if negb (isSome o) then return_with RW_ERROR_FILE
    else if bool_decide (id = StubFS.INDEX_STDOUT) then return_with RW_ERROR_FILE
    else
      let* curPosition := file_getCurrentOffset id in
      new_chars charcount ;;;
      if bool_decide (id = StubFS.INDEX_STDIN) then
        let* '(size, buffer) := Console_Read charcount in
        System2User virAddr size buffer ;;;
        return_with size
      else
        let* r := file_Read id charcount in
        if bool_decide (0 < StubFS.count r) then
          let* newPosition := file_getCurrentOffset id in
          let readBytes := wrap32 (newPosition - curPosition) in
          System2User virAddr readBytes (default [] r) ;;;
          return_with readBytes
        else return_with RW_END_FILE.

Definition call (c : PTable.call) : M unit := fun k => Ok (Calls c k).
Definition handle_Join : M unit := let* pID := ReadRegister 4 in call (PTable.CJoin pID).

(** To the console: the bytes before the first NUL, and how many there were. *)
Fixpoint put_string (buffer : list byte) (pos : Z) : M Z :=
  match buffer with
  | [] => lift (Fault OutOfBounds)
  | b :: buffer => if bool_decide (b = x00) then ret pos else PutChar b ;;; put_string buffer (pos + 1)
  end.

(** The case has no [break]: it goes on into the next one, Join. *)
Definition handle_Write : M unit :=
  let* virAddr := ReadRegister 4 in
  let* charcount := ReadRegister 5 in
  let* id := ReadRegister 6 in
  if bool_decide (id < 0) || bool_decide (StubFS.MAX_FILE_OPEN < id) then return_with RW_ERROR_FILE
  else
    let* o := file_at id in
    if negb (isSome o) then return_with RW_ERROR_FILE
    else
      let* type := file_getType id in
      if bool_decide (type = StubFS.READONLY_TYPE) || bool_decide (id = StubFS.INDEX_STDIN) then return_with RW_ERROR_FILE
      else
        let* curPosition := file_getCurrentOffset id in
        let* buffer := User2System virAddr charcount in
        if bool_decide (id = StubFS.INDEX_STDOUT) then
          let* pos := put_string buffer 0 in
          return_with (pos - 1)
        else
          let* type := file_getType id in
          if bool_decide (type = StubFS.READWRITE_TYPE) then
            let* n := file_Write id charcount buffer in
            if bool_decide (0 < n) then
              let* newPosition := file_getCurrentOffset id in
              return_with (wrap32 (newPosition - curPosition))
            else WriteRegister 2 RW_END_FILE ;;; handle_Join
          else handle_Join.

(** ** Processes and semaphores *)

Definition handle_Exec : M unit :=
  let* virtAddr := ReadRegister 4 in
  let* buffer := User2System virtAddr (MAX_LENGTH_FILENAME + 1) in
  let* name := lift (cstring buffer) in
  let* oFile := host_op (StubFS.Open name) in
  match oFile with
  | None => return_with (-1)
  | Some f => host_op (fun h => h <- StubFS.delete_OpenFile f h ;; Ok (tt, h)) ;;; call (PTable.CExec (Some name))
  end.

Definition handle_Exit : M unit := let* exitStatus := ReadRegister 4 in call (PTable.CExit exitStatus).

(** The rest of the handler once the process table returns [result]. *)
Definition resume (c : PTable.call) (result : Z) : M unit :=
  match c with PTable.CExit _ => increasePC | _ => return_with result end.

Definition table_op (f : STable.STable -> result (option (Z * STable.STable))) : M Z := fun k =>
  r <- f (sTab k) ;;
  Ok (match r with Some (a, t) => Value a (set_sTab t k) | None => Sleeps end).

(** The three calls on semaphores: the name at the address in register 4. *)
Definition semaphore_call (f : list byte -> STable.STable -> result (option (Z * STable.STable))) : M unit :=
  let* virtAddr := ReadRegister 4 in
  let* buffer := User2System virtAddr (MAX_LENGTH_FILENAME + 1) in
  let* name := lift (cstring buffer) in
  let* res := table_op (f name) in
  if bool_decide (res = -1) then return_with (-1) else return_with res.

Definition handle_CreateSemaphore : M unit :=
  let* semval := ReadRegister 5 in
  semaphore_call (fun name t => r <- STable.Create name semval t ;; Ok (Some r)).
Definition handle_Wait : M unit := semaphore_call STable.Wait.
Definition handle_Signal : M unit := semaphore_call (fun name t => r <- STable.Signal name t ;; Ok (Some r)).

(** ** The handler *)

Inductive syscall :=
| SC_Halt | SC_Exit | SC_Exec | SC_Join | SC_CreateFile | SC_Open | SC_Read | SC_Write | SC_Seek | SC_Close
| SC_Add | SC_ReadNum | SC_RandomNum | SC_ReadChar | SC_PrintChar | SC_PrintNum | SC_ReadString | SC_PrintString
| SC_CreateSemaphore | SC_Wait | SC_Signal.

Definition numbers : list (Z * syscall) :=
  [(0, SC_Halt); (1, SC_Exit); (2, SC_Exec); (3, SC_Join); (4, SC_CreateFile); (6, SC_Open); (7, SC_Read); (8, SC_Write); (9, SC_Seek);
   (10, SC_Close); (42, SC_Add); (43, SC_ReadNum); (44, SC_RandomNum); (45, SC_ReadChar); (46, SC_PrintChar); (47, SC_PrintNum);
   (50, SC_ReadString); (51, SC_PrintString); (60, SC_CreateSemaphore); (61, SC_Wait); (62, SC_Signal)].
Definition syscall_of (type : Z) : option syscall := snd <$> List.find (fun p => bool_decide (fst p = type)) numbers.

Section handler.
Context (random : Z -> Z) (now : Z).

Definition handle (c : syscall) : M unit :=
  match c with
  | SC_Halt => handle_Halt
  | SC_Exit => handle_Exit
  | SC_Exec => handle_Exec
  | SC_Join => handle_Join
  | SC_CreateFile => handle_CreateFile
  | SC_Open => handle_Open
  | SC_Read => handle_Read
  | SC_Write => handle_Write
  | SC_Seek => handle_Seek
  | SC_Close => handle_Close
  | SC_Add => handle_Add
  | SC_ReadNum => handle_ReadNum
  | SC_RandomNum => handle_RandomNum random now
  | SC_ReadChar => handle_ReadChar
  | SC_PrintChar => handle_PrintChar
  | SC_PrintNum => handle_PrintNum
  | SC_ReadString => handle_ReadString
  | SC_PrintString => handle_PrintString
  | SC_CreateSemaphore => handle_CreateSemaphore
  | SC_Wait => handle_Wait
  | SC_Signal => handle_Signal
  end.

(** [ExceptionHandler(which)]; an unknown system call or exception ends in
    ASSERTNOTREACHED. *)
Definition ExceptionHandler (which : ExceptionType) : M unit :=
  let* type := ReadRegister 2 in
  match which with
  | NoException => ret tt
  | SyscallException => match syscall_of type with Some c => handle c | None => lift (Fault AssertFailed) end
  | _ => SysHalt ;;; lift (Fault AssertFailed)
  end.

(** The call of [OneInstruction] in the loop of [Machine::Run]: an instruction,
    and the handler when it raised an exception. *)
Definition user_step : M unit :=
  let* m := gets cpu in
  let* '(m, e) := lift (Mips.OneInstruction m) in
  modify (set_cpu m) ;;;
  match e with None => ret tt | Some which => ExceptionHandler which end.
End handler.

(** ** What a system call leaves alone *)

(** In the middle of the handler: every register but register 2 is as the program
    left it, the page table maps as before, and memory has changed only in
    frames the program may write. *)
Record kept (pt : list TranslationEntry) (m0 : machine) (k : kernel) : Prop := {
  k_evolves : Mips.evolves pt m0 (cpu k);
  k_reg : forall i, 0 <= i < NumTotalRegs -> i <> 2 -> reg (cpu k) i = reg m0 i;
  k_char : int_range (Console.incoming (synchConsoleIn k))
}.

(** At its end: the program counters have moved past the instruction. *)
Record ended (pt : list TranslationEntry) (m0 : machine) (k : kernel) : Prop := {
  e_regs : regs_ok (cpu k);
  e_table : exists pt', paged (cpu k) pt' /\ Mips.mapping <$> pt' = Mips.mapping <$> pt;
  e_memory : forall pa, mainMemory (cpu k) !! pa <> mainMemory m0 !! pa -> Mips.writable pt pa;
  e_reg : forall i, 0 <= i < NumTotalRegs -> i <> 2 -> i <> PCReg -> i <> NextPCReg -> i <> PrevPCReg -> reg (cpu k) i = reg m0 i;
  e_pc : reg (cpu k) PCReg = wrap32 (reg m0 PCReg + 4);
  e_next : reg (cpu k) NextPCReg = wrap32 (reg (cpu k) PCReg + 4);
  e_prev : reg (cpu k) PrevPCReg = reg m0 PCReg;
  e_char : int_range (Console.incoming (synchConsoleIn k))
}.

Definition keeps {A} (m : M A) (V : A -> Prop) : Prop := forall pt m0 k, kept pt m0 k ->
  match m k with Ok (Value a k') => kept pt m0 k' /\ V a | Ok (Calls _ k') => kept pt m0 k' | _ => True end.
Definition ends (m : M unit) : Prop := forall pt m0 k, kept pt m0 k ->
  match m k with Ok (Value _ k') => ended pt m0 k' | Ok (Calls _ k') => kept pt m0 k' | _ => True end.

Lemma keeps_seq {A B} (m : M A) (f : A -> M B) V W : keeps m V -> (forall a, V a -> keeps (f a) W) -> keeps (seq m f) W.
Proof.
  intros Hm Hf pt m0 k Hk. specialize (Hm pt m0 k Hk). unfold seq. destruct (m k) as [[a k1|k1| |c k1]|]; try done.
  destruct Hm as [Hk1 Ha]. by apply Hf.
Qed.
Lemma ends_seq {A} (m : M A) (f : A -> M unit) V : keeps m V -> (forall a, V a -> ends (f a)) -> ends (seq m f).
Proof.
  intros Hm Hf pt m0 k Hk. specialize (Hm pt m0 k Hk). unfold seq. destruct (m k) as [[a k1|k1| |c k1]|]; try done.
  destruct Hm as [Hk1 Ha]. by apply Hf.
Qed.

Lemma keeps_ret {A} (a : A) (V : A -> Prop) : V a -> keeps (ret a) V.
Proof. by intros Ha pt m0 k Hk. Qed.
Lemma keeps_lift {A} (r : result A) (V : A -> Prop) : (forall a, r = Ok a -> V a) -> keeps (lift r) V.
Proof. intros Hr pt m0 k Hk. unfold lift. destruct r as [a|]; cbn [bind]; [split; [done|by apply Hr]|done]. Qed.
Lemma ends_fault e : ends (lift (Fault e)).
Proof. by intros pt m0 k Hk. Qed.
Lemma keeps_fault {A} e (V : A -> Prop) : keeps (lift (Fault e)) V.
Proof. by intros pt m0 k Hk. Qed.
Lemma keeps_halt {A} (V : A -> Prop) : keeps halt V.
Proof. by intros pt m0 k Hk. Qed.
Lemma ends_call c : ends (call c).
Proof. by intros pt m0 k Hk. Qed.
Lemma keeps_gets {A} (f : kernel -> A) : keeps (gets f) (fun _ => True).
Proof. by intros pt m0 k Hk. Qed.

(** A step that touches neither the processor nor the keyboard. *)
Lemma keeps_apart {A} (m : M A) (V : A -> Prop) :
  (forall k a k', m k = Ok (Value a k') -> cpu k' = cpu k /\ synchConsoleIn k' = synchConsoleIn k /\ V a) ->
  (forall k c k', m k <> Ok (Calls c k')) -> keeps m V.
Proof.
  intros Hv Hc pt m0 k [H1 H2 H3]. destruct (m k) as [[a k1|k1| |c k1]|] eqn:E; try done.
  - destruct (Hv _ _ _ E) as (Ec & Ei & Ha). split; [|done]. split; by rewrite ?Ec, ?Ei.
  - by destruct (Hc k c k1).
Qed.

Lemma ReadRegister_ok m i : regs_ok m -> 0 <= i < NumTotalRegs -> Machine.ReadRegister m i = Ok (reg m i).
Proof.
  intros (Hl & _) Hi. unfold Machine.ReadRegister. rewrite !bool_decide_eq_true_2 by lia. cbn [andb assert bind].
  apply lget_ok. split; [lia|]. unfold reg. apply list_lookup_lookup_total_lt. lia.
Qed.
Lemma WriteRegister_ok m i v : regs_ok m -> 0 <= i < NumTotalRegs -> Machine.WriteRegister i v m = Ok (setreg i v m).
Proof.
  intros (Hl & _) Hi. unfold Machine.WriteRegister. rewrite !bool_decide_eq_true_2 by lia. cbn [andb assert bind].
  by rewrite lset_in by lia.
Qed.

Lemma keeps_ReadRegister i : 0 <= i < NumTotalRegs -> keeps (ReadRegister i) int_range.
Proof.
  intros Hi pt m0 k Hk. unfold ReadRegister, seq, gets, lift. pose proof (Mips.ev_regs _ _ _ (k_evolves _ _ _ Hk)) as Hr.
  rewrite ReadRegister_ok by done. cbn [bind]. split; [done|]. by apply reg_range.
Qed.

Lemma keeps_WriteRegister v : int_range v -> keeps (WriteRegister 2 v) (fun _ => True).
Proof.
  intros Hv pt m0 k [H1 H2 H3]. pose proof (Mips.ev_regs _ _ _ H1) as Hr. unfold WriteRegister, seq, gets, lift, modify.
  rewrite WriteRegister_ok by first [done|by vm_compute]. cbn [bind]. split; [|done]. split; cbn [cpu set_cpu synchConsoleIn]; [|intros i Hi Hne|done].
  - apply Mips.evolves_gpr; [done|by vm_compute|done].
  - rewrite reg_setreg by first [done|by vm_compute|lia]. rewrite decide_False by done. by apply H2.
Qed.

Lemma keeps_ReadMem a : int_range a -> keeps (ReadMem a) int_range.
Proof.
  intros Ha pt m0 k [H1 H2 H3]. unfold ReadMem, seq, gets, lift, modify.
  destruct (Mips.evolves_ReadMem pt m0 (cpu k) a 1 H1 ltac:(by left) Ha) as (m' & r & -> & He & Hr). cbn [bind].
  destruct r as [e|v]; [done|]. destruct Hr as [Hv Hr]. split; [|done]. split; cbn [cpu set_cpu synchConsoleIn]; [done| |done].
  intros i Hi Hne. unfold reg. rewrite Hr. by apply H2.
Qed.

Lemma keeps_WriteMem a v : int_range a -> keeps (WriteMem a v) (fun _ => True).
Proof.
  intros Ha pt m0 k [H1 H2 H3]. unfold WriteMem, seq, gets, lift, modify.
  destruct (Mips.evolves_WriteMem pt m0 (cpu k) a 1 v H1 ltac:(by left) Ha) as (m' & r & -> & He & Hr). cbn [bind].
  destruct r as [e|u]; [done|]. split; [|done]. split; cbn [cpu set_cpu synchConsoleIn]; [done| |done].
  intros i Hi Hne. unfold reg. rewrite Hr. by apply H2.
Qed.

Lemma increasePC_ok k : regs_ok (cpu k) ->
  increasePC k = Ok (Value tt (set_cpu (setreg NextPCReg (wrap32 (wrap32 (reg (cpu k) PCReg + 4) + 4))
    (setreg PCReg (wrap32 (reg (cpu k) PCReg + 4)) (setreg PrevPCReg (reg (cpu k) PCReg) (cpu k)))) k)).
Proof.
  intros Hr. assert (Hpc : int_range (reg (cpu k) PCReg)) by by apply reg_range.
  set (m1 := setreg PrevPCReg (reg (cpu k) PCReg) (cpu k)). assert (H1 : regs_ok m1) by by apply setreg_ok.
  assert (E1 : reg m1 PCReg = reg (cpu k) PCReg) by (unfold m1; by rewrite reg_setreg).
  set (m2 := setreg PCReg (wrap32 (reg (cpu k) PCReg + 4)) m1). assert (H2 : regs_ok m2) by (apply setreg_ok; [done|done|apply wrap32_range|done]).
  assert (E2 : reg m2 PCReg = wrap32 (reg (cpu k) PCReg + 4)) by (unfold m2; by rewrite reg_setreg).
  unfold increasePC, ReadRegister, WriteRegister, seq, gets, lift, modify.
  rewrite ReadRegister_ok by done. cbn [bind]. rewrite WriteRegister_ok by done. cbn [bind cpu set_cpu]. fold m1.
  rewrite ReadRegister_ok by done. cbn [bind]. rewrite WriteRegister_ok by done. cbn [bind cpu set_cpu]. rewrite E1. fold m2.
  rewrite ReadRegister_ok by done. cbn [bind]. rewrite WriteRegister_ok by done. cbn [bind cpu set_cpu]. by rewrite E2.
Qed.

Lemma ends_increasePC : ends increasePC.
Proof.
  intros pt m0 k [H1 H2 H3]. pose proof (Mips.ev_regs _ _ _ H1) as Hr. rewrite (increasePC_ok k Hr).
  assert (Hpc : int_range (reg (cpu k) PCReg)) by by apply reg_range. pose proof (Mips.ev_pc _ _ _ H1) as Epc.
  assert (Hr1 : regs_ok (setreg PrevPCReg (reg (cpu k) PCReg) (cpu k))) by by apply setreg_ok.
  assert (Hr2 : regs_ok (setreg PCReg (wrap32 (reg (cpu k) PCReg + 4)) (setreg PrevPCReg (reg (cpu k) PCReg) (cpu k))))
    by (apply setreg_ok; [done|done|apply wrap32_range|done]).
  split; cbn [cpu set_cpu synchConsoleIn]; [..|done].
  - apply setreg_ok; [done|done|apply wrap32_range|done].
  - apply H1.
  - apply H1.
  - intros i Hi Hn2 Hn3 Hn4 Hn5. rewrite !reg_setreg by (done || lia). rewrite !decide_False by congruence. by apply H2.
  - rewrite !reg_setreg by (done || lia). cbn. by rewrite Epc.
  - rewrite !reg_setreg by (done || lia). done.
  - rewrite !reg_setreg by (done || lia). cbn. done.
Qed.

Lemma ends_return v : int_range v -> ends (return_with v).
Proof. intros Hv. eapply ends_seq; [by apply keeps_WriteRegister|]. intros _ _. apply ends_increasePC. Qed.

Lemma keeps_any {A} (m : M A) V : keeps m V -> keeps m (fun _ => True).
Proof.
  intros Hm pt m0 k Hk. specialize (Hm pt m0 k Hk). destruct (m k) as [[a k1|k1| |c k1]|]; try done. by destruct Hm.
Qed.

Lemma wrap32_in z : int_range (wrap32 z).
Proof. apply wrap32_range. Qed.
#[local] Hint Resolve wrap32_in : nachos.

(** *** Memory *)

Lemma keeps_user_bytes n a : forall i, keeps (user_bytes n a i) (fun bs => (length bs <= n)%nat).
Proof.
  induction n as [|n IH]; intros i; cbn [user_bytes]; [by apply keeps_ret|]. eapply keeps_seq; [apply keeps_ReadMem, wrap32_in|].
  intros c _. case_bool_decide; [apply keeps_ret; cbn; lia|]. eapply keeps_seq; [apply IH|]. intros bs Hbs. apply keeps_ret. cbn in *. lia.
Qed.

Lemma keeps_new_chars n : keeps (new_chars n) (fun _ => 0 <= n).
Proof. unfold new_chars. case_bool_decide; [apply keeps_fault|apply keeps_ret; lia]. Qed.

Lemma keeps_User2System a n : int_range n -> keeps (User2System a n) (fun bs => Z.of_nat (length bs) <= 2 ^ 31 - 1).
Proof.
  intros Hn. unfold User2System. eapply keeps_seq; [apply keeps_new_chars|]. intros u Hn1. cbn beta in Hn1. eapply keeps_seq; [apply keeps_user_bytes|].
  intros bs Hbs. cbn beta in Hbs. apply keeps_ret. rewrite length_app, length_replicate. unfold int_range in Hn.
  assert (n <> 2 ^ 31 - 1) by (intros E; rewrite E in Hn1; by vm_compute in Hn1). lia.
Qed.

Lemma keeps_to_user n a bs : forall i, keeps (to_user n a i bs) (fun _ => True).
Proof.
  induction n as [|n IH]; intros i; cbn [to_user]; [by apply keeps_ret|]. eapply keeps_seq; [by eapply (keeps_lift _ (fun _ => True))|]. intros b _.
  eapply keeps_seq; [apply keeps_WriteMem, wrap32_in|]. intros _ _. case_bool_decide; [by apply keeps_ret|apply IH].
Qed.

Lemma keeps_System2User a n bs : keeps (System2User a n bs) (fun _ => True).
Proof. unfold System2User. case_bool_decide; [by apply keeps_ret|]. case_bool_decide; [by apply keeps_ret|apply keeps_to_user]. Qed.

(** *** The console *)

Lemma keeps_console_in {A} (f : Console.ConsoleInput -> result (option (A * Console.ConsoleInput))) (V : A -> Prop) :
  (forall c a c', int_range (Console.incoming c) -> f c = Ok (Some (a, c')) -> V a /\ int_range (Console.incoming c')) -> keeps (console_in f) V.
Proof.
  intros Hf pt m0 k [H1 H2 H3]. unfold console_in. destruct (f (synchConsoleIn k)) as [[[a c]|]|] eqn:E; cbn [bind]; try done.
  destruct (Hf _ _ _ H3 E). by split; [split|].
Qed.

Lemma keeps_console_out f : keeps (console_out f) (fun _ => True).
Proof.
  apply keeps_apart; unfold console_out.
  - intros k a k'. by destruct (f (synchConsoleOut k)) as [[c|]|]; cbn [bind]; intros [= <- <-].
  - intros k c k'. by destruct (f (synchConsoleOut k)) as [[c'|]|].
Qed.

Lemma Input_P_char c c' : int_range (Console.incoming c) -> Console.Input_P c = Ok (Some c') -> int_range (Console.incoming c').
Proof.
  intros Hc. unfold Console.Input_P. case_bool_decide as Ec; [by intros [= <-]|]. destruct (Console.scheduled c); [|done].
  unfold Console.Input_CallBack. intros Hb. apply bind_ok in Hb as (c1 & H1 & Hb). apply bind_ok in H1 as (_ & _ & H1).
  assert (Hc1 : int_range (Console.incoming c1)).
  { destruct (Console.typed c) as [|b keys]; [destruct (Console.ends c)|]; injection H1 as <-; try done. apply Mips.charZ_range. }
  case_bool_decide as Ec1; [|done]. by injection Hb as <-.
Qed.

Lemma GetChar_char c ch c' : int_range (Console.incoming c) -> Console.GetChar c = Ok (Some (ch, c')) ->
  int_range ch /\ int_range (Console.incoming c').
Proof.
  intros Hc. unfold Console.GetChar. case_bool_decide as Ec; [done|]. unfold Console.andthen. intros H. apply bind_ok in H as ([c1|] & H1 & H); [|done].
  injection H as <- <-. split; [by apply (Input_P_char (Console.set_in_lock 0 c))|by vm_compute].
Qed.

Lemma Read_char_char n c ch c' : int_range (Console.incoming c) -> Console.Read_char n c = Ok (Some (ch, c')) -> int_range (Console.incoming c').
Proof.
  revert c. induction n as [|n IH]; intros c Hc; cbn [Console.Read_char]; [done|]. unfold Console.andthen. intros H.
  apply bind_ok in H as ([c1|] & H1 & H); [|done]. cbn [Console.Input_GetChar] in H.
  case_bool_decide as Ec; [apply IH in H; [done|by vm_compute]|]. by injection H as <- <-.
Qed.

Lemma Read_loop_size n k : forall got last c got' last' c', int_range (Console.incoming c) ->
  Console.Read_loop n k got last c = Ok (Some (got', last', c')) -> (length got' <= length got + k)%nat /\ int_range (Console.incoming c').
Proof.
  induction k as [|k IH]; intros got last c got' last' c' Hc; cbn [Console.Read_loop]; [intros [= <- _ <-]; split; [lia|done]|].
  unfold Console.andthen. intros H. apply bind_ok in H as ([[ch c1]|] & H1 & H); [|done]. apply Read_char_char in H1; [|done].
  destruct (bool_decide (ch = 10) || bool_decide (ch = 1)); [injection H as <- _ <-; split; [lia|done]|].
  apply IH in H; [|done]. rewrite length_app in H. cbn in H. split; [lia|apply H].
Qed.

Lemma keeps_GetChar : keeps GetChar int_range.
Proof. apply keeps_console_in. exact GetChar_char. Qed.

Lemma keeps_Console_Read n : int_range n -> 0 <= n -> keeps (Console_Read n) (fun p => int_range (fst p)).
Proof.
  intros Hn H0. apply keeps_console_in. intros c [v bs] c' Hc H. apply bind_ok in H as ([[[v1 bs1] c1]|] & H1 & H); [|done].
  cbn in H. injection H as <- <- <-. unfold Console.Read in H1. revert H1. case_bool_decide as Ec; [done|]. unfold Console.andthen. intros H1.
  apply bind_ok in H1 as ([[[got last] c2]|] & Hl & H1); [|done]. apply Read_loop_size in Hl as [Hlen Hc2]; [|done]. cbn [length] in Hlen.
  destruct last as [ch|]; [|done]. injection H1 as <- <- <-. cbn [fst]. split; [|done]. unfold int_range in *. case_bool_decide as Ec2; lia.
Qed.

Lemma keeps_put_chars bs : keeps (put_chars bs) (fun _ => True).
Proof.
  induction bs as [|b bs IH]; cbn [put_chars]; [by apply keeps_ret|]. eapply keeps_seq; [apply keeps_console_out|]. by intros _ _.
Qed.

Lemma keeps_put_string bs : forall pos, keeps (put_string bs pos) (fun p => pos <= p < pos + Z.of_nat (length bs)).
Proof.
  induction bs as [|b bs IH]; intros pos; cbn [put_string]; [apply keeps_fault|]. case_bool_decide as Ec; [apply keeps_ret; cbn; lia|].
  eapply keeps_seq; [apply keeps_console_out|]. intros _ _ pt m0 k Hk. specialize (IH (pos + 1) pt m0 k Hk).
  destruct (put_string bs (pos + 1) k) as [[p k1|k1| |c k1]|]; try done. destruct IH as [H1 H2]. split; [done|]. cbn [length]. lia.
Qed.

Lemma keeps_clear : keeps clearInputBuffer (fun _ => True).
Proof.
  unfold clearInputBuffer. eapply keeps_seq; [apply keeps_gets|]. intros n _. induction n as [|n IH]; cbn [clear_loop]; [apply keeps_fault|].
  eapply keeps_seq; [apply keeps_GetChar|]. intros c _. destruct (_ && _); [done|by apply keeps_ret].
Qed.

Lemma keeps_skip_spaces n : keeps (skip_spaces n) (fun _ => True).
Proof.
  induction n as [|n IH]; cbn [skip_spaces]; [apply keeps_fault|]. eapply keeps_seq; [apply keeps_GetChar|]. intros c _.
  case_bool_decide as Ec; [done|by apply keeps_ret].
Qed.

Lemma keeps_number_loop n : forall res e f, keeps (number_loop n res e f) (fun _ => True).
Proof.
  induction n as [|n IH]; intros res e f; cbn [number_loop]; [apply keeps_fault|]. eapply keeps_seq; [apply keeps_GetChar|]. intros c _.
  case_bool_decide; [by apply keeps_ret|]. destruct (_ && _); [apply IH|]. case_bool_decide; [apply IH|by apply keeps_ret].
Qed.

Lemma keeps_line_loop n len : forall str, keeps (line_loop n len str) (fun _ => True).
Proof.
  induction n as [|n IH]; intros str; cbn [line_loop]; [apply keeps_fault|]. eapply keeps_seq; [apply keeps_GetChar|]. intros c _.
  case_bool_decide; [by apply keeps_ret|]. case_bool_decide; [apply IH|apply keeps_fault].
Qed.

(** *** Files and tables *)

Lemma keeps_host_op {A} (f : Sysdep.host -> result (A * Sysdep.host)) (V : A -> Prop) : (forall h a h', f h = Ok (a, h') -> V a) -> keeps (host_op f) V.
Proof.
  intros Hf. apply keeps_apart; unfold host_op.
  - intros k a k'. destruct (f (the_host k)) as [[a1 h1]|] eqn:E; cbn [bind]; [|done]. intros [= <- <-]. split; [done|]. split; [done|by eapply Hf].
  - intros k c k'. by destruct (f (the_host k)) as [[a1 h1]|].
Qed.

Lemma keeps_modify (f : kernel -> kernel) : (forall k, cpu (f k) = cpu k /\ synchConsoleIn (f k) = synchConsoleIn k) -> keeps (modify f) (fun _ => True).
Proof. intros Hf. apply keeps_apart; [|done]. intros k a k' [= <- <-]. destruct (Hf k). done. Qed.

Lemma keeps_file_at id : keeps (file_at id) (fun _ => True).
Proof. unfold file_at. eapply keeps_seq; [apply keeps_gets|]. intros fs _. by apply keeps_lift. Qed.

Lemma keeps_set_file id o : keeps (set_file id o) (fun _ => True).
Proof.
  unfold set_file. eapply keeps_seq; [apply keeps_gets|]. intros fs _. eapply keeps_seq; [by apply (keeps_lift _ (fun _ => True))|]. intros t _.
  by apply keeps_modify.
Qed.

Lemma keeps_file_op {A} id (op : StubFS.OpenFile -> Sysdep.host -> result (A * StubFS.OpenFile * Sysdep.host)) (V : A -> Prop) :
  (forall f h a f' h', op f h = Ok (a, f', h') -> V a) -> keeps (file_op id op) V.
Proof.
  intros Hop. unfold file_op. eapply keeps_seq; [apply keeps_file_at|]. intros [f|] _; [|apply keeps_fault].
  eapply keeps_seq; [apply (keeps_host_op _ (fun p => V (fst p)))|].
  - intros h [a f'] h' H. apply bind_ok in H as ([[a1 f1] h1] & H1 & H). injection H as <- <- <-. by eapply Hop.
  - intros [a f'] Ha. eapply keeps_seq; [apply keeps_set_file|]. intros _ _. by apply keeps_ret.
Qed.

Lemma keeps_file_any {A} id (op : StubFS.OpenFile -> Sysdep.host -> result (A * StubFS.OpenFile * Sysdep.host)) : keeps (file_op id op) (fun _ => True).
Proof. by apply keeps_file_op. Qed.

Lemma keeps_file_Length id : keeps (file_Length id) int_range.
Proof.
  apply keeps_file_op. intros f h a f' h' H. apply bind_ok in H as ([n h1] & H1 & H). injection H as <- <- <-.
  unfold StubFS.Length in H1. apply bind_ok in H1 as (h2 & _ & H1). unfold Sysdep.Tell in H1. destruct (Sysdep.lseek _ _ _ _) as [r h3].
  injection H1 as <- <-. apply wrap32_in.
Qed.

Lemma FindFreeSlot_range fs v : StubFS.FindFreeSlot fs = Ok v -> int_range v.
Proof.
  unfold StubFS.FindFreeSlot. assert (H : forall ks, Forall int_range ks -> StubFS.FindFreeSlot_from ks (StubFS.fileTable fs) = Ok v -> int_range v).
  { intros ks Hks. induction Hks as [|i ks Hi Hks IH]; cbn [StubFS.FindFreeSlot_from]; [intros [= <-]; by vm_compute|]. intros H.
    apply bind_ok in H as (o & _ & H). destruct (isSome o); [by apply IH|by injection H as <-]. }
  apply H. apply Forall_forall. intros i Hi. apply elem_of_seqZ in Hi. unfold int_range, StubFS.MAX_FILE_OPEN in *. lia.
Qed.

Lemma keeps_table_op f : (forall t a t', f t = Ok (Some (a, t')) -> a = 0 \/ a = -1) -> keeps (table_op f) int_range.
Proof.
  intros Hf. apply keeps_apart; unfold table_op.
  - intros k a k'. destruct (f (sTab k)) as [[[a1 t1]|]|] eqn:E; cbn [bind]; intros [= <- <-]. split; [done|]. split; [done|].
    apply Hf in E as [->| ->]; by vm_compute.
  - intros k c k'. by destruct (f (sTab k)) as [[[a1 t1]|]|].
Qed.

Lemma Create_value nm init t a t' : STable.Create nm init t = Ok (a, t') -> a = 0 \/ a = -1.
Proof.
  unfold STable.Create. intros H. apply bind_ok in H as ([i|] & _ & H); [injection H as <- <-; by right|].
  apply bind_ok in H as ([id st] & _ & H). case_bool_decide; [injection H as <- <-; by right|].
  apply bind_ok in H as (s & _ & H). apply bind_ok in H as (st2 & _ & H). injection H as <- <-. by left.
Qed.
Lemma Wait_value nm t a t' : STable.Wait nm t = Ok (Some (a, t')) -> a = 0 \/ a = -1.
Proof.
  unfold STable.Wait. intros H. apply bind_ok in H as ([i|] & _ & H); [|injection H as <- <-; by right].
  apply bind_ok in H as (s & _ & H). destruct (STable.wait s); [|done]. apply bind_ok in H as (st & _ & H). injection H as <- <-. by left.
Qed.
Lemma Signal_value nm t a t' : STable.Signal nm t = Ok (a, t') -> a = 0 \/ a = -1.
Proof.
  unfold STable.Signal. intros H. apply bind_ok in H as ([i|] & _ & H); [|injection H as <- <-; by right].
  apply bind_ok in H as (s & _ & H). apply bind_ok in H as (st & _ & H). injection H as <- <-. by left.
Qed.

(** *** The handlers *)

Lemma keeps_if {A} (b : bool) (m1 m2 : M A) V : keeps m1 V -> keeps m2 V -> keeps (if b then m1 else m2) V.
Proof. by destruct b. Qed.

(** A call that ends in ASSERTNOTREACHED. *)
Lemma ends_refuse e : ends (increasePC ;;; lift (Fault e)).
Proof.
  intros pt m0 k [H1 _ _]. unfold seq. by rewrite (increasePC_ok k (Mips.ev_regs _ _ _ H1)).
Qed.

Ltac keep := first
  [ apply keeps_ReadRegister; by vm_compute
  | apply keeps_WriteRegister; first [assumption|apply wrap32_in|by vm_compute]
  | apply keeps_GetChar | apply keeps_gets | apply keeps_clear | apply keeps_skip_spaces | apply keeps_number_loop | apply keeps_line_loop
  | apply keeps_put_chars | apply keeps_put_string | apply keeps_console_out | apply keeps_Console_Read; assumption
  | apply keeps_User2System; first [assumption|by vm_compute] | apply keeps_System2User | apply keeps_new_chars
  | apply keeps_file_at | apply keeps_file_Length | apply keeps_set_file | apply keeps_file_any | apply (keeps_halt (fun _ => True))
  | apply (keeps_host_op _ (fun _ => True)); done | by apply (keeps_lift _ (fun _ => True))
  | apply (keeps_if _ _ _ (fun _ => True)); [by apply keeps_ret|apply keeps_fault]
  | apply (keeps_if _ _ _ int_range); [apply keeps_file_Length|by apply keeps_ret] ].

(** Through a handler, one call at a time. *)
Ltac walk := repeat first
  [ apply ends_increasePC | apply ends_refuse | apply ends_fault | apply ends_call
  | apply ends_return; first [assumption|apply wrap32_in|by vm_compute]
  | match goal with
    | |- ends (seq _ _) => eapply ends_seq; [keep|cbn beta; intros ? ?]
    | |- ends (if ?b then _ else _) => destruct b
    | |- ends (match ?x with _ => _ end) => destruct x
    end ].

Lemma ends_not_a_number : ends not_a_number.
Proof. unfold not_a_number. walk. Qed.

Lemma ends_read_digits b z : ends (read_digits b z).
Proof.
  unfold read_digits. eapply ends_seq; [keep|]. intros n _. eapply ends_seq; [keep|]. intros [[res flag]|] _; [|apply ends_not_a_number]. cbv zeta. walk.
Qed.

Lemma ends_semaphore f : (forall nm t a t', f nm t = Ok (Some (a, t')) -> a = 0 \/ a = -1) -> ends (semaphore_call f).
Proof.
  intros Hf. unfold semaphore_call, MAX_LENGTH_FILENAME. eapply ends_seq; [keep|cbn beta; intros a Ha]. eapply ends_seq; [keep|cbn beta; intros bs _].
  eapply ends_seq; [keep|cbn beta; intros nm _]. eapply ends_seq; [apply keeps_table_op, Hf|cbn beta; intros res Hres]. walk.
Qed.

Lemma ends_Open : ends handle_Open.
Proof.
  unfold handle_Open, MAX_LENGTH_FILENAME. eapply ends_seq; [keep|cbn beta; intros a Ha]. eapply ends_seq; [keep|cbn beta; intros type Ht].
  eapply ends_seq; [keep|cbn beta; intros bs _]. eapply ends_seq; [keep|cbn beta; intros fs _].
  eapply ends_seq; [apply keeps_lift, FindFreeSlot_range|cbn beta; intros slot Hslot]. cbv zeta.
  destruct (bool_decide (type = _)); [walk|]. destruct (bool_decide (type = _)); [walk|]. destruct (negb _); [|walk].
  eapply ends_seq; [keep|cbn beta; intros nm _]. eapply ends_seq; [keep|cbn beta; intros [f|] _]; [|walk; by apply (keeps_ret _ (fun _ => True))].
  eapply ends_seq; [eapply keeps_seq; [keep|intros _ _; keep]|intros _ _]. walk.
Qed.

Lemma ends_Read : ends handle_Read.
Proof.
  unfold handle_Read. walk; unfold file_getCurrentOffset, file_Read, StubFS.count, RW_END_FILE, RW_ERROR_FILE; walk.
Qed.

Lemma ends_Write : ends handle_Write.
Proof.
  unfold handle_Write. eapply ends_seq; [keep|cbn beta; intros a Ha]. eapply ends_seq; [keep|cbn beta; intros n Hn]. eapply ends_seq; [keep|cbn beta; intros id Hid].
  destruct (_ || _); [walk|]. eapply ends_seq; [keep|cbn beta; intros o _]. destruct (negb _); [walk|].
  eapply ends_seq; [apply keeps_file_any|cbn beta; intros type _]. destruct (_ || _); [walk|].
  eapply ends_seq; [apply keeps_file_any|cbn beta; intros cur _]. eapply ends_seq; [by apply keeps_User2System|cbn beta; intros bs Hbs].
  destruct (bool_decide (id = _)).
  - eapply ends_seq; [keep|cbn beta; intros pos Hpos]. apply ends_return. unfold int_range. lia.
  - unfold file_getType, file_Write, file_getCurrentOffset, handle_Join, RW_END_FILE. walk.
Qed.

Lemma ends_ReadNum : ends handle_ReadNum.
Proof.
  unfold handle_ReadNum. eapply ends_seq; [keep|cbn beta; intros n _]. eapply ends_seq; [keep|cbn beta; intros c _].
  destruct (bool_decide _); [apply ends_read_digits|]. destruct (isDigit c); [apply ends_read_digits|]. destruct (bool_decide _); [walk|apply ends_not_a_number].
Qed.

Lemma ends_handle random now c : ends (handle random now c).
Proof.
  destruct c; cbn [handle]; unfold handle_Halt, SysHalt, handle_Exit, handle_Exec, handle_Join, handle_CreateFile, handle_Close, handle_Add,
    handle_RandomNum, handle_ReadChar, handle_PrintChar, handle_PrintNum, handle_ReadString, handle_PrintString, handle_Seek, MAX_LENGTH_FILENAME;
    cbv zeta; walk.
  - exact ends_Open.
  - exact ends_Read.
  - exact ends_Write.
  - exact ends_ReadNum.
  - unfold handle_CreateSemaphore. eapply ends_seq; [keep|intros v _]. apply ends_semaphore. intros nm t a t' H.
    apply bind_ok in H as ([a1 t1] & H1 & H). injection H as <- <-. by eapply Create_value.
  - apply ends_semaphore, Wait_value.
  - apply ends_semaphore. intros nm t a t' H. apply bind_ok in H as ([a1 t1] & H1 & H). injection H as <- <-. by eapply Signal_value.
Qed.

Lemma ends_resume c r : int_range r -> ends (resume c r).
Proof. intros Hr. destruct c; cbn [resume]; [by apply ends_return|by apply ends_return|apply ends_increasePC]. Qed.

(** ** How a call that succeeds ends *)

(** The state after [increasePC], and after [return_with v]. *)
Definition advanced (m : machine) : machine :=
  setreg NextPCReg (wrap32 (wrap32 (reg m PCReg + 4) + 4)) (setreg PCReg (wrap32 (reg m PCReg + 4)) (setreg PrevPCReg (reg m PCReg) m)).
Definition answered (v : Z) (k : kernel) : kernel := set_cpu (advanced (setreg 2 v (cpu k))) k.

Lemma advanced_ok m : regs_ok m -> regs_ok (advanced m) /\ forall i, 0 <= i < NumGPRegs -> reg (advanced m) i = reg m i.
Proof.
  intros Hr. assert (Hpc : int_range (reg m PCReg)) by by apply reg_range.
  assert (H1 : regs_ok (setreg PrevPCReg (reg m PCReg) m)) by by apply setreg_ok.
  assert (H2 : regs_ok (setreg PCReg (wrap32 (reg m PCReg + 4)) (setreg PrevPCReg (reg m PCReg) m))) by (apply setreg_ok; [done|done|apply wrap32_range|done]).
  split; [apply setreg_ok; [done|done|apply wrap32_range|done]|]. intros i Hi. unfold advanced, NumGPRegs in *. rewrite !reg_setreg by (done || lia).
  rewrite !decide_False by (unfold PCReg, NextPCReg, PrevPCReg; lia). done.
Qed.

Lemma return_with_ok v k : regs_ok (cpu k) -> int_range v ->
  return_with v k = Ok (Value tt (answered v k)) /\ regs_ok (cpu (answered v k)) /\ reg (cpu (answered v k)) 2 = v.
Proof.
  intros Hr Hv. unfold return_with, WriteRegister, seq, gets, lift, modify. rewrite WriteRegister_ok by first [done|by vm_compute]. cbn [bind].
  assert (Hr2 : regs_ok (setreg 2 v (cpu k))) by (apply setreg_ok; [done|by vm_compute|done|done]).
  split; [by rewrite (increasePC_ok (set_cpu (setreg 2 v (cpu k)) k) Hr2)|]. destruct (advanced_ok _ Hr2) as [Ha Hg]. split; [done|].
  unfold answered. cbn [cpu set_cpu]. rewrite Hg by by vm_compute. by rewrite reg_setreg by first [done|by vm_compute].
Qed.

Lemma GetChar_key b keys e k : Console.plain b = true -> synchConsoleIn k = Console.keyboard (b :: keys) e ->
  GetChar k = Ok (Value (charZ b) (set_in (Console.keyboard keys e) k)).
Proof. intros Hb Hk. unfold GetChar, console_in. rewrite Hk, (Console.GetChar_ok b keys e Hb). done. Qed.

(** ** Numbers on the console *)

Definition digit (b : byte) : bool := isDigit (charZ b).
Definition value (acc : Z) (ds : list byte) : Z := fold_left (fun a b => a * 10 + (charZ b - zero)) ds acc.

Lemma digit_range b : digit b = true <-> 48 <= charZ b <= 57.
Proof. unfold digit, isDigit. rewrite andb_true_iff, !bool_decide_eq_true. done. Qed.

Lemma digit_plain b : digit b = true -> Console.plain b = true.
Proof. rewrite digit_range. intros Hb. unfold Console.plain. rewrite negb_true_iff, bool_decide_eq_false. intros ->. change (charZ xff) with (-1) in Hb. lia. Qed.

Lemma digit_of z : 0 <= z < 10 -> digit (Zbyte (z + zero)) = true /\ charZ (Zbyte (z + zero)) = z + zero.
Proof.
  intros Hz. assert (E : charZ (Zbyte (z + zero)) = z + zero).
  { unfold charZ. rewrite byteZ_Zbyte. unfold zero. rewrite Z.mod_small by lia. case_bool_decide; lia. }
  split; [apply digit_range; rewrite E; unfold zero; lia|done].
Qed.

Lemma count_digits_ok n : forall m, 0 <= m < 10 ^ Z.of_nat n -> exists k, count_digits (S n) m = Ok k /\ (k <= n)%nat /\ m < 10 ^ Z.of_nat k /\ (0 < m -> (0 < k)%nat).
Proof.
  induction n as [|n IH]; intros m Hm.
  - cbn in Hm. exists 0%nat. assert (m = 0) as -> by lia. done.
  - change (count_digits (S (S n)) m) with (if bool_decide (0 < m) then k <- count_digits (S n) (Z.quot m 10) ;; Ok (S k) else Ok O).
    case_bool_decide as Hp; [|exists 0%nat; split; [done|]; split; [lia|]; cbn; lia].
    assert (Hq : Z.quot m 10 = m / 10) by (apply Z.quot_div_nonneg; lia). rewrite Nat2Z.inj_succ, Z.pow_succ_r in Hm by lia.
    destruct (IH (m / 10)) as (k & Hk & Hkn & Hlt & _); [split; [apply Z.div_pos; lia|apply Z.div_lt_upper_bound; lia]|].
    rewrite Hq, Hk. exists (S k). split; [done|]. split; [lia|]. split; [|lia].
    rewrite Nat2Z.inj_succ, Z.pow_succ_r by lia. pose proof (Z.div_mod m 10 ltac:(lia)). pose proof (Z.mod_pos_bound m 10 ltac:(lia)). lia.
Qed.

Lemma digits_ok n : forall m buf acc, 0 <= m < 10 ^ Z.of_nat n ->
  exists ds, digits n m buf = ds ++ buf /\ length ds = n /\ forallb digit ds = true /\ value acc ds = acc * 10 ^ Z.of_nat n + m.
Proof.
  induction n as [|n IH]; intros m buf acc Hm; [exists []; cbn in *; split_and!; try done; lia|].
  cbn [digits]. assert (Hq : Z.quot m 10 = m / 10) by (apply Z.quot_div_nonneg; lia). assert (Hr : Z.rem m 10 = m mod 10) by (apply Z.rem_mod_nonneg; lia).
  rewrite Nat2Z.inj_succ, Z.pow_succ_r in Hm by lia. pose proof (Z.mod_pos_bound m 10 ltac:(lia)) as Hmod.
  destruct (digit_of (m mod 10) Hmod) as [Hd Hc]. rewrite Hq, Hr.
  destruct (IH (m / 10) (Zbyte (m mod 10 + zero) :: buf) acc) as (ds & -> & Hl & Hall & Hv); [split; [apply Z.div_pos; lia|apply Z.div_lt_upper_bound; lia]|].
  exists (ds ++ [Zbyte (m mod 10 + zero)]). rewrite <- app_assoc. split; [done|]. split; [rewrite length_app; cbn; lia|]. split.
  - rewrite forallb_app, Hall. cbn [forallb]. by rewrite Hd.
  - unfold value in *. rewrite fold_left_app, Hv. cbn [fold_left]. rewrite Hc, Nat2Z.inj_succ, Z.pow_succ_r by lia.
    pose proof (Z.div_mod m 10 ltac:(lia)). lia.
Qed.

Lemma wrap64_small z : - 2 ^ 63 <= z < 2 ^ 63 -> wrap64 z = z.
Proof. intros Hz. unfold wrap64. rewrite Z.mod_small by lia. lia. Qed.

(** The loop over digits up to the newline. *)
Lemma number_loop_ok ds : forall n res j flag k keys e, forallb digit ds = true -> (length ds < n)%nat ->
  0 <= res < 10 ^ Z.of_nat j -> (j + length ds <= 18)%nat -> synchConsoleIn k = Console.keyboard (ds ++ x0a :: keys) e ->
  number_loop n res false flag k = Ok (Value (Some (value res ds, flag || negb (bool_decide (ds = [])))) (set_in (Console.keyboard keys e) k)).
Proof.
  induction ds as [|b ds IH]; intros n res j flag k keys e Hd Hn Hres Hj Hk; (destruct n as [|n]; [cbn [length] in Hn; lia|]); cbn [number_loop]; unfold seq.
  - rewrite (GetChar_key x0a keys e k) by done. change (charZ x0a) with newline. rewrite bool_decide_eq_true_2 by done. unfold ret. cbn. by rewrite orb_false_r.
  - cbn [forallb] in Hd. apply andb_true_iff in Hd as [Hb Hd]. rewrite (GetChar_key b (ds ++ x0a :: keys) e k) by first [by apply digit_plain|done].
    pose proof (proj1 (digit_range b) Hb) as Hr. rewrite bool_decide_eq_false_2 by (unfold newline; lia). change (isDigit (charZ b)) with (digit b). rewrite Hb. cbn [andb negb].
    cbn [length] in Hn, Hj. assert (Hnew : 0 <= res * 10 + (charZ b - zero) < 10 ^ Z.of_nat (S j)).
    { rewrite Nat2Z.inj_succ, Z.pow_succ_r by lia. unfold zero. lia. }
    assert (Hle : 10 ^ Z.of_nat (S j) <= 10 ^ 18) by (apply Z.pow_le_mono_r; lia). rewrite wrap64_small by lia.
    rewrite (IH n _ (S j) true (set_in (Console.keyboard (ds ++ x0a :: keys) e) k) keys e) by (done || lia). cbn [value fold_left].
    rewrite orb_true_l, (bool_decide_eq_false_2 (b :: ds = [])), orb_true_r by done. done.
Qed.

Lemma put_chars_ok bs : forall out k, synchConsoleOut k = Console.display out ->
  put_chars bs k = Ok (Value tt (set_out (Console.display (out ++ bs)) k)).
Proof.
  induction bs as [|b bs IH]; intros out k Hk; cbn [put_chars].
  - rewrite app_nil_r, <- Hk. by destruct k.
  - unfold seq, PutChar, console_out. rewrite Hk, Console.PutChar_ok. cbn [bind]. rewrite (IH (out ++ [b])) by done. by rewrite <- app_assoc.
Qed.

(** The decimal numeral of [n]. *)
Definition numeral (s : list byte) (n : Z) : Prop :=
  exists ds, s = (if bool_decide (n < 0) then [Zbyte minus] else []) ++ ds /\ ds <> [] /\ (length ds <= 10)%nat /\ forallb digit ds = true /\ value 0 ds = Z.abs n.

Lemma PrintNum_ok k out : regs_ok (cpu k) -> synchConsoleOut k = Console.display out -> reg (cpu k) 4 <> - 2 ^ 31 ->
  exists s, numeral s (reg (cpu k) 4) /\
    handle_PrintNum k = Ok (Value tt (set_cpu (advanced (cpu k)) (set_out (Console.display (out ++ s)) k))).
Proof.
  intros Hr Hk Hmin. assert (Hrange : int_range (reg (cpu k) 4)) by (apply reg_range; [done|by vm_compute]). set (n := reg (cpu k) 4) in *.
  unfold handle_PrintNum, seq at 1, ReadRegister, seq at 1, gets, lift. rewrite ReadRegister_ok by first [done|by vm_compute]. cbn [bind]. fold n.
  case_bool_decide as H0.
  - exists [Zbyte zero]. split.
    + exists [Zbyte zero]. rewrite H0. by split_and!; [|done|cbn; lia|..].
    + unfold seq at 1, PutChar, console_out. rewrite Hk, Console.PutChar_ok. cbn [bind]. apply increasePC_ok. done.
  - cbv zeta. assert (Habs : (if bool_decide (n < 0) then wrap32 (- n) else n) = Z.abs n).
    { unfold int_range in Hrange. case_bool_decide; [rewrite wrap32_small by (unfold int_range; lia)|]; lia. }
    rewrite Habs. unfold int_range in Hrange. destruct (count_digits_ok 10 (Z.abs n)) as (c & Hc & Hc10 & Hlt & Hpos); [split; lia|].
    unfold seq at 1. unfold MAX_SIZE_BUFFER. rewrite Hc. cbn [bind]. destruct (digits_ok c (Z.abs n) [] 0) as (ds & Hds & Hlen & Hall & Hval); [split; [lia|done]|].
    rewrite Hds, app_nil_r. eexists. split.
    + exists ds. split; [done|]. split; [|split; [lia|split; [done|lia]]]. intros ->. cbn in Hlen. assert (0 < Z.abs n) by lia. specialize (Hpos H). lia.
    + unfold seq at 1. rewrite (put_chars_ok _ out k Hk). by apply increasePC_ok.
Qed.

Lemma ReadNum_ok s n k keys e : numeral s n -> INT_MIN <= n <= INT_MAX -> regs_ok (cpu k) -> synchConsoleIn k = Console.keyboard (s ++ x0a :: keys) e ->
  handle_ReadNum k = Ok (Value tt (answered n (set_in (Console.keyboard keys e) k))).
Proof.
  intros (ds & -> & Hne & Hlen & Hall & Hval) Hn Hr Hk. unfold INT_MIN, INT_MAX in Hn.
  assert (Hend : forall b res flag k1, cpu k1 = cpu k -> res = Z.abs n -> b = bool_decide (n < 0) -> (b = true -> flag = true) ->
    synchConsoleIn k1 = Console.keyboard keys e -> (let res := if b then wrap64 (- res) else res in
      if bool_decide (INT_MAX < res) then return_with 0 else if bool_decide (res < INT_MIN) then return_with 0
      else if b && bool_decide (res = 0) && negb flag then return_with 0 else return_with (wrap32 res)) k1 = Ok (Value tt (answered n k1))).
  { intros b res flag k1 Ec -> -> Hflag _. cbv zeta. assert (E : (if bool_decide (n < 0) then wrap64 (- Z.abs n) else Z.abs n) = n).
    { case_bool_decide; [rewrite wrap64_small by lia|]; lia. }
    rewrite E. unfold INT_MAX, INT_MIN. rewrite (bool_decide_eq_false_2 (2147483647 < n)), (bool_decide_eq_false_2 (n < -2147483647)) by lia.
    assert (Ef : bool_decide (n < 0) && bool_decide (n = 0) && negb flag = false) by (destruct (bool_decide (n < 0)) eqn:?; [|done]; by rewrite (Hflag eq_refl), andb_false_r).
    rewrite Ef, wrap32_small by (unfold int_range; lia). refine (proj1 (return_with_ok n k1 _ _)); [by rewrite Ec|unfold int_range; lia]. }
  unfold handle_ReadNum, seq at 1, reads at 1, gets. set (fuel := S (S (length (Console.typed (synchConsoleIn k))))).
  case_bool_decide as Hneg; cbn [app] in Hk.
  - unfold seq at 1. change (skip_spaces fuel k) with (skip_spaces (S (S (length (Console.typed (synchConsoleIn k))))) k). cbn [skip_spaces]. unfold seq at 1.
    rewrite (GetChar_key (Zbyte minus) (ds ++ x0a :: keys) e k) by done. change (charZ (Zbyte minus)) with minus. rewrite bool_decide_eq_false_2 by done. unfold ret at 1.
    rewrite bool_decide_eq_true_2 by done. unfold read_digits, seq at 1, reads, gets, seq at 1.
    rewrite (number_loop_ok ds _ 0 0 false (set_in (Console.keyboard (ds ++ x0a :: keys) e) k) keys e) by first [done|cbn [Console.typed Console.keyboard synchConsoleIn set_in]; rewrite ?length_app; lia].
    refine (Hend true (value 0 ds) _ (set_in (Console.keyboard keys e) (set_in (Console.keyboard (ds ++ x0a :: keys) e) k)) _ _ _ _ _); try done.
    intros _. by rewrite bool_decide_eq_false_2.
  - destruct ds as [|b ds]; [done|]. cbn [forallb] in Hall. apply andb_true_iff in Hall as [Hb Hall]. pose proof (proj1 (digit_range b) Hb) as Hbr.
    unfold seq at 1. change (skip_spaces fuel k) with (skip_spaces (S (S (length (Console.typed (synchConsoleIn k))))) k). cbn [skip_spaces]. unfold seq at 1. cbn [app] in Hk.
    rewrite (GetChar_key b (ds ++ x0a :: keys) e k) by first [by apply digit_plain|done]. rewrite bool_decide_eq_false_2 by (unfold space; lia). unfold ret at 1.
    rewrite bool_decide_eq_false_2 by (unfold minus; lia). change (isDigit (charZ b)) with (digit b). rewrite Hb.
    unfold read_digits, seq at 1, reads, gets, seq at 1. cbn [length] in Hlen. set (r0 := 0 * 10 + (charZ b - zero)).
    rewrite (number_loop_ok ds _ r0 1 false (set_in (Console.keyboard (ds ++ x0a :: keys) e) k) keys e) by first [done|unfold r0, zero; lia|cbn [Console.typed Console.keyboard synchConsoleIn set_in]; rewrite ?length_app; lia].
    refine (Hend false (value r0 ds) _ (set_in (Console.keyboard keys e) (set_in (Console.keyboard (ds ++ x0a :: keys) e) k)) _ _ _ _ _); try done.
Qed.

(** ** A file from the program's side *)

Lemma seq_value {A B} (m : M A) (f : A -> M B) k a k' : m k = Ok (Value a k') -> seq m f k = f a k'.
Proof. intros H. unfold seq. by rewrite H. Qed.

(** The arguments of a call in registers 4, 5 and 6. *)
Definition args (v4 v5 v6 : Z) (k : kernel) : kernel := set_cpu (setreg 6 v6 (setreg 5 v5 (setreg 4 v4 (cpu k)))) k.

Lemma ReadRegister_value i k : regs_ok (cpu k) -> 0 <= i < NumTotalRegs -> ReadRegister i k = Ok (Value (reg (cpu k) i) k).
Proof. intros Hr Hi. cbv [ReadRegister seq gets lift]. by rewrite ReadRegister_ok. Qed.

(** [pas]: the physical addresses of the bytes at the virtual address [a]. *)
Definition maps (pt : list TranslationEntry) (a : Z) (w : bool) (pas : list Z) : Prop :=
  forall j pa, pas !! j = Some pa -> resolve pt (wrap32 (a + Z.of_nat j)) 1 w = inr pa.

(** Accesses set bits of page table entries and nothing else. *)
Definition same_pages (pt pt' : list TranslationEntry) : Prop := length pt' = length pt /\ forall x w, resolve pt' x 1 w = resolve pt x 1 w.

Lemma maps_same pt pt' a w pas : same_pages pt pt' -> maps pt a w pas -> maps pt' a w pas.
Proof. intros [_ Hs] Hm j pa Hj. rewrite Hs. by apply Hm. Qed.

Lemma touch_same a w pt : same_pages pt (touch_page a w pt).
Proof. split; [unfold touch_page; by rewrite length_alter|]. intros x w'. apply resolve_touch. Qed.

Lemma same_pages_trans pt1 pt2 pt3 : same_pages pt1 pt2 -> same_pages pt2 pt3 -> same_pages pt1 pt3.
Proof. intros [L1 R1] [L2 R2]. split; [congruence|]. intros x w. by rewrite R2. Qed.

Lemma paged_set m pt pt' : paged m pt -> length pt' = length pt -> paged (set_pageTable (Some pt') m) pt'.
Proof. intros (H1 & H2 & H3) Hl. split; [done|]. split; [done|]. cbn [pageTableSize set_pageTable]. by rewrite H3, Hl. Qed.

Lemma charZ_zero b : charZ b = 0 <-> b = x00.
Proof. split; [|by intros ->]. intros H. apply byteZ_inj. rewrite <- charZ_mod, H. done. Qed.

(** A string without NUL, read by [User2System]. *)
Lemma user_bytes_ok pas : forall a i m k pt, paged m pt ->
  (forall j pa, pas !! j = Some pa -> resolve pt (wrap32 (a + (i + Z.of_nat j))) 1 false = inr pa /\ byte_at m pa <> x00) ->
  exists pt', user_bytes (length pas) a i (set_cpu m k) = Ok (Value (byte_at m <$> pas) (set_cpu (set_pageTable (Some pt') m) k)) /\ same_pages pt pt'.
Proof.
  induction pas as [|pa pas IH]; intros a i m k pt Hp Hm; cbn [length user_bytes].
  - exists pt. split; [|done]. destruct Hp as (H1 & H2 & H3). unfold ret. cbn. destruct m; cbn in *; by subst.
  - destruct (Hm 0%nat pa eq_refl) as [Hr Hne]. rewrite Z.add_0_r in Hr.
    assert (E : ReadMem (wrap32 (a + i)) (set_cpu m k) = Ok (Value (charZ (byte_at m pa)) (set_cpu (set_pageTable (Some (touch_page (wrap32 (a + i)) false pt)) m) k))).
    { cbv [ReadMem seq gets lift]. cbn [cpu set_cpu]. rewrite (ReadMem_paged m pt) by (done || by left). by rewrite Hr. }
    rewrite (seq_value _ _ _ _ _ E). rewrite bool_decide_eq_false_2 by (by rewrite charZ_zero).
    pose proof (touch_same (wrap32 (a + i)) false pt) as Hs. set (pt1 := touch_page _ _ pt) in *.
    destruct (IH a (i + 1) (set_pageTable (Some pt1) m) k pt1) as (pt' & Hb & Hs'); [by apply (paged_set m pt); [|apply Hs]| |].
    + intros j x Hj. destruct (Hm (S j) x Hj) as [H1 H2]. split; [|done]. rewrite (proj2 Hs). rewrite <- H1. do 3 f_equal. lia.
    + exists pt'. split; [|by eapply same_pages_trans]. change (byte_at (set_pageTable (Some pt1) m)) with (byte_at m) in Hb.
      rewrite (seq_value _ _ _ _ _ Hb). unfold ret. rewrite Console.Zbyte_charZ. done.
Qed.

Lemma User2System_ok pas a m k pt : paged m pt -> maps pt a false pas -> Forall (fun pa => byte_at m pa <> x00) pas -> Z.of_nat (length pas) < 2 ^ 31 - 1 ->
  exists pt', User2System a (Z.of_nat (length pas)) (set_cpu m k) = Ok (Value ((byte_at m <$> pas) ++ [x00]) (set_cpu (set_pageTable (Some pt') m) k)) /\ same_pages pt pt'.
Proof.
  intros Hp Hm Hne Hlen. destruct (user_bytes_ok pas a 0 m k pt Hp) as (pt' & Hb & Hs).
  { intros j pa Hj. split; [rewrite Z.add_0_l; by apply Hm|]. by apply (proj1 (Forall_lookup _ _) Hne j). }
  exists pt'. split; [|done]. unfold User2System, new_chars. rewrite wrap32_small by (unfold int_range; lia). rewrite bool_decide_eq_false_2 by lia.
  unfold seq at 1, ret at 1. rewrite Nat2Z.id. rewrite (seq_value _ _ _ _ _ Hb). unfold ret. rewrite length_fmap.
  by replace (Z.to_nat (Z.of_nat (length pas) + 1) - length pas)%nat with 1%nat by lia.
Qed.

(** A string without NUL, written by [System2User]. *)
Lemma to_user_ok bs : forall pas pre b i m k pt, paged m pt -> length pas = length bs -> NoDup pas -> Forall (fun x => x <> x00) bs -> i = Z.of_nat (length pre) ->
  (forall j pa, pas !! j = Some pa -> resolve pt (wrap32 (b + (i + Z.of_nat j))) 1 true = inr pa) ->
  exists m', to_user (length bs) b i (pre ++ bs) (set_cpu m k) = Ok (Value (i + Z.of_nat (length bs)) (set_cpu m' k)) /\
    registers m' = registers m /\ (exists pt', paged m' pt' /\ same_pages pt pt') /\
    byte_at m' <$> pas = bs /\ forall x, x ∉ pas -> byte_at m' x = byte_at m x.
Proof.
  induction bs as [|c bs IH]; intros pas pre b i m k pt Hp Hlen Hnd Hne Hi Hm; cbn [length to_user].
  - destruct pas; [|done]. exists m. rewrite Z.add_0_r. split; [done|]. split; [done|]. split; [by exists pt|]. done.
  - destruct pas as [|pa pas]; [done|]. cbn [length] in Hlen. apply NoDup_cons in Hnd as [Hni Hnd]. apply Forall_cons in Hne as [Hc Hne].
    pose proof (Hm 0%nat pa eq_refl) as Hr. rewrite Z.add_0_r in Hr.
    rewrite (seq_value (lift _) _ _ c (set_cpu m k)) by (unfold lift; rewrite (proj2 (lget_ok _ _ c)); [done|]; rewrite Hi, Nat2Z.id, lookup_app_r, Nat.sub_diag by lia; split; [lia|done]).
    set (pt1 := touch_page (wrap32 (b + i)) true pt). set (m1 := set_memory (deposit pa 1 (charZ c)) (set_pageTable (Some pt1) m)).
    assert (E : WriteMem (wrap32 (b + i)) (charZ c) (set_cpu m k) = Ok (Value tt (set_cpu m1 k))).
    { cbv [WriteMem seq gets lift modify]. cbn [cpu set_cpu]. rewrite (WriteMem_paged m pt) by (done || by left). by rewrite Hr. }
    rewrite (seq_value _ _ _ _ _ E). rewrite bool_decide_eq_false_2 by (by rewrite charZ_zero).
    pose proof (touch_same (wrap32 (b + i)) true pt) as Hs. fold pt1 in Hs.
    assert (Hat : forall x, byte_at m1 x = if decide (x = pa) then c else byte_at m x).
    { intros x. unfold byte_at, m1, deposit. cbn [mainMemory set_memory set_pageTable]. rewrite lookup_store_bytes, length_le_bytes. change (Z.of_nat (Z.to_nat 1)) with 1.
      destruct (decide (x = pa)) as [->|Hx]; [rewrite bool_decide_eq_true_2 by lia|by rewrite bool_decide_eq_false_2 by lia].
      rewrite Z.sub_diag. cbn. apply Console.Zbyte_charZ. }
    destruct (IH pas (pre ++ [c]) b (i + 1) m1 k pt1) as (m' & Ht & Hregs & (pt' & Hp' & Hs') & Hb & Hx); try done; try lia.
    + exact (paged_set m pt pt1 Hp (proj1 Hs)).
    + rewrite length_app. cbn. lia.
    + intros j x Hj. rewrite (proj2 Hs). rewrite <- (Hm (S j) x Hj). do 2 f_equal. lia.
    + rewrite <- app_assoc in Ht. cbn [app] in Ht. exists m'. split; [rewrite Ht; do 2 f_equal; lia|]. split; [done|].
      split; [exists pt'; split; [done|by eapply same_pages_trans]|]. split.
      * rewrite fmap_cons, Hb, (Hx pa Hni), Hat. by rewrite decide_True.
      * intros x Hxn. apply not_elem_of_cons in Hxn as [Hx1 Hx2]. rewrite Hx by done. rewrite Hat. by rewrite decide_False.
Qed.

(** The kernel while the file [id] of the process is the object [f], and the host
    is [h]. *)
Definition with_file (id : Z) (f : StubFS.OpenFile) (h : Sysdep.host) (k : kernel) : kernel :=
  set_files (StubFS.mkFS (<[Z.to_nat id := Some f]> (StubFS.fileTable (files k)))) (set_host h k).
(** The host while the descriptor [fd] is at [o] in the file [ino], whose
    contents are [c]. *)
Definition at_offset (fd ino : Z) (c : list byte) (o : Z) (h : Sysdep.host) : Sysdep.host :=
  Sysdep.set_fds (<[fd := Sysdep.mkFd ino o true true]> (Sysdep.fds h)) (Sysdep.set_inodes (<[ino := c]> (Sysdep.inodes h)) h).
(** An object of [OpenFile] opened for reading and writing. *)
Definition rw (fd co : Z) : StubFS.OpenFile := StubFS.mkOpen fd co (Some StubFS.READWRITE_TYPE).

Lemma at_offset_twice fd ino c o c' o' h : at_offset fd ino c' o' (at_offset fd ino c o h) = at_offset fd ino c' o' h.
Proof. unfold at_offset, Sysdep.set_fds, Sysdep.set_inodes. cbn [Sysdep.fds Sysdep.inodes Sysdep.names Sysdep.admits Sysdep.fd_limit]. by rewrite !insert_insert_eq. Qed.

Lemma with_file_twice id f h f' h' k : with_file id f' h' (with_file id f h k) = with_file id f' h' k.
Proof. unfold with_file, set_files, set_host. cbn [files StubFS.fileTable cpu synchConsoleIn synchConsoleOut sTab]. by rewrite list_insert_insert_eq. Qed.

Lemma file_op_ok {A} id (op : StubFS.OpenFile -> Sysdep.host -> result (A * StubFS.OpenFile * Sysdep.host)) f h k a f' h' :
  0 <= id < Z.of_nat (length (StubFS.fileTable (files k))) -> op f h = Ok (a, f', h') ->
  file_op id op (with_file id f h k) = Ok (Value a (with_file id f' h' k)).
Proof.
  intros Hid Hop. assert (Hg : lget (StubFS.fileTable (files (with_file id f h k))) id = Ok (Some f)).
  { apply lget_ok. split; [lia|]. apply list_lookup_insert_eq. lia. }
  cbv [file_op file_at set_file host_op seq gets lift modify ret]. rewrite Hg. cbn [bind]. cbn [with_file set_files set_host the_host files]. rewrite Hop. cbn [bind].
  cbn [set_files set_host files]. change (StubFS.fileTable _) with (<[Z.to_nat id := Some f]> (StubFS.fileTable (files k))).
  rewrite lset_in by (by rewrite length_insert). cbn [bind]. unfold with_file, set_files, set_host. cbn. by rewrite list_insert_insert_eq.
Qed.

Section at_offset.
Context (fd ino co : Z) (c : list byte) (o : Z) (h : Sysdep.host).
Hypothesis Ho : 0 <= o < 2 ^ 31.

Lemma lookup_at : Sysdep.fds (at_offset fd ino c o h) !! fd = Some (Sysdep.mkFd ino o true true).
Proof using Type. apply lookup_insert_eq. Qed.

Lemma file_of_at : Sysdep.file_of (at_offset fd ino c o h) (Sysdep.mkFd ino o true true) = c.
Proof using Type. unfold Sysdep.file_of, at_offset. cbn. by rewrite lookup_insert_eq. Qed.

Lemma moved p : Sysdep.set_fds (<[fd := Sysdep.mkFd ino p true true]> (Sysdep.fds (at_offset fd ino c o h))) (at_offset fd ino c o h) = at_offset fd ino c p h.
Proof using Type. unfold at_offset, Sysdep.set_fds. cbn [Sysdep.fds Sysdep.inodes Sysdep.names Sysdep.admits Sysdep.fd_limit Sysdep.set_inodes]. by rewrite insert_insert_eq. Qed.

Lemma seek_at p : 0 <= p < 2 ^ 31 -> Sysdep.Lseek fd p Sysdep.SEEK_SET (at_offset fd ino c o h) = Ok (at_offset fd ino c p h).
Proof using Type. intros Hp. rewrite (StubFS.Lseek_ok fd p _ _ lookup_at Hp). f_equal. apply moved. Qed.

Lemma Tell_at : Sysdep.Tell fd (at_offset fd ino c o h) = (o, at_offset fd ino c o h).
Proof using Ho.
  unfold Sysdep.Tell, Sysdep.lseek. rewrite lookup_at. cbn [Sysdep.offset Sysdep.inode Sysdep.readable Sysdep.writable]. rewrite Z.add_0_l, bool_decide_eq_true_2 by lia.
  rewrite wrap32_small by (unfold int_range; lia). f_equal. apply moved.
Qed.

Lemma getCurrentOffset_at : StubFS.getCurrentOffset (rw fd co) (at_offset fd ino c o h) = (o, rw fd o, at_offset fd ino c o h).
Proof using Ho.
  unfold StubFS.getCurrentOffset. cbn [StubFS.file rw]. rewrite Tell_at. unfold StubFS.set_offset. cbn [StubFS.file StubFS.type rw].
  by rewrite wrap32_small by (unfold int_range; lia).
Qed.

Lemma Lseek_end_at : Z.of_nat (length c) < 2 ^ 31 ->
  Sysdep.Lseek fd 0 Sysdep.SEEK_END (at_offset fd ino c o h) = Ok (at_offset fd ino c (Z.of_nat (length c)) h).
Proof using Type.
  intros Hc. unfold Sysdep.Lseek, Sysdep.lseek. rewrite lookup_at, file_of_at, Z.add_0_l, bool_decide_eq_true_2 by lia.
  rewrite wrap32_small by (unfold int_range; lia). rewrite bool_decide_eq_true_2 by lia. cbn [assert bind Sysdep.inode Sysdep.readable Sysdep.writable].
  f_equal. apply moved.
Qed.

Lemma Read_at n : 0 <= n ->
  let bs := take (Z.to_nat n) (drop (Z.to_nat o) c) in
  StubFS.Read (rw fd o) n (at_offset fd ino c o h) =
    Ok (Some bs, rw fd (wrap32 (o + Z.of_nat (length bs))), at_offset fd ino c (o + Z.of_nat (length bs)) h).
Proof using Ho.
  intros Hn bs. unfold StubFS.Read. rewrite (StubFS.stub_ReadAt_ok (rw fd o) n (StubFS.currentOffset (rw fd o)) _ _ lookup_at) by done. cbn [bind StubFS.currentOffset rw].
  rewrite file_of_at. fold bs. f_equal. f_equal. apply moved.
Qed.

Lemma Write_at bs n : 0 <= n <= Z.of_nat (length bs) -> 0 < n ->
  StubFS.Write (rw fd o) bs n (at_offset fd ino c o h) =
    Ok (n, rw fd (wrap32 (o + n)), at_offset fd ino (splice (Z.to_nat o) (take (Z.to_nat n) bs) (Sysdep.pad o c)) (o + n) h).
Proof using Ho.
  intros Hn Hpos. unfold StubFS.Write, StubFS.WriteAt. cbn [StubFS.currentOffset StubFS.file rw]. rewrite seek_at by done. cbn [bind].
  unfold Sysdep.WriteFile, Sysdep.write. rewrite (bool_decide_eq_false_2 (n < 0)), bool_decide_eq_true_2 by lia. rewrite lookup_at.
  cbn [Sysdep.writable Sysdep.offset Sysdep.inode Sysdep.readable]. rewrite file_of_at. rewrite length_take, Nat.min_l by lia. rewrite Z2Nat.id by lia.
  rewrite bool_decide_eq_true_2 by done. cbn [assert bind]. f_equal. f_equal.
  destruct (take (Z.to_nat n) bs) as [|x l] eqn:E; [apply (f_equal length) in E; rewrite length_take in E; cbn in E; lia|].
  unfold at_offset, Sysdep.set_fds, Sysdep.set_inodes. cbn [Sysdep.fds Sysdep.inodes Sysdep.names Sysdep.admits Sysdep.fd_limit]. by rewrite !insert_insert_eq.
Qed.
End at_offset.

Lemma Length_at fd ino co c o h : Z.of_nat (length c) < 2 ^ 31 ->
  StubFS.Length (rw fd co) (at_offset fd ino c o h) = Ok (Z.of_nat (length c), at_offset fd ino c (Z.of_nat (length c)) h).
Proof. intros Hc. unfold StubFS.Length. cbn [StubFS.file rw]. rewrite Lseek_end_at by done. cbn [bind]. by rewrite Tell_at by lia. Qed.

Lemma splice_here {A} (o : nat) (bs l : list A) : (o <= length l)%nat -> take (length bs) (drop o (splice o bs l)) = bs.
Proof. intros H. unfold splice. rewrite drop_app_length' by (rewrite length_take; lia). by rewrite take_app_length. Qed.

Section file_calls.
Context (id fd ino : Z) (h : Sysdep.host) (k0 : kernel).
Hypothesis Hid : 2 <= id < StubFS.MAX_FILE_OPEN.
Hypothesis Htable : Z.of_nat (length (StubFS.fileTable (files k0))) = StubFS.MAX_FILE_OPEN.

(** The kernel between two calls on the file: the processor, the object's own
    offset, the contents and the host's offset. *)
Definition session (m : machine) (co : Z) (c : list byte) (o : Z) : kernel := with_file id (rw fd co) (at_offset fd ino c o h) (set_cpu m k0).

Lemma session_op {A} (op : StubFS.OpenFile -> Sysdep.host -> result (A * StubFS.OpenFile * Sysdep.host)) m co c o a co' c' o' :
  op (rw fd co) (at_offset fd ino c o h) = Ok (a, rw fd co', at_offset fd ino c' o' h) ->
  file_op id op (session m co c o) = Ok (Value a (session m co' c' o')).
Proof using Hid Htable. intros Hop. apply file_op_ok; [|done]. change (files (set_cpu m k0)) with (files k0). lia. Qed.

Lemma file_at_session m co c o : file_at id (session m co c o) = Ok (Value (Some (rw fd co)) (session m co c o)).
Proof using Hid Htable.
  cbv [file_at seq gets lift]. rewrite (proj2 (lget_ok _ id (Some (rw fd co)))); [done|]. split; [lia|]. apply list_lookup_insert_eq.
  change (files (set_cpu m k0)) with (files k0). lia.
Qed.

Lemma session_offset m co c o : 0 <= o < 2 ^ 31 -> file_getCurrentOffset id (session m co c o) = Ok (Value o (session m o c o)).
Proof using Hid Htable. intros Ho. apply session_op. by rewrite getCurrentOffset_at. Qed.

Lemma session_type m co c o : file_getType id (session m co c o) = Ok (Value StubFS.READWRITE_TYPE (session m co c o)).
Proof using Hid Htable. by apply session_op. Qed.

Lemma session_length m co c o : Z.of_nat (length c) < 2 ^ 31 -> file_Length id (session m co c o) = Ok (Value (Z.of_nat (length c)) (session m co c (Z.of_nat (length c)))).
Proof using Hid Htable. intros Hc. apply session_op. by rewrite Length_at. Qed.

Lemma session_register m co c o i : regs_ok m -> 0 <= i < NumTotalRegs -> ReadRegister i (session m co c o) = Ok (Value (reg m i) (session m co c o)).
Proof using Type. intros Hr Hi. by apply ReadRegister_value. Qed.

Lemma Write_session m co c o a pas pt : regs_ok m -> paged m pt -> maps pt a false pas -> Forall (fun pa => byte_at m pa <> x00) pas -> pas <> [] ->
  reg m 4 = a -> reg m 5 = Z.of_nat (length pas) -> reg m 6 = id -> 0 <= o -> o + Z.of_nat (length pas) < 2 ^ 31 - 1 ->
  exists pt', same_pages pt pt' /\ handle_Write (session m co c o) =
    Ok (Value tt (answered (Z.of_nat (length pas)) (session (set_pageTable (Some pt') m) (o + Z.of_nat (length pas))
      (splice (Z.to_nat o) (byte_at m <$> pas) (Sysdep.pad o c)) (o + Z.of_nat (length pas))))).
Proof using Hid Htable.
  intros Hr Hp Hm Hne Hpas H4 H5 H6 Ho Hbig. destruct (User2System_ok pas a m (with_file id (rw fd o) (at_offset fd ino c o h) k0) pt Hp Hm Hne ltac:(lia)) as (pt' & Hu & Hs).
  exists pt'. split; [done|]. set (n := Z.of_nat (length pas)) in *. assert (Hpos : 0 < n) by (unfold n; destruct pas; [done|cbn; lia]).
  unfold StubFS.MAX_FILE_OPEN in Hid. unfold handle_Write.
  rewrite (seq_value _ _ _ _ _ (session_register m co c o 4 Hr ltac:(by vm_compute))), (seq_value _ _ _ _ _ (session_register m co c o 5 Hr ltac:(by vm_compute))),
    (seq_value _ _ _ _ _ (session_register m co c o 6 Hr ltac:(by vm_compute))), H4, H5, H6.
  unfold StubFS.MAX_FILE_OPEN, StubFS.INDEX_STDIN, StubFS.INDEX_STDOUT. rewrite !(bool_decide_eq_false_2 (id < _)), (bool_decide_eq_false_2 (10 < id)) by lia. cbn [orb].
  rewrite (seq_value _ _ _ _ _ (file_at_session m co c o)). cbn [isSome negb]. rewrite (seq_value _ _ _ _ _ (session_type m co c o)).
  rewrite (bool_decide_eq_false_2 (id = 1)), orb_false_r by lia. rewrite (bool_decide_eq_false_2 (StubFS.READWRITE_TYPE = _)) by done.
  rewrite (seq_value _ _ _ _ _ (session_offset m co c o ltac:(lia))).
  change (session m o c o) with (set_cpu m (with_file id (rw fd o) (at_offset fd ino c o h) k0)). rewrite (seq_value _ _ _ _ _ Hu).
  change (set_cpu (set_pageTable (Some pt') m) _) with (session (set_pageTable (Some pt') m) o c o).
  rewrite (bool_decide_eq_false_2 (id = 0)) by lia. rewrite (seq_value _ _ _ _ _ (session_type _ o c o)). rewrite (bool_decide_eq_true_2 (StubFS.READWRITE_TYPE = _)) by done.
  assert (Hw : file_Write id n ((byte_at m <$> pas) ++ [x00]) (session (set_pageTable (Some pt') m) o c o) =
    Ok (Value n (session (set_pageTable (Some pt') m) (o + n) (splice (Z.to_nat o) (byte_at m <$> pas) (Sysdep.pad o c)) (o + n)))).
  { apply session_op. rewrite Write_at by (rewrite ?length_app, ?length_fmap; cbn; lia). rewrite (wrap32_small (o + n)) by (unfold int_range; lia).
    rewrite take_app_length' by (rewrite length_fmap; lia). done. }
  rewrite (seq_value _ _ _ _ _ Hw). rewrite (bool_decide_eq_true_2 (0 < n)) by done. rewrite (seq_value _ _ _ _ _ (session_offset _ _ _ (o + n) ltac:(lia))).
  replace (o + n - o) with n by lia. rewrite wrap32_small by (unfold int_range; lia). apply return_with_ok; [done|unfold int_range; lia].
Qed.

Lemma Seek_session m co c o p : regs_ok m -> reg m 4 = p -> reg m 5 = id -> 0 <= p <= Z.of_nat (length c) -> Z.of_nat (length c) < 2 ^ 31 ->
  handle_Seek (session m co c o) = Ok (Value tt (answered p (session m p c p))).
Proof using Hid Htable.
  intros Hr H4 H5 Hp Hc. unfold StubFS.MAX_FILE_OPEN in Hid. unfold handle_Seek.
  rewrite (seq_value _ _ _ _ _ (session_register m co c o 4 Hr ltac:(by vm_compute))), (seq_value _ _ _ _ _ (session_register m co c o 5 Hr ltac:(by vm_compute))), H4, H5.
  unfold StubFS.MAX_FILE_OPEN. rewrite (bool_decide_eq_false_2 (id < 0)), (bool_decide_eq_false_2 (10 <= id)) by lia. cbn [orb].
  rewrite (seq_value _ _ _ _ _ (file_at_session m co c o)). cbn [isSome negb]. rewrite (bool_decide_eq_false_2 (id = 0)), (bool_decide_eq_false_2 (id = 1)) by lia. cbn [orb].
  rewrite (bool_decide_eq_false_2 (p = -1)) by lia. rewrite (seq_value (ret p) _ _ p _ eq_refl), (seq_value _ _ _ _ _ (session_length m co c o Hc)).
  rewrite (bool_decide_eq_false_2 (_ < p)), (bool_decide_eq_false_2 (p < 0)) by lia. cbn [orb].
  assert (Hs : file_Seek id p (session m co c (Z.of_nat (length c))) = Ok (Value tt (session m p c p))).
  { apply session_op. unfold StubFS.Seek. cbn [StubFS.file rw]. rewrite seek_at by lia. cbn [bind]. rewrite Tell_at by lia. unfold StubFS.set_offset. cbn [StubFS.file StubFS.type rw].
    by rewrite wrap32_small by (unfold int_range; lia). }
  rewrite (seq_value _ _ _ _ _ Hs). apply return_with_ok; [done|unfold int_range; lia].
Qed.

Lemma Read_session m co c o b pas pt bs : regs_ok m -> paged m pt -> maps pt b true pas -> NoDup pas -> length pas = length bs ->
  take (length bs) (drop (Z.to_nat o) c) = bs -> Forall (fun x => x <> x00) bs -> bs <> [] ->
  reg m 4 = b -> reg m 5 = Z.of_nat (length bs) -> reg m 6 = id -> 0 <= o -> o + Z.of_nat (length bs) < 2 ^ 31 - 1 ->
  exists m', registers m' = registers m /\ byte_at m' <$> pas = bs /\ (exists pt', paged m' pt' /\ same_pages pt pt') /\
    handle_Read (session m co c o) = Ok (Value tt (answered (Z.of_nat (length bs)) (session m' (o + Z.of_nat (length bs)) c (o + Z.of_nat (length bs))))).
Proof using Hid Htable.
  intros Hr Hp Hm Hnd Hlen Hbs Hne Hpas H4 H5 H6 Ho Hbig. set (n := Z.of_nat (length bs)) in *. assert (Hpos : 0 < n) by (unfold n; destruct bs; [done|cbn; lia]).
  destruct (to_user_ok bs pas [] b 0 m (with_file id (rw fd (o + n)) (at_offset fd ino c (o + n) h) k0) pt Hp Hlen Hnd Hne eq_refl) as (m' & Ht & Hregs & Hpt & Hb & _).
  { intros j pa Hj. rewrite Z.add_0_l. by apply Hm. }
  exists m'. split; [done|]. split; [done|]. split; [done|]. unfold StubFS.MAX_FILE_OPEN in Hid. unfold handle_Read.
  rewrite (seq_value _ _ _ _ _ (session_register m co c o 4 Hr ltac:(by vm_compute))), (seq_value _ _ _ _ _ (session_register m co c o 5 Hr ltac:(by vm_compute))),
    (seq_value _ _ _ _ _ (session_register m co c o 6 Hr ltac:(by vm_compute))), H4, H5, H6.
  unfold StubFS.MAX_FILE_OPEN, StubFS.INDEX_STDIN, StubFS.INDEX_STDOUT. rewrite !(bool_decide_eq_false_2 (id < _)), (bool_decide_eq_false_2 (10 < id)) by lia. cbn [orb].
  rewrite (seq_value _ _ _ _ _ (file_at_session m co c o)). cbn [isSome negb]. rewrite (bool_decide_eq_false_2 (id = 0)) by lia.
  rewrite (seq_value _ _ _ _ _ (session_offset m co c o ltac:(lia))). rewrite (seq_value (new_chars n) _ _ tt (session m o c o)) by (unfold new_chars; by rewrite bool_decide_eq_false_2 by lia).
  rewrite (bool_decide_eq_false_2 (id = 1)) by lia.
  assert (Hrd : file_Read id n (session m o c o) = Ok (Value (Some bs) (session m (o + n) c (o + n)))).
  { apply session_op. rewrite Read_at by lia. assert (E : take (Z.to_nat n) (drop (Z.to_nat o) c) = bs) by (unfold n; by rewrite Nat2Z.id). rewrite E.
    fold n. by rewrite (wrap32_small (o + n)) by (unfold int_range; lia). }
  rewrite (seq_value _ _ _ _ _ Hrd). unfold StubFS.count. fold n. rewrite (bool_decide_eq_true_2 (0 < n)) by done.
  rewrite (seq_value _ _ _ _ _ (session_offset m (o + n) c (o + n) ltac:(lia))). cbv zeta. cbn [default].
  replace (o + n - o) with n by lia. rewrite (wrap32_small n) by (unfold int_range; lia).
  assert (Hsu : System2User b n bs (session m (o + n) c (o + n)) = Ok (Value (0 + n) (session m' (o + n) c (o + n)))).
  { unfold System2User. rewrite (bool_decide_eq_false_2 (n < 0)), (bool_decide_eq_false_2 (n = 0)) by lia. unfold n at 1. rewrite Nat2Z.id. exact Ht. }
  rewrite (seq_value _ _ _ _ _ Hsu). apply return_with_ok; [|unfold int_range; lia].
  cbn [cpu session with_file set_files set_host set_cpu]. destruct Hr as (R1 & R2 & R3). split; [by rewrite Hregs|]. split; [by rewrite Hregs|]. unfold reg in *. by rewrite Hregs.
Qed.
End file_calls.

(** The process has the file [ino] open for reading and writing as [id], at the
    offset [o]; its contents are [c]. *)
Record opened_file (id fd ino : Z) (c : list byte) (o : Z) (k : kernel) : Prop := {
  of_table : Z.of_nat (length (StubFS.fileTable (files k))) = StubFS.MAX_FILE_OPEN;
  of_id : 2 <= id < StubFS.MAX_FILE_OPEN;
  of_object : exists co, StubFS.fileTable (files k) !! Z.to_nat id = Some (Some (rw fd co));
  of_descriptor : Sysdep.fds (the_host k) !! fd = Some (Sysdep.mkFd ino o true true);
  of_contents : Sysdep.inodes (the_host k) !! ino = Some c
}.

Lemma opened_session id fd ino c o k : opened_file id fd ino c o k -> exists co, k = session id fd ino (the_host k) k (cpu k) co c o.
Proof.
  intros [Ht Hid [co Hf] Hd Hc]. exists co. unfold session, with_file, at_offset, set_files, set_host, Sysdep.set_fds, Sysdep.set_inodes.
  cbn [set_cpu cpu files the_host synchConsoleIn synchConsoleOut sTab Sysdep.fds Sysdep.inodes Sysdep.names Sysdep.admits Sysdep.fd_limit].
  rewrite (list_insert_id _ _ _ Hf), (insert_id _ _ _ Hd), (insert_id _ _ _ Hc). destruct k as [m h fs ci co' st], h, fs. done.
Qed.

Lemma session_opened id fd ino h k0 m co c o : 2 <= id < StubFS.MAX_FILE_OPEN -> Z.of_nat (length (StubFS.fileTable (files k0))) = StubFS.MAX_FILE_OPEN ->
  opened_file id fd ino c o (session id fd ino h k0 m co c o).
Proof.
  intros Hid Ht. split; [..|apply lookup_insert_eq|apply lookup_insert_eq].
  - cbn. by rewrite length_insert.
  - done.
  - exists co. apply list_lookup_insert_eq. change (files (set_cpu m k0)) with (files k0). lia.
Qed.

Lemma args_session v4 v5 v6 id fd ino h k0 m co c o :
  args v4 v5 v6 (session id fd ino h k0 m co c o) = session id fd ino h k0 (setreg 6 v6 (setreg 5 v5 (setreg 4 v4 m))) co c o.
Proof. reflexivity. Qed.
Lemma answered_session v id fd ino h k0 m co c o :
  answered v (session id fd ino h k0 m co c o) = session id fd ino h k0 (advanced (setreg 2 v m)) co c o.
Proof. reflexivity. Qed.
Lemma paged_setreg i v m pt : paged m pt -> paged (setreg i v m) pt.
Proof. done. Qed.
Lemma paged_advanced m pt : paged m pt -> paged (advanced m) pt.
Proof. intros Hp. unfold advanced. by repeat apply paged_setreg. Qed.
Lemma byte_at_setreg i v m x : byte_at (setreg i v m) x = byte_at m x.
Proof. done. Qed.
Lemma byte_at_advanced m x : byte_at (advanced m) x = byte_at m x.
Proof. unfold advanced. by rewrite !byte_at_setreg. Qed.

Lemma args_regs v4 v5 v6 m : regs_ok m -> int_range v4 -> int_range v5 -> int_range v6 ->
  let m' := setreg 6 v6 (setreg 5 v5 (setreg 4 v4 m)) in regs_ok m' /\ reg m' 4 = v4 /\ reg m' 5 = v5 /\ reg m' 6 = v6.
Proof.
  intros Hr H4 H5 H6. assert (R4 : regs_ok (setreg 4 v4 m)) by (apply setreg_ok; [done|by vm_compute|done|done]).
  assert (R5 : regs_ok (setreg 5 v5 (setreg 4 v4 m))) by (apply setreg_ok; [done|by vm_compute|done|done]).
  split; [apply setreg_ok; [done|by vm_compute|done|done]|]. rewrite !reg_setreg by first [done|by vm_compute]. done.
Qed.

Lemma args_opened v4 v5 v6 id fd ino k co c o : k = session id fd ino (the_host k) k (cpu k) co c o ->
  args v4 v5 v6 k = session id fd ino (the_host k) k (setreg 6 v6 (setreg 5 v5 (setreg 4 v4 (cpu k)))) co c o.
Proof. intros E. rewrite <- args_session. by f_equal. Qed.

(** A call returned [v]: register 2, and what the next call finds. *)
Record back (v : Z) (pt : list TranslationEntry) (id fd ino : Z) (c : list byte) (o : Z) (k : kernel) : Prop := {
  b_regs : regs_ok (cpu k);
  b_value : reg (cpu k) 2 = v;
  b_pages : exists pt', paged (cpu k) pt' /\ same_pages pt pt';
  b_file : opened_file id fd ino c o k
}.

Lemma answered_back v pt id fd ino h k0 m co c o : regs_ok m -> int_range v -> (exists pt', paged m pt' /\ same_pages pt pt') ->
  2 <= id < StubFS.MAX_FILE_OPEN -> Z.of_nat (length (StubFS.fileTable (files k0))) = StubFS.MAX_FILE_OPEN ->
  back v pt id fd ino c o (answered v (session id fd ino h k0 m co c o)).
Proof.
  intros Hr Hv (pt' & Hp & Hs) Hid Ht. destruct (return_with_ok v (session id fd ino h k0 m co c o) Hr Hv) as (_ & Hr' & Hv'). split; [done|done|..].
  - exists pt'. split; [|done]. rewrite answered_session. exact (paged_advanced _ _ (paged_setreg 2 v m pt' Hp)).
  - rewrite answered_session. by apply session_opened.
Qed.

Lemma Write_opened k pt id fd ino c o a pas : regs_ok (cpu k) -> paged (cpu k) pt -> opened_file id fd ino c o k ->
  0 <= o <= Z.of_nat (length c) -> o + Z.of_nat (length pas) < 2 ^ 31 - 1 -> int_range a ->
  maps pt a false pas -> Forall (fun pa => byte_at (cpu k) pa <> x00) pas -> pas <> [] ->
  exists k', handle_Write (args a (Z.of_nat (length pas)) id k) = Ok (Value tt k') /\
    back (Z.of_nat (length pas)) pt id fd ino (splice (Z.to_nat o) (byte_at (cpu k) <$> pas) c) (o + Z.of_nat (length pas)) k'.
Proof.
  intros Hr Hp Hf Ho Hbig Ha Hm Hne Hpas. pose proof (of_id _ _ _ _ _ _ Hf) as Hid. pose proof (of_table _ _ _ _ _ _ Hf) as Htab.
  destruct (opened_session _ _ _ _ _ _ Hf) as [co Ek].
  destruct (args_regs a (Z.of_nat (length pas)) id (cpu k) Hr Ha) as (Rw & W4 & W5 & W6); [unfold int_range; lia|unfold int_range, StubFS.MAX_FILE_OPEN in *; lia|].
  destruct (Write_session id fd ino (the_host k) k Hid Htab _ co c o a pas pt Rw Hp Hm Hne Hpas W4 W5 W6 ltac:(lia) Hbig) as (pt1 & Hs & Hw).
  rewrite (args_opened _ _ _ _ _ _ _ _ _ _ Ek). rewrite Hw. eexists. split; [done|].
  assert (Hpad : Sysdep.pad o c = c) by (unfold Sysdep.pad; replace (Z.to_nat o - length c)%nat with 0%nat by lia; apply app_nil_r). rewrite Hpad.
  apply answered_back; [exact Rw|unfold int_range; lia| |done|done]. exists pt1. split; [|done]. apply (paged_set _ pt); [exact Hp|apply Hs].
Qed.

Lemma Seek_opened k pt id fd ino c o p : regs_ok (cpu k) -> (exists pt', paged (cpu k) pt' /\ same_pages pt pt') -> opened_file id fd ino c o k ->
  0 <= p <= Z.of_nat (length c) -> Z.of_nat (length c) < 2 ^ 31 ->
  exists k', handle_Seek (args p id 0 k) = Ok (Value tt k') /\ back p pt id fd ino c p k' /\ forall x, byte_at (cpu k') x = byte_at (cpu k) x.
Proof.
  intros Hr Hpt Hf Hpos Hc. pose proof (of_id _ _ _ _ _ _ Hf) as Hid. pose proof (of_table _ _ _ _ _ _ Hf) as Htab.
  destruct (opened_session _ _ _ _ _ _ Hf) as [co Ek].
  destruct (args_regs p id 0 (cpu k) Hr) as (Rs & S4 & S5 & _); [unfold int_range; lia|unfold int_range, StubFS.MAX_FILE_OPEN in *; lia|by vm_compute|].
  rewrite (args_opened _ _ _ _ _ _ _ _ _ _ Ek), (Seek_session id fd ino (the_host k) k Hid Htab _ co c o p Rs S4 S5 Hpos Hc). eexists. split; [done|]. split.
  - apply answered_back; [exact Rs|unfold int_range; lia|exact Hpt|done|done].
  - intros x. rewrite answered_session. exact (byte_at_advanced _ x).
Qed.

Lemma Read_opened k pt id fd ino c o b pas bs : regs_ok (cpu k) -> (exists pt', paged (cpu k) pt' /\ same_pages pt pt') -> opened_file id fd ino c o k ->
  maps pt b true pas -> NoDup pas -> length pas = length bs -> take (length bs) (drop (Z.to_nat o) c) = bs -> Forall (fun x => x <> x00) bs -> bs <> [] ->
  int_range b -> 0 <= o -> o + Z.of_nat (length bs) < 2 ^ 31 - 1 ->
  exists k', handle_Read (args b (Z.of_nat (length bs)) id k) = Ok (Value tt k') /\ byte_at (cpu k') <$> pas = bs /\
    back (Z.of_nat (length bs)) pt id fd ino c (o + Z.of_nat (length bs)) k'.
Proof.
  intros Hr (pt0 & Hp & Hs) Hf Hm Hnd Hlen Hbs Hne Hnil Hb Ho Hbig. pose proof (of_id _ _ _ _ _ _ Hf) as Hid. pose proof (of_table _ _ _ _ _ _ Hf) as Htab.
  destruct (opened_session _ _ _ _ _ _ Hf) as [co Ek].
  destruct (args_regs b (Z.of_nat (length bs)) id (cpu k) Hr Hb) as (Rr & D4 & D5 & D6); [unfold int_range; lia|unfold int_range, StubFS.MAX_FILE_OPEN in *; lia|].
  destruct (Read_session id fd ino (the_host k) k Hid Htab _ co c o b pas pt0 bs Rr Hp (maps_same _ _ _ _ _ Hs Hm) Hnd Hlen Hbs Hne Hnil D4 D5 D6 Ho Hbig)
    as (m' & Hregs & Hbytes & (pt1 & Hp1 & Hs1) & Hrd).
  rewrite (args_opened _ _ _ _ _ _ _ _ _ _ Ek). rewrite Hrd. eexists. split; [done|]. split.
  - rewrite answered_session. etransitivity; [|exact Hbytes]. apply list_fmap_ext. intros _ x _. exact (byte_at_advanced _ x).
  - apply answered_back; [|unfold int_range; lia|exists pt1; split; [done|by eapply same_pages_trans]|done|done].
    destruct Rr as (Q1 & Q2 & Q3). unfold regs_ok, reg in *. by rewrite Hregs.
Qed.

(** ** An example: one page, one open file *)

Definition pages_example : list TranslationEntry := [frame 5].
Definition cpu_example : machine :=
  setreg 4 (-42) (setreg 2 47 (install pages_example (set_memory (fun _ => store_bytes 2576 [x68; x69] ∅) example_machine))).
Definition kernel_example : kernel :=
  mkKernel cpu_example (Sysdep.mkHost ∅ {[ 0 := [] ]} {[ 3 := Sysdep.mkFd 0 0 true true ]} (fun _ => true) 16)
    (StubFS.mkFS [None; None; Some (rw 3 0); None; None; None; None; None; None; None])
    (Console.keyboard [] true) (Console.display []) (STable.mkST (Bitmap.mk 0 0 []) []).

Lemma example_regs : regs_ok (cpu kernel_example).
Proof.
  apply setreg_ok; [|by vm_compute|by vm_compute|done]. apply setreg_ok; [|by vm_compute|by vm_compute|done].
  exact (example_regs_ok pages_example).
Qed.

Lemma example_paged : paged (cpu kernel_example) pages_example.
Proof. done. Qed.

Lemma example_opened : opened_file 2 3 0 [] 0 kernel_example.
Proof. split; [done|by vm_compute|by exists 0|done|done]. Qed.

Lemma ExceptionHandler_ok random now pt k which :
  regs_ok (cpu k) -> paged (cpu k) pt -> int_range (Console.incoming (synchConsoleIn k)) ->
  match which, ExceptionHandler random now which k with
  | NoException, r => r = Ok (Value tt k)
  | SyscallException, Ok (Value _ k') => ended pt (cpu k) k'
  | SyscallException, Ok (Calls c k1) => kept pt (cpu k) k1 /\
      forall m0 k2 r, kept pt m0 k2 -> int_range r -> match resume c r k2 with Ok (Value _ k') => ended pt m0 k' | _ => False end
  | SyscallException, _ => True
  | _, r => r = Ok (Halted k)
  end.
Proof.
  intros Hr Hp Hc. assert (Hk : kept pt (cpu k) k) by (split; [by apply Mips.evolves_refl|done|done]).
  cbv [ExceptionHandler ReadRegister seq gets lift SysHalt halt]. rewrite ReadRegister_ok by first [done|by vm_compute]. cbn [bind].
  destruct which; try reflexivity. destruct (syscall_of (reg (cpu k) 2)) as [c|]; [|done]. pose proof (ends_handle random now c pt (cpu k) k Hk) as H.
  destruct (handle random now c k) as [[[] k'|k'| |c' k1]|]; try done. split; [done|]. intros m0 k2 r Hk2 Hrr. pose proof (ends_resume c' r Hrr pt m0 k2 Hk2) as He.
  pose proof (Mips.ev_regs _ _ _ (k_evolves _ _ _ Hk2)) as Hr2.
  destruct c'; cbn [resume] in *; rewrite ?(proj1 (return_with_ok r k2 Hr2 Hrr)), ?(increasePC_ok k2 Hr2) in *; exact He.
Qed.

(** ** Properties *)

(** C11: whatever a user program puts in its registers and its memory, a system
    call that returns to it leaves every register but register 2 and the
    program counters, which have moved to the next instruction, changes memory
    only in frames the program may write, and keeps its page table; and so it
    is for the three calls that go through the process table, at the moment
    they enter it and when they come back from it with any value.  Every other
    exception halts the machine. *)
Theorem ExceptionHandler_safe random now pt k which :
  regs_ok (cpu k) -> paged (cpu k) pt -> int_range (Console.incoming (synchConsoleIn k)) ->
  match which, ExceptionHandler random now which k with
  | NoException, r => r = Ok (Value tt k)
  | SyscallException, Ok (Value _ k') => ended pt (cpu k) k'
  | SyscallException, Ok (Calls c k1) => kept pt (cpu k) k1 /\
      forall m0 k2 r, kept pt m0 k2 -> int_range r -> match resume c r k2 with Ok (Value _ k') => ended pt m0 k' | _ => False end
  | SyscallException, _ => True
  | _, r => r = Ok (Halted k)
  end.
Proof. exact (ExceptionHandler_ok random now pt k which). Qed.

(** C30: what PrintNum shows, ReadNum reads back: for every number but the most
    negative one, the call shows its decimal numeral, and a program that reads
    a line consisting of it gets the number in register 2. *)
Theorem PrintNum_ReadNum k out :
  regs_ok (cpu k) -> synchConsoleOut k = Console.display out -> reg (cpu k) 4 <> - 2 ^ 31 ->
  exists s k1, handle_PrintNum k = Ok (Value tt k1) /\ synchConsoleOut k1 = Console.display (out ++ s) /\
    forall k2 keys e, regs_ok (cpu k2) -> synchConsoleIn k2 = Console.keyboard (s ++ x0a :: keys) e ->
      exists k3, handle_ReadNum k2 = Ok (Value tt k3) /\ reg (cpu k3) 2 = reg (cpu k) 4 /\ synchConsoleIn k3 = Console.keyboard keys e.
Proof.
  intros Hr Hk Hmin. destruct (PrintNum_ok k out Hr Hk Hmin) as (s & Hs & ->). eexists s, _. split; [done|]. split; [done|].
  assert (Hn : int_range (reg (cpu k) 4)) by (apply reg_range; [done|by vm_compute]).
  intros k2 keys e Hr2 Hk2. exists (answered (reg (cpu k) 4) (set_in (Console.keyboard keys e) k2)).
  split; [apply (ReadNum_ok s); try done; unfold INT_MIN, INT_MAX, int_range in *; lia|]. split; [|done].
  by apply return_with_ok.
Qed.

(** C22: what a program writes to a file it can read back.  With a file open for
    reading and writing, Write of a string without NUL at one address returns
    its length and replaces that many bytes of the file at the current
    position, Seek back to that position returns it, and Read at another
    address returns the length again and leaves the string there. *)
Theorem File_write_seek_read k pt id fd ino c o a b pas pas' :
  regs_ok (cpu k) -> paged (cpu k) pt -> opened_file id fd ino c o k ->
  0 <= o <= Z.of_nat (length c) -> Z.of_nat (length c) + Z.of_nat (length pas) < 2 ^ 31 - 1 -> int_range a -> int_range b ->
  maps pt a false pas -> Forall (fun pa => byte_at (cpu k) pa <> x00) pas -> pas <> [] ->
  maps pt b true pas' -> NoDup pas' -> length pas' = length pas ->
  let bs := byte_at (cpu k) <$> pas in let n := Z.of_nat (length pas) in
  exists k1 k2 k3,
    handle_Write (args a n id k) = Ok (Value tt k1) /\ reg (cpu k1) 2 = n /\ opened_file id fd ino (splice (Z.to_nat o) bs c) (o + n) k1 /\
    handle_Seek (args o id 0 k1) = Ok (Value tt k2) /\ reg (cpu k2) 2 = o /\
    handle_Read (args b n id k2) = Ok (Value tt k3) /\ reg (cpu k3) 2 = n /\ byte_at (cpu k3) <$> pas' = bs.
Proof.
  intros Hr Hp Hf Ho Hbig Ha Hb Hm Hne Hpas Hm' Hnd Hlen bs n.
  destruct (Write_opened k pt id fd ino c o a pas Hr Hp Hf Ho ltac:(lia) Ha Hm Hne Hpas) as (k1 & Hw & [R1 V1 P1 F1]). fold bs n in Hw, V1, F1.
  set (c' := splice (Z.to_nat o) bs c) in *. assert (Hl : length bs = length pas) by apply length_fmap.
  assert (Hc' : Z.of_nat (length c') < 2 ^ 31 - 1 /\ o <= Z.of_nat (length c')).
  { unfold c', splice. rewrite !length_app, length_take, length_drop. lia. }
  destruct (Seek_opened k1 pt id fd ino c' (o + n) o R1 P1 F1 ltac:(lia) ltac:(lia)) as (k2 & Hs & [R2 V2 P2 F2] & _).
  destruct (Read_opened k2 pt id fd ino c' o b pas' bs R2 P2 F2 Hm' Hnd) as (k3 & Hrd & Hbytes & [R3 V3 _ _]); try done; try lia.
  - apply splice_here. lia.
  - apply Forall_fmap. exact Hne.
  - unfold bs. by destruct pas.
  - rewrite Hl in Hrd, V3. fold n in Hrd, V3. by exists k1, k2, k3.
Qed.

Lemma ExceptionHandler_safe_witness : exists k', ExceptionHandler id 0 SyscallException kernel_example = Ok (Value tt k') /\ ended pages_example (cpu kernel_example) k'.
Proof.
  pose proof (ExceptionHandler_safe id 0 pages_example kernel_example SyscallException example_regs example_paged ltac:(vm_compute; split; congruence)) as H.
  assert (E : match ExceptionHandler id 0 SyscallException kernel_example with Ok (Value _ _) => true | _ => false end = true) by (vm_compute; reflexivity).
  destruct (ExceptionHandler id 0 SyscallException kernel_example) as [[[] k'|k'| |c k']|]; try discriminate E. by exists k'.
Defined.

Lemma PrintNum_ReadNum_witness : exists s k1, handle_PrintNum kernel_example = Ok (Value tt k1) /\ synchConsoleOut k1 = Console.display s /\
  exists k3, handle_ReadNum (set_in (Console.keyboard (s ++ [x0a]) true) kernel_example) = Ok (Value tt k3) /\ reg (cpu k3) 2 = -42.
Proof.
  destruct (PrintNum_ReadNum kernel_example [] example_regs eq_refl) as (s & k1 & H1 & H2 & H3); [vm_compute; congruence|].
  exists s, k1. split; [exact H1|]. split; [exact H2|].
  destruct (H3 (set_in (Console.keyboard (s ++ [x0a]) true) kernel_example) [] true example_regs eq_refl) as (k3 & H4 & H5 & _).
  exists k3. split; [exact H4|exact H5].
Defined.

Lemma File_write_seek_read_witness : exists k1 k2 k3,
  handle_Write (args 16 2 2 kernel_example) = Ok (Value tt k1) /\ handle_Seek (args 0 2 0 k1) = Ok (Value tt k2) /\
  handle_Read (args 32 2 2 k2) = Ok (Value tt k3) /\ reg (cpu k3) 2 = 2 /\ byte_at (cpu k3) <$> [2592; 2593] = [x68; x69].
Proof.
  destruct (File_write_seek_read kernel_example pages_example 2 3 0 [] 0 16 32 [2576; 2577] [2592; 2593] example_regs example_paged example_opened)
    as (k1 & k2 & k3 & H1 & _ & _ & H2 & _ & H3 & H4 & H5).
  - vm_compute; split; congruence.
  - vm_compute; congruence.
  - vm_compute; split; congruence.
  - vm_compute; split; congruence.
  - intros [|[|j]] pa [= <-]; vm_compute; reflexivity.
  - repeat constructor; vm_compute; congruence.
  - discriminate.
  - intros [|[|j]] pa [= <-]; vm_compute; reflexivity.
  - apply (bool_decide_unpack _). vm_compute. exact I.
  - reflexivity.
  - exists k1, k2, k3. split; [exact H1|]. split; [exact H2|]. split; [exact H3|]. split; [exact H4|]. rewrite H5. vm_compute. reflexivity.
Defined.

(** ** What the code does off the beaten path *)

(** A program that executes SYSCALL with the number of Add. *)
Definition adding_example : kernel :=
  set_cpu (setreg 5 3 (setreg 4 4 (setreg 2 42 (setreg NextPCReg 4 (set_memory (store_bytes 2560 [x0c; x00; x00; x00]) cpu_example))))) kernel_example.
Lemma user_step_Add : exists k', user_step id 0 adding_example = Ok (Value tt k') /\
  reg (cpu k') 2 = 7 /\ reg (cpu k') PCReg = 4 /\ reg (cpu k') NextPCReg = 8.
Proof. eexists. split; [vm_compute; reflexivity|]. split; [|split]; vm_compute; reflexivity. Qed.

(** Write of no bytes at all to a file goes on into Join. *)
Lemma empty_Write_joins : exists k', handle_Write (args 16 0 2 kernel_example) = Ok (Calls (PTable.CJoin 16) k') /\ reg (cpu k') 2 = RW_END_FILE.
Proof. eexists. split; vm_compute; reflexivity. Qed.

(** A Seek out of the file answers -1 and leaves the position at the end. *)
Lemma failed_Seek_moves : let k := set_host (at_offset 3 0 [x68; x69] 0 (the_host kernel_example)) kernel_example in
  exists k', handle_Seek (args 9 2 0 k) = Ok (Value tt k') /\ reg (cpu k') 2 = -1 /\
    Sysdep.fds (the_host k') !! 3 = Some (Sysdep.mkFd 0 2 true true).
Proof. eexists. split; [vm_compute; reflexivity|]. split; vm_compute; reflexivity. Qed.

(** The ID 10 is past the table. *)
Lemma Read_past_table : handle_Read (args 16 1 10 kernel_example) = Fault OutOfBounds.
Proof. vm_compute. reflexivity. Qed.

(** A line as long as the buffer overflows it. *)
Lemma ReadString_overflow : handle_ReadString (args 16 2 0 (set_in (Console.keyboard [x68; x69; x0a] true) kernel_example)) = Fault OutOfBounds.
Proof. vm_compute. reflexivity. Qed.

(** 2^64 + 7, in decimal, reads as 7. *)
Lemma ReadNum_wraps : exists k',
  handle_ReadNum (set_in (Console.keyboard [x31; x38; x34; x34; x36; x37; x34; x34; x30; x37; x33; x37; x30; x39; x35; x35; x31; x36; x32; x33; x0a] true) kernel_example)
    = Ok (Value tt k') /\ reg (cpu k') 2 = 7.
Proof. eexists. split; vm_compute; reflexivity. Qed.

(** The most negative number is shown as a sign alone. *)
Lemma PrintNum_min : exists k', handle_PrintNum (args (- 2 ^ 31) 0 0 kernel_example) = Ok (Value tt k') /\ synchConsoleOut k' = Console.display [x2d].
Proof. eexists. split; vm_compute; reflexivity. Qed.

(** Open with the type of the console stops the kernel, although it has answered. *)
Lemma Open_console_stops : handle_Open (args 16 StubFS.INPUT_TYPE 0 kernel_example) = Fault AssertFailed.
Proof. vm_compute. reflexivity. Qed.

End Syscalls.
