(* ===== verification/Kernel.v ===== *)
(** * threads/kernel.{h,cc}, threads/main.cc, lib/libtest.cc: the kernel's start

    The command line, which two routines read one after the other; what [main]
    then does, in order; the self tests; and [Copy] and [Print], which join the
    files of the host (Sysdep.v) to the file system on the disk (FileSys.v). *)

From Stdlib Require Import Strings.Byte Strings.String Floats.SpecFloat.
From S2P Require Import Prelude LibBitmap LibList LibHash Threads SynchList Disk SectorDevice FileHdr OpenFile Directory FileSys Sysdep StubFS Network Console Machine AddrSpace.

(** A string literal of the sources. *)
Definition str (s : string) : list byte := list_byte_of_string s.
Arguments str s%_string.

(** ** atoi, as the host's library has it

    White space, a sign, digits; a value out of range is the nearest bound
    (strtol's). *)
Definition is_space (b : byte) : bool := bool_decide (b = x20) || bool_decide (9 <= byteZ b <= 13).
Fixpoint skip_white (s : list byte) : list byte :=
  match s with b :: s' => if is_space b then skip_white s' else s | [] => [] end.
Fixpoint number (acc : Z) (s : list byte) : Z :=
  match s with
  | b :: s => if bool_decide (48 <= byteZ b <= 57) then number (acc * 10 + (byteZ b - 48)) s else acc
  | [] => acc
  end.
Definition clamp_int (z : Z) : Z := Z.max (- 2 ^ 31) (Z.min z (2 ^ 31 - 1)).
Definition atoi (s : list byte) : Z :=
  match skip_white s with
  | x2d :: s => clamp_int (- number 0 s)
  | x2b :: s => clamp_int (number 0 s)
  | s => clamp_int (number 0 s)
  end.

(** ** lib/debug: which messages are shown *)

Module Debug.

(** [None]: a null pointer. *)
Record Debug := mkDebug { enableFlags : option (list byte) }.

Definition new_Debug (flagList : option (list byte)) : Debug := mkDebug flagList.

(** [strchr] also finds the byte that ends the string. *)
Definition strchr (s : list byte) (c : byte) : bool := bool_decide (c ∈ s ++ [x00]).

Definition IsEnabled (flag : byte) (d : Debug) : bool :=
  match enableFlags d with Some flags => strchr flags flag || strchr flags x2b | None => false end.

(** "+" enables every message. *)
Lemma IsEnabled_all flags flag : x2b ∈ flags -> IsEnabled flag (new_Debug (Some flags)) = true.
Proof.
  intros Hp. cbn. apply orb_true_iff. right. apply bool_decide_eq_true_2, elem_of_app. by left.
Qed.

End Debug.

Module LibTest.

Definition IntCompare (x y : Z) : Z := if bool_decide (x < y) then -1 else if bool_decide (x = y) then 0 else 1.
Definition HashInt (key : Z) : Z := u32 key.
Definition HashKey (s : list byte) : Z := atoi s.
Definition listTestVector : list Z := [9; 5; 7].
Definition hashTestVector : list (list byte) :=
  [str "0"; str "1"; str "2"; str "3"; str "4"; str "5"; str "6"; str "7"; str "8"; str "9"; str "10"; str "11"; str "12"; str "13"; str "14"].

Definition LibSelfTest : result unit :=
  map <- Bitmap.Bitmap 200 ;;
  _ <- Bitmap.SelfTest map ;;
  _ <- LinkedList.SelfTest LinkedList.Append LinkedList.SanityCheck listTestVector LinkedList.List ;;
  _ <- LinkedList.SortedSelfTest IntCompare listTestVector LinkedList.List ;;
  _ <- Hash.SelfTest HashKey HashInt hashTestVector Hash.HashTable ;;
  Ok tt.

(** The library's self test passes. *)
Lemma LibSelfTest_passes : LibSelfTest = Ok tt.
Proof. vm_compute. reflexivity. Qed.

End LibTest.

Module Kernel.

(** ** The command line of the kernel *)

Section options.
(** Whether FILESYS_STUB is defined, and the host's [atof]. *)
Context (stub : bool) (atof : list byte -> spec_float).

Record options := mkOptions {
  randomSlice : bool;
  seed : option Z;             (* the argument of RandomInit, if it was called *)
  debugUserProg : bool;
  consoleIn : option (list byte);
  consoleOut : option (list byte);
  formatFlag : bool;
  reliability : spec_float;
  hostName : Z
}.
Definition defaults : options := mkOptions false None false None None false (Network.double 1) 0.

Definition set_seed z o := mkOptions true (Some z) (debugUserProg o) (consoleIn o) (consoleOut o) (formatFlag o) (reliability o) (hostName o).
Definition set_debugUserProg o := mkOptions (randomSlice o) (seed o) true (consoleIn o) (consoleOut o) (formatFlag o) (reliability o) (hostName o).
Definition set_consoleIn f o := mkOptions (randomSlice o) (seed o) (debugUserProg o) (Some f) (consoleOut o) (formatFlag o) (reliability o) (hostName o).
Definition set_consoleOut f o := mkOptions (randomSlice o) (seed o) (debugUserProg o) (consoleIn o) (Some f) (formatFlag o) (reliability o) (hostName o).
Definition set_formatFlag o := mkOptions (randomSlice o) (seed o) (debugUserProg o) (consoleIn o) (consoleOut o) true (reliability o) (hostName o).
Definition set_reliability x o := mkOptions (randomSlice o) (seed o) (debugUserProg o) (consoleIn o) (consoleOut o) (formatFlag o) x (hostName o).
Definition set_hostName z o := mkOptions (randomSlice o) (seed o) (debugUserProg o) (consoleIn o) (consoleOut o) (formatFlag o) (reliability o) z.

(** The loop of [Kernel::Kernel], from [argv[i]]. *)
Fixpoint read_options (argv : list (list byte)) (o : options) : result options :=
  match argv with
  | [] => Ok o
  | a :: rest =>
      if bool_decide (a = str "-rs") then
        match rest with [] => Fault AssertFailed | v :: rest => read_options rest (set_seed (atoi v) o) end
      else if bool_decide (a = str "-s") then read_options rest (set_debugUserProg o)
      else if bool_decide (a = str "-ci") then
        match rest with [] => Fault AssertFailed | v :: rest => read_options rest (set_consoleIn v o) end
      else if bool_decide (a = str "-co") then
        match rest with [] => Fault AssertFailed | v :: rest => read_options rest (set_consoleOut v o) end
      else if negb stub && bool_decide (a = str "-f") then read_options rest (set_formatFlag o)
      else if bool_decide (a = str "-n") then
        match rest with [] => Fault AssertFailed | v :: rest => read_options rest (set_reliability (atof v) o) end
      else if bool_decide (a = str "-m") then
        match rest with [] => Fault AssertFailed | v :: rest => read_options rest (set_hostName (atoi v) o) end
      else read_options rest o
  end.

Definition Kernel (argv : list (list byte)) : result options := read_options (tail argv) defaults.
End options.

(** ** Self tests *)

(** The whole test, as the program of the main thread: the library's tests do
    not give up the processor. *)
Definition ThreadSelfTest : result (list Threads.op) :=
  _ <- LibTest.LibSelfTest ;;
  Ok (Threads.ThreadSelfTest ++ Threads.SemaphoreSelfTest (Threads.User 1) (Threads.User 0) ++ SynchList.SelfTest 1 0 9).

(** It runs to its end, and so do the threads it forks. *)
Lemma ThreadSelfTest_passes : exists prog s, ThreadSelfTest = Ok prog /\
  SynchList.run (replicate 478 Threads.Execute) (SynchList.SynchList (fun _ => 0) prog) = Some s /\
  Threads.code (SynchList.sync s) = [[]; []; []; []].
Proof.
  unfold ThreadSelfTest. rewrite LibTest.LibSelfTest_passes. cbn [bind]. do 2 eexists. split; [reflexivity|].
  split; [vm_compute; reflexivity|vm_compute; reflexivity].
Qed.

(** One turn of the [do] loop after another, at most [n]; [None]: the terminal
    does not answer. *)
Fixpoint ConsoleTest (n : nat) (i : Console.ConsoleInput) (o : Console.ConsoleOutput) : result (option (Console.ConsoleInput * Console.ConsoleOutput)) :=
  match n with
  | O => Fault OutOfFuel
  | S n =>
      Console.andthen (Console.GetChar i) (fun '(ch, i) =>
      if bool_decide (ch = Console.EOF) then Ok (Some (i, o))
      else Console.andthen (Console.PutChar (Zbyte ch) o) (fun o => ConsoleTest n i o))
  end.

(** Typed characters are echoed until the end of the input; the byte 0xFF is
    taken for it. *)
Lemma ConsoleTest_ok keys : forall n out, Forall (fun b => Console.plain b = true) keys -> (length keys < n)%nat ->
  exists i, ConsoleTest n (Console.keyboard keys true) (Console.display out) = Ok (Some (i, Console.display (out ++ keys))).
Proof.
  induction keys as [|b keys IH]; intros n out Hk Hn; destruct n as [|n]; try (simpl in Hn; lia).
  - rewrite app_nil_r. eexists. reflexivity.
  - apply Forall_cons in Hk as [Hb Hk]. cbn [ConsoleTest]. rewrite Console.GetChar_ok by done. cbn [Console.andthen bind].
    rewrite bool_decide_eq_false_2 by (by apply Console.plain_char). rewrite Console.Zbyte_charZ, Console.PutChar_ok. cbn [Console.andthen bind].
    destruct (IH n (out ++ [b]) Hk) as (i & ->); [simpl in Hn; lia|]. exists i. by rewrite <- app_assoc.
Qed.

End Kernel.

Module Main.
Import Disk SectorDevice FileHdr OpenFile Sysdep.

(** ** The command line of [main] *)

Record options := mkOptions {
  debugArg : list byte;
  userProgName : option (list byte);
  threadTestFlag : bool;
  consoleTestFlag : bool;
  networkTestFlag : bool;
  copyUnixFileName : option (list byte);
  copyNachosFileName : option (list byte);
  printFileName : option (list byte);
  removeFileName : option (list byte);
  dirListFlag : bool;
  dumpFlag : bool
}.
Definition defaults : options := mkOptions [] None false false false None None None None false false.

Definition set_debugArg a o := mkOptions a (userProgName o) (threadTestFlag o) (consoleTestFlag o) (networkTestFlag o) (copyUnixFileName o) (copyNachosFileName o) (printFileName o) (removeFileName o) (dirListFlag o) (dumpFlag o).
Definition set_userProgName f o := mkOptions (debugArg o) (Some f) (threadTestFlag o) (consoleTestFlag o) (networkTestFlag o) (copyUnixFileName o) (copyNachosFileName o) (printFileName o) (removeFileName o) (dirListFlag o) (dumpFlag o).
Definition set_threadTestFlag o := mkOptions (debugArg o) (userProgName o) true (consoleTestFlag o) (networkTestFlag o) (copyUnixFileName o) (copyNachosFileName o) (printFileName o) (removeFileName o) (dirListFlag o) (dumpFlag o).
Definition set_consoleTestFlag o := mkOptions (debugArg o) (userProgName o) (threadTestFlag o) true (networkTestFlag o) (copyUnixFileName o) (copyNachosFileName o) (printFileName o) (removeFileName o) (dirListFlag o) (dumpFlag o).
Definition set_networkTestFlag o := mkOptions (debugArg o) (userProgName o) (threadTestFlag o) (consoleTestFlag o) true (copyUnixFileName o) (copyNachosFileName o) (printFileName o) (removeFileName o) (dirListFlag o) (dumpFlag o).
Definition set_copy a b o := mkOptions (debugArg o) (userProgName o) (threadTestFlag o) (consoleTestFlag o) (networkTestFlag o) (Some a) (Some b) (printFileName o) (removeFileName o) (dirListFlag o) (dumpFlag o).
Definition set_printFileName f o := mkOptions (debugArg o) (userProgName o) (threadTestFlag o) (consoleTestFlag o) (networkTestFlag o) (copyUnixFileName o) (copyNachosFileName o) (Some f) (removeFileName o) (dirListFlag o) (dumpFlag o).
Definition set_removeFileName f o := mkOptions (debugArg o) (userProgName o) (threadTestFlag o) (consoleTestFlag o) (networkTestFlag o) (copyUnixFileName o) (copyNachosFileName o) (printFileName o) (Some f) (dirListFlag o) (dumpFlag o).
Definition set_dirListFlag o := mkOptions (debugArg o) (userProgName o) (threadTestFlag o) (consoleTestFlag o) (networkTestFlag o) (copyUnixFileName o) (copyNachosFileName o) (printFileName o) (removeFileName o) true (dumpFlag o).
Definition set_dumpFlag o := mkOptions (debugArg o) (userProgName o) (threadTestFlag o) (consoleTestFlag o) (networkTestFlag o) (copyUnixFileName o) (copyNachosFileName o) (printFileName o) (removeFileName o) (dirListFlag o) true.

Fixpoint read_options (stub : bool) (argv : list (list byte)) (o : options) : result options :=
  match argv with
  | [] => Ok o
  | a :: rest =>
      if bool_decide (a = str "-d") then
        match rest with [] => Fault AssertFailed | v :: rest => read_options stub rest (set_debugArg v o) end
      else if bool_decide (a = str "-z") then read_options stub rest o
      else if bool_decide (a = str "-x") then
        match rest with [] => Fault AssertFailed | v :: rest => read_options stub rest (set_userProgName v o) end
      else if bool_decide (a = str "-K") then read_options stub rest (set_threadTestFlag o)
      else if bool_decide (a = str "-C") then read_options stub rest (set_consoleTestFlag o)
      else if bool_decide (a = str "-N") then read_options stub rest (set_networkTestFlag o)
      else if negb stub && bool_decide (a = str "-cp") then
        match rest with v1 :: v2 :: rest => read_options stub rest (set_copy v1 v2 o) | _ => Fault AssertFailed end
      else if negb stub && bool_decide (a = str "-p") then
        match rest with [] => Fault AssertFailed | v :: rest => read_options stub rest (set_printFileName v o) end
      else if negb stub && bool_decide (a = str "-r") then
        match rest with [] => Fault AssertFailed | v :: rest => read_options stub rest (set_removeFileName v o) end
      else if negb stub && bool_decide (a = str "-l") then read_options stub rest (set_dirListFlag o)
      else if negb stub && bool_decide (a = str "-D") then read_options stub rest (set_dumpFlag o)
      else read_options stub rest o
  end.

(** What [main] does once the kernel is up, in this order. *)
Inductive action :=
  | DoThreadSelfTest | DoConsoleTest | DoNetworkTest
  | DoRemove (nm : list byte) | DoCopy (from to : list byte) | DoDump | DoList | DoPrint (nm : list byte)
  | DoRun (nm : list byte) | DoHalt.

Definition actions (o : options) : list action :=
  (if threadTestFlag o then [DoThreadSelfTest] else []) ++
  (if consoleTestFlag o then [DoConsoleTest] else []) ++
  (if networkTestFlag o then [DoNetworkTest] else []) ++
  (match removeFileName o with Some f => [DoRemove f] | None => [] end) ++
  (match copyUnixFileName o, copyNachosFileName o with Some a, Some b => [DoCopy a b] | _, _ => [] end) ++
  (if dumpFlag o then [DoDump] else []) ++
  (if dirListFlag o then [DoList] else []) ++
  (match printFileName o with Some f => [DoPrint f] | None => [] end) ++
  (match userProgName o with Some f => [DoRun f] | None => [] end) ++
  [DoHalt].

(** [main] up to what it does: its own loop, then [new Kernel]. *)
Definition main (stub : bool) (atof : list byte -> spec_float) (argv : list (list byte)) : result (Kernel.options * list action) :=
  o <- read_options stub (tail argv) defaults ;;
  k <- Kernel.Kernel stub atof argv ;;
  Ok (k, actions o).

(** ** Copy and Print *)

Definition TransferSize : Z := 128.

Section files.
Context {S : Type} `{SectorDevice S} (fresh : Z -> list byte).

(** The [while] loop of [Copy], at most [n] times around. *)
Fixpoint copy_loop (n : nat) (fd : Z) (buffer : list byte) (openFile : OpenFile) (h : host) (s : S) : result (host * S) :=
  match n with
  | O => Fault OutOfFuel
  | Datatypes.S n =>
      let '(r, h) := ReadPartial fd TransferSize h in
      let amountRead := from_option (fun bs => Z.of_nat (length bs)) (-1) r in
      if bool_decide (0 < amountRead) then
        let buffer := default [] r ++ drop (Z.to_nat amountRead) buffer in
        '(_, openFile, s) <- Write fresh buffer amountRead openFile s ;;
        copy_loop n fd buffer openFile h s
      else Ok (h, s)
  end.

Definition Copy (n : nat) (from to : list byte) (fs : FileSys.FileSystem) (h : host) (s : S) : result (host * S) :=
  '(fd, h) <- OpenForReadWrite from false h ;;
  if bool_decide (fd < 0) then Ok (h, s)
  else
    h <- Lseek fd 0 SEEK_END h ;;
    let '(fileLength, h) := Tell fd h in
    h <- Lseek fd 0 SEEK_SET h ;;
    '(created, s) <- FileSys.Create fresh to fileLength fs s ;;
    if negb created then '(_, h) <- Close fd h ;; Ok (h, s)
    else
      '(f, s) <- FileSys.Open fresh to fs s ;;
      match f with
      | None => Fault AssertFailed
      | Some openFile =>
          '(h, s) <- copy_loop n fd (fresh TransferSize) openFile h s ;;
          '(_, h) <- Close fd h ;;
          Ok (h, s)
      end.

(** What [Print] shows. *)
Fixpoint print_loop (n : nat) (openFile : OpenFile) (shown : list byte) (s : S) : result (list byte * S) :=
  match n with
  | O => Fault OutOfFuel
  | Datatypes.S n =>
      '(bs, openFile, s) <- Read TransferSize openFile s ;;
      if bool_decide (0 < Z.of_nat (length bs)) then print_loop n openFile (shown ++ bs) s else Ok (shown, s)
  end.

(** [None]: the file could not be opened. *)
Definition Print (n : nat) (name : list byte) (fs : FileSys.FileSystem) (s : S) : result (option (list byte) * S) :=
  '(f, s) <- FileSys.Open fresh name fs s ;;
  match f with
  | None => Ok (None, s)
  | Some openFile => '(shown, s) <- print_loop n openFile [] s ;; Ok (Some shown, s)
  end.
End files.

(** ** A host file copied to the disk and shown *)

Section copying.
Context {S : Type} `{SectorDevice S} (fresh : Z -> list byte).
Hypothesis fresh_length : forall n, 0 <= n -> Z.of_nat (length (fresh n)) = n.

Lemma read_opened i o h fd n bs : inodes h !! i = Some bs -> 0 <= n -> 
  let r := take (Z.to_nat n) (drop (Z.to_nat o) bs) in
  ReadPartial fd n (StubFS.StubFS.opened fd i o true h) = (Some r, StubFS.StubFS.opened fd i (o + Z.of_nat (length r)) true h).
Proof using Type.
  intros Hi Hn r. unfold ReadPartial, read. cbn [fds set_fds StubFS.StubFS.opened]. rewrite lookup_insert_eq. cbn [readable andb].
  rewrite bool_decide_eq_true_2 by done. cbn [inode offset writable readable]. unfold file_of. cbn [inode inodes set_fds StubFS.StubFS.opened]. rewrite Hi. cbn [default].
  fold r. f_equal. apply StubFS.StubFS.insert_fds_twice.
Qed.

Lemma overwritten_prefix (c bs : list byte) (pos k : Z) (from : list byte) : length c = length bs -> 0 <= pos -> 0 < k ->
  pos + k <= Z.of_nat (length bs) -> take (Z.to_nat pos) c = take (Z.to_nat pos) bs ->
  take (Z.to_nat k) from = take (Z.to_nat k) (drop (Z.to_nat pos) bs) ->
  length (FileSys.overwritten c pos k from) = length bs /\
  take (Z.to_nat (pos + k)) (FileSys.overwritten c pos k from) = take (Z.to_nat (pos + k)) bs.
Proof using Type.
  intros Hl Hp Hk Hle Hpre Hfrom. unfold FileSys.overwritten, FileSys.stored. rewrite Hl.
  replace (Z.max 0 (Z.min k (Z.of_nat (length bs) - pos))) with k by lia. rewrite decide_True by done. rewrite Hfrom.
  set (p := Z.to_nat pos) in *. replace (Z.to_nat (pos + k)) with (p + Z.to_nat k)%nat by lia.
  set (r := take (Z.to_nat k) (drop p bs)). assert (Hr : length r = Z.to_nat k) by (unfold r; rewrite length_take, length_drop; lia).
  split; [rewrite splice_length by lia; done|]. unfold splice. rewrite Hpre. rewrite app_assoc, take_app_le by (rewrite length_app, length_take; lia).
  rewrite take_ge by (rewrite length_app, length_take; lia). unfold r. by rewrite take_take_drop.
Qed.

(** What is left of the copy: [pos] bytes are in the file, the rest takes [k]
    turns. *)
Lemma copy_loop_ok k : forall n b i h fd bs buffer sec hd c fs s bm d fm key pos,
  inodes h !! i = Some bs -> Z.of_nat (length bs) <= 3840 -> fds h !! fd = None ->
  FileSys.layout fs s bm d fm -> fm !! key = Some (sec, hd) -> content hd s = c ->
  0 <= pos <= Z.of_nat (length bs) -> Z.of_nat (length bs) - pos <= TransferSize * Z.of_nat k ->
  length c = length bs -> take (Z.to_nat pos) c = take (Z.to_nat pos) bs -> length buffer = Z.to_nat TransferSize ->
  usable (90 * k + b) s -> (k < n)%nat ->
  exists s' o, copy_loop fresh n fd buffer (mkOpen hd pos) (StubFS.StubFS.opened fd i pos true h) s = Ok (StubFS.StubFS.opened fd i o true h, s') /\
    FileSys.layout fs s' bm d fm /\ (fun f => content f.2 s') <$> fm = <[key := bs]> ((fun f => content f.2 s) <$> fm) /\ usable b s'.
Proof using fresh_length.
  induction k as [|k IH]; intros n b i h fd bs buffer sec hd c fs s bm d fm key pos Hi Hmax Hfd Hl Hk Hc Hp Hleft Hlc Hpre Hbuf Hu Hn;
    (destruct n as [|n]; [lia|]); cbn [copy_loop]; rewrite (read_opened i pos h fd TransferSize bs Hi) by done; cbn [from_option];
    set (r := take (Z.to_nat TransferSize) (drop (Z.to_nat pos) bs));
    assert (Hr : Z.of_nat (length r) = Z.min TransferSize (Z.of_nat (length bs) - pos))
      by (unfold r; rewrite length_take, length_drop; unfold TransferSize in *; lia).
  - rewrite bool_decide_eq_false_2 by lia. exists s. eexists. split; [done|]. split; [done|]. split; [|by eapply usable_mono; [|exact Hu]; lia].
    assert (Hcb : c = bs).
    { rewrite <- (firstn_all c), <- (firstn_all bs), Hlc. replace (length bs) with (Z.to_nat pos) by lia. done. }
    rewrite <- Hcb. symmetry. apply insert_id. rewrite lookup_fmap, Hk. cbn. by rewrite Hc.
  - case_bool_decide as Hpos.
    + remember (Z.of_nat (length r)) as amount eqn:Ha. change (default [] (Some r)) with r. change (id r) with r. set (buffer' := r ++ drop (Z.to_nat amount) buffer).
      assert (Hb' : length buffer' = Z.to_nat TransferSize) by (unfold buffer'; rewrite length_app, length_drop; unfold TransferSize in *; lia).
      assert (Htake : take (Z.to_nat amount) buffer' = take (Z.to_nat amount) (drop (Z.to_nat pos) bs)).
      { unfold buffer'. rewrite take_app_le, take_ge by lia. unfold r. apply list_eq. intros x.
        destruct (decide (x < Z.to_nat amount)%nat); [rewrite !lookup_take_lt by (unfold TransferSize in *; lia); done|].
        rewrite !lookup_ge_None_2; [done| |]; rewrite length_take, length_drop; unfold TransferSize in *; lia. }
      unfold Write. cbn [OpenFile.hdr seekPosition].
      destruct (FileSys.Write_layout fresh fresh_length (90 * k + b) fs s bm d fm key sec hd buffer' amount pos Hl) as (s1 & -> & Hu1 & Hl1 & Hm1);
        [eapply usable_mono; [|exact Hu]; lia|done|lia|lia|unfold TransferSize in *; lia|].
      cbn [bind]. rewrite Hc in *. assert (Hst : FileSys.stored c pos amount = amount) by (unfold FileSys.stored; rewrite Hlc; lia).
      rewrite Hst. unfold Seek. cbn [OpenFile.hdr]. rewrite wrap32_small by (unfold int_range; lia).
      destruct (overwritten_prefix c bs pos amount buffer') as [Hlen Hpref]; [done|lia|lia|lia|done|done|].
      set (c1 := FileSys.overwritten c pos amount buffer') in *.
      assert (Hc1 : content hd s1 = c1).
      { pose proof (f_equal (fun m => m !! key) Hm1) as Hx. cbn beta in Hx. rewrite lookup_fmap, Hk, lookup_insert_eq in Hx. by injection Hx. }
      destruct (IH n b i h fd bs buffer' sec hd c1 fs s1 bm d fm key (pos + amount)) as (s2 & o & Hrun & Hl2 & Hm2 & Hu2); try done; try lia.
      exists s2, o. split; [exact Hrun|]. split; [done|]. split; [|done]. rewrite Hm2, Hm1. by rewrite insert_insert_eq.
    + exists s. eexists. split; [done|]. split; [done|]. split; [|by eapply usable_mono; [|exact Hu]; lia].
      assert (Hcb : c = bs).
      { rewrite <- (firstn_all c), <- (firstn_all bs), Hlc. replace (length bs) with (Z.to_nat pos) by (unfold TransferSize in *; lia). done. }
      rewrite <- Hcb. symmetry. apply insert_id. rewrite lookup_fmap, Hk. cbn. by rewrite Hc.
Qed.
(** Opening the host's file and finding its length. *)
Lemma open_measure from h i bs : names h !! from = Some i -> inodes h !! i = Some bs -> admits h from = true -> unused (fds h) < fd_limit h ->
  Z.of_nat (length bs) < 2 ^ 31 -> let fd := unused (fds h) in
  OpenForReadWrite from false h = Ok (fd, StubFS.StubFS.opened fd i 0 true h) /\
  Lseek fd 0 SEEK_END (StubFS.StubFS.opened fd i 0 true h) = Ok (StubFS.StubFS.opened fd i (Z.of_nat (length bs)) true h) /\
  Tell fd (StubFS.StubFS.opened fd i (Z.of_nat (length bs)) true h) = (Z.of_nat (length bs), StubFS.StubFS.opened fd i (Z.of_nat (length bs)) true h) /\
  Lseek fd 0 SEEK_SET (StubFS.StubFS.opened fd i (Z.of_nat (length bs)) true h) = Ok (StubFS.StubFS.opened fd i 0 true h).
Proof using Type.
  intros Hn Hi Ha Hf Hb fd. destruct (unused_ok (fds h)) as [Hp _]. fold fd in Hp.
  assert (Hfile : forall o, file_of (StubFS.StubFS.opened fd i o true h) (mkFd i o true true) = bs).
  { intros o. unfold file_of. cbn [inode inodes set_fds StubFS.StubFS.opened]. by rewrite Hi. }
  assert (Hlk : forall o, fds (StubFS.StubFS.opened fd i o true h) !! fd = Some (mkFd i o true true)) by (intros o; apply lookup_insert_eq).
  split; [|split; [|split]].
  - unfold OpenForReadWrite, open_existing. rewrite Hn, Ha. fold fd. rewrite bool_decide_eq_true_2 by done. done.
  - unfold Lseek, lseek. rewrite Hlk, Hfile, Z.add_0_l, bool_decide_eq_true_2 by lia. cbn [inode readable writable].
    rewrite wrap32_small by (unfold int_range; lia). rewrite bool_decide_eq_true_2 by lia. cbn [assert bind]. f_equal. apply StubFS.StubFS.insert_fds_twice.
  - unfold Tell, lseek. rewrite Hlk. cbn [offset inode readable writable]. rewrite Z.add_0_l, bool_decide_eq_true_2 by lia.
    rewrite wrap32_small by (unfold int_range; lia). f_equal. apply StubFS.StubFS.insert_fds_twice.
  - rewrite (StubFS.StubFS.Lseek_ok _ _ _ _ (Hlk _)) by lia. f_equal. apply StubFS.StubFS.insert_fds_twice.
Qed.

Lemma close_opened fd i o h : fds h !! fd = None -> Close fd (StubFS.StubFS.opened fd i o true h) = Ok (0, h).
Proof using Type.
  intros Hn. unfold Close, close. unfold StubFS.StubFS.opened at 1. cbn [fds set_fds]. rewrite lookup_insert_eq. cbn [assert bool_decide bind].
  f_equal. f_equal. unfold StubFS.StubFS.opened. cbn [fds set_fds]. rewrite delete_insert_id by done. by destruct h.
Qed.

Lemma Copy_ok b n from to fs h s m k i bs : FileSys.represents fs s m k ->
  names h !! from = Some i -> inodes h !! i = Some bs -> admits h from = true -> unused (fds h) < fd_limit h ->
  Z.of_nat (length bs) <= MaxFileSize -> usable (3050 + b) s -> (30 < n)%nat ->
  exists s', Copy fresh n from to fs h s = Ok (h, s') /\ usable b s' /\
    if FileSys.creatable m k to (Z.of_nat (length bs))
    then FileSys.represents fs s' (<[Directory.key to := bs]> m) (k - 1 - divRoundUp (Z.of_nat (length bs)) SectorSize)
    else FileSys.represents fs s' m k.
Proof using fresh_length.
  intros Hr Hn Hi Ha Hf Hmax Hu Hfuel. change MaxFileSize with 3840 in Hmax.
  destruct (open_measure from h i bs Hn Hi Ha Hf ltac:(lia)) as (H1 & H2 & H3 & H4). destruct (unused_ok (fds h)) as [Hp Hfree].
  set (fd := unused (fds h)) in *. unfold Copy. rewrite H1. cbn [bind]. rewrite bool_decide_eq_false_2 by lia. rewrite H2. cbn [bind].
  rewrite H3, H4. cbn [bind]. set (len := Z.of_nat (length bs)) in *.
  destruct (FileSys.FileSystem_Create_ok fresh fresh_length (2750 + b) fs s m k to len Hr) as (s1 & -> & Hu1 & Hc); [exact Hu|change MaxFileSize with 3840; lia|].
  cbn [bind]. destruct (FileSys.creatable m k to len); cbn [negb].
  - destruct Hc as (c & Hlc & (bm & d & fm & Hl & Em & En)).
    destruct (FileSys.FileSystem_Open_ok fresh fresh_length (2700 + b) fs s1 bm d fm to Hl) as (s2 & -> & Hu2 & Hs2); [exact Hu1|]. cbn [bind].
    assert (Hk : exists sec hd, fm !! Directory.key to = Some (sec, hd) /\ content hd s1 = c).
    { pose proof (f_equal (fun m => m !! Directory.key to) Em) as Hx. cbn beta in Hx. rewrite lookup_fmap, lookup_insert_eq in Hx.
      destruct (fm !! Directory.key to) as [[sec hd]|]; [|done]. injection Hx as Hx. by exists sec, hd. }
    destruct Hk as (sec & hd & Hk & Hc). rewrite Hk. cbn [fmap option_fmap option_map snd].
    destruct (FileSys.layout_frame fs s1 s2 bm d fm [] Hl) as [Hl2 Hc2]; [by apply FileSys.same_unchanged|intros x _; apply not_elem_of_nil|].
    assert (Hhd : content hd s2 = c).
    { rewrite <- Hc. apply content_same; [|done]. by apply (hw_valid hd), (FileSys.ly_files _ _ _ _ _ Hl _ _ Hk). }
    destruct (copy_loop_ok 30 n b i h fd bs (fresh TransferSize) sec hd c fs s2 bm d fm (Directory.key to) 0) as (s3 & o & -> & Hl3 & Hm3 & Hu3); try done; try lia.
    + unfold TransferSize. lia.
    + pose proof (fresh_length TransferSize ltac:(done)) as Hx. unfold TransferSize in *. lia.
    + cbn [bind]. rewrite close_opened by done. exists s3. split; [done|]. split; [done|]. exists bm, d, fm. split; [done|]. split; [|done].
      rewrite Hm3, Hc2. change (<[Directory.key to := bs]> m = <[Directory.key to := bs]> ((fun f => content f.2 s1) <$> fm)).
      rewrite <- Em. by rewrite insert_insert_eq.
  - rewrite close_opened by done. exists s1. split; [done|]. split; [eapply usable_mono; [|exact Hu1]; lia|done].
Qed.

Lemma print_loop_ok k : forall n b hd s pos shown, hdr_wf hd -> usable (30 * (1 + k) + b) s -> 0 <= pos <= Z.of_nat (length (content hd s)) ->
  Z.of_nat (length (content hd s)) <= 3840 -> Z.of_nat (length (content hd s)) - pos <= TransferSize * Z.of_nat k -> (k < n)%nat ->
  exists s', print_loop n (mkOpen hd pos) shown s = Ok (shown ++ drop (Z.to_nat pos) (content hd s), s') /\ usable b s' /\ same_contents s s'.
Proof using Type.
  induction k as [|k IH]; intros n b hd s pos shown Hh Hu Hp Hmax Hleft Hn; (destruct n as [|n]; [lia|]); cbn [print_loop]; unfold Read; cbn [OpenFile.hdr seekPosition].
  - destruct (OpenFile_ReadAt_ok b hd TransferSize pos s Hh) as (s1 & -> & Hu1 & Hs1); [eapply usable_mono; [|exact Hu]; lia|lia|unfold TransferSize; lia|].
    cbn [bind]. rewrite drop_ge by (unfold TransferSize in *; lia). rewrite take_nil, app_nil_r. exists s1. split; [done|]. done.
  - destruct (OpenFile_ReadAt_ok (30 * (1 + k) + b) hd TransferSize pos s Hh) as (s1 & -> & Hu1 & Hs1); [eapply usable_mono; [|exact Hu]; lia|lia|unfold TransferSize; lia|].
    cbn [bind]. set (r := take _ _). assert (Hr : Z.of_nat (length r) = Z.min TransferSize (Z.of_nat (length (content hd s)) - pos))
      by (unfold r; rewrite length_take, length_drop; unfold TransferSize in *; lia).
    pose proof (content_same hd s s1 (hw_valid _ Hh) Hs1) as Hcs. case_bool_decide as Hpos.
    + unfold Seek. cbn [OpenFile.hdr]. rewrite wrap32_small by (unfold int_range, TransferSize in *; lia).
      destruct (IH n b hd s1 (pos + Z.of_nat (length r)) (shown ++ r) Hh Hu1) as (s2 & -> & Hu2 & Hs2); rewrite ?Hcs; try (unfold TransferSize in *; lia).
      exists s2. split; [|split; [done|by eapply same_contents_trans]]. f_equal. f_equal. rewrite <- app_assoc. f_equal.
      replace (Z.to_nat (pos + Z.of_nat (length r))) with (length r + Z.to_nat pos)%nat by lia. rewrite Nat.add_comm, <- drop_drop.
      set (dd := drop (Z.to_nat pos) (content hd s)) in *. rewrite <- (take_drop (length r) dd) at 2. f_equal. unfold r.
      rewrite length_take. symmetry. destruct (decide (Z.to_nat TransferSize <= length dd)%nat); [by rewrite Nat.min_l by lia|].
      rewrite Nat.min_r by lia. rewrite !take_ge by lia. done.
    + exists s1. split; [|split; [eapply usable_mono; [|exact Hu1]; lia|done]]. rewrite drop_ge by (unfold TransferSize in *; lia). by rewrite app_nil_r.
Qed.

Lemma Print_ok b n name fs s m k : FileSys.represents fs s m k -> (forall bs, m !! Directory.key name = Some bs -> Z.of_nat (length bs) <= MaxFileSize) ->
  usable (980 + b) s -> (30 < n)%nat ->
  exists s', Print fresh n name fs s = Ok (m !! Directory.key name, s') /\ usable b s' /\ FileSys.represents fs s' m k.
Proof using fresh_length.
  intros Hr Hmax Hu Hn. pose proof Hr as (bm & d & fm & Hl & Em & En). unfold Print.
  destruct (FileSys.FileSystem_Open_ok fresh fresh_length (930 + b) fs s bm d fm name Hl) as (s1 & -> & Hu1 & Hs1); [exact Hu|]. cbn [bind].
  pose proof (f_equal (fun m => m !! Directory.key name) Em) as Hx. cbn beta in Hx. rewrite lookup_fmap in Hx.
  destruct (fm !! Directory.key name) as [[sec hd]|] eqn:Hk; cbn [fmap option_fmap option_map snd] in Hx |- *.
  - assert (Hh : hdr_wf hd) by (apply (FileSys.ly_files _ _ _ _ _ Hl _ _ Hk)). pose proof (content_same hd s s1 (hw_valid _ Hh) Hs1) as Hcs.
    specialize (Hmax _ Hx). change MaxFileSize with 3840 in Hmax.
    destruct (print_loop_ok 30 n b hd s1 0 [] Hh) as (s2 & -> & Hu2 & Hs2); rewrite ?Hcs; try lia; try done.
    { unfold TransferSize. lia. }
    exists s2. cbn [bind app]. rewrite drop_0, Hx. split; [done|]. split; [done|]. eapply FileSys.represents_same; [|exact Hr].
    by eapply same_contents_trans.
  - exists s1. rewrite Hx. split; [done|]. split; [eapply usable_mono; [|exact Hu1]; lia|]. by eapply FileSys.represents_same.
Qed.
End copying.

(** ** The initial user program *)

(** The end of [main] for a program [f]: the constructor, [Load], [Execute] up to
    [Machine::Run].  [stack1], [stack2]: what the headers hold before they are
    read, [junk]: the fields of an address space whose file could not be opened.
    [None]: the constructor waits; [Some (None, w)]: [Load] failed, and [main]
    goes on to [Halt]. *)
Definition run_program (stack1 stack2 : list byte) (junk : AddrSpace.AddrSpace) (f : list byte) (w : AddrSpace.world) (m : Machine.machine) :
    result (option (option Machine.machine * AddrSpace.world)) :=
  r <- AddrSpace.new_AddrSpace stack1 f w ;;
  match r with
  | None => Ok None
  | Some (space, w) =>
      '(loaded, space, w) <- AddrSpace.Load stack2 f (default junk space) w ;;
      if negb loaded then Ok (Some (None, w))
      else
        m <- AddrSpace.Execute space (Machine.set_memory (fun _ => AddrSpace.memory w) m) ;;
        Ok (Some (Some m, w))
  end.

Section program.
Import Machine AddrSpace.
Context (stack : list byte) (nm file : list byte) (n : NoffHeader).

(** The bytes [Load] reads of a segment. *)
Definition body (s : Segment) : list byte := take (Z.to_nat (size s)) (drop (Z.to_nat (inFileAddr s)) file).

Lemma load_opened ex i o h bm l (mem : gmap Z byte) s : inodes h !! i = Some file -> 0 <= size s -> 0 <= inFileAddr s < 2 ^ 31 ->
  0 <= virtualAddr s -> virtualAddr s + size s <= MemorySize ->
  exists o', load ex (virtualAddr s) (size s) (inFileAddr s) (loading h ex i o bm l mem) =
    Ok (loading h ex i o' bm l (store_bytes (virtualAddr s) (body s) mem)).
Proof.
  intros Hi Hs Hp Hv Hm. unfold load. cbn [the_host loading].
  destruct (StubFS.StubFS.ReadAt_opened i o true h ex (size s) (inFileAddr s) file Hi Hs Hp) as (o' & ->). cbn [bind default id memory].
  fold (body s). rewrite copy_in_ok. { cbn [bind]. by exists o'. }
  right. split; [done|]. unfold body. rewrite length_take, length_drop. lia.
Qed.

(** ** Registers *)

Lemma write_register i v m : Z.of_nat (length (registers m)) = NumTotalRegs -> 0 <= i < NumTotalRegs ->
  WriteRegister i v m = Ok (setreg i v m).
Proof.
  intros Hl Hi. unfold WriteRegister. rewrite !bool_decide_eq_true_2 by lia. cbn [andb assert bind]. rewrite lset_in by lia. done.
Qed.

Lemma setreg_length i v m : length (registers (setreg i v m)) = length (registers m).
Proof. unfold setreg, set_registers. cbn [registers]. apply length_insert. Qed.

Lemma zero_registers_ok ks : forall m, Z.of_nat (length (registers m)) = NumTotalRegs -> Forall (fun k => 0 <= k < NumTotalRegs) ks ->
  exists rs, zero_registers ks m = Ok (set_registers (fun _ => rs) m) /\ length rs = length (registers m) /\
    forall j, (j < length rs)%nat -> rs !! j = if decide (Z.of_nat j ∈ ks) then Some 0 else registers m !! j.
Proof.
  induction ks as [|k ks IH]; intros m Hl Hk.
  - exists (registers m). split; [by destruct m|]. split; [done|]. intros j _. rewrite decide_False; [done|apply not_elem_of_nil].
  - apply Forall_cons in Hk as [Hk Hks]. cbn [zero_registers]. rewrite write_register by done. cbn [bind].
    destruct (IH (setreg k 0 m)) as (rs & -> & Hlr & Hrs); [by rewrite setreg_length|done|]. rewrite setreg_length in Hlr.
    exists rs. split; [done|]. split; [done|]. intros j Hj. rewrite Hrs by done. destruct (decide (Z.of_nat j ∈ ks)) as [Hin|Hin].
    + rewrite decide_True; [done|]. by right.
    + unfold setreg, set_registers. cbn [registers]. destruct (decide (Z.of_nat j = k)) as [<-|Hne].
      * rewrite Nat2Z.id, list_lookup_insert_eq by lia. by rewrite decide_True by by left.
      * rewrite list_lookup_insert_ne by lia. rewrite decide_False; [done|]. rewrite elem_of_cons. tauto.
Qed.

Lemma InitRegisters_ok sp m : Z.of_nat (length (registers m)) = NumTotalRegs ->
  InitRegisters sp m = Ok (set_registers (fun _ =>
    <[Z.to_nat StackReg := wrap32 (numPages sp * PageSize - 16)]> (<[Z.to_nat NextPCReg := 4]> (replicate (Z.to_nat NumTotalRegs) 0))) m).
Proof.
  intros Hl. unfold InitRegisters. destruct (zero_registers_ok (seqZ 0 NumTotalRegs) m Hl) as (rs & -> & Hlr & Hrs).
  { apply Forall_forall. intros k Hk%elem_of_seqZ. lia. }
  assert (Hz : rs = replicate (Z.to_nat NumTotalRegs) 0).
  { apply list_eq. intros j. destruct (decide (j < length rs)%nat) as [Hj|Hj].
    - rewrite Hrs by done. rewrite lookup_replicate_2 by (unfold NumTotalRegs in *; lia). rewrite decide_True; [done|]. apply elem_of_seqZ. lia.
    - rewrite !lookup_ge_None_2; [done|rewrite length_replicate; unfold NumTotalRegs in *; lia|lia]. }
  subst rs. cbn [bind]. rewrite write_register by done. cbn [bind]. rewrite write_register by done. cbn [bind]. rewrite write_register by done.
  unfold setreg, set_registers. cbn [registers mainMemory tlb Machine.pageTable pageTableSize singleStep runUntilTime]. f_equal.
Qed.
(** ** Loading it again *)

(** Code before data, both within the pages the constructor gives the program,
    and no read-only data, which the constructor leaves out. *)
Record laid_out : Prop := {
  lo_code : 0 <= size (code n) <= pages n * PageSize;
  lo_data : 0 <= size (initData n) /\ (0 < size (initData n) ->
    size (code n) <= virtualAddr (initData n) /\ virtualAddr (initData n) + size (initData n) <= pages n * PageSize);
  lo_rdata : size (readonlyData n) = 0
}.

Definition put_segment (s : Segment) (mem : gmap Z byte) : gmap Z byte :=
  if bool_decide (0 < size s) then store_bytes (virtualAddr s) (body s) mem else mem.

Lemma Load_ok sp w : executable (the_host w) nm file n -> laid_out -> pages n <= NumPhysPages ->
  AddrSpace.Load stack nm sp w =
    Ok (true, mkSpace (AddrSpace.pageTable sp) (pages n), AddrSpace.set_memory (put_segment (initData n) (put_segment (code n) (memory w))) w).
Proof.
  intros He [Lc [Ld0 Ld] Lr] Hp. destruct (ex_named _ _ _ _ He) as (i & Hnm & Hi).
  destruct (ex_code _ _ _ _ He) as (C1 & C2 & C3), (ex_data _ _ _ _ He) as (D1 & D2 & D3). pose proof (pages_nonneg n) as Hp0.
  unfold AddrSpace.Load. rewrite (StubFS.StubFS.stub_Open_ok nm (the_host w) i) by (done || apply He). cbn [bind].
  set (ex := StubFS.StubFS.new_OpenFile _). change (unused (fds (the_host w))) with (StubFS.StubFS.file ex).
  destruct (read_header_ok stack (the_host w) nm file n i 0 ex He Hi) as (o1 & ->). cbn [bind].
  rewrite Lr, Z.add_0_r. change (divRoundUp _ _) with (pages n). rewrite bool_decide_eq_true_2 by done. cbn [assert bind].
  change (set_host _ w) with (loading (the_host w) ex i o1 (gPhysPageBitmap w) (addrLock w) (memory w)).
  assert (Hseg : forall s o mem, 0 <= size s -> (0 < size s -> 0 <= inFileAddr s < 2 ^ 31 /\ 0 <= virtualAddr s /\ virtualAddr s + size s <= MemorySize) ->
    exists o', (if bool_decide (0 < size s) then load ex (virtualAddr s) (size s) (inFileAddr s) (loading (the_host w) ex i o (gPhysPageBitmap w) (addrLock w) mem)
      else Ok (loading (the_host w) ex i o (gPhysPageBitmap w) (addrLock w) mem)) = Ok (loading (the_host w) ex i o' (gPhysPageBitmap w) (addrLock w) (put_segment s mem))).
  { intros s o mem H0 Hs. unfold put_segment. case_bool_decide as H1; [|by exists o]. destruct (Hs H1) as (? & ? & ?). by apply load_opened. }
  unfold MemorySize, NumPhysPages, PageSize in *.
  destruct (Hseg (code n) o1 (memory w)) as (o2 & ->); [lia|intros; lia|]. cbn [bind].
  destruct (Hseg (initData n) o2 (put_segment (code n) (memory w))) as (o3 & ->); [lia|intros; lia|]. cbn [bind].
  rewrite bool_decide_eq_false_2 by lia. cbn [bind]. unfold loading at 1. cbn [the_host].
  rewrite (StubFS.StubFS.delete_opened (StubFS.StubFS.file ex)) by (done || apply unused_ok). cbn [bind]. done.
Qed.

Lemma lookup_put s mem a : put_segment s mem !! a =
  if bool_decide (0 < size s /\ virtualAddr s <= a < virtualAddr s + Z.of_nat (length (body s))) then body s !! Z.to_nat (a - virtualAddr s) else mem !! a.
Proof.
  unfold put_segment. case_bool_decide as Hs; [|by rewrite bool_decide_eq_false_2 by tauto]. rewrite lookup_store_bytes.
  destruct (decide (virtualAddr s <= a < virtualAddr s + Z.of_nat (length (body s)))); [by rewrite !bool_decide_eq_true_2|by rewrite !bool_decide_eq_false_2 by tauto].
Qed.

(** [Load] writes what the constructor wrote, when frames are where the pages are. *)
Lemma put_image h mem v b : executable h nm file n -> laid_out -> 0 <= v ->
  mem !! v = Some b -> image_byte file n v = Some b -> put_segment (initData n) (put_segment (code n) mem) !! v = Some b.
Proof.
  intros He [Lc [Ld0 Ld] Lr] Hv Hm Hb. destruct (ex_code _ _ _ _ He) as (C1 & C2 & C3), (ex_data _ _ _ _ He) as (D1 & D2 & D3).
  assert (Hbody : forall s a, 0 <= a -> (Z.to_nat a < length (body s))%nat -> 0 <= inFileAddr s -> body s !! Z.to_nat a = file !! Z.to_nat (inFileAddr s + a)).
  { intros s a Ha Hlt Hi. unfold body in *. rewrite length_take in Hlt. rewrite lookup_take_lt by lia. rewrite lookup_drop. f_equal. lia. }
  assert (Hlen : forall s, 0 <= size s -> Z.of_nat (length (body s)) <= size s) by (intros s Hs; unfold body; rewrite length_take; lia).
  pose proof (Hlen (code n) ltac:(lia)) as Hlc. pose proof (Hlen (initData n) ltac:(lia)) as Hld.
  unfold image_byte in Hb. rewrite !lookup_put, C1.
  destruct (decide (0 < size (initData n) /\ virtualAddr (initData n) <= v < virtualAddr (initData n) + Z.of_nat (length (body (initData n))))) as [Hd|Hd].
  - rewrite bool_decide_eq_true_2 by done. rewrite (bool_decide_eq_true_2 (_ /\ _ <= v)) in Hb by (split; [apply Hd|lia]).
    rewrite Hbody by lia. destruct (file !! _) as [b'|] eqn:E; [done|]. apply lookup_ge_None in E. destruct Hd as [_ Hd]. unfold body in Hd. rewrite length_take, length_drop in Hd. lia.
  - rewrite bool_decide_eq_false_2 by done.
    destruct (decide (0 < size (code n) /\ 0 <= v < 0 + Z.of_nat (length (body (code n))))) as [Hc|Hc]; [|by rewrite bool_decide_eq_false_2].
    rewrite bool_decide_eq_true_2 by done. rewrite Z.sub_0_r, Hbody by lia.
    assert (Hnd : ~ (0 < size (initData n) /\ virtualAddr (initData n) <= v)) by (intros [H1 H2]; specialize (Ld H1); lia).
    rewrite (bool_decide_eq_false_2 (_ /\ _ <= v)) in Hb by done. by rewrite bool_decide_eq_true_2 in Hb by lia.
Qed.
End program.

Section start.
Import Machine AddrSpace.

Lemma run_program_ok stack1 stack2 junk nm w file n rest m :
  executable (the_host w) nm file n -> laid_out n -> Bitmap.wf (gPhysPageBitmap w) -> Bitmap.numBits (gPhysPageBitmap w) = NumPhysPages ->
  addrLock w = 1 -> Bitmap.free (gPhysPageBitmap w) = seqZ 0 (pages n) ++ rest ->
  Z.of_nat (length (registers m)) = NumTotalRegs -> tlb m = None ->
  exists m' w', run_program stack1 stack2 junk nm w m = Ok (Some (Some m', w')) /\ the_host w' = the_host w /\ addrLock w' = 1 /\
    registers m' = <[Z.to_nat StackReg := pages n * PageSize - 16]> (<[Z.to_nat NextPCReg := 4]> (replicate (Z.to_nat NumTotalRegs) 0)) /\
    forall v b, 0 <= v < pages n * PageSize -> image_byte file n v = Some b -> read_value v 1 m' = Ok (inr (charZ b)).
Proof.
  intros He Hlo Hw Hn Hl Hfree Hregs Ht. destruct (new_AddrSpace_ok stack1 nm w file n 0 rest He Hw Hn Hl Hfree) as (sp & w1 & Hnew & Hnp & Hfr & Hh & Hlk & Him & _).
  destruct (new_AddrSpace_takes stack1 nm w sp w1 Hw Hn Hnew) as (Hsw & _). pose proof (pages_nonneg n) as Hp0.
  assert (Hmax : pages n <= NumPhysPages).
  { destruct (decide (0 < pages n)); [|unfold NumPhysPages; lia]. assert (Hin : pages n - 1 ∈ Bitmap.free (gPhysPageBitmap w)) by (rewrite Hfree; apply elem_of_app; left; apply elem_of_seqZ; lia).
    apply Bitmap.elem_of_free in Hin as [Hin _]. rewrite Hn in Hin. lia. }
  unfold run_program. rewrite Hnew. cbn [bind default id]. rewrite (Load_ok stack2 nm file n sp w1) by (done || by rewrite Hh). cbn [bind negb].
  unfold Execute. rewrite InitRegisters_ok by done. cbn [bind]. do 2 eexists. split; [done|]. split; [done|]. split; [done|]. split.
  { cbn [registers RestoreState set_registers numPages]. rewrite wrap32_small; [done|]. unfold int_range, NumPhysPages, PageSize in *. lia. }
  intros v b Hv Hb. set (sp' := mkSpace (pageTable sp) (pages n)). assert (Esp : sp' = sp) by (unfold sp'; rewrite <- Hnp; by destruct sp). rewrite Esp.
  rewrite RestoreState_install by done. rewrite (read_consecutive sp _ 0 v Hsw); [|intros k Hk|by rewrite Hnp].
  - do 3 f_equal. unfold byte_at. cbn [mainMemory set_registers Machine.set_memory memory AddrSpace.set_memory].
    rewrite Z.mul_0_l, Z.add_0_l. rewrite (put_image nm file n (the_host w) _ v b He Hlo (proj1 Hv)); [done| |done].
    specialize (Him v Hv). rewrite Z.mul_0_l, Z.add_0_l in Him. by rewrite Him, Hb.
  - unfold frame_of. pose proof (list_lookup_fmap physicalPage (pageTable sp) (Z.to_nat k)) as Hlk2. change (physicalPage <$> pageTable sp) with (frames sp) in Hlk2.
    rewrite Hfr, lookup_seqZ_lt in Hlk2 by lia. destruct (pageTable sp !! Z.to_nat k) as [e|]; [|done]. cbn in Hlk2 |- *. injection Hlk2 as E. lia.
Qed.
End start.

(** ** What a command line means *)

(** The options of both readers, with their arguments. *)
Inductive item :=
  | ODebug (flags : list byte) | OCopyright | OProgram (f : list byte) | OThreads | OConsole | ONetwork
  | OCopy (from to : list byte) | OPrint (f : list byte) | ORemove (f : list byte) | OList | ODump | OUsage
  | OSeed (v : list byte) | OStep | OConsoleIn (f : list byte) | OConsoleOut (f : list byte) | OFormat
  | OReliability (v : list byte) | OHost (v : list byte).

Definition spell (i : item) : list (list byte) :=
  match i with
  | ODebug v => [str "-d"; v] | OCopyright => [str "-z"] | OProgram f => [str "-x"; f] | OThreads => [str "-K"]
  | OConsole => [str "-C"] | ONetwork => [str "-N"] | OCopy a b => [str "-cp"; a; b] | OPrint f => [str "-p"; f]
  | ORemove f => [str "-r"; f] | OList => [str "-l"] | ODump => [str "-D"] | OUsage => [str "-u"]
  | OSeed v => [str "-rs"; v] | OStep => [str "-s"] | OConsoleIn f => [str "-ci"; f] | OConsoleOut f => [str "-co"; f]
  | OFormat => [str "-f"] | OReliability v => [str "-n"; v] | OHost v => [str "-m"; v]
  end.

Section meaning.
Context (atof : list byte -> spec_float).

Definition to_main (o : options) (i : item) : options :=
  match i with
  | ODebug v => set_debugArg v o | OProgram f => set_userProgName f o | OThreads => set_threadTestFlag o
  | OConsole => set_consoleTestFlag o | ONetwork => set_networkTestFlag o | OCopy a b => set_copy a b o
  | OPrint f => set_printFileName f o | ORemove f => set_removeFileName f o | OList => set_dirListFlag o
  | ODump => set_dumpFlag o | _ => o
  end.

Definition to_kernel (o : Kernel.options) (i : item) : Kernel.options :=
  match i with
  | OSeed v => Kernel.set_seed (atoi v) o | OStep => Kernel.set_debugUserProg o | OConsoleIn f => Kernel.set_consoleIn f o
  | OConsoleOut f => Kernel.set_consoleOut f o | OFormat => Kernel.set_formatFlag o
  | OReliability v => Kernel.set_reliability (atof v) o | OHost v => Kernel.set_hostName (atoi v) o | _ => o
  end.

(** The options a build has. *)
Definition available (stub : bool) (i : item) : bool :=
  match i with OCopy _ _ | OPrint _ | ORemove _ | OList | ODump | OFormat => negb stub | _ => true end.

(** What each reader takes for an option. *)
Definition kernel_flags (stub : bool) : list (list byte) :=
  [str "-rs"; str "-s"; str "-ci"; str "-co"; str "-n"; str "-m"] ++ (if stub then [] else [str "-f"]).
Definition main_flags (stub : bool) : list (list byte) :=
  [str "-d"; str "-z"; str "-x"; str "-K"; str "-C"; str "-N"] ++ (if stub then [] else [str "-cp"; str "-p"; str "-r"; str "-l"; str "-D"]).

(** An option whose arguments the other reader does not take for options. *)
Definition clear (stub : bool) (i : item) : Prop :=
  match i with
  | OSeed v | OConsoleIn v | OConsoleOut v | OReliability v | OHost v => v ∉ main_flags stub
  | ODebug v | OProgram v | OPrint v | ORemove v => v ∉ kernel_flags stub
  | OCopy a b => a ∉ kernel_flags stub /\ b ∉ kernel_flags stub
  | _ => True
  end.

Lemma kernel_skips stub a rest o : a ∉ kernel_flags stub -> Kernel.read_options stub atof (a :: rest) o = Kernel.read_options stub atof rest o.
Proof using Type.
  intros Ha. cbn [Kernel.read_options].
  assert (Hne : forall f, f ∈ kernel_flags stub -> bool_decide (a = f) = false) by (intros f Hf; apply bool_decide_eq_false_2; by intros ->).
  destruct stub; cbn [negb andb]; rewrite !Hne by (apply (bool_decide_unpack _); by vm_compute); done.
Qed.

Lemma main_skips stub a rest o : a ∉ main_flags stub -> read_options stub (a :: rest) o = read_options stub rest o.
Proof using Type.
  intros Ha. cbn [read_options].
  assert (Hne : forall f, f ∈ main_flags stub -> bool_decide (a = f) = false) by (intros f Hf; apply bool_decide_eq_false_2; by intros ->).
  destruct stub; cbn [negb andb]; rewrite !Hne by (apply (bool_decide_unpack _); by vm_compute); done.
Qed.

(** Each option, read by the one that knows it and passed over by the other. *)
Lemma kernel_reads stub i rest o : available stub i = true -> clear stub i ->
  Kernel.read_options stub atof (spell i ++ rest) o = Kernel.read_options stub atof rest (to_kernel o i).
Proof using Type.
  intros Hav Hc. destruct i; cbn [spell app to_kernel clear] in *;
    first [ destruct stub; done
          | rewrite kernel_skips by (destruct stub; apply (bool_decide_unpack _); by vm_compute);
            first [done | by rewrite kernel_skips | by rewrite !kernel_skips by apply Hc ] ].
Qed.

Lemma main_reads stub i rest o : available stub i = true -> clear stub i ->
  read_options stub (spell i ++ rest) o = read_options stub rest (to_main o i).
Proof using Type.
  intros Hav Hc. destruct i; cbn [spell app to_main clear] in *;
    first [ destruct stub; done
          | rewrite main_skips by (destruct stub; apply (bool_decide_unpack _); by vm_compute);
            first [done | by rewrite main_skips ] ].
Qed.

Lemma command_line_ok stub prog items : Forall (fun i => available stub i = true /\ clear stub i) items ->
  main stub atof (prog :: concat (spell <$> items)) = Ok (foldl to_kernel Kernel.defaults items, actions (foldl to_main defaults items)).
Proof using Type.
  intros Hi. unfold main, Kernel.Kernel. cbn [tail].
  assert (Hm : forall o, read_options stub (concat (spell <$> items)) o = Ok (foldl to_main o items)).
  { induction Hi as [|i items [Ha Hc] Hi IH]; intros o; [done|]. cbn [fmap list_fmap concat foldl]. rewrite main_reads by done. apply IH. }
  assert (Hk : forall o, Kernel.read_options stub atof (concat (spell <$> items)) o = Ok (foldl to_kernel o items)).
  { clear Hm. induction Hi as [|i items [Ha Hc] Hi IH]; intros o; [done|]. cbn [fmap list_fmap concat foldl]. rewrite kernel_reads by done. apply IH. }
  rewrite Hm, Hk. done.
Qed.
End meaning.

(** An argument that looks like an option of the other reader is taken for one:
    copying to a file called "-f" formats the disk, a program called "-s" is run
    in single steps. *)
Lemma argument_taken_for_option atof :
  main false atof [str "nachos"; str "-cp"; str "a"; str "-f"] =
    Ok (Kernel.set_formatFlag Kernel.defaults, [DoCopy (str "a") (str "-f"); DoHalt]) /\
  main true atof [str "nachos"; str "-x"; str "-s"] = Ok (Kernel.set_debugUserProg Kernel.defaults, [DoRun (str "-s"); DoHalt]).
Proof. done. Qed.

(** An option without its argument stops the kernel at an assertion. *)
Lemma missing_argument stub atof : main stub atof [str "nachos"; str "-x"] = Fault AssertFailed /\
  main stub atof [str "nachos"; str "-m"] = Fault AssertFailed.
Proof. by destruct stub. Qed.

(** ** Properties *)

(** C29: [Copy] and [Print] move a file through the disk: [Copy] of a host file of
    any length the file system allows closes what it opened and leaves the host
    as it was; when the file system can create the file (the name is new, an
    entry and the sectors are free) it then holds exactly the bytes, next to the
    files it held, and [Print] shows exactly them; when not, nothing changes. *)
Theorem Copy_then_Print {S : Type} `{SectorDevice S} (fresh : Z -> list byte) b n from to fs h s m k i bs :
  (forall n, 0 <= n -> Z.of_nat (length (fresh n)) = n) -> FileSys.represents fs s m k ->
  names h !! from = Some i -> inodes h !! i = Some bs -> admits h from = true -> unused (fds h) < fd_limit h ->
  Z.of_nat (length bs) <= MaxFileSize -> usable (4030 + b) s -> (30 < n)%nat ->
  exists s1, Copy fresh n from to fs h s = Ok (h, s1) /\
    if FileSys.creatable m k to (Z.of_nat (length bs))
    then FileSys.represents fs s1 (<[Directory.key to := bs]> m) (k - 1 - divRoundUp (Z.of_nat (length bs)) SectorSize) /\
      exists s2, Print fresh n to fs s1 = Ok (Some bs, s2) /\ usable b s2
    else FileSys.represents fs s1 m k.
Proof.
  intros Hfresh Hr Hn Hi Ha Hf Hmax Hu Hfuel.
  destruct (Copy_ok fresh Hfresh (980 + b) n from to fs h s m k i bs Hr Hn Hi Ha Hf Hmax Hu Hfuel) as (s1 & Hc & Hu1 & Hr1).
  exists s1. split; [done|]. destruct (FileSys.creatable m k to (Z.of_nat (length bs))); [|done]. split; [done|].
  destruct (Print_ok fresh Hfresh b n to fs s1 _ _ Hr1) as (s2 & Hp & Hu2 & _); [|done|done|].
  - intros bs'. rewrite lookup_insert_eq. by intros [= <-].
  - exists s2. by rewrite lookup_insert_eq in Hp.
Qed.

(** the command line says what it spells: whatever options are given, in
    whatever order, as long as no argument of one reader's option is itself an
    option of the other's, the kernel gets the settings and [main] the actions
    that the list of options stands for, the last one counting where an option
    is repeated. *)
Theorem command_line stub atof prog items :
  Forall (fun i => available stub i = true /\ clear stub i) items ->
  main stub atof (prog :: concat (spell <$> items)) =
    Ok (foldl (to_kernel atof) Kernel.defaults items, actions (foldl to_main defaults items)).
Proof. exact (command_line_ok atof stub prog items). Qed.

(** C25: [main] starts the program it is given: with memory free, as at boot, and a
    well-formed file of code and data, it comes to [Machine::Run] with the
    program counters at 0 and 4, the stack pointer 16 bytes below the end of the
    address space, all the other registers 0, and every byte of the file's image
    read by the processor at its address; the file is closed and the lock free. *)
Theorem main_runs_program stack1 stack2 junk nm w file n rest m :
  AddrSpace.executable (AddrSpace.the_host w) nm file n -> laid_out n -> Bitmap.wf (AddrSpace.gPhysPageBitmap w) ->
  Bitmap.numBits (AddrSpace.gPhysPageBitmap w) = Machine.NumPhysPages -> AddrSpace.addrLock w = 1 ->
  Bitmap.free (AddrSpace.gPhysPageBitmap w) = seqZ 0 (AddrSpace.pages n) ++ rest ->
  Z.of_nat (length (Machine.registers m)) = Machine.NumTotalRegs -> Machine.tlb m = None ->
  exists m' w', run_program stack1 stack2 junk nm w m = Ok (Some (Some m', w')) /\
    AddrSpace.the_host w' = AddrSpace.the_host w /\ AddrSpace.addrLock w' = 1 /\
    Machine.registers m' = <[Z.to_nat Machine.StackReg := AddrSpace.pages n * Machine.PageSize - 16]>
      (<[Z.to_nat Machine.NextPCReg := 4]> (replicate (Z.to_nat Machine.NumTotalRegs) 0)) /\
    forall v b, 0 <= v < AddrSpace.pages n * Machine.PageSize -> AddrSpace.image_byte file n v = Some b ->
      Machine.read_value v 1 m' = Ok (inr (charZ b)).
Proof. exact (run_program_ok stack1 stack2 junk nm w file n rest m). Qed.

(** ** Witnesses *)

Definition copied : list byte := replicate 300 x2a ++ [x0a].
Definition host_example : host := mkHost {[ str "notes" := 0 ]} {[ 0 := copied ]} ∅ (fun _ => true) 16.

Lemma Copy_then_Print_witness :
  exists fs (s : image) k, FileSys.represents fs s ∅ k /\ exists s1 s2,
    Copy zeros 31 (str "notes") (str "n" ++ [x00]) fs host_example s = Ok (host_example, s1) /\
    Print zeros 31 (str "n" ++ [x00]) fs s1 = Ok (Some copied, s2).
Proof.
  destruct (FileSys.format_ok zeros zeros_length 4030 (∅ : image)) as (fs & s & _ & Hu & Hr); [apply FileSys.image_usable|].
  exists fs, s, 1019. split; [exact Hr|].
  destruct (Copy_then_Print zeros 0 31 (str "notes") (str "n" ++ [x00]) fs host_example s ∅ 1019 0 copied) as (s1 & Hc & Hp).
  - exact zeros_length.
  - exact Hr.
  - vm_compute. reflexivity.
  - vm_compute. reflexivity.
  - reflexivity.
  - vm_compute. reflexivity.
  - vm_compute. discriminate.
  - exact Hu.
  - lia.
  - exists s1. assert (E : FileSys.creatable ∅ 1019 (str "n" ++ [x00]) (Z.of_nat (length copied)) = true) by (vm_compute; reflexivity).
    rewrite E in Hp. destruct Hp as (_ & s2 & Hp & _). by exists s2.
Defined.

Lemma command_line_witness :
  main false (fun _ => Network.double 0) [str "nachos"; str "-m"; str "1"; str "-cp"; str "a"; str "b"; str "-rs"; str "42"; str "-N"] =
    Ok (Kernel.set_seed 42 (Kernel.set_hostName 1 Kernel.defaults), [DoNetworkTest; DoCopy (str "a") (str "b"); DoHalt]).
Proof.
  apply (command_line false (fun _ => Network.double 0) (str "nachos") [OHost (str "1"); OCopy (str "a") (str "b"); OSeed (str "42"); ONetwork]).
  repeat (apply Forall_cons; split; [split; [reflexivity|cbn [clear]]|]);
    try exact I; try apply Forall_nil_2; try split; apply (bool_decide_unpack _); vm_compute; exact I.
Defined.

Lemma main_runs_program_witness :
  exists m' w', run_program [] [] (AddrSpace.mkSpace [] 0) AddrSpace.name_example AddrSpace.world_example (Machine.Machine false 0 0) = Ok (Some (Some m', w')) /\
    Machine.reg m' Machine.PCReg = 0 /\ Machine.reg m' Machine.StackReg = 1520 /\ Machine.read_value 9 1 m' = Ok (inr 11).
Proof.
  destruct (main_runs_program [] [] (AddrSpace.mkSpace [] 0) AddrSpace.name_example AddrSpace.world_example AddrSpace.program_example AddrSpace.header_example
    (seqZ 3 125) (Machine.Machine false 0 0)) as (m' & w' & Hrun & _ & _ & Hregs & Hread).
  - exact AddrSpace.executable_example.
  - split; [split; vm_compute; discriminate|split; [vm_compute; discriminate|intros _; split; vm_compute; discriminate]|reflexivity].
  - apply AddrSpace.initial_accounted. exact AddrSpace.bitmap_example_ok.
  - reflexivity.
  - reflexivity.
  - vm_compute. reflexivity.
  - reflexivity.
  - reflexivity.
  - exists m', w'. split; [exact Hrun|]. unfold Machine.reg. rewrite Hregs. split; [vm_compute; reflexivity|]. split; [vm_compute; reflexivity|].
    apply (Hread 9 x0b); [|vm_compute; reflexivity]. change (AddrSpace.pages AddrSpace.header_example) with 3. unfold Machine.PageSize. lia.
Defined.

End Main.
