(* ===== verification/Run.v ===== *)
(** * machine/mipssim.cc: [Machine::Run], with the exception handler

    Two things about whole runs of a user program: that the handler's loops end
    ([Total]), and what holds of a program that runs for any length of time, with
    its system calls, the interrupts that come in between, and the other threads
    that run when it gives up the processor ([Run]). *)

From Stdlib Require Import Strings.Byte.
From S2P Require Import Prelude LibBitmap Machine Mips Interrupt Timer Disk Sysdep StubFS Console STable PTable Syscalls.

(** ** The loops of the handler end *)

Module Total.
Import Machine Disk Syscalls.

(** The console between two calls: nobody holds its locks, no character waits in
    the device, and the display is idle. *)
Record resting (k : kernel) : Prop := {
  r_in : exists keys e s r, synchConsoleIn k = Console.mkIn keys e Console.EOF s 1 0 r;
  r_out : exists out w, synchConsoleOut k = Console.mkOut out false 1 0 w
}.

Definition good {A} (r : result (outcome A)) : Prop :=
  match r with
  | Ok (Value _ k) | Ok (Calls _ k) => resting k
  | Ok _ => True
  | Fault f => f <> OutOfFuel
  end.
Definition total {A} (m : M A) : Prop := forall k, resting k -> good (m k).

(** *** Computations without loops on fuel *)

Definition nofuel {A} (r : result A) : Prop := r <> Fault OutOfFuel.

Lemma nofuel_bind {A B} (r : result A) (f : A -> result B) : nofuel r -> (forall a, nofuel (f a)) -> nofuel (bind r f).
Proof. intros Hr Hf. destruct r as [a|e]; [apply Hf|]. intros [= ->]. by apply Hr. Qed.
Lemma nofuel_lget {A} (l : list A) i : nofuel (lget l i).
Proof. unfold lget. case_bool_decide; [by destruct (l !! _)|done]. Qed.
Lemma nofuel_lset {A} (l : list A) i x : nofuel (lset l i x).
Proof. unfold lset. by case_bool_decide. Qed.
Lemma nofuel_assert b : nofuel (assert b).
Proof. by destruct b. Qed.
Lemma nofuel_cstring bs : nofuel (cstring bs).
Proof. induction bs as [|b bs IH]; cbn [cstring]; [done|]. case_bool_decide; [done|]. apply nofuel_bind; [done|]. by intros. Qed.

(** Through a computation, one bind or test at a time. *)
Create HintDb total.
Ltac nofuel := repeat first
  [ assumption | solve [auto with total nocore] | apply nofuel_lget | apply nofuel_lset | apply nofuel_assert | apply nofuel_cstring
  | apply nofuel_bind; [|intros ?]
  | match goal with
    | |- nofuel (Ok _) => discriminate
    | |- nofuel (Fault _) => discriminate
    | |- nofuel (match ?x with _ => _ end) => destruct x
    end ].

Lemma nofuel_Translate a n w m : nofuel (Translate a n w m).
Proof. unfold Translate, lookup_entry. cbv zeta. nofuel. Qed.
Lemma nofuel_RaiseException a m : nofuel (RaiseException a m).
Proof. unfold RaiseException, DelayedLoad. cbv zeta. nofuel. Qed.
Lemma nofuel_ReadMem a n m : nofuel (Machine.ReadMem a n m).
Proof. unfold Machine.ReadMem. apply nofuel_bind; [apply nofuel_Translate|intros [m' [e|pa]]]; [|nofuel]. apply nofuel_bind; [apply nofuel_RaiseException|done]. Qed.
Lemma nofuel_WriteMem a n v m : nofuel (Machine.WriteMem a n v m).
Proof. unfold Machine.WriteMem. apply nofuel_bind; [apply nofuel_Translate|intros [m' [e|pa]]]; [|nofuel]. apply nofuel_bind; [apply nofuel_RaiseException|done]. Qed.

Lemma nofuel_FindFreeSlot fs : nofuel (StubFS.FindFreeSlot fs).
Proof.
  unfold StubFS.FindFreeSlot. generalize (seqZ 2 (StubFS.MAX_FILE_OPEN - 2)). intros ks.
  induction ks as [|i ks IH]; cbn [StubFS.FindFreeSlot_from]; nofuel.
Qed.

Lemma nofuel_find_sem ks nm st : nofuel (STable.find_sem ks nm st).
Proof. induction ks as [|i ks IH]; cbn [STable.find_sem]; [done|]. unfold STable.sem_at, Bitmap.Test. nofuel. Qed.
Lemma nofuel_FindAndSet bm : nofuel (Bitmap.FindAndSet bm).
Proof.
  unfold Bitmap.FindAndSet. generalize (seqZ 0 (Bitmap.numBits bm)). intros ks.
  induction ks as [|i ks IH]; cbn [Bitmap.FindAndSet_loop]; unfold Bitmap.Mark, Bitmap.Test; cbv zeta; nofuel.
Qed.
Lemma nofuel_Create nm i st : nofuel (STable.Create nm i st).
Proof.
  unfold STable.Create, STable.FindFreeSlot, STable.new_Sem, STable.set_sem. apply nofuel_bind; [apply nofuel_find_sem|].
  intros [?|]; [done|]. apply nofuel_bind; [apply nofuel_bind; [apply nofuel_FindAndSet|]; intros [? ?]; done|]. intros [id st']. nofuel.
Qed.
Lemma nofuel_Wait nm st : nofuel (STable.Wait nm st).
Proof. unfold STable.Wait, STable.set_sem, STable.sem_at. apply nofuel_bind; [apply nofuel_find_sem|]. intros [i|]; nofuel. Qed.
Lemma nofuel_Signal nm st : nofuel (STable.Signal nm st).
Proof. unfold STable.Signal, STable.set_sem, STable.sem_at. apply nofuel_bind; [apply nofuel_find_sem|]. intros [i|]; nofuel. Qed.

(** *** Sequencing *)

Lemma good_seq {A B} (m : M A) (f : A -> M B) k : good (m k) -> (forall a, total (f a)) -> good (seq m f k).
Proof. unfold seq. intros Hm Hf. destruct (m k) as [[a k1|k1| |c k1]|e]; try done. by apply Hf. Qed.
Lemma total_seq {A B} (m : M A) (f : A -> M B) : total m -> (forall a, total (f a)) -> total (seq m f).
Proof. intros Hm Hf k Hk. apply good_seq; [by apply Hm|done]. Qed.
Lemma total_ret {A} (a : A) : total (ret a).
Proof. by intros k Hk. Qed.
Lemma total_gets {A} (f : kernel -> A) : total (gets f).
Proof. by intros k Hk. Qed.
Lemma total_halt {A} : total (@halt A).
Proof. by intros k Hk. Qed.
Lemma total_call c : total (call c).
Proof. by intros k Hk. Qed.
Lemma total_lift {A} (r : result A) : nofuel r -> total (lift r).
Proof. intros Hr k Hk. unfold lift. destruct r as [a|e]; [done|]. cbn [bind good]. intros ->. by apply Hr. Qed.

Definition apart (f : kernel -> kernel) : Prop := forall k, synchConsoleIn (f k) = synchConsoleIn k /\ synchConsoleOut (f k) = synchConsoleOut k.
Lemma total_modify f : apart f -> total (modify f).
Proof. intros Hf k [H1 H2]. destruct (Hf k) as [E1 E2]. split; by rewrite ?E1, ?E2. Qed.
Lemma total_host_op {A} (f : Sysdep.host -> result (A * Sysdep.host)) : (forall h, nofuel (f h)) -> total (host_op f).
Proof.
  intros Hf k [H1 H2]. unfold host_op. specialize (Hf (the_host k)). destruct (f (the_host k)) as [[a h]|e]; cbn [bind good]; [by split|].
  intros ->. by apply Hf.
Qed.
Lemma total_table_op f : (forall t, nofuel (f t)) -> total (table_op f).
Proof.
  intros Hf k [H1 H2]. unfold table_op. specialize (Hf (sTab k)). destruct (f (sTab k)) as [[[a t]|]|e]; cbn [bind good]; [by split|done|].
  intros ->. by apply Hf.
Qed.

(** *** The processor and the user's memory *)

Lemma apart_cpu m : apart (set_cpu m).
Proof. done. Qed.

Lemma total_ReadRegister i : total (ReadRegister i).
Proof. unfold ReadRegister. apply total_seq; [apply total_gets|intros m]. apply total_lift. unfold Machine.ReadRegister. nofuel. Qed.
Lemma total_WriteRegister i v : total (WriteRegister i v).
Proof.
  unfold WriteRegister. apply total_seq; [apply total_gets|intros m]. apply total_seq; [apply total_lift; unfold Machine.WriteRegister; nofuel|intros m'].
  by apply total_modify.
Qed.
Lemma total_ReadMem a : total (ReadMem a).
Proof.
  unfold ReadMem. apply total_seq; [apply total_gets|intros m]. apply total_seq; [apply total_lift, nofuel_ReadMem|intros [m' r]].
  apply total_seq; [by apply total_modify|intros _]. destruct r; [apply total_halt|apply total_ret].
Qed.
Lemma total_WriteMem a v : total (WriteMem a v).
Proof.
  unfold WriteMem. apply total_seq; [apply total_gets|intros m]. apply total_seq; [apply total_lift, nofuel_WriteMem|intros [m' r]].
  apply total_seq; [by apply total_modify|intros _]. destruct r; [apply total_halt|apply total_ret].
Qed.
Lemma total_increasePC : total increasePC.
Proof. unfold increasePC. repeat (apply total_seq; [first [apply total_ReadRegister|apply total_WriteRegister]|intros ?]). apply total_WriteRegister. Qed.
Lemma total_return v : total (return_with v).
Proof. unfold return_with. apply total_seq; [apply total_WriteRegister|intros _; apply total_increasePC]. Qed.
Lemma total_new_chars n : total (new_chars n).
Proof. unfold new_chars. case_bool_decide; [by apply total_lift|apply total_ret]. Qed.

Lemma total_user_bytes n a : forall i, total (user_bytes n a i).
Proof.
  induction n as [|n IH]; intros i; cbn [user_bytes]; [apply total_ret|]. apply total_seq; [apply total_ReadMem|intros c].
  case_bool_decide; [apply total_ret|]. apply total_seq; [apply IH|intros bs; apply total_ret].
Qed.
Lemma total_User2System a n : total (User2System a n).
Proof.
  unfold User2System. apply total_seq; [apply total_new_chars|intros _]. apply total_seq; [apply total_user_bytes|intros bs; apply total_ret].
Qed.
Lemma total_to_user n a bs : forall i, total (to_user n a i bs).
Proof.
  induction n as [|n IH]; intros i; cbn [to_user]; [apply total_ret|]. apply total_seq; [apply total_lift, nofuel_lget|intros b].
  apply total_seq; [apply total_WriteMem|intros _]. case_bool_decide; [apply total_ret|apply IH].
Qed.
Lemma total_System2User a n bs : total (System2User a n bs).
Proof. unfold System2User. repeat case_bool_decide; [apply total_ret|apply total_ret|apply total_to_user]. Qed.

(** *** The keyboard: every character read is one that will not come again *)

Definition to_come (k : kernel) : nat :=
  if Console.scheduled (synchConsoleIn k) then S (length (Console.typed (synchConsoleIn k))) else 0.

Lemma good_GetChar {B} (f : Z -> M B) k : resting k ->
  (forall ch k', resting k' -> (to_come k' < to_come k)%nat -> good (f ch k')) -> good (seq GetChar f k).
Proof.
  intros [(keys & e & s & r & Hi) Ho] Hf. unfold to_come, seq, GetChar, console_in, Console.GetChar in *. rewrite Hi in *.
  cbn [Console.in_lock]. rewrite bool_decide_eq_false_2 by done. unfold Console.Input_P. cbn [Console.in_waitFor Console.set_in_lock].
  rewrite bool_decide_eq_false_2 by lia. cbn [Console.scheduled Console.set_in_lock]. destruct s; [|done].
  assert (Hk : forall keys' s', resting (set_in (Console.mkIn keys' e Console.EOF s' 1 0 r) k)) by (intros keys' s'; split; [by repeat eexists|done]).
  cbn [Console.scheduled Console.typed] in Hf. unfold Console.Input_CallBack. cbn [Console.incoming Console.set_in_lock assert bool_decide decide bind].
  rewrite bool_decide_eq_true_2 by done. cbn [assert bind Console.typed Console.set_in_lock].
  destruct keys as [|b keys]; [destruct e|]; [|done|].
  - cbn. apply Hf; [apply Hk|cbn; rewrite bool_decide_eq_true_2 by done; cbn; lia].
  - cbn. apply Hf; [apply Hk|]. cbn. destruct (negb _); lia.
Qed.

Lemma good_reads {B} (f : nat -> M B) : (forall n k, resting k -> (to_come k < n)%nat -> good (f n k)) -> total (seq reads f).
Proof.
  intros Hf k Hk. unfold seq, reads, gets. apply Hf; [done|]. unfold to_come. destruct (Console.scheduled _); lia.
Qed.

Lemma good_clear_loop n : forall k, resting k -> (to_come k < n)%nat -> good (clear_loop n k).
Proof.
  induction n as [|n IH]; intros k Hk Hn; [lia|]. cbn [clear_loop]. apply good_GetChar; [done|]. intros ch k' Hk' Hlt.
  destruct (_ && _); [apply IH; [done|lia]|done].
Qed.
Lemma good_skip_spaces n : forall k, resting k -> (to_come k < n)%nat -> good (skip_spaces n k).
Proof.
  induction n as [|n IH]; intros k Hk Hn; [lia|]. cbn [skip_spaces]. apply good_GetChar; [done|]. intros ch k' Hk' Hlt.
  case_bool_decide; [apply IH; [done|lia]|done].
Qed.
Lemma good_number_loop n : forall res e f k, resting k -> (to_come k < n)%nat -> good (number_loop n res e f k).
Proof.
  induction n as [|n IH]; intros res e f k Hk Hn; [lia|]. cbn [number_loop]. apply good_GetChar; [done|]. intros ch k' Hk' Hlt.
  case_bool_decide; [done|]. destruct (_ && _); [apply IH; [done|lia]|]. case_bool_decide; [apply IH; [done|lia]|done].
Qed.
Lemma good_line_loop n len : forall s k, resting k -> (to_come k < n)%nat -> good (line_loop n len s k).
Proof.
  induction n as [|n IH]; intros s k Hk Hn; [lia|]. cbn [line_loop]. apply good_GetChar; [done|]. intros ch k' Hk' Hlt.
  case_bool_decide; [done|]. case_bool_decide; [apply IH; [done|lia]|done].
Qed.
Lemma total_GetChar : total GetChar.
Proof. intros k Hk. pose proof (good_GetChar (fun c => ret c) k Hk ltac:(done)) as H. unfold seq in H. by destruct (GetChar k) as [[]|]. Qed.
Lemma total_clear : total clearInputBuffer.
Proof. apply good_reads. exact good_clear_loop. Qed.

(** The two rounds of [Read_char]: after the end of the input nothing comes. *)
Lemma Read_char_resting keys e s l r :
  Console.Read_char 2 (Console.mkIn keys e Console.EOF s l 0 r) = Ok None \/
  exists ch keys' s', Console.Read_char 2 (Console.mkIn keys e Console.EOF s l 0 r) = Ok (Some (ch, Console.mkIn keys' e Console.EOF s' l 0 r)).
Proof.
  destruct s; [|by left]. destruct keys as [|b keys]; [destruct e; by left|]. cbn [Console.Read_char]. rewrite Console.Input_P_key. cbn [Console.andthen bind].
  unfold Console.Input_GetChar. cbn [Console.typed Console.ends Console.incoming Console.scheduled Console.in_lock Console.in_waitFor Console.RLineBlock].
  case_bool_decide as Ec; [by left|]. right. by repeat eexists.
Qed.

Lemma Read_loop_resting k : forall got last keys e s l r,
  Console.Read_loop 2 k got last (Console.mkIn keys e Console.EOF s l 0 r) = Ok None \/
  exists got' last' keys' s', Console.Read_loop 2 k got last (Console.mkIn keys e Console.EOF s l 0 r) = Ok (Some (got', last', Console.mkIn keys' e Console.EOF s' l 0 r)).
Proof.
  induction k as [|k IH]; intros got last keys e s l r; [right; by repeat eexists|]. cbn [Console.Read_loop].
  destruct (Read_char_resting keys e s l r) as [->|(ch & keys' & s' & ->)]; [by left|]. cbn [Console.andthen bind].
  destruct (_ || _); [right; by repeat eexists|]. apply IH.
Qed.

Lemma total_Console_Read n : total (Console_Read n).
Proof.
  intros k [(keys & e & s & r & Hi) Ho]. unfold Console_Read, console_in, Console.Read. rewrite Hi. cbn [Console.RLineBlock]. case_bool_decide; [done|].
  change (Console.set_RLineBlock _ _) with (Console.mkIn keys e Console.EOF s 1 0 (r - 1)) at 1.
  destruct (Read_loop_resting (Z.to_nat n) [] None keys e s 1 (r - 1)) as [->|(got & last & keys' & s' & ->)]; [done|]. cbn [Console.andthen bind].
  destruct last as [ch|]; [|done]. split; [|done]. by repeat eexists.
Qed.

(** *** The display *)

Lemma total_PutChar b : total (PutChar b).
Proof.
  intros k [Hi (out & w & Ho)]. unfold PutChar, console_out. rewrite Ho. cbn. split; [done|]. by repeat eexists.
Qed.
Lemma total_Console_Write bs n : total (Console_Write bs n).
Proof.
  intros k [Hi (out & w & Ho)]. unfold Console_Write, console_out, Console.Write. rewrite Ho. cbn [Console.WLineBlock].
  case_bool_decide; [done|]. case_bool_decide; [|done]. change (Console.set_WLineBlock _ _) with (Console.mkOut out false 1 0 (w - 1)) at 1.
  rewrite Console.Write_loop_ok. cbn. split; [done|]. by repeat eexists.
Qed.
Lemma total_put_chars bs : total (put_chars bs).
Proof. induction bs as [|b bs IH]; cbn [put_chars]; [apply total_ret|]. apply total_seq; [apply total_PutChar|done]. Qed.
Lemma total_put_string bs : forall pos, total (put_string bs pos).
Proof.
  induction bs as [|b bs IH]; intros pos; cbn [put_string]; [by apply total_lift|]. case_bool_decide; [apply total_ret|].
  apply total_seq; [apply total_PutChar|done].
Qed.

(** *** Files *)

Lemma total_file_at id : total (file_at id).
Proof. unfold file_at. apply total_seq; [apply total_gets|intros fs]. apply total_lift, nofuel_lget. Qed.
Lemma total_set_file id o : total (set_file id o).
Proof.
  unfold set_file. apply total_seq; [apply total_gets|intros fs]. apply total_seq; [apply total_lift, nofuel_lset|intros t]. by apply total_modify.
Qed.
Lemma total_file_op {A} id (op : StubFS.OpenFile -> Sysdep.host -> result (A * StubFS.OpenFile * Sysdep.host)) :
  (forall f h, nofuel (op f h)) -> total (file_op id op).
Proof.
  intros Hop. unfold file_op. apply total_seq; [apply total_file_at|intros [f|]]; [|by apply total_lift].
  apply total_seq; [apply total_host_op; intros h; apply nofuel_bind; [apply Hop|by intros [[? ?] ?]]|intros [a f']].
  apply total_seq; [apply total_set_file|intros _; apply total_ret].
Qed.

Ltac file := unfold file_Length, file_Seek, file_getCurrentOffset, file_getType, file_Read, file_Write, StubFS.Length, StubFS.Seek,
  StubFS.getCurrentOffset, StubFS.getType, StubFS.Read, StubFS.Write, StubFS.ReadAt, StubFS.WriteAt, Sysdep.Lseek, Sysdep.WriteFile;
  intros; try apply total_file_op; intros; nofuel.

Lemma total_file_Length id : total (file_Length id).
Proof. file. Qed.
Lemma total_file_Seek id p : total (file_Seek id p).
Proof. file. Qed.
Lemma total_file_getCurrentOffset id : total (file_getCurrentOffset id).
Proof. file. Qed.
Lemma total_file_getType id : total (file_getType id).
Proof. file. Qed.
Lemma total_file_Read id n : total (file_Read id n).
Proof. file. Qed.
Lemma total_file_Write id n bs : total (file_Write id n bs).
Proof. file. Qed.
Lemma nofuel_delete f h : nofuel (StubFS.delete_OpenFile f h).
Proof. unfold StubFS.delete_OpenFile, Sysdep.Close. nofuel. Qed.
Lemma nofuel_Open nm h : nofuel (StubFS.Open nm h).
Proof. unfold StubFS.Open, Sysdep.OpenForReadWrite. nofuel. Qed.
Lemma nofuel_Open_typed nm t h : nofuel (StubFS.Open_typed nm t h).
Proof. unfold StubFS.Open_typed, Sysdep.OpenForReadWrite, Sysdep.OpenForRead, Sysdep.OpenForWrite. nofuel. Qed.
Lemma nofuel_FCreate nm h : nofuel (StubFS.Create nm h).
Proof. unfold StubFS.Create, Sysdep.OpenForWrite, Sysdep.Close. nofuel. Qed.

(** *** The handlers *)

#[local] Hint Resolve total_ret total_gets total_halt total_call total_ReadRegister total_WriteRegister total_ReadMem total_WriteMem
  total_increasePC total_return total_new_chars total_User2System total_System2User total_GetChar total_clear total_Console_Read
  total_PutChar total_Console_Write total_put_chars total_put_string total_file_at total_set_file total_file_Length total_file_Seek
  total_file_getCurrentOffset total_file_getType total_file_Read total_file_Write : total.
#[local] Hint Resolve nofuel_cstring nofuel_FindFreeSlot nofuel_delete nofuel_Open nofuel_Open_typed nofuel_FCreate
  nofuel_Create nofuel_Wait nofuel_Signal : total.

Ltac walk := repeat first
  [ solve [auto with total nocore]
  | apply total_lift; nofuel
  | apply total_host_op; intros ?; nofuel
  | apply total_seq; [|intros ?]
  | match goal with |- total (match ?x with _ => _ end) => destruct x end ].

Lemma total_not_a_number : total not_a_number.
Proof. unfold not_a_number. walk. Qed.
Lemma total_read_digits b z : total (read_digits b z).
Proof.
  unfold read_digits. apply good_reads. intros n k Hk Hn. apply good_seq; [by apply good_number_loop|]. intros [[res flag]|]; [|apply total_not_a_number].
  cbv zeta. walk.
Qed.
Lemma total_ReadNum : total handle_ReadNum.
Proof.
  unfold handle_ReadNum. apply good_reads. intros n k Hk Hn. apply good_seq; [by apply good_skip_spaces|]. intros c.
  repeat case_match; auto using total_read_digits, total_not_a_number with total.
Qed.
Lemma total_ReadString : total handle_ReadString.
Proof.
  unfold handle_ReadString. do 2 (apply total_seq; [apply total_ReadRegister|intros ?]). apply total_seq; [apply total_new_chars|intros _].
  apply good_reads. intros n k Hk Hn. apply good_seq; [by apply good_line_loop|]. intros str. walk.
Qed.
Lemma total_semaphore f : (forall nm t, nofuel (f nm t)) -> total (semaphore_call f).
Proof. intros Hf. unfold semaphore_call. do 3 (apply total_seq; [walk|intros ?]). apply total_seq; [by apply total_table_op|intros res]. walk. Qed.

Lemma total_CreateSemaphore : total handle_CreateSemaphore.
Proof. unfold handle_CreateSemaphore. apply total_seq; [walk|intros v]. apply total_semaphore. intros nm t. nofuel. Qed.
Lemma total_Wait : total handle_Wait.
Proof. apply total_semaphore, nofuel_Wait. Qed.
Lemma total_Signal : total handle_Signal.
Proof. apply total_semaphore. intros nm t. nofuel. Qed.

(** At most ten digits are counted. *)
Lemma good_PrintNum k : regs_ok (cpu k) -> resting k -> good (handle_PrintNum k).
Proof.
  intros Hr Hk. unfold handle_PrintNum, seq at 1. rewrite ReadRegister_value by done.
  assert (Hn : int_range (reg (cpu k) 4)) by (apply reg_range; [done|by vm_compute]).
  set (number := reg (cpu k) 4) in *. clearbody number. revert Hk. generalize k. clear Hr k. change (total (if bool_decide (number = 0) then PutChar (Zbyte zero) ;;; increasePC else
    let n0 := if bool_decide (number < 0) then wrap32 (- number) else number in
    let* n := lift (count_digits MAX_SIZE_BUFFER n0) in
    put_chars ((if bool_decide (number < 0) then [Zbyte minus] else []) ++ digits n n0 []) ;;; increasePC)).
  case_bool_decide as E0; [walk|]. cbv zeta. set (n0 := if bool_decide (number < 0) then _ else _).
  assert (H0 : nofuel (count_digits MAX_SIZE_BUFFER n0)).
  { destruct (decide (0 < n0)) as [Hp|Hp]; [|unfold MAX_SIZE_BUFFER; cbn [count_digits]; by rewrite bool_decide_eq_false_2].
    assert (Hlt : n0 < 2 ^ 31).
    { unfold n0. pose proof (wrap32_in (- number)) as Hw. unfold int_range in *. case_bool_decide; lia. }
    change MAX_SIZE_BUFFER with 11%nat. destruct (count_digits_ok 10 n0) as (d & -> & _); [split; [lia|]|done]. change (10 ^ Z.of_nat 10) with 10000000000. lia. }
  apply total_seq; [by apply total_lift|intros n]. walk.
Qed.

#[export] Instance syscall_eq_dec : EqDecision syscall.
Proof. solve_decision. Defined.

Lemma total_handle random now c : c <> SC_PrintNum -> total (handle random now c).
Proof.
  intros Hc. destruct c; cbn [handle]; try congruence;
    first [exact total_ReadNum | exact total_ReadString | exact total_CreateSemaphore | exact total_Wait | exact total_Signal
          | unfold handle_Halt, SysHalt, handle_Exit, handle_Exec, handle_Join, handle_CreateFile, handle_Open, handle_Read, handle_Write, handle_Join,
              handle_Seek, handle_Close, handle_Add, handle_RandomNum, handle_ReadChar, handle_PrintChar, handle_PrintString; cbv zeta; walk].
Qed.

Lemma ExceptionHandler_good random now which k : regs_ok (cpu k) -> resting k -> good (ExceptionHandler random now which k).
Proof.
  intros Hr Hk. unfold ExceptionHandler, seq at 1. rewrite ReadRegister_value by done.
  destruct which; try done. destruct (syscall_of _) as [c|]; [|done].
  destruct (decide (c = SC_PrintNum)) as [->|Hc]; [by apply good_PrintNum|by apply total_handle].
Qed.

Lemma total_resume c v : total (resume c v).
Proof. destruct c; cbn [resume]; auto with total. Qed.

(** ** Property *)

(** C13: every loop of the exception handler ends: from a console at rest, whatever
    the program asks for and whatever is in its memory, a handler never runs out
    of the rounds the model gives its loops (the characters that can still be
    typed, the ten digits of a number), and the console is at rest again when it
    returns to the program, when it enters the process table, and when it comes
    back from there. *)
Theorem ExceptionHandler_terminates random now which k :
  regs_ok (cpu k) -> resting k ->
  match ExceptionHandler random now which k with
  | Ok (Value _ k') => resting k'
  | Ok (Calls c k') => resting k' /\ forall k2 v, resting k2 ->
      match resume c v k2 with Ok (Value _ k3) => resting k3 | Fault f => f <> OutOfFuel | _ => True end
  | Ok _ => True
  | Fault f => f <> OutOfFuel
  end.
Proof.
  intros Hr Hk. pose proof (ExceptionHandler_good random now which k Hr Hk) as H.
  destruct (ExceptionHandler random now which k) as [[[] k'|k'| |c k']|f]; try done. split; [done|]. intros k2 v Hk2.
  pose proof (total_resume c v k2 Hk2) as Ht. by destruct (resume c v k2) as [[]|].
Qed.

Lemma kernel_example_resting : resting kernel_example.
Proof. split; repeat eexists; reflexivity. Defined.

Lemma ExceptionHandler_terminates_witness : resting kernel_example /\
  match ExceptionHandler id 0 SyscallException kernel_example with Ok (Value _ k') => resting k' | _ => False end.
Proof.
  split; [exact kernel_example_resting|].
  pose proof (ExceptionHandler_terminates id 0 SyscallException kernel_example example_regs kernel_example_resting) as H.
  assert (E : match ExceptionHandler id 0 SyscallException kernel_example with Ok (Value _ _) => true | _ => false end = true) by (vm_compute; reflexivity).
  destruct (ExceptionHandler id 0 SyscallException kernel_example) as [[[] k'|k'| |c k']|]; try discriminate E. exact H.
Defined.
End Total.

(** ** A run of a user program *)

Module Run.
Import Syscalls.

Section world.
(** What the kernel keeps of the other threads. *)
Context {X : Type}.

(** What the kernel has besides the processor, the clock and the interrupts. *)
Record rest := mkRest {
  r_host : Sysdep.host;
  r_files : StubFS.FileSystem;
  r_consoleIn : Console.ConsoleInput;
  r_consoleOut : Console.ConsoleOutput;
  r_sTab : STable.STable;
  r_others : X
}.

Local Abbreviation world := (Timer.kernel rest).

(** The same kernel as the exception handler sees it, and back. *)
Definition kernel_of (m : Machine.machine) (w : world) : kernel :=
  let r := snd (Interrupt.dev w) in mkKernel m (r_host r) (r_files r) (r_consoleIn r) (r_consoleOut r) (r_sTab r).
Definition rest_of (k : kernel) (x : X) : rest := mkRest (the_host k) (files k) (synchConsoleIn k) (synchConsoleOut k) (sTab k) x.
Definition ready (w : world) : X := r_others (snd (Interrupt.dev w)).
Definition put (k : kernel) (w : world) : world :=
  Interrupt.set_dev (fst (Interrupt.dev w), rest_of k (ready w)) (Interrupt.set_machine (Some (cpu k)) w).

(** After some turns of the loop: it goes on; the machine has been halted; the
    thread waits for something that is not going to happen; it has ended in the
    process table. *)
Inductive ending :=
| Running (w : world)
| Stopped (w : world)
| Waiting
| Gone.
End world.
Arguments rest : clear implicits.
Arguments ending : clear implicits.

Abbreviation world X := (Timer.kernel (rest X)).

Section Run.
Context {X : Type}.
Local Abbreviation world := (world X).
Local Abbreviation ending := (ending X).
(** The host's random numbers, for the system call and for the timer. *)
Context (random : Z -> Z) (seed : Z) (RandomNumber : nat -> Z).
(** What happens while other threads have the processor, and in a call that goes
    through the process table: the value it returns, or [None] when the thread
    does not come back. *)
Context (others : world -> result world).
Context (enter : PTable.call -> world -> result (option (Z * world))).

Definition tick_user (w : world) : result ending :=
  w <- Interrupt.OneTick (Timer.CallBack RandomNumber) others w ;; Ok (Running w).

(** The end of [RaiseException].  A handler that returns has been through
    critical sections of the kernel, at the end of which interrupts come in and
    other threads may run. *)
Definition finish (r : outcome unit) (w : world) : result ending :=
  match r with
  | Value _ k => w <- others (put k w) ;; tick_user (Interrupt.setStatus Interrupt.UserMode w)
  | Halted k => Ok (Stopped (put k w))
  | Sleeps => Ok Waiting
  | Calls _ _ => Fault AssertFailed
  end.

Definition RaiseException (which : Machine.ExceptionType) (m : Machine.machine) (w : world) : result ending :=
  let w := Interrupt.setStatus Interrupt.SystemMode (Interrupt.set_machine (Some m) w) in
  r <- ExceptionHandler random seed which (kernel_of m w) ;;
  match r with
  | Calls c k =>
      v <- enter c (put k w) ;;
      match v with
      | None => Ok Gone
      | Some (v, w) =>
          match Interrupt.machine w with
          | None => Fault NullPointer
          | Some m => r <- resume c v (kernel_of m w) ;; finish r w
          end
      end
  | r => finish r w
  end.

(** The body of the loop, and [n] turns of it. *)
Definition turn (w : world) : result ending :=
  match Interrupt.machine w with
  | None => Fault NullPointer
  | Some m =>
      '(m, e) <- Mips.OneInstruction m ;;
      match e with
      | None => tick_user (Interrupt.set_machine (Some m) w)
      | Some which => RaiseException which m w
      end
  end.

Fixpoint Run (n : nat) (w : world) : result ending :=
  match n with
  | O => Ok (Running w)
  | S n => e <- turn w ;; match e with Running w => Run n w | e => Ok e end
  end.
End Run.

(** *** What holds between two instructions *)

Section invariant.
Context {X : Type} (apart : X -> Prop) (pt : list Machine.TranslationEntry).
Local Abbreviation world := (world X).
Local Abbreviation ending := (ending X).
Import Interrupt.

(** The thread that runs with page table [pt], in user or in system mode; [apart]
    is what the kernel keeps of the others. *)
Record computing (s : MachineStatus) (w : world) : Prop := {
  c_wf : wf w;
  c_armed : Timer.armed (pending w) (dev w);
  c_level : level w = IntOn;
  c_handler : inHandler w = false;
  c_status : status w = s;
  c_machine : exists m pt', machine w = Some m /\ Machine.regs_ok m /\ Machine.paged m pt' /\ Mips.mapping <$> pt' = Mips.mapping <$> pt;
  c_console : forall m, Total.resting (kernel_of m w);
  c_others : apart (ready w)
}.

Definition mem (w : world) (pa : Z) : option byte :=
  match machine w with Some m => Machine.mainMemory m !! pa | None => None end.

(** What the thread relies on while others run: it finds its registers and its
    page table as it left them, and the memory at the addresses of [quiet]. *)
Context (quiet : Z -> Prop) (slice : Z).
Record relies (w w' : world) : Prop := {
  rl_time : now w <= now w' <= now w + slice;
  rl_registers : exists m m', machine w = Some m /\ machine w' = Some m' /\ Machine.registers m' = Machine.registers m;
  rl_memory : forall pa, quiet pa -> mem w' pa = mem w pa
}.

Class Others (others : world -> result world) (enter : PTable.call -> world -> result (option (Z * world))) : Prop := {
  others_ok : forall w, computing SystemMode w -> now w + slice < horizon ->
    exists w', others w = Ok w' /\ computing SystemMode w' /\ relies w w';
  enter_ok : forall c w, computing SystemMode w -> now w + slice < horizon ->
    match enter c w with
    | Ok (Some (v, w')) => int_range v /\ computing SystemMode w' /\ relies w w'
    | Ok None => True
    | Fault f => f <> OutOfFuel
    end
}.

(** What it guarantees: it changes no memory outside its writable frames. *)
Definition guarded (w w' : world) : Prop := forall pa, quiet pa -> ~ Mips.writable pt pa -> mem w' pa = mem w pa.

Lemma guarded_trans w1 w2 w3 : guarded w1 w2 -> guarded w2 w3 -> guarded w1 w3.
Proof. intros H1 H2 pa Hq Hw. by rewrite H2, H1. Qed.
Lemma relies_guarded w w' : relies w w' -> guarded w w'.
Proof. intros [_ _ H] pa Hq _. by apply H. Qed.

Lemma mapping_writable pt' pa : Mips.mapping <$> pt' = Mips.mapping <$> pt -> Mips.writable pt' pa -> Mips.writable pt pa.
Proof. intros Hm (k & e & Hk & Hv & Hr & Hpa). by eapply Mips.mapped_writable. Qed.

(** The parts of the state [computing] reads. *)
Lemma computing_put s s' w k :
  computing s w -> Machine.regs_ok (cpu k) ->
  (exists pt', Machine.paged (cpu k) pt' /\ Mips.mapping <$> pt' = Mips.mapping <$> pt) -> Total.resting k ->
  computing s' (setStatus s' (put k w)).
Proof.
  intros [H1 H2 H3 H4 H5 H6 H7 H8] Hr (pt' & Hp & Hm) [Hi Ho]. split; try done.
  - by apply (wf_ext w).
  - by exists (cpu k), pt'.
Qed.

Lemma computing_status s s' w : computing s w -> computing s' (setStatus s' w).
Proof. intros [H1 H2 H3 H4 H5 H6 H7 H8]. split; try done. by apply (wf_ext w). Qed.
Lemma computing_same s w : status w = s -> computing s (setStatus s w) -> computing s w.
Proof. intros Hs [H1 H2 H3 H4 H5 H6 H7]. split; try done. by apply (wf_ext (setStatus s w)). Qed.

Lemma computing_machine s s' w m :
  computing s w -> Machine.regs_ok m -> (exists pt', Machine.paged m pt' /\ Mips.mapping <$> pt' = Mips.mapping <$> pt) ->
  computing s' (setStatus s' (set_machine (Some m) w)).
Proof.
  intros [H1 H2 H3 H4 H5 H6 H7 H8] Hr (pt' & Hp & Hm). split; try done.
  - by apply (wf_ext w).
  - by exists m, pt'.
Qed.

Lemma settled_ok (w w' : world) m pt' :
  machine w = Some m -> Machine.regs_ok m -> Machine.paged m pt' -> machine w' = machine w \/ settled w w' ->
  (forall pa, mem w' pa = mem w pa) /\ exists m', machine w' = Some m' /\ Machine.regs_ok m' /\ Machine.paged m' pt'.
Proof.
  intros Hm Hr Hp Hw. unfold mem. destruct Hw as [-> | Hw].
  - rewrite Hm. split; [done|]. by exists m.
  - unfold settled in Hw. rewrite Hm in *. destruct Hw as (m' & Hd & ->).
    destruct (Machine.DelayedLoad_ok m 0 0 Hr) as (m1 & Hd1 & Hr1 & _ & E1 & E2 & E3 & E4 & _); [by vm_compute|by vm_compute|].
    rewrite Hd in Hd1. injection Hd1 as <-. split; [by rewrite E1|]. exists m'. split; [done|]. split; [done|].
    unfold Machine.paged in *. by rewrite E2, E3, E4.
Qed.

(** *** One turn of the loop *)

Section turns.
Context (random : Z -> Z) (seed : Z) (RandomNumber : nat -> Z).
Context (others : world -> result world) (enter : PTable.call -> world -> result (option (Z * world))).
Context `{HO : !Others others enter}.
Hypothesis slice_nonneg : 0 <= slice.
Hypothesis RandomNumber_nonneg : forall i, 0 <= RandomNumber i.

(** Only an instruction, the handler or the process table can fail. *)
Definition failing (w : world) (f : fault) : Prop :=
  exists m, machine w = Some m /\
    (Mips.OneInstruction m = Fault f \/
     exists m', Mips.OneInstruction m = Ok (m', Some Machine.SyscallException) /\
       (ExceptionHandler random seed Machine.SyscallException (kernel_of m' w) = Fault f \/
        exists c k, ExceptionHandler random seed Machine.SyscallException (kernel_of m' w) = Ok (Calls c k) /\
          enter c (put k (setStatus SystemMode (set_machine (Some m') w))) = Fault f)).

Lemma tick_computing w : computing UserMode w -> now w + SystemTick + slice < horizon ->
  exists w', tick_user RandomNumber others w = Ok (Running w') /\ computing UserMode w' /\ guarded w w' /\
    now w + UserTick <= now w' <= now w + UserTick + slice.
Proof using HO slice_nonneg RandomNumber_nonneg.
  intros [H1 H2 H3 H4 H5 (m & pt' & Hm & Hr & Hp & Hpt) H7 H8] Hn. unfold tick_user.
  destruct (OneTick_ok (Timer.CallBack RandomNumber) _ (HH := Timer.Timer_handlers_rest RandomNumber RandomNumber_nonneg (snd (dev w))) others w)
    as (w1 & W1 & [W2 W2'] & _ & W3 & W4 & Hn1 & W5 & Hma & ->); try done.
  { unfold machine_ok. by rewrite Hm. }
  { lia. }
  destruct (settled_ok w w1 m pt' Hm Hr Hp Hma) as (Hmem & m1 & Hm1 & Hr1 & Hp1).
  rewrite H5 in Hn1, W4. rewrite bool_decide_eq_false_2 in Hn1 by done.
  assert (Hc1 : forall s b, computing s (setStatus s (set_yieldOnReturn b w1))).
  { intros s b. split; try done; [by apply (wf_ext w1)|by exists m1, pt'| |].
    - intros m2. unfold kernel_of. cbn. rewrite W2'. apply H7.
    - unfold ready. cbn. by rewrite W2'. }
  destruct (yieldOnReturn w1).
  - destruct (others_ok _ (Hc1 SystemMode false)) as (w2 & -> & C2 & R2).
    { change (now w1 + slice < horizon). unfold UserTick, SystemTick in *. lia. }
    cbn [bind]. rewrite H5. eexists. split; [done|]. destruct R2 as [T2 _ M2]. change (now w1 <= now w2 <= now w1 + slice) in T2.
    split; [|split].
    + by apply (computing_status SystemMode).
    + intros pa Hq _. change (mem w2 pa = mem w pa). rewrite M2 by done. apply Hmem.
    + change (now (setStatus UserMode w2)) with (now w2). lia.
  - cbn [bind]. exists w1. split; [done|]. split; [|split].
    + apply computing_same; [done|]. pose proof (Hc1 UserMode (yieldOnReturn w1)) as Hc. by destruct w1.
    + intros pa _ _. apply Hmem.
    + lia.
Qed.

(** The handler has returned. *)
Lemma finish_computing w k : computing SystemMode (put k w) -> now w + SystemTick + 2 * slice < horizon ->
  exists w', finish RandomNumber others (Value tt k) w = Ok (Running w') /\ computing UserMode w' /\ guarded (put k w) w' /\
    now w + UserTick <= now w' <= now w + UserTick + 2 * slice.
Proof using HO slice_nonneg RandomNumber_nonneg.
  intros Hc Hn. cbn [finish]. destruct (others_ok (put k w) Hc) as (w1 & -> & C1 & R1).
  { change (now (put k w)) with (now w). unfold SystemTick in *. lia. }
  pose proof (rl_time _ _ R1) as T1. change (now (put k w)) with (now w) in T1. cbn [bind].
  destruct (tick_computing (setStatus UserMode w1)) as (w2 & -> & C2 & G2 & T2).
  - by apply (computing_status SystemMode).
  - change (now (setStatus UserMode w1)) with (now w1). lia.
  - change (now (setStatus UserMode w1)) with (now w1) in T2. exists w2. split; [done|]. split; [done|]. split; [|unfold UserTick in *; lia].
    eapply guarded_trans; [by apply relies_guarded|exact G2].
Qed.

Lemma kept_mapping pt' m0 k : Mips.mapping <$> pt' = Mips.mapping <$> pt -> kept pt' m0 k ->
  Machine.regs_ok (cpu k) /\ (exists pt2, Machine.paged (cpu k) pt2 /\ Mips.mapping <$> pt2 = Mips.mapping <$> pt) /\
  forall pa, ~ Mips.writable pt pa -> Machine.mainMemory (cpu k) !! pa = Machine.mainMemory m0 !! pa.
Proof using Type.
  intros Hm [[E1 (pt2 & Hp & E2) E3 _ _] _ _]. split; [done|]. split; [exists pt2; split; [done|congruence]|].
  intros pa Hw. destruct (decide (Machine.mainMemory (cpu k) !! pa = Machine.mainMemory m0 !! pa)) as [E|E]; [done|].
  destruct Hw. by eapply mapping_writable, E3.
Qed.
Lemma ended_mapping pt' m0 k : Mips.mapping <$> pt' = Mips.mapping <$> pt -> ended pt' m0 k ->
  Machine.regs_ok (cpu k) /\ (exists pt2, Machine.paged (cpu k) pt2 /\ Mips.mapping <$> pt2 = Mips.mapping <$> pt) /\
  forall pa, ~ Mips.writable pt pa -> Machine.mainMemory (cpu k) !! pa = Machine.mainMemory m0 !! pa.
Proof using Type.
  intros Hm [E1 (pt2 & Hp & E2) E3 _ _ _ _ _]. split; [done|]. split; [exists pt2; split; [done|congruence]|].
  intros pa Hw. destruct (decide (Machine.mainMemory (cpu k) !! pa = Machine.mainMemory m0 !! pa)) as [E|E]; [done|].
  destruct Hw. by eapply mapping_writable, E3.
Qed.

(** A turn, from [w]: what it may end in. *)
Definition turned (w : world) (r : result ending) : Prop :=
  match r with
  | Ok (Running w') => computing UserMode w' /\ guarded w w' /\ now w + UserTick <= now w' <= now w + UserTick + 3 * slice
  | Ok _ => True
  | Fault f => f <> OutOfFuel /\ failing w f
  end.

Lemma incoming_int m (w : world) : Total.resting (kernel_of m w) -> int_range (Console.incoming (synchConsoleIn (kernel_of m w))).
Proof using Type. intros [(keys & e & s & r & ->) _]. by vm_compute. Qed.

(** A system call that returns without the process table. *)
Lemma finish_turned w0 w m k : computing SystemMode w -> machine w = Some m ->
  (exists pt', Mips.mapping <$> pt' = Mips.mapping <$> pt /\ ended pt' m k) -> Total.resting k ->
  guarded w0 w -> now w0 <= now w <= now w0 + slice -> now w0 + SystemTick + 3 * slice < horizon ->
  turned w0 (finish RandomNumber others (Value tt k) w).
Proof using HO slice_nonneg RandomNumber_nonneg.
  intros Hc Hm (pt' & Hpt & He) Hr Hg Ht Hn. destruct (ended_mapping pt' m k Hpt He) as (Hk & Hp & Hmem).
  destruct (finish_computing w k) as (w' & -> & C & G & T); [|lia|].
  - apply computing_same; [by destruct Hc|]. by apply (computing_put SystemMode).
  - split; [done|]. split; [|lia]. eapply guarded_trans; [exact Hg|]. eapply guarded_trans; [|exact G].
    intros pa _ Hw. unfold mem. rewrite Hm. cbn. by apply Hmem.
Qed.

(** A system call through the process table. *)
Lemma calls_turned w m m1 pt1 c k : computing UserMode w -> now w + SystemTick + 3 * slice < horizon ->
  machine w = Some m -> Mips.OneInstruction m = Ok (m1, Some Machine.SyscallException) -> Mips.mapping <$> pt1 = Mips.mapping <$> pt ->
  (forall pa, ~ Mips.writable pt pa -> Machine.mainMemory m1 !! pa = Machine.mainMemory m !! pa) ->
  let w1 := setStatus SystemMode (set_machine (Some m1) w) in
  computing SystemMode w1 ->
  ExceptionHandler random seed Machine.SyscallException (kernel_of m1 w) = Ok (Calls c k) -> kept pt1 m1 k -> Total.resting k ->
  (forall m0 k2 r, kept pt1 m0 k2 -> int_range r -> match resume c r k2 with Ok (Value _ k') => ended pt1 m0 k' | _ => False end) ->
  turned w (v <- enter c (put k w1) ;;
    match v with
    | None => Ok Gone
    | Some (v, w2) => match machine w2 with None => Fault NullPointer | Some m2 => r <- resume c v (kernel_of m2 w2) ;; finish RandomNumber others r w2 end
    end).
Proof using HO slice_nonneg RandomNumber_nonneg.
  intros Hc Hn Hm E1 Hpt Hw1 w1 C1 EH Hk Hrest Hres. destruct (kept_mapping pt1 m1 k Hpt Hk) as (Hr & Hp & Hmem).
  assert (Cp : computing SystemMode (put k w1)) by (apply computing_same; [done|by apply (computing_put SystemMode)]).
  pose proof (enter_ok c (put k w1) Cp) as He. change (now (put k w1)) with (now w) in He. specialize (He ltac:(unfold SystemTick in *; lia)).
  destruct (enter c (put k w1)) as [[[v w2]|]|f] eqn:Ee; cbn [bind]; [|done|].
  2: { split; [done|]. exists m. split; [done|]. right. exists m1. split; [done|]. right. by exists c, k. }
  destruct He as (Hv & C2 & R2). pose proof C2 as [_ _ _ _ _ (m2 & pt2 & Hm2 & Hr2 & Hp2 & Hpt2) Hrest2 _]. rewrite Hm2.
  assert (Hk2 : kept pt1 m2 (kernel_of m2 w2)).
  { split; [|done|by apply incoming_int]. split; try done. exists pt2. split; [done|congruence]. }
  specialize (Hres m2 (kernel_of m2 w2) v Hk2 Hv). pose proof (Total.total_resume c v (kernel_of m2 w2) (Hrest2 m2)) as Ht.
  destruct (resume c v (kernel_of m2 w2)) as [[[] k3|k3| |c3 k3]|f]; try done. cbn [bind].
  apply (finish_turned w w2 m2); [done|done|by exists pt1|done| |pose proof (rl_time _ _ R2) as T; change (now (put k w1)) with (now w) in T; lia|done].
  eapply guarded_trans; [|by apply relies_guarded]. intros pa _ Hpa. unfold mem. rewrite Hm. cbn. rewrite Hmem by done. by apply Hw1.
Qed.

Lemma turn_ok w : computing UserMode w -> now w + SystemTick + 3 * slice < horizon ->
  turned w (turn random seed RandomNumber others enter w).
Proof using HO slice_nonneg RandomNumber_nonneg.
  intros Hc Hn. pose proof Hc as [_ _ _ _ _ (m & pt' & Hm & Hr & Hp & Hpt) Hrest _]. unfold turn. rewrite Hm.
  pose proof (Mips.OneInstruction_ok m pt' Hr Hp) as H1. destruct (Mips.OneInstruction m) as [[m1 e]|f] eqn:E1; cbn [bind].
  2: { destruct H1 as [-> _]. split; [done|]. exists m. split; [done|]. by left. }
  destruct H1 as (Hr1 & _ & (pt1 & Hp1 & Hpt1) & Hmem1 & _).
  assert (Hpt1' : Mips.mapping <$> pt1 = Mips.mapping <$> pt) by congruence.
  assert (Hw1 : forall pa, ~ Mips.writable pt pa -> Machine.mainMemory m1 !! pa = Machine.mainMemory m !! pa).
  { intros pa Hw. destruct (decide (Machine.mainMemory m1 !! pa = Machine.mainMemory m !! pa)) as [E|E]; [done|].
    destruct Hw. by eapply mapping_writable, Hmem1. }
  assert (C1 : forall s, computing s (setStatus s (set_machine (Some m1) w))) by (intros s; apply (computing_machine UserMode); [done|done|by exists pt1]).
  assert (G1 : forall s, guarded w (setStatus s (set_machine (Some m1) w))) by (intros s pa _ Hw; unfold mem; rewrite Hm; by apply Hw1).
  destruct e as [which|].
  - unfold RaiseException. set (w1 := setStatus SystemMode (set_machine (Some m1) w)). change (kernel_of m1 w1) with (kernel_of m1 w).
    pose proof (Total.ExceptionHandler_good random seed which (kernel_of m1 w) Hr1 (Hrest m1)) as Hgood.
    pose proof (ExceptionHandler_ok random seed pt1 (kernel_of m1 w) which Hr1 Hp1 (incoming_int m1 w (Hrest m1))) as Hsafe.
    destruct which; try (rewrite Hsafe; done).
    + rewrite Hsafe. cbn [bind]. destruct (finish_computing w1 (kernel_of m1 w)) as (w' & -> & C & G & T).
      * apply computing_same; [done|]. apply (computing_put SystemMode); [apply C1|done|by exists pt1|apply Hrest].
      * change (now w1) with (now w). lia.
      * change (now w1) with (now w) in T. split; [done|]. split; [|lia]. eapply guarded_trans; [apply (G1 SystemMode)|exact G].
    + destruct (ExceptionHandler random seed Machine.SyscallException (kernel_of m1 w)) as [[[] k|k| |c k]|f] eqn:EH; cbn [bind]; try done.
      * apply (finish_turned w w1 m1); [apply C1|done|by exists pt1|exact Hgood|apply G1|change (now w1) with (now w); lia|lia].
      * destruct Hsafe as [Hkept Hres]. by apply (calls_turned w m m1 pt1).
      * split; [exact Hgood|]. exists m. split; [done|]. right. exists m1. split; [done|]. by left.
  - destruct (tick_computing (set_machine (Some m1) w)) as (w' & -> & C & G & T).
    + apply computing_same; [by destruct Hc|apply C1].
    + change (now (set_machine (Some m1) w)) with (now w). lia.
    + change (now (set_machine (Some m1) w)) with (now w) in T. split; [done|]. split; [|lia]. eapply guarded_trans; [|exact G].
      intros pa _ Hw. unfold mem. rewrite Hm. by apply Hw1.
Qed.

(** *** Runs *)

Lemma Run_ok n : forall w, computing UserMode w -> now w + Z.of_nat n * (UserTick + 3 * slice) + SystemTick < horizon ->
  match Run random seed RandomNumber others enter n w with
  | Ok (Running w') => computing UserMode w' /\ guarded w w' /\
      now w + Z.of_nat n * UserTick <= now w' <= now w + Z.of_nat n * (UserTick + 3 * slice)
  | Ok _ => True
  | Fault f => f <> OutOfFuel /\
      exists j wj, (j < n)%nat /\ Run random seed RandomNumber others enter j w = Ok (Running wj) /\ failing wj f
  end.
Proof using HO slice_nonneg RandomNumber_nonneg.
  induction n as [|n IH]; intros w Hc Hn; cbn [Run]; [split; [done|split; [done|lia]]|].
  assert (Hn' : Z.of_nat (S n) = Z.of_nat n + 1) by lia. rewrite Hn' in *.
  pose proof (turn_ok w Hc ltac:(unfold UserTick, SystemTick in *; nia)) as Ht.
  destruct (turn random seed RandomNumber others enter w) as [[w1|w1| |]|f] eqn:E; cbn [bind]; try done.
  - destruct Ht as (C1 & G1 & T1). specialize (IH w1 C1 ltac:(unfold UserTick in *; nia)).
    destruct (Run random seed RandomNumber others enter n w1) as [[w2|w2| |]|f]; try done.
    + destruct IH as (C2 & G2 & T2). split; [done|]. split; [by eapply guarded_trans|]. unfold UserTick in *. nia.
    + destruct IH as (Hf & j & wj & Hj & Hrun & Hfail). split; [done|]. exists (S j), wj. split; [lia|]. split; [|done]. cbn [Run]. by rewrite E.
  - destruct Ht as [Hf Hfail]. split; [done|]. exists 0%nat, w. split; [lia|]. done.
Qed.
End turns.
End invariant.

(** *** Time slices *)

Section slices.
Context {X : Type}.
Local Abbreviation world := (world X).
Context (random : Z -> Z) (seed : Z) (RandomNumber : nat -> Z) (others : world -> result world)
  (enter : PTable.call -> world -> result (option (Z * world))).
Hypothesis RandomNumber_nonneg : forall i, 0 <= RandomNumber i.
Import Interrupt.

(** [n] instructions without an exception. *)
Fixpoint computes (n : nat) (m : Machine.machine) : option Machine.machine :=
  match n with
  | O => Some m
  | S n => match Mips.OneInstruction m with Ok (m, None) => computes n m | _ => None end
  end.

(** A tick with nothing due. *)
Lemma quiet_tick w p : pending w = [p] -> level w = IntOn -> status w = UserMode -> yieldOnReturn w = false -> now (tick w) < when p ->
  tick_user RandomNumber others w = Ok (Running (tick w)).
Proof using Type.
  intros Hp Hl Hs Hy Hlt. unfold tick_user, OneTick, ChangeLevel. rewrite CheckIfDue_quiet; [|done|cbn; by rewrite Hp].
  cbn [bind]. change (yieldOnReturn (set_level IntOn (set_level IntOff (tick w)))) with (yieldOnReturn w). rewrite Hy. cbn [bind].
  do 2 f_equal. destruct w. cbn in *. by subst.
Qed.

Lemma Run_slice n : forall w m m' p pt, wf w -> level w = IntOn -> inHandler w = false -> status w = UserMode -> yieldOnReturn w = false ->
  pending w = [p] -> Timer.disable (Timer.the_timer w) = false ->
  machine w = Some m -> Machine.regs_ok m -> Machine.paged m pt -> computes (S n) m = Some m' ->
  when p = now w + Z.of_nat (S n) -> now w + Z.of_nat (S n) + SystemTick < horizon ->
  exists w1 m1, Machine.DelayedLoad 0 0 m' = Ok m1 /\ machine w1 = Some m1 /\ status w1 = SystemMode /\ now w1 = when p /\
    snd (dev w1) = snd (dev w) /\
    Run random seed RandomNumber others enter (S n) w = (w2 <- others w1 ;; Ok (Running (setStatus UserMode w2))) /\
    wf w1 /\ level w1 = IntOn /\ inHandler w1 = false /\ pending w1 <> [] /\ Machine.regs_ok m1 /\ Machine.mainMemory m1 = Machine.mainMemory m' /\
    exists pt1, Machine.paged m1 pt1 /\ Mips.mapping <$> pt1 = Mips.mapping <$> pt.
Proof using RandomNumber_nonneg.
  induction n as [|n IH]; intros w m m' p pt Hw Hl Hh Hs Hy Hp Hd Hm Hr Hpt Hc Hwhen Hn.
  all: cbn [computes] in Hc; pose proof (Mips.OneInstruction_ok m pt Hr Hpt) as H1.
  all: destruct (Mips.OneInstruction m) as [[m1 [e|]]|f] eqn:E1; try done; destruct H1 as (Hr1 & _ & (pt1 & Hpt1 & Hmap1) & _).
  all: set (w1 := set_machine (Some m1) w); assert (Hw1 : wf w1) by (by apply (wf_ext w)).
  all: assert (Hn1 : now w1 < horizon) by (change (now w < horizon); unfold SystemTick in *; lia).
  all: destruct (tick_wf w1 Hw1 Hn1) as [Hwt Hnt]; change (status w1) with (status w) in Hnt; rewrite Hs, bool_decide_eq_false_2 in Hnt by done.
  all: change (now w1) with (now w) in Hnt; unfold UserTick in Hnt.
  - injection Hc as <-. cbn [Run]. unfold turn. rewrite Hm, E1. cbn [bind]. fold w1.
    destruct (Timer.tick_forces_yield RandomNumber RandomNumber_nonneg others w1 p) as (k1 & q & Ho & S1 & L1 & I1 & _ & N1 & P1 & _ & _ & Hset & He & W1); try done.
    { by change (status w <> IdleMode); rewrite Hs. }
    { rewrite Hnt. lia. }
    { change (now w1) with (now w). lia. }
    unfold settled in Hset. destruct Hset as (m2 & Hd2 & Hm2). exists k1, m2. split; [done|]. split; [done|]. split; [done|]. split; [lia|]. split; [exact He|].
    split; [unfold tick_user; rewrite Ho; change (status w1) with (status w); rewrite Hs; by destruct (others k1)|].
    destruct (Machine.DelayedLoad_ok m1 0 0 Hr1) as (m3 & Hd3 & Hr3 & _ & E1' & E2 & E3 & E4 & _); [by vm_compute|by vm_compute|].
    rewrite Hd2 in Hd3. injection Hd3 as <-. split_and!; try done; [by rewrite P1|]. exists pt1. split; [|done].
    unfold Machine.paged in *. by rewrite E2, E3, E4.
  - change (Run random seed RandomNumber others enter (S (S n)) w) with
      (e <- turn random seed RandomNumber others enter w ;; match e with Running w => Run random seed RandomNumber others enter (S n) w | e => Ok e end).
    unfold turn. rewrite Hm, E1. cbn [bind]. fold w1. rewrite (quiet_tick w1 p) by (try done; rewrite Hnt; lia). cbn [bind].
    destruct (IH (tick w1) m1 m' p pt1) as (w2 & m2 & H2 & H3 & H4 & H5 & H6 & -> & G1 & G2 & G3 & G4 & G5 & G6 & pt2 & G7 & G8); try done.
    + rewrite Hnt. lia.
    + rewrite Hnt. lia.
    + exists w2, m2. split_and!; try done. exists pt2. split; [done|congruence].
Qed.
End slices.

(** *** A machine with one program *)

Import Interrupt.

(** Nobody else runs; Join and Exec are refused. *)
Definition alone {X} (w : world X) : result (world X) := Ok w.
Definition no_processes {X} (c : PTable.call) (w : world X) : result (option (Z * world X)) :=
  match c with PTable.CExit _ => Ok None | _ => Ok (Some (-1, w)) end.

Lemma relies_refl {X} apart quiet pt s (w : world X) : computing apart pt s w -> relies quiet 0 w w.
Proof. intros [_ _ _ _ _ (m & _ & Hm & _) _ _]. split; [lia|by exists m, m|done]. Qed.

#[export] Instance alone_others {X} (apart : X -> Prop) pt quiet : Others apart pt quiet 0 alone no_processes.
Proof.
  split.
  - intros w Hw _. exists w. split; [done|]. split; [done|]. by eapply relies_refl.
  - intros c w Hw _. assert (Hv : int_range (-1)) by by vm_compute. destruct c; cbn [no_processes]; try done; (split; [exact Hv|]; split; [done|by eapply relies_refl]).
Qed.

(** A processor with a program in the frame of page 0. *)
Definition cpu_with (words : list Z) : Machine.machine :=
  Machine.setreg Machine.NextPCReg 4 (Machine.install pages_example (Machine.set_memory
    (fun _ => Machine.store_bytes 2560 (concat (le_bytes 4 <$> words)) ∅) Machine.example_machine)).

(** At the start of a time slice of 100 ticks. *)
Definition slice_example : Interrupt.PendingInterrupt := Interrupt.mkPending 0 Timer.TheTimer 100 Interrupt.TimerInt.
Definition world_with (words : list Z) : world unit :=
  Interrupt.mkKernel IntOn [slice_example] false false UserMode zero_stats (Some (cpu_with words)) 1 (Timer.mkTimer false false 0, rest_of kernel_example tt).

Lemma world_with_started words :
  Timer.Timer (fun _ => 0) false (Interrupt.Interrupt (Some (cpu_with words)) (Timer.mkTimer false false 0, rest_of kernel_example tt)) =
  Ok (set_level IntOff (setStatus SystemMode (world_with words))).
Proof. reflexivity. Qed.

Lemma world_with_computing words : computing (fun _ => True) pages_example UserMode (world_with words).
Proof.
  split; try done.
  - by apply (Timer.one_pending_wf _ slice_example).
  - by right.
  - exists (cpu_with words), pages_example. split; [done|]. split; [|done]. apply Machine.setreg_ok; [|by vm_compute|by vm_compute|done].
    exact (Machine.example_regs_ok pages_example).
  - intros m. destruct Total.kernel_example_resting. by split.
Qed.

(** li $4,42; li $2,PrintNum; syscall; li $2,Halt; syscall *)
Definition print_program : list Z := [0x2404002A; 0x2402002F; 0x0000000C; 0x24020000; 0x0000000C].
(** loop: addiu $8,$8,1; j loop; nop *)
Definition counting_program : list Z := [0x25080001; 0x08000000; 0].

Lemma print_program_runs :
  match Run id 0 (fun _ => 0) alone no_processes 5 (world_with print_program) with
  | Ok (Stopped w) => r_consoleOut (snd (dev w)) = Console.display [x34; x32] /\ userTicks (stats w) = 4
  | _ => False
  end.
Proof. vm_compute. done. Qed.

(** ** Properties *)

(** C3: the kernel is safe from the programs it runs.  Whatever is in the memory
    and the registers of a user program, running it for any number of turns (as
    long as simulated time does not overflow, and the other threads keep to what
    [Others] states) either goes on, with a well-formed processor, the page table
    it was given, a console at rest, interrupts on, and no address outside its
    writable frames changed by it, every instruction taking a tick; or ends in a
    halt, a wait or the process table; or fails in an instruction, a system call
    or the process table, from a state of that kind, and not for want of rounds of
    a loop: never in the interrupts, the timer, or the switch to other threads. *)
Theorem Run_safe {X} (apart : X -> Prop) pt quiet slice random seed RandomNumber others enter `{!Others apart pt quiet slice others enter} n w
    (Hslice : 0 <= slice) (HR : forall i, 0 <= RandomNumber i)
    (Hw : computing apart pt UserMode w) (Hn : now w + Z.of_nat n * (UserTick + 3 * slice) + SystemTick < horizon) :
  match Run random seed RandomNumber others enter n w with
  | Ok (Running w') => computing apart pt UserMode w' /\
      (forall pa, quiet pa -> ~ Mips.writable pt pa -> mem w' pa = mem w pa) /\
      now w + Z.of_nat n * UserTick <= now w' <= now w + Z.of_nat n * (UserTick + 3 * slice)
  | Ok _ => True
  | Fault f => f <> OutOfFuel /\
      exists j wj, (j < n)%nat /\ Run random seed RandomNumber others enter j w = Ok (Running wj) /\ failing random seed enter wj f
  end.
Proof. exact (Run_ok apart pt quiet slice random seed RandomNumber others enter Hslice HR n w Hw Hn). Qed.

(** C14: a program that makes no system call is interrupted: it runs for exactly
    the ticks that are left of its time slice, one instruction each; then the
    timer's interrupt completes the load in progress and the thread yields, in
    system mode, with the processor as the last instruction left it, and goes on
    in user mode when it gets the processor back. *)
Theorem timer_preempts {X} (apart : X -> Prop) random seed RandomNumber others enter n w m m' p pt
    (HR : forall i, 0 <= RandomNumber i) (Hw : computing apart pt UserMode w) (Hy : yieldOnReturn w = false)
    (Hp : pending w = [p]) (Hd : Timer.disable (Timer.the_timer w) = false) (Hm : machine w = Some m)
    (Hc : computes (S n) m = Some m') (Hwhen : when p = now w + Z.of_nat (S n)) (Hn : when p + SystemTick < horizon) :
  exists w1 m1, Machine.DelayedLoad 0 0 m' = Ok m1 /\ machine w1 = Some m1 /\ status w1 = SystemMode /\ now w1 = when p /\
    snd (dev w1) = snd (dev w) /\
    Run random seed RandomNumber others enter (S n) w = (w2 <- others w1 ;; Ok (Running (setStatus UserMode w2))).
Proof.
  destruct Hw as [H1 H2 H3 H4 H5 (m0 & pt' & Hm0 & Hr & Hpt & _) _ _]. rewrite Hm in Hm0. injection Hm0 as <-.
  destruct (Run_slice random seed RandomNumber others enter HR n w m m' p pt') as (w1 & m1 & G1 & G2 & G3 & G4 & G5 & G6 & _); try done; [lia|].
  by exists w1, m1.
Qed.

Lemma Run_safe_witness :
  computing (fun _ => True) pages_example UserMode (world_with print_program) /\
  match Run id 0 (fun _ => 0) alone no_processes 3 (world_with print_program) with
  | Ok (Running w) => computing (fun _ => True) pages_example UserMode w /\ forall pa, ~ Mips.writable pages_example pa -> mem w pa = mem (world_with print_program) pa
  | _ => False
  end.
Proof.
  split; [exact (world_with_computing print_program)|].
  pose proof (Run_safe (fun _ => True) pages_example (fun _ => True) 0 id 0 (fun _ => 0) alone no_processes 3 (world_with print_program)
    (Z.le_refl 0) (fun _ => Z.le_refl 0) (world_with_computing print_program) ltac:(vm_compute; reflexivity)) as H.
  assert (E : match Run id 0 (fun _ => 0) alone no_processes 3 (world_with print_program) with Ok (Running _) => true | _ => false end = true) by (vm_compute; reflexivity).
  destruct (Run id 0 (fun _ => 0) alone no_processes 3 (world_with print_program)) as [[w| | |]|]; try discriminate E.
  destruct H as (H1 & H2 & _). split; [exact H1|]. intros pa. by apply H2.
Defined.

Lemma timer_preempts_witness :
  computing (fun _ => True) pages_example UserMode (world_with counting_program) /\ exists w1,
    status w1 = SystemMode /\ now w1 = 100 /\
    Run id 0 (fun _ => 0) alone no_processes 100 (world_with counting_program) = Ok (Running (setStatus UserMode w1)).
Proof.
  split; [exact (world_with_computing counting_program)|].
  destruct (computes 100 (cpu_with counting_program)) as [m'|] eqn:Hc; [|exfalso; revert Hc; vm_compute; discriminate].
  destruct (timer_preempts (fun _ => True) id 0 (fun _ => 0) alone no_processes 99 (world_with counting_program) (cpu_with counting_program) m' slice_example pages_example)
    as (w1 & m1 & _ & _ & H1 & H2 & _ & H3); [done|exact (world_with_computing counting_program)|done..|exact Hc|done|by vm_compute|].
  exists w1. split; [exact H1|]. split; [exact H2|]. exact H3.
Defined.
End Run.
