(* ===== verification/TimeSharing.v ===== *)
(** * threads/scheduler.cc: user programs that share the processor

    Run.v leaves what other threads do as an interface; here are threads that run
    other user programs, on the same machine: the switch of Scheduler::Run around
    each of them, with the registers in the thread and the page table in its
    address space, and turns of Machine::Run in between. *)

From Stdlib Require Import Strings.Byte.
From S2P Require Import Prelude LibBitmap Machine Mips Interrupt Timer Threads Disk Sysdep StubFS Console AddrSpace STable PTable Syscalls Run.

Module TimeSharing.
Import Interrupt.

(** A thread that is not running: [userRegisters], and the [space] with the page
    table the machine used. *)
Record Thread := mkThread { userRegisters : list Z; space : AddrSpace.AddrSpace }.

Abbreviation world := (Run.world (list Thread)).

(** [Scheduler::Run]: what is done for the old thread before SWITCH, and for the
    new one after it. *)
Definition switch_out (m : Machine.machine) : result Thread :=
  regs <- Threads.SaveUserState m ;;
  match Machine.pageTable m with
  | None => Fault NullPointer
  | Some pt => Ok (mkThread regs (AddrSpace.mkSpace pt (Machine.pageTableSize m)))
  end.
Definition switch_in (t : Thread) (m : Machine.machine) : result Machine.machine :=
  m <- Threads.RestoreUserState (userRegisters t) m ;; Ok (AddrSpace.RestoreState (space t) m).

Section sharing.
Context (random : Z -> Z) (seed : Z) (RandomNumber : nat -> Z).
(** For how many turns a thread that has the processor goes on. *)
Context (quantum : nat).

(** A thread that halts, waits, ends or fails takes no more turns. *)
Fixpoint turns (n : nat) (w : world) : world :=
  match n with
  | O => w
  | S n => match Run.turn random seed RandomNumber Run.alone Run.no_processes w with Ok (Run.Running w) => turns n w | _ => w end
  end.

Definition the_machine (w : world) : result Machine.machine := match machine w with Some m => Ok m | None => Fault NullPointer end.
Definition set_ready (ts : list Thread) (w : world) : world :=
  let r := snd (dev w) in
  set_dev (fst (dev w), Run.mkRest (Run.r_host r) (Run.r_files r) (Run.r_consoleIn r) (Run.r_consoleOut r) (Run.r_sTab r) ts) w.

(** One thread of the ready list has the processor, and goes to its end. *)
Definition dispatch (t : Thread) (w : world) : result (Thread * world) :=
  m <- the_machine w ;;
  m <- switch_in t m ;;
  let w := turns quantum (setStatus UserMode (set_machine (Some m) w)) in
  m <- the_machine w ;;
  t <- switch_out m ;;
  Ok (t, setStatus SystemMode w).

Fixpoint round (ts : list Thread) (w : world) : result (list Thread * world) :=
  match ts with
  | [] => Ok ([], w)
  | t :: ts => '(t, w) <- dispatch t w ;; '(ts, w) <- round ts w ;; Ok (t :: ts, w)
  end.

(** [Thread::Yield] of the current thread: it goes to the end of the ready list,
    and has the processor again when all others have had it. *)
Definition Yield (w : world) : result world :=
  m <- the_machine w ;;
  current <- switch_out m ;;
  '(ts, w) <- round (Run.ready w) w ;;
  m <- the_machine w ;;
  m <- switch_in current m ;;
  Ok (set_ready ts (set_machine (Some m) w)).
End sharing.

(** ** What the others keep to *)

(** A physical address in a frame of the table. *)
Definition in_frames (pt : list Machine.TranslationEntry) (pa : Z) : Prop :=
  exists k e, pt !! k = Some e /\ Machine.valid e = true /\
    u32 (Machine.physicalPage e) * Machine.PageSize <= pa < (u32 (Machine.physicalPage e) + 1) * Machine.PageSize.

Lemma in_frames_disjoint pt1 pt2 pa : Machine.disjoint_frames pt1 pt2 -> in_frames pt1 pa -> in_frames pt2 pa -> False.
Proof.
  intros Hd (i & e1 & H1 & V1 & R1) (j & e2 & H2 & V2 & R2). apply (Hd i j e1 e2 H1 H2 V1 V2). unfold Machine.PageSize in *. lia.
Qed.
Lemma writable_in_frames pt pa : Mips.writable pt pa -> in_frames pt pa.
Proof. intros (k & e & H1 & H2 & _ & H3). by exists k, e. Qed.

Lemma disjoint_mapping pt pt2 pt2' : Mips.mapping <$> pt2' = Mips.mapping <$> pt2 -> Machine.disjoint_frames pt pt2 -> Machine.disjoint_frames pt pt2'.
Proof.
  intros Hm Hd i j e1 e2 H1 H2 V1 V2. assert (Hj : (Mips.mapping <$> pt2) !! j = Some (Mips.mapping e2)) by (by rewrite <- Hm, list_lookup_fmap, H2).
  rewrite list_lookup_fmap in Hj. destruct (pt2 !! j) as [e|] eqn:E; [|done]. injection Hj as _ Hp Hv _.
  rewrite <- Hp. apply (Hd i j e1 e H1 E V1). by rewrite Hv.
Qed.

(** A thread that is not running: its registers are a processor's, and its frames
    are none of [pt]. *)
Record parked (pt : list Machine.TranslationEntry) (t : Thread) : Prop := {
  p_length : Z.of_nat (length (userRegisters t)) = Machine.NumTotalRegs;
  p_range : Forall int_range (userRegisters t);
  p_load : 0 <= userRegisters t !!! Z.to_nat Machine.LoadReg < Machine.NumGPRegs;
  p_table : Z.of_nat (length (AddrSpace.pageTable (space t))) = AddrSpace.numPages (space t);
  p_frames : Machine.disjoint_frames pt (AddrSpace.pageTable (space t))
}.

Definition neighbours (n : nat) (pt : list Machine.TranslationEntry) (ts : list Thread) : Prop := length ts = n /\ Forall (parked pt) ts.

(** The processor with a thread's registers and page table. *)
Lemma switch_in_ok pt t m : parked pt t -> Machine.regs_ok m -> Machine.tlb m = None ->
  exists m', switch_in t m = Ok m' /\ Machine.regs_ok m' /\ Machine.paged m' (AddrSpace.pageTable (space t)) /\
    Machine.registers m' = userRegisters t /\ Machine.mainMemory m' = Machine.mainMemory m.
Proof.
  intros [H1 H2 H3 H4 _] (Hl & _) Ht. unfold switch_in, Threads.RestoreUserState.
  pose proof (Threads.restore_from_ok (userRegisters t) [] (Machine.registers m) m) as Hr. cbn [app length] in Hr. change (Z.of_nat 0) with 0 in Hr. rewrite Hr by (done || lia).
  cbn [bind]. eexists. split; [done|]. split; [by split|]. split; [by split|]. done.
Qed.

Lemma switch_out_ok m pt : Machine.regs_ok m -> Machine.paged m pt ->
  switch_out m = Ok (mkThread (Machine.registers m) (AddrSpace.mkSpace pt (Z.of_nat (length pt)))).
Proof.
  intros (Hl & _) (_ & Hp & Hs). unfold switch_out, Threads.SaveUserState. rewrite Threads.save_from_ok by done. cbn [bind].
  by rewrite Hp, Hs.
Qed.

Lemma parked_out pt pt2 m : Machine.regs_ok m -> Machine.disjoint_frames pt pt2 ->
  parked pt (mkThread (Machine.registers m) (AddrSpace.mkSpace pt2 (Z.of_nat (length pt2)))).
Proof. intros (H1 & H2 & H3) Hd. by split. Qed.

Section keep.
Context (random : Z -> Z) (seed : Z) (RandomNumber : nat -> Z) (quantum : nat).
Hypothesis RandomNumber_nonneg : forall i, 0 <= RandomNumber i.

Lemma turns_ok x pt n : forall w : world, Run.computing (fun y => y = x) pt UserMode w -> now w + Z.of_nat n + SystemTick < horizon ->
  let w' := turns random seed RandomNumber n w in
  Run.computing (fun y => y = x) pt UserMode w' /\ (forall pa, ~ Mips.writable pt pa -> Run.mem w' pa = Run.mem w pa) /\
  now w <= now w' <= now w + Z.of_nat n.
Proof using RandomNumber_nonneg.
  induction n as [|n IH]; intros w Hc Hn; cbn [turns]; [split; [done|split; [done|lia]]|].
  pose proof (Run.turn_ok (fun y => y = x) pt (fun _ => True) 0 random seed RandomNumber Run.alone Run.no_processes
    (HO := Run.alone_others _ pt (fun _ => True)) (Z.le_refl 0) RandomNumber_nonneg w Hc
    ltac:(lia)) as Ht.
  destruct (Run.turn random seed RandomNumber Run.alone Run.no_processes w) as [[w1|w1| |]|f]; cbn [Run.turned] in Ht.
  2-5: split; [done|split; [done|lia]].
  destruct Ht as (C1 & G1 & T1). unfold UserTick in T1. destruct (IH w1 C1 ltac:(lia)) as (C2 & G2 & T2). split; [done|]. split; [|lia].
  intros pa Hpa. rewrite G2 by done. by apply G1.
Qed.

(** Somebody's turn has ended, and nobody's has begun. *)
Definition held (x : list Thread) (w : world) : Prop := exists pt, Run.computing (fun y => y = x) pt SystemMode w.

Lemma the_machine_ok x w : held x w -> exists m, machine w = Some m /\ the_machine w = Ok m /\ Machine.regs_ok m /\ Machine.tlb m = None.
Proof using Type.
  intros (pt & [_ _ _ _ _ (m & pt' & Hm & Hr & (Ht & _) & _) _ _]). exists m. unfold the_machine. by rewrite Hm.
Qed.

(** Another thread's table and registers in the processor. *)
Lemma computing_switch x pt w m s : held x w -> Machine.regs_ok m -> Machine.paged m pt ->
  Run.computing (fun y => y = x) pt s (setStatus s (set_machine (Some m) w)).
Proof using Type.
  intros (pt0 & Hc) Hr Hp. destruct Hc. split; try done.
  - by apply (wf_ext w).
  - by exists m, pt.
Qed.

Lemma dispatch_ok pt x t w : held x w -> parked pt t -> now w + Z.of_nat quantum + SystemTick < horizon ->
  exists t' w', dispatch random seed RandomNumber quantum t w = Ok (t', w') /\ held x w' /\ parked pt t' /\
    (forall pa, in_frames pt pa -> Run.mem w' pa = Run.mem w pa) /\ now w <= now w' <= now w + Z.of_nat quantum.
Proof using RandomNumber_nonneg.
  intros Hh Ht Hn. destruct (the_machine_ok x w Hh) as (m & Hm & Em & Hr & Hx).
  destruct (switch_in_ok pt t m Ht Hr Hx) as (m1 & E1 & Hr1 & Hp1 & _ & Hmem1). unfold dispatch. rewrite Em. cbn [bind]. rewrite E1. cbn [bind].
  set (w1 := setStatus UserMode (set_machine (Some m1) w)).
  pose proof (computing_switch x _ w m1 UserMode Hh Hr1 Hp1) as C1. fold w1 in C1.
  destruct (turns_ok x (AddrSpace.pageTable (space t)) quantum w1 C1 Hn) as (C2 & G2 & T2).
  set (w2 := turns random seed RandomNumber quantum w1) in *.
  assert (Hh2 : held x (setStatus SystemMode w2)) by (eexists; by apply (Run.computing_status _ _ UserMode)).
  pose proof C2 as [_ _ _ _ _ (m2 & pt2 & Hm2 & Hr2 & Hp2 & Hpt2) _ _]. unfold the_machine. rewrite Hm2. cbn [bind].
  rewrite (switch_out_ok m2 pt2 Hr2 Hp2). cbn [bind]. eexists _, _. split; [done|]. split; [done|].
  split; [apply parked_out; [done|]; eapply disjoint_mapping; [exact Hpt2|apply Ht]|]. split; [|exact T2].
  intros pa Hpa. change (Run.mem (setStatus SystemMode w2) pa) with (Run.mem w2 pa). rewrite G2.
  - unfold Run.mem, w1. cbn. by rewrite Hm, Hmem1.
  - intros Hw%writable_in_frames. by eapply in_frames_disjoint, Hw; [apply Ht|].
Qed.

Lemma round_ok pt x ts : forall w, held x w -> Forall (parked pt) ts -> now w + Z.of_nat (length ts * quantum) + SystemTick < horizon ->
  exists ts' w', round random seed RandomNumber quantum ts w = Ok (ts', w') /\ held x w' /\ length ts' = length ts /\ Forall (parked pt) ts' /\
    (forall pa, in_frames pt pa -> Run.mem w' pa = Run.mem w pa) /\ now w <= now w' <= now w + Z.of_nat (length ts * quantum).
Proof using RandomNumber_nonneg.
  induction ts as [|t ts IH]; intros w Hh Hf Hn; cbn [round].
  - exists [], w. do 5 (split; [done|]). cbn [length]. lia.
  - inversion_clear Hf as [|? ? Ht Hts]. cbn [length] in *. rewrite Nat.mul_succ_l in *.
    destruct (dispatch_ok pt x t w Hh Ht) as (t1 & w1 & -> & Hh1 & Hp1 & Hm1 & T1); [lia|]. cbn [bind].
    destruct (IH w1 Hh1 Hts) as (ts2 & w2 & -> & Hh2 & Hl2 & Hp2 & Hm2 & T2); [lia|]. cbn [bind].
    exists (t1 :: ts2), w2. split; [done|]. split; [done|]. split; [cbn; lia|]. split; [by constructor|]. split; [|lia].
    intros pa Hpa. rewrite Hm2 by done. by apply Hm1.
Qed.

(** How long the others have the processor, and the tick that is counted apart. *)
Definition pause (k : nat) : Z := Z.of_nat (k * quantum) + SystemTick.

(** The current thread and its neighbours, before and after it has yielded. *)
Record resumed (k : nat) (pt : list Machine.TranslationEntry) (w w' : world) : Prop := {
  re_computing : Run.computing (neighbours k pt) pt SystemMode w';
  re_time : now w <= now w' <= now w + Z.of_nat (k * quantum);
  re_machine : exists m m', machine w = Some m /\ machine w' = Some m' /\ Machine.regs_ok m' /\
    Machine.registers m' = Machine.registers m /\ Machine.pageTable m' = Machine.pageTable m;
  re_memory : forall pa, in_frames pt pa -> Run.mem w' pa = Run.mem w pa
}.

Lemma Yield_turn k pt w : Run.computing (neighbours k pt) pt SystemMode w -> now w + pause k < horizon ->
  exists w', Yield random seed RandomNumber quantum w = Ok w' /\ resumed k pt w w'.
Proof using RandomNumber_nonneg.
  intros Hc Hn. unfold pause in Hn. pose proof Hc as [H1 H2 H3 H4 H5 (m & pt0 & Hm & Hr & Hp & Hpt) H7 [Hk Hts]].
  assert (Hh : held (Run.ready w) w) by (exists pt; by split; [..|exists m, pt0| |]).
  unfold Yield, the_machine at 1. rewrite Hm. cbn [bind]. rewrite (switch_out_ok m pt0 Hr Hp). cbn [bind].
  destruct (round_ok pt (Run.ready w) (Run.ready w) w Hh Hts) as (ts & w1 & -> & Hh1 & Hl1 & Hp1 & Hm1 & T1); [rewrite Hk; lia|]. cbn [bind].
  destruct (the_machine_ok _ w1 Hh1) as (m1 & Em1 & -> & Hr1 & Hx1). cbn [bind].
  destruct (switch_in_ok [] (mkThread (Machine.registers m) (AddrSpace.mkSpace pt0 (Z.of_nat (length pt0)))) m1) as (m2 & -> & Hr2 & Hp2 & Eregs & Emem).
  { by apply parked_out. } { done. } { done. }
  cbn [bind]. eexists. split; [done|]. destruct Hh1 as (pt1 & [G1 G2 G3 G4 G5 _ G7 _]). split.
  - split; try done; [by apply (wf_ext w1)|exists m2, pt0; done|rewrite <- Hk; by split].
  - rewrite <- Hk. exact T1.
  - exists m, m2. split_and!; try done. destruct Hp as (_ & -> & _). by destruct Hp2 as (_ & -> & _).
  - intros pa Hpa. rewrite <- Hm1 by done. unfold Run.mem. cbn. by rewrite Em1, Emem.
Qed.

(** What Run.v asks of the others. *)
Lemma neighbours_others k pt : Run.Others (neighbours k pt) pt (in_frames pt) (pause k) (Yield random seed RandomNumber quantum) Run.no_processes.
Proof using RandomNumber_nonneg.
  assert (Hs : 0 <= pause k) by (unfold pause, SystemTick; lia). split.
  - intros w Hw Hn. destruct (Yield_turn k pt w Hw Hn) as (w' & E & [R1 R2 (m & m' & M1 & M2 & _ & M3 & _) R4]). exists w'. split; [done|]. split; [done|].
    split; [unfold pause, SystemTick; lia|by exists m, m'|done].
  - intros c w Hw _. assert (Hv : int_range (-1)) by by vm_compute.
    assert (Hrel : Run.relies (in_frames pt) (pause k) w w).
    { destruct Hw as [_ _ _ _ _ (m & _ & Hm & _) _ _]. split; [lia|by exists m, m|done]. }
    by destruct c.
Qed.
End keep.

(** ** An example: two programs *)

(** loop: addiu $8,$8,1; sw $8,64($0); j loop; nop *)
Definition storing_program : list Z := [0x25080001; 0xAC080040; 0x08000000; 0].

(** The counting program in frame 5, the storing one in frame 6. *)
Definition words_at (a : Z) (words : list Z) (mem : gmap Z byte) : gmap Z byte := Machine.store_bytes a (concat (le_bytes 4 <$> words)) mem.
Definition cpu_example : Machine.machine :=
  Machine.setreg Machine.NextPCReg 4 (Machine.install Syscalls.pages_example (Machine.set_memory
    (fun _ => words_at 3072 storing_program (words_at 2560 Run.counting_program ∅)) Machine.example_machine)).
Definition neighbour_example : Thread :=
  mkThread (Machine.registers (Machine.setreg Machine.NextPCReg 4 Machine.example_machine)) (AddrSpace.mkSpace [Machine.frame 6] 1).
Definition world_example : world :=
  mkKernel IntOn [Run.slice_example] false false UserMode zero_stats (Some cpu_example) 1
    (Timer.mkTimer false false 0, Run.rest_of Syscalls.kernel_example [neighbour_example]).

Lemma example_neighbours : Run.computing (neighbours 1 Syscalls.pages_example) Syscalls.pages_example UserMode world_example.
Proof.
  split; try done.
  - by apply (Timer.one_pending_wf _ Run.slice_example).
  - by right.
  - exists cpu_example, Syscalls.pages_example. split; [done|]. split; [|done]. apply Machine.setreg_ok; [|by vm_compute|by vm_compute|done].
    exact (Machine.example_regs_ok Syscalls.pages_example).
  - intros m. destruct Total.kernel_example_resting. by split.
  - split; [done|]. constructor; [|constructor]. split; try done.
    + apply Forall_insert; [|by vm_compute]. apply Forall_replicate. by vm_compute.
    + intros i j e1 e2 H1 H2 _ _. destruct i as [|[|i]], j as [|[|j]]; try done. injection H1 as <-. injection H2 as <-. by vm_compute.
Qed.

(** ** Properties *)




End TimeSharing.
