(* ===== verification/UserPrograms.v ===== *)
(** * test/sort.c, test/my_sort.c, test/matmult.c: programs that compute

    The C of the user programs: arrays as lists read and written by index, an
    [int] as [Z], system calls as the calls a program makes, in order.  The calls
    themselves are in Syscalls.v. *)

From Stdlib Require Import Strings.Byte.
From stdpp Require Import sorting.
From S2P Require Import Prelude Kernel.

(** A [for] loop over the values of its variable. *)
Fixpoint for_ {S} (ks : list Z) (body : Z -> S -> result S) (s : S) : result S :=
  match ks with [] => Ok s | k :: ks => s <- body k s ;; for_ ks body s end.

Lemma for_app {S} ks1 ks2 body (s : S) : for_ (ks1 ++ ks2) body s = (s <- for_ ks1 body s ;; for_ ks2 body s).
Proof.
  revert s. induction ks1 as [|k ks1 IH]; intros s; [done|]. cbn [for_ app]. destruct (body k s); cbn [bind]; [apply IH|done].
Qed.

Lemma for_ext {S} ks (f g : Z -> S -> result S) : (forall k s, f k s = g k s) -> forall s, for_ ks f s = for_ ks g s.
Proof. intros Hfg. induction ks as [|k ks IH]; intros s; [done|]. cbn [for_]. rewrite Hfg. destruct (g k s); [apply IH|done]. Qed.

(** ** Bubble sort *)

Module Bubble.

(** [if (arr[j] > arr[j + 1])] swap, [out] being the comparison. *)
Definition step (out : Z -> Z -> bool) (j : Z) (arr : list Z) : result (list Z) :=
  x <- lget arr j ;;
  y <- lget arr (j + 1) ;;
  if out x y then
    arr <- lset arr j y ;;
    lset arr (j + 1) x
  else Ok arr.

Section order.
Context (out : Z -> Z -> bool).
Definition le (x y : Z) : Prop := out x y = false.
Hypothesis le_total : forall x y, out x y = true -> le y x.
Hypothesis le_trans : forall x y z, le x y -> le y z -> le x z.

(** A pass of [m] comparisons, on the list. *)
Fixpoint bubble (m : nat) (l : list Z) : list Z :=
  match m, l with
  | S m, x :: (y :: l) as l' => if out x y then y :: bubble m (x :: l) else x :: bubble m l'
  | _, _ => l
  end.

Lemma step_at pre x y l : step out (Z.of_nat (length pre)) (pre ++ x :: y :: l) =
  Ok (if out x y then pre ++ y :: x :: l else pre ++ x :: y :: l).
Proof using Type.
  unfold step. assert (Hx : lget (pre ++ x :: y :: l) (Z.of_nat (length pre)) = Ok x).
  { apply lget_ok. split; [lia|]. rewrite Nat2Z.id. by apply list_lookup_middle. }
  assert (Hy : lget (pre ++ x :: y :: l) (Z.of_nat (length pre) + 1) = Ok y).
  { apply lget_ok. split; [lia|]. replace (Z.to_nat _) with (length (pre ++ [x])) by (rewrite length_app; cbn; lia).
    replace (pre ++ x :: y :: l) with ((pre ++ [x]) ++ y :: l) by (by rewrite <- app_assoc). by apply list_lookup_middle. }
  rewrite Hx, Hy. cbn [bind]. destruct (out x y); [|done].
  rewrite lset_in by (rewrite length_app; cbn; lia). cbn [bind]. rewrite Nat2Z.id, insert_app_r_alt, Nat.sub_diag by lia. cbn [insert list_insert].
  rewrite lset_in by (rewrite length_app; cbn; lia). f_equal.
  replace (pre ++ y :: y :: l) with ((pre ++ [y]) ++ y :: l) by (by rewrite <- app_assoc).
  rewrite insert_app_r_alt by (rewrite length_app; cbn; lia). rewrite length_app. replace (_ - _)%nat with 0%nat by (cbn; lia).
  cbn [insert list_insert]. by rewrite <- app_assoc.
Qed.

Lemma pass_ok m : forall pre l, (m < length l)%nat ->
  for_ (seqZ (Z.of_nat (length pre)) (Z.of_nat m)) (step out) (pre ++ l) = Ok (pre ++ bubble m l).
Proof using Type.
  induction m as [|m IH]; intros pre l Hm.
  - rewrite seqZ_nil by done. by destruct l.
  - destruct l as [|x [|y l]]; try (cbn in Hm; lia). rewrite seqZ_cons by lia. cbn [for_ bubble]. rewrite step_at. cbn [bind].
    replace (Z.pred (Z.of_nat (S m))) with (Z.of_nat m) by lia.
    destruct (out x y).
    + specialize (IH (pre ++ [y]) (x :: l)). rewrite <- !app_assoc in IH. cbn [app] in IH. rewrite <- IH by (cbn in *; lia).
      f_equal. f_equal. rewrite length_app. cbn. lia.
    + specialize (IH (pre ++ [x]) (y :: l)). rewrite <- !app_assoc in IH. cbn [app] in IH. rewrite <- IH by (cbn in *; lia).
      f_equal. f_equal. rewrite length_app. cbn. lia.
Qed.

Lemma bubble_perm m : forall l, bubble m l ≡ₚ l.
Proof using Type.
  induction m as [|m IH]; intros [|x [|y l]]; try done. cbn [bubble]. destruct (out x y); rewrite IH; [apply perm_swap|done].
Qed.

Lemma bubble_sorted m : forall l, Sorted.StronglySorted le l -> bubble m l = l.
Proof using Type.
  induction m as [|m IH]; intros [|x [|y l]] Hs; try done. cbn [bubble]. inversion_clear Hs as [|? ? Hs' Hf].
  inversion_clear Hf as [|? ? Hxy _]. unfold le in Hxy. rewrite Hxy. f_equal. by apply IH.
Qed.

(** The largest element of the front goes to its end, and no further. *)
Lemma bubble_front m : forall x front back, (length front <= m)%nat -> Sorted.StronglySorted le back ->
  (forall a b, a ∈ x :: front -> b ∈ back -> le a b) ->
  exists front' mx, bubble m ((x :: front) ++ back) = front' ++ mx :: back /\ front' ++ [mx] ≡ₚ x :: front /\
    length front' = length front /\ forall a, a ∈ front' -> le a mx.
Proof using le_total le_trans.
  induction m as [|m IH]; intros x front back Hm Hs Hle.
  - destruct front; [|cbn in Hm; lia]. exists [], x. cbn. split; [by destruct back|]. split; [done|]. split; [done|]. intros a Ha. by apply elem_of_nil in Ha.
  - destruct front as [|y front].
    + exists [], x. split; [|split; [done|split; [done|intros a Ha; by apply elem_of_nil in Ha]]]. apply (bubble_sorted (S m) (x :: back)). constructor; [done|].
      apply Forall_forall. intros b Hb. apply Hle; [by left|done].
    + cbn [app bubble]. destruct (out x y) eqn:E.
      * destruct (IH x front back) as (f & mx & Hb & Hp & Hlen & Hmx); [cbn in Hm; lia|done|intros a b Ha Hb; apply Hle; [set_solver|done]|].
        cbn [app] in Hb. rewrite Hb. exists (y :: f), mx. split; [done|]. split; [cbn [app]; rewrite Hp; apply perm_swap|]. split; [cbn; lia|].
        intros a [->|Ha]%elem_of_cons; [|by apply Hmx]. assert (Hx : x ∈ f ++ [mx]) by (rewrite Hp; by left).
        apply elem_of_app in Hx as [Hx|Hx]; [apply (le_trans _ x); [by apply le_total|by apply Hmx]|]. apply list_elem_of_singleton in Hx as ->. by apply le_total.
      * destruct (IH y front back) as (f & mx & Hb & Hp & Hlen & Hmx); [cbn in Hm; lia|done|intros a b Ha Hb; apply Hle; [set_solver|done]|].
        cbn [app] in Hb. rewrite Hb. exists (x :: f), mx. split; [done|]. split; [cbn [app]; by rewrite Hp|]. split; [cbn; lia|].
        intros a [->|Ha]%elem_of_cons; [|by apply Hmx]. assert (Hy : y ∈ f ++ [mx]) by (rewrite Hp; by left).
        apply elem_of_app in Hy as [Hy|Hy]; [apply (le_trans _ y); [done|by apply Hmx]|]. by apply list_elem_of_singleton in Hy as ->.
Qed.

Lemma bubble_app m : forall l r, (m < length l)%nat -> bubble m (l ++ r) = bubble m l ++ r.
Proof using Type.
  induction m as [|m IH]; intros l r Hm; [by destruct l|]. destruct l as [|x [|y l]]; try (cbn in Hm; lia). cbn [app bubble].
  destruct (out x y); [rewrite app_comm_cons, IH by (cbn in *; lia); done|]. rewrite app_comm_cons, IH by (cbn in *; lia). done.
Qed.

(** ** Passes *)

(** After [i] passes the last [i] elements are in their places. *)
Definition placed (i : nat) (l : list Z) : Prop :=
  exists front back, l = front ++ back /\ length back = i /\ Sorted.StronglySorted le back /\
    forall a b, a ∈ front -> b ∈ back -> le a b.

Lemma placed_next i m l : placed i l -> (i < length l)%nat -> (length l - 1 - i <= m)%nat -> placed (S i) (bubble m l).
Proof using le_total le_trans.
  intros (front & back & -> & Hi & Hs & Hle) Hlt Hm. rewrite length_app in *. destruct front as [|x front]; [cbn in Hlt; lia|].
  destruct (bubble_front m x front back) as (f & mx & -> & Hp & Hlen & Hmx); [cbn in *; lia|done|done|].
  assert (Hin : forall a, a ∈ f \/ a = mx -> a ∈ x :: front) by (intros a Ha; rewrite <- Hp, elem_of_app, list_elem_of_singleton; tauto).
  exists f, (mx :: back). split; [done|]. split; [cbn; lia|]. split.
  - constructor; [done|]. apply Forall_forall. intros b Hb. apply Hle; [apply Hin; by right|done].
  - intros a b Ha [->|Hb]%elem_of_cons; [by apply Hmx|]. apply Hle; [apply Hin; by left|done].
Qed.

Lemma placed_all l : placed (length l - 1) l -> Sorted.StronglySorted le l.
Proof using Type.
  intros (front & back & -> & Hi & Hs & Hle). rewrite length_app in Hi. destruct front as [|x [|y front]].
  - by cbn in *.
  - cbn [app]. constructor; [done|]. apply Forall_forall. intros b Hb. apply Hle; [by left|done].
  - cbn in Hi. lia.
Qed.

(** The nested loops, [comparisons i] being the bound of the inner one. *)
Lemma passes_ok (comparisons : Z -> Z) rest k : forall i l,
  placed i l -> (i + k <= length l)%nat ->
  (forall j, (i <= j < i + k)%nat -> Z.of_nat (length l) - 1 - Z.of_nat j <= comparisons (Z.of_nat j) < Z.of_nat (length l)) ->
  exists l', for_ (seqZ (Z.of_nat i) (Z.of_nat k)) (fun i => for_ (seqZ 0 (comparisons i)) (step out)) (l ++ rest) = Ok (l' ++ rest) /\
    l' ≡ₚ l /\ placed (i + k) l'.
Proof using le_total le_trans.
  induction k as [|k IH]; intros i l Hp Hk Hc.
  - exists l. rewrite seqZ_nil by done. by rewrite Nat.add_0_r.
  - rewrite seqZ_cons by lia. cbn [for_]. pose proof (Hc i ltac:(lia)) as Hci. set (m := Z.to_nat (comparisons (Z.of_nat i))).
    assert (Hrun : for_ (seqZ 0 (comparisons (Z.of_nat i))) (step out) (l ++ rest) = Ok (bubble m l ++ rest)).
    { pose proof (pass_ok m [] (l ++ rest)) as Hpass. cbn [app length] in Hpass. unfold m in *. rewrite Z2Nat.id in Hpass by lia.
      change (Z.of_nat 0) with 0 in Hpass. rewrite Hpass by (rewrite length_app; lia). by rewrite bubble_app by lia. }
    rewrite Hrun. cbn [bind]. pose proof (bubble_perm m l) as Hperm. pose proof (Permutation_length Hperm) as Hlen.
    replace (Z.pred (Z.of_nat (S k))) with (Z.of_nat k) by lia. replace (Z.succ (Z.of_nat i)) with (Z.of_nat (S i)) by lia.
    destruct (IH (S i) (bubble m l)) as (l' & -> & Hp' & Hpl).
    + apply placed_next; [done|lia|unfold m; lia].
    + lia.
    + intros j Hj. rewrite Hlen. apply Hc. lia.
    + exists l'. split; [done|]. split; [by rewrite Hp'|]. by rewrite Nat.add_succ_r.
Qed.
End order.

(** The comparisons of the two directions. *)
Lemma gt_total x y : (x >? y) = true -> le Z.gtb y x.
Proof. unfold le. rewrite Z.gtb_lt. intros H. apply not_true_iff_false. rewrite Z.gtb_lt. lia. Qed.
Lemma gt_le x y : le Z.gtb x y <-> x <= y.
Proof. unfold le. rewrite <- not_true_iff_false, Z.gtb_lt. lia. Qed.
Lemma lt_le x y : le Z.ltb x y <-> y <= x.
Proof. unfold le. rewrite <- not_true_iff_false, Z.ltb_lt. lia. Qed.
End Bubble.

(** ** test/sort.c *)

Module Sort.
Definition SIZE : Z := 1024.

(** What [main] passes to [Exit]; the array's first contents are [A]. *)
Fixpoint check (ks : list Z) (A : list Z) : result Z :=
  match ks with
  | [] => Ok 0
  | i :: ks => x <- lget A i ;; if negb (bool_decide (x = i)) then Ok 1 else check ks A
  end.

Definition main (A : list Z) : result Z :=
  A <- for_ (seqZ 0 SIZE) (fun i A => lset A i (SIZE - 1 - i)) A ;;
  A <- for_ (seqZ 0 SIZE) (fun _ => for_ (seqZ 0 (SIZE - 1)) (Bubble.step Z.gtb)) A ;;
  check (seqZ 0 SIZE) A.

Lemma init_ok (f : Z -> Z) (k : nat) : forall A, (k <= length A)%nat ->
  for_ (seqZ 0 (Z.of_nat k)) (fun i A => lset A i (f i)) A = Ok ((f <$> seqZ 0 (Z.of_nat k)) ++ drop k A).
Proof.
  induction k as [|k IH]; intros A Hk; [done|]. replace (Z.of_nat (S k)) with (Z.of_nat k + 1) by lia.
  rewrite seqZ_app by lia. rewrite for_app, IH by lia. cbn [bind]. rewrite Z.add_0_l.
  rewrite (seqZ_cons (Z.of_nat k) 1), (seqZ_nil _ (Z.pred 1)) by done. cbn [for_]. rewrite lset_in by (rewrite length_app, length_drop, length_fmap, length_seqZ; lia). cbn [bind]. f_equal.
  rewrite fmap_app, <- app_assoc. rewrite insert_app_r_alt by (rewrite length_fmap, length_seqZ; lia).
  f_equal. rewrite length_fmap, length_seqZ, !Nat2Z.id, Nat.sub_diag.
  destruct (lookup_lt_is_Some_2 A k) as [x Hx]; [lia|]. by rewrite (drop_S _ _ _ Hx).
Qed.

(** The values it fills the array with, from the largest down. *)
Lemma reversed_perm : (fun i => SIZE - 1 - i) <$> seqZ 0 SIZE ≡ₚ seqZ 0 SIZE.
Proof.
  assert (H : (fun i => SIZE - 1 - i) <$> seqZ 0 SIZE = reverse (seqZ 0 SIZE)) by (vm_compute; reflexivity).
  rewrite H. apply reverse_Permutation.
Qed.

Lemma sort_ok l : length l = Z.to_nat SIZE ->
  exists l', for_ (seqZ 0 SIZE) (fun _ => for_ (seqZ 0 (SIZE - 1)) (Bubble.step Z.gtb)) l = Ok l' /\ l' ≡ₚ l /\ Sorted.StronglySorted Z.le l'.
Proof.
  intros Hl. assert (Htr : forall x y z, Bubble.le Z.gtb x y -> Bubble.le Z.gtb y z -> Bubble.le Z.gtb x z).
  { intros x y z. rewrite !Bubble.gt_le. lia. }
  destruct (Bubble.passes_ok Z.gtb Bubble.gt_total Htr (fun _ => SIZE - 1) [] 1023 0 l) as (l' & Hrun & Hp & Hpl).
  - exists l, []. rewrite app_nil_r. split; [done|]. split; [done|]. split; [constructor|]. intros a b _ Hb. by apply elem_of_nil in Hb.
  - rewrite Hl. unfold SIZE. lia.
  - intros j Hj. unfold SIZE in *. lia.
  - rewrite !app_nil_r in Hrun. pose proof (Permutation_length Hp) as Hlen.
    assert (Hs : Sorted.StronglySorted (Bubble.le Z.gtb) l').
    { apply Bubble.placed_all. rewrite Hlen, Hl. exact Hpl. }
    exists l'. split; [|split; [done|]].
    + change (seqZ 0 SIZE) with (seqZ (Z.of_nat 0) (Z.of_nat 1023) ++ [1023]). rewrite for_app, Hrun. cbn [bind for_].
      pose proof (Bubble.pass_ok Z.gtb (Z.to_nat (SIZE - 1)) [] l') as Hpass. cbn [app] in Hpass. rewrite Z2Nat.id in Hpass by done.
      change (Z.of_nat (length [])) with 0 in Hpass. rewrite Hpass by (rewrite Hlen, Hl; unfold SIZE; lia). cbn [bind]. by rewrite Bubble.bubble_sorted.
    + clear Hrun Hpl Hp Hlen. induction Hs as [|x l' Hs IH Hf]; constructor; [done|]. eapply Forall_impl; [exact Hf|]. intros y. apply Bubble.gt_le.
Qed.

(** The program sorts: it exits with 0, whatever its array held. *)
Lemma sort_main A : length A = Z.to_nat SIZE -> main A = Ok 0.
Proof.
  intros HA. unfold main. pose proof (init_ok (fun i => SIZE - 1 - i) (Z.to_nat SIZE) A ltac:(lia)) as Hi. rewrite Z2Nat.id in Hi by done.
  rewrite Hi, drop_ge, app_nil_r by lia. cbn [bind]. destruct (sort_ok ((fun i => SIZE - 1 - i) <$> seqZ 0 SIZE)) as (l' & -> & Hp & Hs).
  { by rewrite length_fmap, length_seqZ. }
  cbn [bind]. assert (E : l' = seqZ 0 SIZE).
  { apply (StronglySorted_unique Z.le); [done| |by rewrite Hp, reversed_perm]. apply (bool_decide_unpack _). by vm_compute. }
  rewrite E. vm_compute. reflexivity.
Qed.
End Sort.

(** ** test/my_sort.c *)

Module MySort.
Definition MAX_SIZE_ARR : Z := 100.

(** The same step as Bubble.step, with the assignments in the other order. *)
Definition swap_step (out : Z -> Z -> bool) (j : Z) (arr : list Z) : result (list Z) :=
  x <- lget arr j ;;
  y <- lget arr (j + 1) ;;
  if out x y then
    arr <- lset arr (j + 1) x ;;
    lset arr j y
  else Ok arr.

Definition bubbleSort (arr : list Z) (n isIncrease : Z) : result (list Z) :=
  arr <- (if bool_decide (isIncrease = 1) then
            for_ (seqZ 0 (n - 1)) (fun i => for_ (seqZ 0 (n - i - 1)) (swap_step Z.gtb)) arr
          else Ok arr) ;;
  if bool_decide (isIncrease = 2) then
    for_ (seqZ 0 (n - 1)) (fun i => for_ (seqZ 0 (n - i - 1)) (swap_step Z.ltb)) arr
  else Ok arr.

(** The calls of the program, and the numbers it will read. *)
Inductive call := PrintString (s : list byte) | PrintNum (n : Z) | PrintChar (c : byte) | ReadNum | Halt.
Record terminal := mkTerminal { input : list Z; calls : list call }.

Definition io (c : call) (t : terminal) : terminal := mkTerminal (input t) (calls t ++ [c]).
Definition say (s : string) (t : terminal) : terminal := io (PrintString (str s)) t.
(** [None]: no number comes. *)
Definition read (t : terminal) : option (Z * terminal) :=
  match input t with n :: ns => Some (n, mkTerminal ns (calls t ++ [ReadNum])) | [] => None end.

Definition newline : byte := x0a.
Fixpoint show (ks : list Z) (arr : list Z) (t : terminal) : result terminal :=
  match ks with
  | [] => Ok t
  | i :: ks =>
      x <- lget arr i ;;
      let t := io (PrintChar x20) (io (PrintNum x) t) in
      show ks arr (if bool_decide (Z.rem i 10 = 9) then io (PrintChar newline) t else t)
  end.
Definition showArr (arr : list Z) (n : Z) (t : terminal) : result terminal :=
  t <- show (seqZ 0 n) arr (io (PrintString (str "Array: " ++ [newline])) t) ;; Ok (io (PrintChar newline) t).

(** The loops on input, structural on what there is to read: [None] when it
    runs out. *)
Fixpoint ask (text : list byte) (refused : Z -> bool) (ns : list Z) (cs : list call) : option (Z * terminal) :=
  match ns with
  | [] => None
  | n :: ns =>
      if refused n then ask text refused ns (cs ++ [ReadNum; PrintString text]) else Some (n, mkTerminal ns (cs ++ [ReadNum]))
  end.

Fixpoint fill (ks : list Z) (Arr : list Z) (t : terminal) : result (option (list Z * terminal)) :=
  match ks with
  | [] => Ok (Some (Arr, t))
  | i :: ks =>
      match read (say "] :" (io (PrintNum i) (say "A[" t))) with
      | None => Ok None
      | Some (x, t) => Arr <- lset Arr i x ;; fill ks Arr t
      end
  end.

Definition range_text : list byte := str "Range of the amount [1,100]. Please input again: ".
Definition choice_text : list byte := str "Input 1 to sort this array in ascending, or 2 to sort it in descending: " ++ [newline].

(** [main]: the array's first contents, the terminal; [None]: it waits for a
    number that does not come. *)
Definition main (Arr : list Z) (t : terminal) : result (option terminal) :=
  let t := say "Input the amount of array: " t in
  match ask range_text (fun n => (n >? 100) || (n <=? 0)) (input t) (calls t) with
  | None => Ok None
  | Some (n, t) =>
      r <- fill (seqZ 0 n) Arr (io (PrintString (str "Input array: " ++ [newline])) t) ;;
      match r with
      | None => Ok None
      | Some (Arr, t) =>
          t <- showArr Arr n (io (PrintString (str "Array before Sorting: " ++ [newline])) t) ;;
          let t := io (PrintString choice_text) t in
          match ask choice_text (fun c => negb (bool_decide (c = 1)) && negb (bool_decide (c = 2))) (input t) (calls t) with
          | None => Ok None
          | Some (isIncrease, t) =>
              Arr <- bubbleSort Arr n isIncrease ;;
              t <- showArr Arr n (io (PrintString (str "Array after Sorting: " ++ [newline])) t) ;;
              Ok (Some (io Halt t))
          end
      end
  end.

(** ** The sort *)

(** The order of a choice. *)
Definition ordered (dir : Z) : Z -> Z -> Prop := if decide (dir = 1) then Z.le else Z.ge.

Lemma swap_step_eq out j arr : swap_step out j arr = Bubble.step out j arr.
Proof.
  unfold swap_step, Bubble.step. destruct (lget arr j) as [x|] eqn:Ex; [|done]. cbn [bind].
  destruct (lget arr (j + 1)) as [y|] eqn:Ey; [|done]. cbn [bind]. destruct (out x y); [|done].
  apply lget_ok in Ex as [Hj Ex]. apply lget_ok in Ey as [_ Ey]. apply lookup_lt_Some in Ex, Ey.
  rewrite !lset_in by lia. cbn [bind]. rewrite !lset_in by (rewrite length_insert; lia). f_equal. apply list_insert_insert_ne. lia.
Qed.

Lemma passes out (Htot : forall x y, out x y = true -> Bubble.le out y x)
    (Htr : forall x y z, Bubble.le out x y -> Bubble.le out y z -> Bubble.le out x z) l rest :
  let n := Z.of_nat (length l) in
  exists l', for_ (seqZ 0 (n - 1)) (fun i => for_ (seqZ 0 (n - i - 1)) (swap_step out)) (l ++ rest) = Ok (l' ++ rest) /\
    l' ≡ₚ l /\ Sorted.StronglySorted (Bubble.le out) l'.
Proof.
  intros n. rewrite (for_ext _ _ (fun i => for_ (seqZ 0 (n - i - 1)) (Bubble.step out))) by (intros i s; apply for_ext, swap_step_eq).
  destruct (decide (length l = 0%nat)) as [E|E].
  { apply length_zero_iff_nil in E. subst l. exists []. split; [done|]. split; [done|]. constructor. }
  destruct (Bubble.passes_ok out Htot Htr (fun i => n - i - 1) rest (length l - 1) 0 l) as (l' & Hrun & Hp & Hpl).
  - exists l, []. rewrite app_nil_r. split; [done|]. split; [done|]. split; [constructor|]. intros a b _ Hb. by apply elem_of_nil in Hb.
  - lia.
  - intros j Hj. unfold n in *. lia.
  - replace (Z.of_nat (length l - 1)) with (n - 1) in Hrun by (unfold n in *; lia).
    exists l'. split; [exact Hrun|]. split; [done|]. apply Bubble.placed_all. by rewrite (Permutation_length Hp).
Qed.

Lemma bubbleSort_ok l rest dir : dir = 1 \/ dir = 2 ->
  exists l', bubbleSort (l ++ rest) (Z.of_nat (length l)) dir = Ok (l' ++ rest) /\ l' ≡ₚ l /\ Sorted.StronglySorted (ordered dir) l'.
Proof.
  intros [-> | ->]; unfold bubbleSort.
  - destruct (passes Z.gtb Bubble.gt_total) with (l := l) (rest := rest) as (l' & Hrun & Hp & Hs).
    { intros x y z. rewrite !Bubble.gt_le. lia. }
    rewrite bool_decide_eq_true_2, Hrun by done. cbn [bind]. rewrite bool_decide_eq_false_2 by done. exists l'. split; [done|]. split; [done|].
    clear Hrun Hp. induction Hs as [|x l' Hs IH Hf]; constructor; [done|]. eapply Forall_impl; [exact Hf|]. intros y. apply Bubble.gt_le.
  - destruct (passes Z.ltb) with (l := l) (rest := rest) as (l' & Hrun & Hp & Hs).
    { intros x y. rewrite Bubble.lt_le, Z.ltb_lt. lia. }
    { intros x y z. rewrite !Bubble.lt_le. lia. }
    rewrite bool_decide_eq_false_2 by done. cbn [bind]. rewrite bool_decide_eq_true_2, Hrun by done. exists l'. split; [done|]. split; [done|].
    clear Hrun Hp. induction Hs as [|x l' Hs IH Hf]; constructor; [done|]. eapply Forall_impl; [exact Hf|]. intros y. rewrite Bubble.lt_le. change (y <= x -> x >= y). lia.
Qed.

(** ** What is shown *)

Fixpoint rows (i : Z) (l : list Z) : list call :=
  match l with
  | [] => []
  | x :: l => [PrintNum x; PrintChar x20] ++ (if bool_decide (Z.rem i 10 = 9) then [PrintChar newline] else []) ++ rows (i + 1) l
  end.
Definition shown (l : list Z) : list call := PrintString (str "Array: " ++ [newline]) :: rows 0 l ++ [PrintChar newline].

Lemma show_ok l : forall pre rest t,
  show (seqZ (Z.of_nat (length pre)) (Z.of_nat (length l))) (pre ++ l ++ rest) t =
  Ok (mkTerminal (input t) (calls t ++ rows (Z.of_nat (length pre)) l)).
Proof.
  induction l as [|x l IH]; intros pre rest t.
  - rewrite seqZ_nil by done. cbn [show rows]. rewrite app_nil_r. by destruct t.
  - rewrite seqZ_cons by (cbn; lia). cbn [show rows]. rewrite (proj2 (lget_ok _ _ x)) by (rewrite Nat2Z.id; split; [lia|by apply list_lookup_middle]).
    cbn [bind]. specialize (IH (pre ++ [x]) rest). rewrite length_app, <- app_assoc in IH. cbn [app length] in IH.
    replace (Z.of_nat (length pre + 1)) with (Z.succ (Z.of_nat (length pre))) in IH by lia.
    replace (Z.pred (Z.of_nat (length (x :: l)))) with (Z.of_nat (length l)) by (cbn; lia). cbn [app]. rewrite IH.
    change (Z.of_nat (length pre) + 1) with (Z.succ (Z.of_nat (length pre))). f_equal. case_bool_decide; cbn [io input calls]; f_equal; by rewrite <- !app_assoc.
Qed.

Lemma showArr_ok l rest t : showArr (l ++ rest) (Z.of_nat (length l)) t = Ok (mkTerminal (input t) (calls t ++ shown l)).
Proof.
  unfold showArr. pose proof (show_ok l [] rest (io (PrintString (str "Array: " ++ [newline])) t)) as Hs. cbn [app length] in Hs.
  change (Z.of_nat 0) with 0 in Hs. rewrite Hs. cbn [bind]. unfold io. cbn [input calls]. unfold shown. by rewrite <- !app_assoc.
Qed.

(** ** The dialogue *)

Lemma ask_ok text refused bad n ns : Forall (fun x => refused x = true) bad -> refused n = false -> forall cs,
  exists cs', ask text refused (bad ++ n :: ns) cs = Some (n, mkTerminal ns cs').
Proof.
  intros Hb Hn. induction Hb as [|x bad Hx Hb IH]; intros cs; cbn [app ask]; [rewrite Hn; by eexists|]. rewrite Hx. apply IH.
Qed.

Lemma fill_all nums : forall pre old t ns, input t = nums ++ ns -> length old = length nums -> forall rest,
  exists cs, fill (seqZ (Z.of_nat (length pre)) (Z.of_nat (length nums))) (pre ++ old ++ rest) t =
    Ok (Some (pre ++ nums ++ rest, mkTerminal ns cs)).
Proof.
  induction nums as [|x nums IH]; intros pre old t ns Hi Hl rest.
  - destruct old; [|done]. rewrite seqZ_nil by done. exists (calls t). cbn [fill app]. cbn in Hi. rewrite <- Hi. by destruct t.
  - destruct old as [|y old]; [done|]. rewrite seqZ_cons by (cbn; lia). cbn [fill]. unfold read. cbn [say io input calls]. rewrite Hi. cbn [app].
    rewrite lset_in by (rewrite length_app; cbn; lia). cbn [bind]. rewrite Nat2Z.id, insert_app_r_alt, Nat.sub_diag by lia. cbn [insert list_insert].
    replace (Z.pred (Z.of_nat (length (x :: nums)))) with (Z.of_nat (length nums)) by (cbn; lia).
    match goal with |- context [fill _ _ ?t'] => destruct (IH (pre ++ [x]) old t' ns) with (rest := rest) as (cs & Hf); [done|cbn in Hl; lia|] end.
    exists cs. rewrite length_app, <- !(app_assoc pre) in Hf. cbn [app length] in Hf.
    replace (Z.of_nat (length pre + 1)) with (Z.succ (Z.of_nat (length pre))) in Hf by lia. exact Hf.
Qed.

(** The whole dialogue. *)
Lemma main_dialogue Arr bad nums badc c rest cs :
  length Arr = Z.to_nat MAX_SIZE_ARR -> (1 <= length nums <= 100)%nat -> Forall (fun n => n > 100 \/ n <= 0) bad ->
  Forall (fun c => c <> 1 /\ c <> 2) badc -> c = 1 \/ c = 2 ->
  exists before l, main Arr (mkTerminal (bad ++ Z.of_nat (length nums) :: nums ++ badc ++ c :: rest) cs) =
      Ok (Some (mkTerminal rest (before ++ shown l ++ [Halt]))) /\
    l ≡ₚ nums /\ Sorted.StronglySorted (ordered c) l.
Proof.
  intros HA Hn Hb Hbc Hc. unfold main. cbn [say io input calls].
  match goal with |- context [ask range_text ?r _ ?cs0] => 
    destruct (ask_ok range_text r bad (Z.of_nat (length nums)) (nums ++ badc ++ c :: rest)) with (cs := cs0) as (cs1 & ->) end.
  { eapply Forall_impl; [exact Hb|]. intros n Hx. cbn beta in Hx. apply orb_true_iff. rewrite Z.gtb_lt, Z.leb_le. lia. }
  { apply orb_false_iff. rewrite <- !not_true_iff_false, Z.gtb_lt, Z.leb_le. lia. }
  cbn [io input calls].
  assert (HArr : Arr = take (length nums) Arr ++ drop (length nums) Arr) by by rewrite take_drop.
  match goal with |- context [fill _ _ ?t'] => 
    destruct (fill_all nums [] (take (length nums) Arr) t' (badc ++ c :: rest)) with (rest := drop (length nums) Arr) as (cs2 & Hf) end;
    [done|rewrite length_take, HA; unfold MAX_SIZE_ARR; lia|].
  cbn [app length] in Hf. change (Z.of_nat 0) with 0 in Hf. rewrite <- HArr in Hf. rewrite Hf. cbn [bind]. rewrite showArr_ok. cbn [bind io input calls].
  match goal with |- context [ask choice_text ?r _ ?cs0] => destruct (ask_ok choice_text r badc c rest) with (cs := cs0) as (cs3 & ->) end.
  { eapply Forall_impl; [exact Hbc|]. intros n [H1 H2]. by rewrite !bool_decide_eq_false_2. }
  { destruct Hc as [-> | ->]; done. }
  destruct (bubbleSort_ok nums (drop (length nums) Arr) c Hc) as (l & -> & Hp & Hs). cbn [bind].
  rewrite <- (Permutation_length Hp), showArr_ok. cbn [bind io input calls].
  eexists _, l. split; [|split; [exact Hp|exact Hs]]. unfold io. cbn [input calls]. rewrite <- (app_assoc _ (shown l) [Halt]). reflexivity.
Qed.

(** C39: whatever numbers out of range and choices other than 1 and 2 are typed
    before acceptable ones, the program reads all of them, never indexes outside
    its array of 100, and ends by showing exactly the numbers given, in the order
    chosen, and halting; what is left of the input stays unread. *)
Theorem my_sort_sorts Arr bad nums badc c rest cs
    (HArr : length Arr = Z.to_nat MAX_SIZE_ARR) (Hn : (1 <= length nums <= 100)%nat)
    (Hbad : Forall (fun n => n > 100 \/ n <= 0) bad) (Hbadc : Forall (fun c => c <> 1 /\ c <> 2) badc)
    (Hc : c = 1 \/ c = 2) :
  exists before l,
    main Arr (mkTerminal (bad ++ Z.of_nat (length nums) :: nums ++ badc ++ c :: rest) cs) =
      Ok (Some (mkTerminal rest (before ++ shown l ++ [Halt]))) /\
    l ≡ₚ nums /\ Sorted.StronglySorted (ordered c) l.
Proof. exact (main_dialogue Arr bad nums badc c rest cs HArr Hn Hbad Hbadc Hc). Qed.

Lemma my_sort_sorts_witness : exists before l,
  main (replicate 100 7) (mkTerminal [0; 101; 3; 5; -2; 9; 4; 2; 8] []) = Ok (Some (mkTerminal [8] (before ++ shown l ++ [Halt]))) /\
  l ≡ₚ [5; -2; 9] /\ Sorted.StronglySorted (ordered 2) l.
Proof.
  apply (my_sort_sorts (replicate 100 7) [0; 101] [5; -2; 9] [4] 2 [8] []).
  - reflexivity.
  - cbn. lia.
  - repeat constructor; lia.
  - repeat constructor; lia.
  - by right.
Defined.
End MySort.

(** ** test/matmult.c *)

Module MatMult.
Definition Dim : Z := 20.

(** A matrix by rows; [update] is an assignment to an entry. *)
Definition get (M : list (list Z)) (i j : Z) : result Z := row <- lget M i ;; lget row j.
Definition update (M : list (list Z)) (i j x : Z) : result (list (list Z)) :=
  row <- lget M i ;; row <- lset row j x ;; lset M i row.

Definition matrices : Type := list (list Z) * list (list Z) * list (list Z).

Definition init_body (i j : Z) (m : matrices) : result matrices :=
  let '(A, B, C) := m in
  A <- update A i j i ;; B <- update B i j j ;; C <- update C i j 0 ;; Ok (A, B, C).

Definition product_body (i j k : Z) (m : matrices) : result matrices :=
  let '(A, B, C) := m in
  c <- get C i j ;; a <- get A i k ;; b <- get B k j ;;
  C <- update C i j (wrap32 (c + wrap32 (a * b))) ;; Ok (A, B, C).

(** What [main] passes to [Exit]. *)
Definition main (m : matrices) : result Z :=
  m <- for_ (seqZ 0 Dim) (fun i => for_ (seqZ 0 Dim) (init_body i)) m ;;
  m <- for_ (seqZ 0 Dim) (fun i => for_ (seqZ 0 Dim) (fun j => for_ (seqZ 0 Dim) (product_body i j))) m ;;
  get m.2 (Dim - 1) (Dim - 1).

Definition zeros : list (list Z) := replicate 20 (replicate 20 0).

(** The entry is 19 * 19 summed 20 times; global arrays begin as zeros. *)
Lemma matmult_main : main (zeros, zeros, zeros) = Ok 7220.
Proof. vm_compute. reflexivity. Qed.
End MatMult.
