(* ===== verification/Stacks.v ===== *)
(** * c++example/: the stacks of the tutorial

    The stack of inheritstack.h as an interface with its laws; the array of
    stack.cc, inheritstack.cc and templatestack.cc (one class, of any type of
    element) and the list of list.cc behind it; and the test of the stacks,
    written once against the interface, as there. *)

From S2P Require Import Prelude.

Module Stacks.

(** ** inheritstack.h: the abstract Stack *)

Class Stack (S T : Type) := {
  Push : T -> S -> result S;
  Pop : S -> result (T * S);
  Full : S -> bool;
  Empty : S -> bool
}.

(** What every implementation keeps to: it holds a list, the last one pushed
    first, and is full with [capacity] elements, where it has a bound. *)
Class StackLaws (S T : Type) `{Stack S T} := {
  holds : S -> list T -> Prop;
  capacity : S -> option Z;
  Full_ok s xs : holds s xs -> Full s = bool_decide (capacity s = Some (Z.of_nat (length xs)));
  Empty_ok s xs : holds s xs -> Empty s = bool_decide (xs = []);
  Push_ok v s xs : holds s xs -> Full s = false -> exists s', Push v s = Ok s' /\ holds s' (v :: xs) /\ capacity s' = capacity s;
  Push_full v s xs : holds s xs -> Full s = true -> Push v s = Fault AssertFailed;
  Pop_ok v s xs : holds s (v :: xs) -> exists s', Pop s = Ok (v, s') /\ holds s' xs /\ capacity s' = capacity s;
  Pop_empty s : holds s [] -> Pop s = Fault AssertFailed
}.

(** ** The test, of any stack *)

(** What it prints. *)
Inductive line (T : Type) := pushing (x : T) | popping (x : T).
Arguments pushing {T} x.
Arguments popping {T} x.

Section test.
Context {S T : Type} `{Stack S T} (next : T -> T).

(** [for (i = 0; i < numToPush; i++)], of inheritstack.cc. *)
Fixpoint push_loop (numToPush : nat) (count : T) (s : S) : result (list (line T) * S) :=
  match numToPush with
  | O => Ok ([], s)
  | Datatypes.S n =>
      assert (negb (Full s)) ;;
      s <- Push count s ;;
      '(out, s) <- push_loop n (next count) s ;;
      Ok (pushing count :: out, s)
  end.

(** [while (!Full())], of stack.cc and templatestack.cc. *)
Fixpoint fill_loop (fuel : nat) (count : T) (s : S) : result (list (line T) * S) :=
  if Full s then Ok ([], s)
  else match fuel with
       | O => Fault OutOfFuel
       | Datatypes.S fuel => s <- Push count s ;; '(out, s) <- fill_loop fuel (next count) s ;; Ok (pushing count :: out, s)
       end.

Fixpoint pop_loop (fuel : nat) (s : S) : result (list (line T) * S) :=
  if Empty s then Ok ([], s)
  else match fuel with
       | O => Fault OutOfFuel
       | Datatypes.S fuel => '(x, s) <- Pop s ;; '(out, s) <- pop_loop fuel s ;; Ok (popping x :: out, s)
       end.

(** [Stack::SelfTest(numToPush)], from [count]. *)
Definition SelfTest (fuel : nat) (count : T) (numToPush : nat) (s : S) : result (list (line T) * S) :=
  '(out1, s) <- push_loop numToPush count s ;; '(out2, s) <- pop_loop fuel s ;; Ok (out1 ++ out2, s).

(** [Stack<T>::SelfTest(start)]. *)
Definition SelfTest_full (fuel : nat) (start : T) (s : S) : result (list (line T) * S) :=
  '(out1, s) <- fill_loop fuel start s ;; '(out2, s) <- pop_loop fuel s ;; Ok (out1 ++ out2, s).

(** [n] values, from [x] on. *)
Fixpoint values (n : nat) (x : T) : list T := match n with O => [] | Datatypes.S n => x :: values n (next x) end.

Lemma length_values n x : length (values n x) = n.
Proof using Type. revert x. induction n as [|n IH]; intros x; [done|]. cbn. by rewrite IH. Qed.

Context `{!StackLaws S T}.

(** A stack of [k] elements has place for [n] more. *)
Definition place_for (k n : nat) (s : S) : Prop := forall c, capacity s = Some c -> Z.of_nat k + Z.of_nat n <= c.

Lemma Full_place n s xs : holds s xs -> place_for (length xs) (Datatypes.S n) s -> Full s = false.
Proof using Type*.
  intros Hv Hp. rewrite (Full_ok s xs) by done. apply bool_decide_eq_false_2. intros Hc. specialize (Hp _ Hc). lia.
Qed.

Lemma push_loop_ok n : forall x s xs, holds s xs -> place_for (length xs) n s ->
  exists s', push_loop n x s = Ok (pushing <$> values n x, s') /\ holds s' (reverse (values n x) ++ xs) /\ capacity s' = capacity s.
Proof using Type*.
  induction n as [|n IH]; intros x s xs Hv Hp; [by exists s|]. cbn [push_loop values]. pose proof (Full_place n s xs Hv Hp) as Hf. rewrite Hf.
  destruct (Push_ok x s xs Hv Hf) as (s1 & -> & Hv1 & Hk1). cbn [negb assert bind].
  destruct (IH (next x) s1 (x :: xs) Hv1) as (s2 & -> & Hv2 & Hk2).
  { intros c Hc. rewrite Hk1 in Hc. specialize (Hp c Hc). cbn [length]. lia. }
  cbn [bind]. exists s2. split; [done|]. split; [by rewrite reverse_cons, <- app_assoc|congruence].
Qed.

(** Without place the assertion of the loop fails. *)
Lemma push_loop_full n : forall x s xs c, holds s xs -> capacity s = Some c -> Z.of_nat (length xs) <= c < Z.of_nat (length xs) + Z.of_nat n ->
  push_loop n x s = Fault AssertFailed.
Proof using Type*.
  induction n as [|n IH]; intros x s xs c Hv Hc H1; [lia|]. cbn [push_loop]. destruct (Full s) eqn:Hf; [done|].
  destruct (Push_ok x s xs Hv Hf) as (s1 & -> & Hv1 & Hk1). cbn [negb assert bind]. rewrite (Full_ok s xs) in Hf by done.
  apply bool_decide_eq_false in Hf. rewrite Hc in Hf. assert (Z.of_nat (length xs) <> c) by congruence.
  rewrite (IH (next x) s1 (x :: xs) c Hv1); [done|congruence|cbn [length]; lia].
Qed.

Lemma fill_loop_ok fuel : forall x s xs, holds s xs -> capacity s = Some (Z.of_nat (length xs) + Z.of_nat fuel) ->
  exists s', fill_loop fuel x s = Ok (pushing <$> values fuel x, s') /\ holds s' (reverse (values fuel x) ++ xs).
Proof using Type*.
  induction fuel as [|fuel IH]; intros x s xs Hv Hc; cbn [fill_loop]; pose proof (Full_ok s xs Hv) as Hf; rewrite Hc in Hf.
  - rewrite bool_decide_eq_true_2 in Hf by (f_equal; lia). rewrite Hf. by exists s.
  - rewrite bool_decide_eq_false_2 in Hf by (intros [=]; lia). rewrite Hf.
    destruct (Push_ok x s xs Hv Hf) as (s1 & -> & Hv1 & Hk1).
    cbn [bind]. destruct (IH (next x) s1 (x :: xs) Hv1) as (s2 & -> & Hv2); [rewrite Hk1, Hc; f_equal; cbn [length]; lia|].
    cbn [bind values]. exists s2. split; [done|]. by rewrite reverse_cons, <- app_assoc.
Qed.

Lemma pop_loop_ok xs : forall fuel s, holds s xs -> (length xs <= fuel)%nat ->
  exists s', pop_loop fuel s = Ok (popping <$> xs, s') /\ holds s' [].
Proof using Type*.
  induction xs as [|v xs IH]; intros fuel s Hv Hl; destruct fuel as [|fuel]; try (cbn in Hl; lia); cbn [pop_loop]; rewrite (Empty_ok s _ Hv).
  1-2: rewrite bool_decide_eq_true_2 by done; by exists s.
  rewrite bool_decide_eq_false_2 by done. destruct (Pop_ok v s xs Hv) as (s1 & -> & Hv1 & Hk1). cbn [bind].
  destruct (IH fuel s1 Hv1) as (s2 & -> & Hv2); [cbn in Hl; lia|]. by exists s2.
Qed.

(** Both tests print the values in order, and then in the reverse order. *)
Lemma SelfTest_ok fuel n x s : holds s [] -> place_for 0 n s -> (n <= fuel)%nat ->
  exists s', SelfTest fuel x n s = Ok ((pushing <$> values n x) ++ (popping <$> reverse (values n x)), s') /\ holds s' [].
Proof using Type*.
  intros Hv Hp Hf. unfold SelfTest. destruct (push_loop_ok n x s [] Hv Hp) as (s1 & -> & Hv1 & _). rewrite app_nil_r in Hv1. cbn [bind].
  destruct (pop_loop_ok _ fuel s1 Hv1) as (s2 & -> & Hv2); [rewrite length_reverse, length_values; lia|]. by exists s2.
Qed.
Lemma SelfTest_full_ok n x s : holds s [] -> capacity s = Some (Z.of_nat n) ->
  exists s', SelfTest_full n x s = Ok ((pushing <$> values n x) ++ (popping <$> reverse (values n x)), s') /\ holds s' [].
Proof using Type*.
  intros Hv Hc. unfold SelfTest_full. destruct (fill_loop_ok n x s [] Hv Hc) as (s1 & -> & Hv1). rewrite app_nil_r in Hv1. cbn [bind].
  destruct (pop_loop_ok _ n s1 Hv1) as (s2 & -> & Hv2); [rewrite length_reverse, length_values; lia|]. by exists s2.
Qed.
End test.

(** ** stack.cc, templatestack.cc, inheritstack.cc: the array *)

Section array.
Context {T : Type}.

Record ArrayStack := mkArrayStack { size : Z; top : Z; stack : list T }.

(** The constructor; [junk] is what [new] finds in the array. *)
Definition new_ArrayStack (junk : Z -> T) (sz : Z) : result ArrayStack :=
  assert (1 <=? sz) ;; Ok (mkArrayStack sz 0 (junk <$> seqZ 0 sz)).

Definition ArrayStack_Full (s : ArrayStack) : bool := top s =? size s.
Definition ArrayStack_Empty (s : ArrayStack) : bool := top s =? 0.
Definition ArrayStack_Push (value : T) (s : ArrayStack) : result ArrayStack :=
  assert (negb (ArrayStack_Full s)) ;;
  st <- lset (stack s) (top s) value ;;
  Ok (mkArrayStack (size s) (top s + 1) st).
Definition ArrayStack_Pop (s : ArrayStack) : result (T * ArrayStack) :=
  assert (negb (ArrayStack_Empty s)) ;;
  let top := top s - 1 in
  v <- lget (stack s) top ;;
  Ok (v, mkArrayStack (size s) top (stack s)).

#[global] Instance array_stack : Stack ArrayStack T :=
  {| Push := ArrayStack_Push; Pop := ArrayStack_Pop; Full := ArrayStack_Full; Empty := ArrayStack_Empty |}.

Definition array_holds (s : ArrayStack) (xs : list T) : Prop :=
  0 <= top s <= size s /\ size s = Z.of_nat (length (stack s)) /\ xs = reverse (take (Z.to_nat (top s)) (stack s)).

Lemma array_top s xs : array_holds s xs -> Z.of_nat (length xs) = top s.
Proof using Type. intros (H1 & H2 & ->). rewrite length_reverse, length_take. lia. Qed.
Lemma array_push_contents t v (l : list T) : (t < length l)%nat -> reverse (take (S t) (<[t := v]> l)) = v :: reverse (take t l).
Proof using Type.
  intros Ht. rewrite (take_S_r _ _ v) by (by apply list_lookup_insert_eq). rewrite take_insert_ge by lia. by rewrite reverse_snoc.
Qed.

#[global] Program Instance array_laws : StackLaws ArrayStack T := {| holds := array_holds; capacity s := Some (size s) |}.
Next Obligation.
  intros s xs Hv. cbn. rewrite (array_top s xs Hv). unfold ArrayStack_Full. destruct (Z.eqb_spec (top s) (size s)) as [E|E].
  - rewrite bool_decide_eq_true_2; [done|congruence].
  - rewrite bool_decide_eq_false_2; [done|congruence].
Qed.
Next Obligation.
  intros s xs Hv. cbn. pose proof (array_top s xs Hv) as Hl. unfold ArrayStack_Empty. destruct (Z.eqb_spec (top s) 0) as [E|E].
  - rewrite bool_decide_eq_true_2; [done|]. apply nil_length_inv. lia.
  - rewrite bool_decide_eq_false_2; [done|]. intros ->. cbn in Hl. lia.
Qed.
Next Obligation.
  intros v s xs (H1 & H2 & ->) Hf. cbn in *. unfold ArrayStack_Push. rewrite Hf. cbn [negb assert bind]. unfold ArrayStack_Full in Hf. apply Z.eqb_neq in Hf.
  rewrite lset_in by lia. cbn [bind]. eexists. split; [done|]. split; [|done]. split; [cbn; lia|]. split; [cbn; by rewrite length_insert|].
  cbn [top stack]. replace (Z.to_nat (top s + 1)) with (S (Z.to_nat (top s))) by lia. by rewrite array_push_contents by lia.
Qed.
Next Obligation. intros v s xs Hv Hf. cbn in *. unfold ArrayStack_Push. by rewrite Hf. Qed.
Next Obligation.
  intros v s xs Hv. cbn in *. pose proof (array_top s _ Hv) as Hl. cbn [length] in Hl. destruct Hv as (H1 & H2 & Hc).
  unfold ArrayStack_Pop, ArrayStack_Empty. rewrite (proj2 (Z.eqb_neq _ _)) by lia. cbn [negb assert bind].
  assert (Ht : Z.to_nat (top s) = S (Z.to_nat (top s - 1))) by lia. rewrite Ht in Hc.
  destruct (lookup_lt_is_Some_2 (stack s) (Z.to_nat (top s - 1))) as [x Hx]; [lia|]. rewrite (take_S_r _ _ _ Hx), reverse_snoc in Hc. injection Hc as -> ->.
  rewrite (proj2 (lget_ok _ _ x)) by (split; [lia|done]). cbn [bind]. eexists. split; [done|]. split; [|done]. split; [cbn; lia|]. by split.
Qed.
Next Obligation.
  intros s Hv. cbn in *. pose proof (array_top s _ Hv) as Hl. cbn in Hl. unfold ArrayStack_Pop, ArrayStack_Empty.
  by rewrite (proj2 (Z.eqb_eq _ _)) by lia.
Qed.

Lemma new_ArrayStack_ok junk sz : 1 <= sz -> exists s, new_ArrayStack junk sz = Ok s /\ array_holds s [] /\ size s = sz.
Proof using Type.
  intros Hs. unfold new_ArrayStack. rewrite (proj2 (Z.leb_le _ _)) by done. cbn [assert bind]. eexists. split; [done|].
  split; [|done]. split; [cbn; lia|]. split; [cbn; rewrite length_fmap, length_seqZ; lia|done].
Qed.
End array.
Arguments ArrayStack T : clear implicits.

(** ** list.cc: the list, and inheritstack.cc's stack of it *)

Abbreviation loc := positive.
Record ListElement := mkElement { item : Z; next : option loc }.

(** The list of one [List] object, in a store with the elements of others. *)
Record List_ := mkList { first : option loc; last : option loc; elements : gmap loc ListElement }.

Definition new_List (h : gmap loc ListElement) : List_ := mkList None None h.

Definition List_Empty (l : List_) : bool := bool_decide (first l = None).

(** [element] is the address that [new] gives. *)
Definition Prepend_at (element : loc) (value : Z) (l : List_) : List_ :=
  let h := <[element := mkElement value None]> (elements l) in
  if List_Empty l then mkList (Some element) (Some element) h
  else mkList (Some element) (last l) (<[element := mkElement value (first l)]> h).
Definition Prepend (value : Z) (l : List_) : List_ := Prepend_at (fresh (dom (elements l))) value l.

Definition Remove (l : List_) : result (Z * List_) :=
  assert (negb (List_Empty l)) ;;
  match first l with
  | None => Fault NullPointer
  | Some element =>
      match elements l !! element with
      | None => Fault DanglingPointer
      | Some e =>
          let h := delete element (elements l) in
          Ok (item e, if bool_decide (first l = last l) then mkList None None h else mkList (next e) (last l) h)
      end
  end.

(** [List::~List]. *)
Fixpoint List_delete (fuel : nat) (l : List_) : result List_ :=
  if List_Empty l then Ok l
  else match fuel with O => Fault OutOfFuel | S fuel => '(_, l) <- Remove l ;; List_delete fuel l end.

(** The elements from [p] on hold [xs]; [q] is the last one.  They are not among
    the elements [h] of others. *)
Fixpoint chain (p q : option loc) (xs : list Z) (own : gmap loc ListElement) : Prop :=
  match xs with
  | [] => p = None /\ own = ∅
  | x :: xs => exists a n own', p = Some a /\ own' !! a = None /\ own = <[a := mkElement x n]> own' /\
      (if bool_decide (xs = []) then q = Some a else p <> q) /\ chain n q xs own'
  end.

(** A List holds [xs], beside the elements [h]. *)
Definition list_repr (h : gmap loc ListElement) (l : List_) (xs : list Z) : Prop :=
  exists own, elements l = own ∪ h /\ own ##ₘ h /\ chain (first l) (last l) xs own /\ (xs = [] -> last l = None).

Lemma chain_last p q xs own : chain p q xs own -> xs <> [] -> exists a, q = Some a /\ is_Some (own !! a).
Proof.
  revert p own. induction xs as [|x xs IH]; intros p own Hc Hx; [done|]. destruct Hc as (a & n & own' & -> & Ha & -> & Hq & Hc).
  case_bool_decide as E.
  - exists a. split; [done|]. rewrite lookup_insert_eq. by eexists.
  - destruct (IH n own' Hc E) as (b & -> & Hb). exists b. split; [done|]. by apply lookup_insert_is_Some'; right.
Qed.

Lemma List_Empty_ok h l xs : list_repr h l xs -> List_Empty l = bool_decide (xs = []).
Proof.
  intros (own & _ & _ & Hc & _). unfold List_Empty. destruct xs as [|x xs].
  - destruct Hc as [-> _]. by rewrite !bool_decide_eq_true_2.
  - destruct Hc as (a & n & own' & -> & _). by rewrite !bool_decide_eq_false_2.
Qed.

Lemma Prepend_ok h l xs x : list_repr h l xs -> list_repr h (Prepend x l) (x :: xs).
Proof.
  intros Hr. unfold Prepend. set (a := fresh _). assert (Hfresh : elements l !! a = None) by (apply not_elem_of_dom, is_fresh). clearbody a.
  unfold Prepend_at. rewrite (List_Empty_ok _ _ _ Hr). destruct Hr as (own & Hh & Hd & Hc & Hl). rewrite Hh in Hfresh.
  apply lookup_union_None in Hfresh as [Ho Hn]. case_bool_decide as E.
  - subst xs. destruct Hc as [_ ->]. exists {[a := mkElement x None]}. cbn [elements first last]. rewrite Hh.
    split; [by rewrite insert_union_singleton_l, map_empty_union|]. split; [by apply map_disjoint_singleton_l|]. split; [|done].
    exists a, None, ∅. by split_and!.
  - exists (<[a := mkElement x (first l)]> own). cbn [elements first last]. rewrite Hh, insert_insert_eq.
    split; [by rewrite insert_union_l|]. split; [by apply map_disjoint_insert_l_2|]. split; [|done].
    exists a, (first l), own. split_and!; try done. rewrite bool_decide_eq_false_2 by done. intros Hq.
    destruct (chain_last _ _ _ _ Hc E) as (b & Hb & [y Hy]). congruence.
Qed.

Lemma Remove_first h l x xs : list_repr h l (x :: xs) -> exists l', Remove l = Ok (x, l') /\ list_repr h l' xs.
Proof.
  intros Hr. unfold Remove. rewrite (List_Empty_ok _ _ _ Hr). destruct Hr as (own & Hh & Hd & Hc & Hl).
  destruct Hc as (a & n & own' & Hf & Ha & -> & Hq & Hc). apply map_disjoint_insert_l in Hd as [Hha Hd]. rewrite bool_decide_eq_false_2 by done. cbn [negb assert bind].
  rewrite Hf, Hh. erewrite lookup_union_Some_l by apply lookup_insert_eq. cbn [item next]. eexists. split; [reflexivity|].
  assert (E : delete a (<[a := mkElement x n]> own' ∪ h) = own' ∪ h).
  { rewrite <- insert_union_l, delete_insert_eq, delete_id; [done|]. by apply lookup_union_None. }
  rewrite E. case_bool_decide as E1.
  - subst xs. destruct Hc as [-> ->]. rewrite bool_decide_eq_true_2 by done. exists ∅. by split_and!.
  - rewrite bool_decide_eq_false_2 by congruence. exists own'. by split_and!.
Qed.

(** The destructor gives back the elements of the list, and no other. *)
Lemma List_delete_ok h xs : forall l fuel, list_repr h l xs -> (length xs <= fuel)%nat ->
  exists l', List_delete fuel l = Ok l' /\ elements l' = h.
Proof.
  induction xs as [|x xs IH]; intros l fuel Hr Hf.
  - exists l. destruct Hr as (own & Hh & _ & [Hp Ho] & _). split; [|by rewrite Hh, Ho, map_empty_union]. destruct fuel; cbn; unfold List_Empty; by rewrite Hp.
  - destruct fuel as [|fuel]; [cbn in Hf; lia|]. cbn [List_delete]. rewrite (List_Empty_ok _ _ _ Hr), bool_decide_eq_false_2 by done.
    destruct (Remove_first _ _ _ _ Hr) as (l' & -> & Hr'). cbn [bind]. apply IH; [done|cbn in Hf; lia].
Qed.

(** [ListStack], by delegation. *)
Definition ListStack_Pop (s : List_) : result (Z * List_) := assert (negb (List_Empty s)) ;; Remove s.
#[global] Instance list_stack : Stack List_ Z :=
  {| Push value s := Ok (Prepend value s); Pop := ListStack_Pop; Full _ := false; Empty := List_Empty |}.

(** Beside any elements [h] of others. *)
Program Definition list_laws h : StackLaws List_ Z := {| holds := list_repr h; capacity _ := None |}.
Next Obligation. intros h s xs _. by rewrite bool_decide_eq_false_2. Qed.
Next Obligation. intros h s xs Hr. by apply (List_Empty_ok h). Qed.
Next Obligation. intros h v s xs Hr _. exists (Prepend v s). split; [done|]. split; [|done]. by apply Prepend_ok. Qed.
Next Obligation. by intros h v s xs _ [=]. Qed.
Next Obligation.
  intros h v s xs Hr. cbn. unfold ListStack_Pop. rewrite (List_Empty_ok _ _ _ Hr), bool_decide_eq_false_2 by done. cbn [negb assert bind].
  destruct (Remove_first _ _ _ _ Hr) as (s' & -> & Hr'). by exists s'.
Qed.
Next Obligation. intros h s Hr. cbn. unfold ListStack_Pop. by rewrite (List_Empty_ok _ _ _ Hr). Qed.

Lemma new_List_ok h : list_repr h (new_List h) [].
Proof. exists ∅. cbn. rewrite map_empty_union. split; [done|]. split; [apply map_disjoint_empty_l|done]. Qed.

(** ** Any use of a stack *)

Inductive op (T : Type) := OPush (x : T) | OPop | OFull | OEmpty.
Arguments OPush {T} x.
Arguments OPop {T}.
Arguments OFull {T}.
Arguments OEmpty {T}.
Inductive answer (T : Type) := Pushed | Popped (x : T) | Answer (b : bool) | Failed.
Arguments Pushed {T}.
Arguments Popped {T} x.
Arguments Answer {T} b.
Arguments Failed {T}.

(** What a program sees of a stack; a failed assertion ends it. *)
Fixpoint run {S T} `{Stack S T} (ops : list (op T)) (s : S) : list (answer T) :=
  match ops with
  | [] => []
  | OPush x :: ops => match Push x s with Ok s => Pushed :: run ops s | Fault _ => [Failed] end
  | OPop :: ops => match Pop s with Ok (x, s) => Popped x :: run ops s | Fault _ => [Failed] end
  | OFull :: ops => Answer (Full s) :: run ops s
  | OEmpty :: ops => Answer (Empty s) :: run ops s
  end.

(** From [k] elements on, there are always less than [c]. *)
Fixpoint below {T} (c : Z) (k : nat) (ops : list (op T)) : bool :=
  bool_decide (Z.of_nat k < c) &&
  match ops with
  | [] => true
  | OPush _ :: ops => below c (S k) ops
  | OPop :: ops => match k with O => true | S k => below c k ops end
  | _ :: ops => below c k ops
  end.

Lemma below_lt {T} c k (ops : list (op T)) : below c k ops = true -> Z.of_nat k < c.
Proof. intros H. destruct ops; apply andb_true_iff in H as [H%bool_decide_eq_true_1 _]; exact H. Qed.

Section agree.
Context {S1 S2 T : Type} `{StackLaws S1 T} `{StackLaws S2 T}.

(** A bounded stack that does not fill up and an unbounded one. *)
Lemma run_agree c (ops : list (op T)) : forall (s1 : S1) (s2 : S2) xs, holds s1 xs -> holds s2 xs -> capacity s1 = Some c -> capacity s2 = None ->
  below c (length xs) ops = true -> run ops s1 = run ops s2.
Proof using Type*.
  induction ops as [|o ops IH]; intros s1 s2 xs R1 R2 C1 C2 Hb; [done|]. pose proof (below_lt _ _ _ Hb) as Hlt.
  apply andb_true_iff in Hb as [_ Hb].
  assert (F1 : Full s1 = false) by (rewrite (Full_ok s1 xs R1), C1; apply bool_decide_eq_false_2; intros [=]; lia).
  assert (F2 : Full s2 = false) by (rewrite (Full_ok s2 xs R2), C2; by apply bool_decide_eq_false_2).
  destruct o as [x| | |]; cbn [run].
  - destruct (Push_ok x s1 xs R1 F1) as (s1' & -> & R1' & K1). destruct (Push_ok x s2 xs R2 F2) as (s2' & -> & R2' & K2).
    f_equal. apply (IH s1' s2' (x :: xs)); [done|done|congruence|congruence|exact Hb].
  - destruct xs as [|x xs]; [by rewrite (Pop_empty s1 R1), (Pop_empty s2 R2)|].
    destruct (Pop_ok x s1 xs R1) as (s1' & -> & R1' & K1). destruct (Pop_ok x s2 xs R2) as (s2' & -> & R2' & K2).
    f_equal. apply (IH s1' s2' xs); [done|done|congruence|congruence|exact Hb].
  - rewrite F1, F2. f_equal. by apply (IH s1 s2 xs).
  - rewrite (Empty_ok s1 xs R1), (Empty_ok s2 xs R2). f_equal. by apply (IH s1 s2 xs).
Qed.
End agree.

(** ** The programs *)

Definition int_next (count : Z) : Z := wrap32 (count + 1).
Definition char_next (count : Z) : Z := (count + 1 + 128) mod 256 - 128.

(** [main] of stack.cc. *)
Definition stack_main (junk : Z -> Z) : result (list (line Z)) :=
  stack <- new_ArrayStack junk 10 ;; '(out, _) <- SelfTest_full int_next 10 17 stack ;; Ok out.

(** [main] of templatestack.cc: the same for an [int] and for a [char]. *)
Definition templatestack_main (junk : Z -> Z) : result (list (line Z) * list (line Z)) :=
  s1 <- new_ArrayStack junk 10 ;;
  s2 <- new_ArrayStack junk 10 ;;
  '(out1, _) <- SelfTest_full int_next 10 17 s1 ;;
  '(out2, _) <- SelfTest_full char_next 10 97 s2 ;;
  Ok (out1, out2).

(** [main] of inheritstack.cc. *)
Definition inheritstack_main (junk : Z -> Z) (h : gmap loc ListElement) : result (list (line Z) * list (line Z) * gmap loc ListElement) :=
  s1 <- new_ArrayStack junk 10 ;;
  let s2 := new_List h in
  '(out1, _) <- SelfTest int_next 10 17 10 s1 ;;
  '(out2, s2) <- SelfTest int_next 10 17 10 s2 ;;
  s2 <- List_delete 0 s2 ;;
  Ok (out1, out2, elements s2).

(** Both stacks print the same, and no element is left. *)
Lemma inheritstack_main_ok junk h :
  inheritstack_main junk h = Ok (let out := (pushing <$> values int_next 10 17) ++ (popping <$> reverse (values int_next 10 17)) in (out, out, h)).
Proof.
  unfold inheritstack_main. destruct (new_ArrayStack_ok junk 10 ltac:(done)) as (s1 & -> & H1 & Hs). cbn [bind].
  destruct (SelfTest_ok (StackLaws0 := array_laws) int_next 10 10 17 s1 H1) as (s1' & -> & _); [intros c [= <-]; rewrite Hs; done|done|]. cbn [bind].
  destruct (SelfTest_ok (StackLaws0 := list_laws h) int_next 10 10 17 (new_List h) (new_List_ok h)) as (s2 & -> & H2); [done|done|]. cbn [bind].
  destruct (List_delete_ok h [] s2 0 H2) as (s3 & -> & E3); [done|]. cbn [bind]. by rewrite E3.
Qed.

(** ** Property *)



End Stacks.
