(* ===== verification/WaterSystem.v ===== *)
(** * test/watersystem_main.c, student.c, watertap.c: three processes

    The queue at the water taps: [main] hands the lines of input.txt one by one
    to [student], which hands the bottles of a line one by one to [watertap],
    which chooses a tap for each; four semaphores pass the turn and four files the
    data.  A step is what a process does from one [Wait] to the next, in any order
    of the processes.  A file is its contents; what a process has read of a file,
    or how far it has written, is in its program counter.  [Exec] and
    [CreateSemaphore] succeed. *)

From Stdlib Require Import Strings.Byte.
From S2P Require Import Prelude.

Module WaterSystem.

Inductive file := input | output | student_txt | watertap_txt | result.
Inductive semaphore := main_ | student_ | watertap_ | main_watertap.
#[export] Instance file_eq_dec : EqDecision file.
Proof. solve_decision. Defined.
#[export] Instance semaphore_eq_dec : EqDecision semaphore.
Proof. solve_decision. Defined.

Definition space : byte := x20.
Definition star : byte := x2a.
Definition newline : byte := x0a.

(** Where the processes wait, with their variables.  [main]: the lines to come,
    the rest of input.txt, whether its files are still open.  [student]: the rest
    of student.txt.  [watertap]: [tap1], [tap2], and how far result.txt is written. *)
Inductive main_pc := Starting | Waiting (num : Z) (rest : list byte) (opened : bool) | Returned (v : Z).
Inductive student_pc := Beginning | Idle | Serving (rest : list byte) | Left.
Inductive tap_pc := Closed (tap1 tap2 : Z) | Open (tap1 tap2 : Z) (written : nat) | Gone.

Record system := mkSystem {
  files : file -> option (list byte);
  sem : semaphore -> nat;
  main : main_pc;
  student : student_pc;
  watertap : tap_pc
}.

Definition set_file (f : file) (bs : list byte) (s : system) : system :=
  mkSystem (<[f := Some bs]> (files s)) (sem s) (main s) (student s) (watertap s).
Definition set_main (m : main_pc) (s : system) : system := mkSystem (files s) (sem s) m (student s) (watertap s).
Definition set_student (p : student_pc) (s : system) : system := mkSystem (files s) (sem s) (main s) p (watertap s).
Definition set_tap (p : tap_pc) (s : system) : system := mkSystem (files s) (sem s) (main s) (student s) p.
Definition Signal (x : semaphore) (s : system) : system :=
  mkSystem (files s) (<[x := S (sem s x)]> (sem s)) (main s) (student s) (watertap s).
(** A process goes on when the semaphore lets it. *)
Definition Wait (x : semaphore) (s : system) : option system :=
  match sem s x with
  | O => None
  | S n => Some (mkSystem (files s) (<[x := n]> (sem s)) (main s) (student s) (watertap s))
  end.

(** A file after [bs] has been written to it at [o]. *)
Definition write_at (o : nat) (bs old : list byte) : list byte := take o old ++ bs ++ drop (o + length bs) old.

Section programs.
(** The files that the host does not let be created. *)
Context (refused : file -> bool).

Definition CreateFile (f : file) (s : system) : option system := if refused f then None else Some (set_file f [] s).

(** ** watersystem_main.c *)

(** The number on the first line; at the end of the file the loop does not end. *)
Fixpoint read_num (bs : list byte) (num : Z) : option (Z * list byte) :=
  match bs with
  | [] => None
  | c :: bs =>
      if bool_decide (c = newline) then Some (num, bs)
      else read_num bs (if bool_decide (48 <= charZ c) && bool_decide (charZ c <= 57) then wrap32 (num * 10 + (charZ c - 48)) else num)
  end.

(** A line and what follows. *)
Fixpoint read_line (bs : list byte) : list byte * list byte :=
  match bs with
  | [] => ([], [])
  | c :: bs => if bool_decide (c = newline) then ([], bs) else let '(l, bs) := read_line bs in (c :: l, bs)
  end.

(** When student.txt cannot be created it closes the files of [main], which goes
    on without them. *)
Definition WriteToStudent (rest : list byte) (opened : bool) (s : system) : list byte * bool * system :=
  match CreateFile student_txt s with
  | None => (rest, false, s)
  | Some s => if opened then let '(l, rest) := read_line rest in (rest, opened, set_file student_txt l s) else (rest, opened, s)
  end.

(** The character and a space for each; [output] is only written here, at its
    end. *)
Definition line_of (r : list byte) : list byte := concat ((fun c => [c; space]) <$> r) ++ [x0d; newline].
Definition WriteToOutput (opened : bool) (s : system) : option system :=
  match files s result with
  | None => None
  | Some r =>
      let s := if opened then set_file output (default [] (files s output) ++ line_of r) s else s in
      Some (Signal main_watertap s)
  end.

Definition main_loop (num : Z) (rest : list byte) (opened : bool) (s : system) : system :=
  if num =? 0 then set_main (Returned 0) s
  else let '(rest, opened, s) := WriteToStudent rest opened s in
       set_main (Waiting (num - 1) rest opened) (Signal student_ s).

Definition main_start (s : system) : option system :=
  match CreateFile output s with
  | None => Some (set_main (Returned 1) s)
  | Some s =>
      match files s input with
      | None => Some (set_main (Returned 1) s)
      | Some bs => match read_num bs 0 with None => None | Some (num, rest) => Some (main_loop num rest true s) end
      end
  end.

Definition main_step (s : system) : option system :=
  match main s with
  | Starting => main_start s
  | Waiting num rest opened =>
      match Wait main_ s with
      | None => None
      | Some s => match WriteToOutput opened s with None => Some (set_main (Returned 1) s) | Some s => Some (main_loop num rest opened s) end
      end
  | Returned _ => None
  end.

(** ** student.c *)

(** Back to main, for good. *)
Definition leave (s : system) : system := set_student Left (Signal main_ s).

(** The loop, up to the next bottle: [w] is written over [old] in watertap.txt. *)
Fixpoint student_loop (rest old w : list byte) (s : system) : system :=
  match rest with
  | [] => set_student Idle (Signal main_ (set_file watertap_txt (write_at 0 w old) s))
  | c :: rest =>
      let w := if bool_decide (c = space) then w else w ++ [c] in
      let last := bool_decide (rest = []) in
      let w := if last then w ++ [star] else w in
      if bool_decide (c = space) || last then set_student (Serving rest) (Signal watertap_ (set_file watertap_txt (write_at 0 w old) s))
      else student_loop rest old w s
  end.

Definition student_step (s : system) : option system :=
  match student s with
  | Beginning =>
      let s := Signal main_watertap s in
      match CreateFile watertap_txt s with None => Some (leave s) | Some s => Some (set_student Idle s) end
  | Idle =>
      match Wait student_ s with
      | None => None
      | Some s =>
          match CreateFile result s with
          | None => Some (leave s)
          | Some s =>
              match files s student_txt, files s watertap_txt with
              | Some text, Some old => Some (student_loop text old [] s)
              | _, _ => Some (leave s)
              end
          end
      end
  | Serving rest =>
      match Wait student_ s with
      | None => None
      | Some s => match CreateFile watertap_txt s with None => Some (leave s) | Some s => Some (student_loop rest [] [] s) end
      end
  | Left => None
  end.

(** ** watertap.c *)

(** The volume of a bottle, and whether it is the last one. *)
Fixpoint read_volume (bs : list byte) (volume : Z) : Z * bool :=
  match bs with
  | [] => (volume, false)
  | c :: bs => if bool_decide (c = star) then (volume, true) else read_volume bs (wrap32 (volume * 10 + (charZ c - 48)))
  end.

Definition serve (volume tap1 tap2 : Z) : option byte * Z * Z :=
  if volume =? 0 then (None, tap1, tap2)
  else if tap1 <=? tap2 then (Some x31, wrap32 (tap1 + volume), tap2) else (Some x32, tap1, wrap32 (tap2 + volume)).

Definition tap_step (s : system) : option system :=
  match watertap s with
  | Closed tap1 tap2 =>
      match Wait main_watertap s with
      | None => None
      | Some s => match files s result with None => Some (set_tap Gone (Signal student_ s)) | Some _ => Some (set_tap (Open tap1 tap2 0) s) end
      end
  | Open tap1 tap2 written =>
      match Wait watertap_ s with
      | None => None
      | Some s =>
          match files s watertap_txt with
          | None => Some (set_tap Gone (Signal student_ s))
          | Some bs =>
              let '(volume, is_end_student_queue) := read_volume bs 0 in
              let '(c, tap1, tap2) := serve volume tap1 tap2 in
              let '(s, written) :=
                match c with
                | Some c => (set_file result (write_at written [c] (default [] (files s result))) s, S written)
                | None => (s, written)
                end in
              Some (if is_end_student_queue : bool then set_tap (Closed 0 0) (Signal student_ s)
                    else set_tap (Open tap1 tap2 written) (Signal student_ s))
          end
      end
  | Gone => None
  end.

(** ** Any order *)

Inductive process := PMain | PStudent | PTap.
Definition step (p : process) (s : system) : option system :=
  match p with PMain => main_step s | PStudent => student_step s | PTap => tap_step s end.
Fixpoint run (ps : list process) (s : system) : option system :=
  match ps with [] => Some s | p :: ps => match step p s with Some s => run ps s | None => None end end.
End programs.

(** Before anything runs: what the host has of the files. *)
Definition booted (fs : file -> option (list byte)) : system := mkSystem fs (fun _ => 0%nat) Starting Beginning (Closed 0 0).

(** ** What the system is for *)

Definition digit (c : byte) : Prop := 48 <= charZ c <= 57.
(** A number in decimal, after [v]. *)
Definition number_from (v : Z) (ds : list byte) : Z := foldl (fun v c => v * 10 + (charZ c - 48)) v ds.
Definition number (ds : list byte) : Z := number_from 0 ds.

(** A bottle is written as its volume, which is not 0; a line is the bottles of a
    queue with a space between two of them. *)
Definition bottle (b : list byte) : Prop := Forall digit b /\ 0 < number b.
Fixpoint line_text (bs : list (list byte)) : list byte :=
  match bs with [] => [] | [b] => b | b :: bs => b ++ space :: line_text bs end.
Definition text (lines : list (list (list byte))) : list byte := concat ((fun l => line_text l ++ [newline]) <$> lines).

(** Each bottle goes to the tap that is free first, the first one if both are. *)
Fixpoint taps (t1 t2 : Z) (vols : list Z) : list byte :=
  match vols with
  | [] => []
  | v :: vols => if t1 <=? t2 then x31 :: taps (t1 + v) t2 vols else x32 :: taps t1 (t2 + v) vols
  end.
(** When the taps are free again. *)
Fixpoint totals (t1 t2 : Z) (vols : list Z) : Z * Z :=
  match vols with
  | [] => (t1, t2)
  | v :: vols => if t1 <=? t2 then totals (t1 + v) t2 vols else totals t1 (t2 + v) vols
  end.
Definition choices (bs : list (list byte)) : list byte := taps 0 0 (number <$> bs).
Definition expected (lines : list (list (list byte))) : list byte := concat ((fun l => line_of (choices l)) <$> lines).

Definition sum (vols : list Z) : Z := foldr Z.add 0 vols.
(** A queue whose volumes an [int] can add. *)
Definition queue (bs : list (list byte)) : Prop := Forall bottle bs /\ sum (number <$> bs) < 2 ^ 31.

(** *** Numbers *)

Lemma number_from_ge ds : forall v, 0 <= v -> Forall digit ds -> v <= number_from v ds.
Proof.
  induction ds as [|c ds IH]; intros v Hv Hd; [done|]. inversion_clear Hd as [|? ? Hc Hd']. unfold digit in Hc. unfold number_from in *. cbn [foldl].
  specialize (IH (v * 10 + (charZ c - 48)) ltac:(lia) Hd'). lia.
Qed.
Lemma number_nonneg b : Forall digit b -> 0 <= number b.
Proof. intros H. by apply (number_from_ge b 0). Qed.

Lemma digit_other c : digit c -> c <> space /\ c <> star /\ c <> newline.
Proof. unfold digit. intros H. split_and!; intros ->; vm_compute in H; destruct H as [H1 H2]; by (apply H1 || apply H2). Qed.

Lemma read_volume_ok b : forall v tail, 0 <= v -> Forall digit b -> number_from v b < 2 ^ 31 ->
  read_volume (b ++ tail) v = read_volume tail (number_from v b).
Proof.
  induction b as [|c b IH]; intros v tail Hv Hd Hb; [done|]. inversion_clear Hd as [|? ? Hc Hd']. cbn [app read_volume].
  rewrite bool_decide_eq_false_2 by (by apply digit_other). unfold number_from in Hb. cbn [foldl] in Hb. unfold digit in Hc.
  pose proof (number_from_ge b (v * 10 + (charZ c - 48)) ltac:(lia) Hd') as Hge. unfold number_from in Hge.
  rewrite wrap32_small by (unfold int_range; lia). rewrite IH; [done|lia|done|done].
Qed.

Lemma read_num_ok ds : forall v tail, 0 <= v -> Forall digit ds -> number_from v ds < 2 ^ 31 ->
  read_num (ds ++ newline :: tail) v = Some (number_from v ds, tail).
Proof.
  induction ds as [|c ds IH]; intros v tail Hv Hd Hb; [done|]. inversion_clear Hd as [|? ? Hc Hd']. cbn [app read_num].
  rewrite bool_decide_eq_false_2 by (by apply digit_other). unfold number_from in Hb. cbn [foldl] in Hb. unfold digit in Hc.
  rewrite !bool_decide_eq_true_2 by lia. cbn [andb].
  pose proof (number_from_ge ds (v * 10 + (charZ c - 48)) ltac:(lia) Hd') as Hge. unfold number_from in Hge.
  rewrite wrap32_small by (unfold int_range; lia). rewrite IH; [done|lia|done|done].
Qed.

(** *** Lines *)

Definition mark (bs : list (list byte)) : list byte := match bs with [] => [star] | _ => [] end.

Lemma line_text_cons b bs : line_text (b :: bs) = b ++ match bs with [] => [] | _ => space :: line_text bs end.
Proof. destruct bs; cbn [line_text]; [by rewrite app_nil_r|done]. Qed.

Lemma bottle_nonempty b : bottle b -> b <> [].
Proof. intros [_ H] ->. by cbn in H. Qed.
Lemma line_text_nonempty b bs : bottle b -> line_text (b :: bs) <> [].
Proof. intros H%bottle_nonempty. rewrite line_text_cons. by destruct b. Qed.

Lemma student_loop_ok b bs old s : Forall bottle (b :: bs) -> forall w,
  student_loop (line_text (b :: bs)) old w s =
  set_student (Serving (line_text bs)) (Signal watertap_ (set_file watertap_txt (write_at 0 (w ++ b ++ mark bs) old) s)).
Proof.
  intros Hb. inversion_clear Hb as [|? ? [Hd Hn] Hbs]. assert (Hne : b <> []) by (by apply bottle_nonempty). clear Hn.
  rewrite line_text_cons. revert Hne. induction Hd as [|c b Hc Hd IH]; intros Hne w; [done|]. cbn [app student_loop].
  rewrite (bool_decide_eq_false_2 (c = space)) by (by apply digit_other). destruct b as [|c' b].
  - cbn [app]. destruct bs as [|b' bs]; [rewrite bool_decide_eq_true_2 by done; cbn [orb mark line_text]; by rewrite <- app_assoc|]. rewrite bool_decide_eq_false_2 by done. cbn [orb student_loop].
    rewrite (bool_decide_eq_true_2 (space = space)) by done. rewrite bool_decide_eq_false_2 by (apply line_text_nonempty; by inversion Hbs).
    done.
  - rewrite bool_decide_eq_false_2 by done. cbn [orb]. rewrite IH by done. cbn [app]. by rewrite <- app_assoc.
Qed.

Lemma line_text_plain bs : Forall bottle bs -> Forall (fun c => c <> newline) (line_text bs).
Proof.
  intros Hb. induction Hb as [|b bs [Hd _] Hbs IH]; [constructor|]. rewrite line_text_cons. apply Forall_app. split.
  - eapply Forall_impl; [exact Hd|]. intros c Hc. by apply digit_other.
  - destruct bs; [constructor|]. by constructor.
Qed.

Lemma read_line_ok l rest : Forall (fun c => c <> newline) l -> read_line (l ++ newline :: rest) = (l, rest).
Proof. intros H. induction H as [|c l Hc Hl IH]; [done|]. cbn [app read_line]. rewrite bool_decide_eq_false_2 by done. by rewrite IH. Qed.

Lemma text_cons l lines : text (l :: lines) = line_text l ++ newline :: text lines.
Proof. unfold text. cbn [fmap list_fmap concat]. by rewrite <- app_assoc. Qed.

Lemma write_at_end c r o : o = length r -> write_at o [c] r = r ++ [c].
Proof. intros ->. unfold write_at. rewrite take_ge by lia. cbn [length]. by rewrite drop_ge by lia. Qed.
Lemma write_at_empty w : write_at 0 w [] = w.
Proof. unfold write_at. cbn [take]. by rewrite drop_nil, app_nil_r. Qed.

(** *** The taps *)

Lemma taps_app t1 t2 vs ws : taps t1 t2 (vs ++ ws) = taps t1 t2 vs ++ taps (totals t1 t2 vs).1 (totals t1 t2 vs).2 ws.
Proof. revert t1 t2. induction vs as [|v vs IH]; intros t1 t2; [done|]. cbn [app taps totals]. destruct (t1 <=? t2); cbn [app]; by rewrite IH. Qed.
Lemma totals_app t1 t2 vs ws : totals t1 t2 (vs ++ ws) = totals (totals t1 t2 vs).1 (totals t1 t2 vs).2 ws.
Proof. revert t1 t2. induction vs as [|v vs IH]; intros t1 t2; [done|]. cbn [app totals]. by destruct (t1 <=? t2). Qed.
Lemma length_taps t1 t2 vs : length (taps t1 t2 vs) = length vs.
Proof. revert t1 t2. induction vs as [|v vs IH]; intros t1 t2; [done|]. cbn [taps]. destruct (t1 <=? t2); cbn [length]; by rewrite IH. Qed.
Lemma totals_bound vs : forall t1 t2, 0 <= t1 -> 0 <= t2 -> Forall (Z.lt 0) vs ->
  0 <= (totals t1 t2 vs).1 /\ 0 <= (totals t1 t2 vs).2 /\ (totals t1 t2 vs).1 + (totals t1 t2 vs).2 = t1 + t2 + sum vs.
Proof.
  induction vs as [|v vs IH]; intros t1 t2 H1 H2 Hv; cbn [totals sum foldr fst snd]; [lia|]. inversion_clear Hv as [|? ? Hv0 Hvs].
  destruct (t1 <=? t2).
  - destruct (IH (t1 + v) t2) as (? & ? & E); [lia|done|done|]. unfold sum in *. lia.
  - destruct (IH t1 (t2 + v)) as (? & ? & E); [done|lia|done|]. unfold sum in *. lia.
Qed.
Lemma sum_app vs ws : sum (vs ++ ws) = sum vs + sum ws.
Proof. unfold sum. induction vs as [|v vs IH]; cbn [app foldr]; [done|lia]. Qed.
Lemma sum_nonneg vs : Forall (Z.lt 0) vs -> 0 <= sum vs.
Proof. unfold sum. intros H. induction H; cbn [foldr]; lia. Qed.
Lemma bottles_positive bs : Forall bottle bs -> Forall (Z.lt 0) (number <$> bs).
Proof. intros H. apply Forall_fmap. eapply Forall_impl; [exact H|]. by intros b [_ Hb]. Qed.

(** One more bottle. *)
Lemma serve_bottle pre b rest : queue (pre ++ b :: rest) -> exists c t1 t2,
  serve (number b) (totals 0 0 (number <$> pre)).1 (totals 0 0 (number <$> pre)).2 = (Some c, t1, t2) /\
  choices (pre ++ [b]) = choices pre ++ [c] /\ totals 0 0 (number <$> (pre ++ [b])) = (t1, t2).
Proof.
  intros [Hb Hs]. apply Forall_app in Hb as [Hp Hb]. inversion_clear Hb as [|? ? Hb0 Hr]. pose proof Hb0 as [Hd Hpos].
  rewrite fmap_app, sum_app in Hs. cbn [fmap list_fmap] in Hs. change (sum (number b :: ?l)) with (number b + sum l) in Hs.
  assert (Hs' : sum (number <$> pre) + (number b + sum (number <$> rest)) < 2 ^ 31) by exact Hs.
  pose proof (sum_nonneg _ (bottles_positive _ Hr)) as Hr0.
  destruct (totals_bound (number <$> pre) 0 0) as (B1 & B2 & B3); [done|done|by apply bottles_positive|].
  unfold choices. rewrite fmap_app, taps_app, totals_app. cbn [fmap list_fmap taps totals].
  destruct (totals 0 0 (number <$> pre)) as [t1 t2]. cbn [fst snd] in *. unfold serve. rewrite (proj2 (Z.eqb_neq _ _)) by lia.
  destruct (t1 <=? t2); rewrite wrap32_small by (unfold int_range; lia); by do 3 eexists.
Qed.

(** ** Whose turn it is *)

Section turns.
Context (refused : file -> bool) (Hcreate : forall f, refused f = false).
Context (lines : list (list (list byte))) (Hqueues : Forall queue lines).

Definition sems (a b c : nat) (s : system) : Prop := sem s main_ = a /\ sem s student_ = b /\ sem s watertap_ = c.

(** [watertap] is at the beginning of a line, or will be when it is let on. *)
Definition tap_opens (s : system) : Prop :=
  watertap s = Open 0 0 0 \/ (watertap s = Closed 0 0 /\ (0 < sem s main_watertap)%nat).
Definition tap_rests (s : system) : Prop := watertap s = Open 0 0 0 \/ watertap s = Closed 0 0.
(** The two others at the beginning of a line. *)
Definition readied (s : system) : Prop :=
  is_Some (files s result) /\
  ((student s = Beginning /\ watertap s = Closed 0 0 /\ sem s main_watertap = 0%nat) \/
   (student s = Idle /\ files s watertap_txt = Some [] /\ tap_opens s)).

(** [main] is in the queue for the line [l], which comes after [before] and before
    [todo]. *)
Record in_line (before : list (list (list byte))) (l : list (list byte)) (todo : list (list (list byte))) (s : system) : Prop := {
  il_lines : lines = before ++ l :: todo;
  il_main : main s = Waiting (Z.of_nat (length todo)) (text todo) true;
  il_output : files s output = Some (expected before)
}.

(** How long the lines take, at most. *)
Definition work (ls : list (list (list byte))) : nat := foldr (fun l n => (2 * length l + 3 + n)%nat) 0%nat ls.

Inductive phase : nat -> system -> Prop :=
  | ph_start s ds : main s = Starting -> files s input = Some (ds ++ newline :: text lines) -> Forall digit ds -> number ds = Z.of_nat (length lines) ->
      number ds < 2 ^ 31 -> readied s -> sems 0 0 0 s -> phase (work lines + 3) s
  | ph_line before l todo s : in_line before l todo s -> files s student_txt = Some (line_text l) -> readied s -> sems 0 1 0 s ->
      phase (work todo + 2 * length l + 4) s
  | ph_tap before l todo pre b rest s : in_line before l todo s -> l = pre ++ b :: rest -> student s = Serving (line_text rest) ->
      files s watertap_txt = Some (b ++ mark rest) -> files s result = Some (choices pre) ->
      (pre = [] /\ tap_opens s \/ (exists t1 t2, totals 0 0 (number <$> pre) = (t1, t2) /\ watertap s = Open t1 t2 (length pre))) -> sems 0 0 1 s ->
      phase (work todo + 2 * length rest + 5) s
  | ph_student before l todo pre b rest s t1 t2 : in_line before l todo s -> l = pre ++ b :: rest -> student s = Serving (line_text (b :: rest)) ->
      files s result = Some (choices pre) -> totals 0 0 (number <$> pre) = (t1, t2) -> watertap s = Open t1 t2 (length pre) -> sems 0 1 0 s ->
      phase (work todo + 2 * length rest + 6) s
  | ph_end before l todo s : in_line before l todo s -> student s = Serving [] -> files s result = Some (choices l) -> tap_rests s ->
      sems 0 1 0 s -> phase (work todo + 3) s
  | ph_main before l todo s : in_line before l todo s -> student s = Idle -> files s watertap_txt = Some [] -> files s result = Some (choices l) ->
      tap_rests s -> sems 1 0 0 s -> phase (work todo + 2) s
  | ph_over s : main s = Returned 0 -> files s output = Some (expected lines) -> is_Some (files s result) ->
      (student s = Beginning /\ watertap s = Closed 0 0 /\ sem s main_watertap = 0%nat \/ student s = Idle /\ tap_rests s) -> sems 0 0 0 s -> phase 0 s.

(** The two steps that may come early or late. *)
Definition late (s : system) : nat :=
  (match student s with Beginning => 1 | _ => 0 end + match watertap s with Closed _ _ => 1 | _ => 0 end)%nat.
Definition next (n : nat) (s s' : system) : Prop := exists n', phase n' s' /\ (n' + late s' < n + late s)%nat.

Ltac state :=
  unfold Wait, Signal, set_file, set_main, set_student, set_tap, sems, late in *; cbn [files sem main student watertap] in *;
  repeat first [rewrite fn_lookup_insert | rewrite fn_lookup_insert_ne by done].

Lemma create_ok f s : CreateFile refused f s = Some (set_file f [] s).
Proof using Hcreate. unfold CreateFile. by rewrite Hcreate. Qed.

(** *** watertap *)

Lemma tap_waits s : watertap s = Closed 0 0 -> sem s main_watertap = 0%nat -> tap_step s = None.
Proof using Type. intros E1 E2. unfold tap_step, Wait. by rewrite E1, E2. Qed.
Lemma tap_idle t1 t2 n s : watertap s = Open t1 t2 n -> sem s watertap_ = 0%nat -> tap_step s = None.
Proof using Type. intros E1 E2. unfold tap_step, Wait. by rewrite E1, E2. Qed.
Lemma tap_opened s s' : watertap s = Closed 0 0 -> is_Some (files s result) -> tap_step s = Some s' ->
  exists m, sem s main_watertap = S m /\ s' = mkSystem (files s) (<[main_watertap := m]> (sem s)) (main s) (student s) (Open 0 0 0).
Proof using Type.
  intros E1 [r Hr] Hs. unfold tap_step, Wait in Hs. rewrite E1 in Hs. destruct (sem s main_watertap) as [|m] eqn:E; [done|].
  cbn [files] in Hs. rewrite Hr in Hs. injection Hs as <-. by exists m.
Qed.

(** A step of [watertap] to the beginning of a line keeps what the phase says. *)
Lemma readied_opened s m : readied s -> watertap s = Closed 0 0 -> sem s main_watertap = S m ->
  readied (mkSystem (files s) (<[main_watertap := m]> (sem s)) (main s) (student s) (Open 0 0 0)).
Proof using Type.
  intros [Hr [(_ & _ & H)|(H1 & H2 & H3)]] Hw Hm; [congruence|]. split; [done|]. right. split; [done|]. split; [done|]. by left.
Qed.

Lemma readied_tap s s' : readied s -> sem s watertap_ = 0%nat -> tap_step s = Some s' ->
  watertap s = Closed 0 0 /\ exists m, sem s main_watertap = S m /\ s' = mkSystem (files s) (<[main_watertap := m]> (sem s)) (main s) (student s) (Open 0 0 0).
Proof using Type.
  intros [Hr [(_ & H1 & H2)|(_ & _ & [H|[H _]])]] Hs Hst.
  - by rewrite tap_waits in Hst.
  - by rewrite (tap_idle 0 0 0 s H Hs) in Hst.
  - split; [done|]. by apply tap_opened.
Qed.

Lemma in_line_opened before l todo s m : in_line before l todo s ->
  in_line before l todo (mkSystem (files s) (<[main_watertap := m]> (sem s)) (main s) (student s) (Open 0 0 0)).
Proof using Type. by intros [H1 H2 H3]. Qed.

Lemma rests_opened s s' : tap_rests s -> is_Some (files s result) -> sem s watertap_ = 0%nat -> tap_step s = Some s' ->
  watertap s = Closed 0 0 /\ exists m, sem s main_watertap = S m /\ s' = mkSystem (files s) (<[main_watertap := m]> (sem s)) (main s) (student s) (Open 0 0 0).
Proof using Type.
  intros [H|H] Hr Hs Hst.
  - by rewrite (tap_idle 0 0 0 s H Hs) in Hst.
  - split; [done|]. by apply tap_opened.
Qed.
Lemma opens_rests s : tap_opens s -> tap_rests s.
Proof using Type. intros [H|[H _]]; [by left|by right]. Qed.

(** *** student *)

Lemma student_begins s : student s = Beginning -> student_step refused s =
  Some (mkSystem (<[watertap_txt := Some []]> (files s)) (<[main_watertap := S (sem s main_watertap)]> (sem s)) (main s) Idle (watertap s)).
Proof using Hcreate. intros H. unfold student_step. rewrite H, create_ok. done. Qed.
Lemma readied_begins s : readied s -> student s = Beginning ->
  readied (mkSystem (<[watertap_txt := Some []]> (files s)) (<[main_watertap := S (sem s main_watertap)]> (sem s)) (main s) Idle (watertap s)).
Proof using Type.
  intros [Hr [(H1 & H2 & H3)|(H1 & _)]] Hs; [|congruence]. split; [by state|]. right. split; [done|]. split; [by state|]. right. split; [done|]. state. lia.
Qed.
Lemma readied_student s : readied s -> student s = Beginning \/ student s = Idle /\ files s watertap_txt = Some [] /\ tap_opens s.
Proof using Type. intros [_ [(H & _)|H]]; [by left|by right]. Qed.

(** *** main *)

Lemma main_waits s num rest opened : main s = Waiting num rest opened -> sem s main_ = 0%nat -> main_step refused s = None.
Proof using Type. intros E1 E2. unfold main_step, Wait. by rewrite E1, E2. Qed.

(** The next line, or the end. *)
Lemma main_loop_ok before todo s : lines = before ++ todo -> files s output = Some (expected before) -> readied s \/ todo = [] -> sems 0 0 0 s ->
  match todo with
  | [] => main_loop refused 0 (text []) true s = set_main (Returned 0) s
  | l :: todo => exists s', main_loop refused (Z.of_nat (length (l :: todo))) (text (l :: todo)) true s = s' /\
      phase (work todo + 2 * length l + 4) s' /\ late s' = late s
  end.
Proof using Hcreate Hqueues.
  intros Hl Ho Hr (S1 & S2 & S3). destruct todo as [|l todo]; [done|]. destruct Hr as [Hr|]; [|done]. eexists. split; [reflexivity|].
  assert (Hb : Forall bottle l). { rewrite Hl in Hqueues. apply Forall_app in Hqueues as [_ Hq]. inversion_clear Hq as [|? ? [Hq0 _] _]. done. }
  unfold main_loop. rewrite (proj2 (Z.eqb_neq _ _)) by (cbn [length]; lia). unfold WriteToStudent. rewrite create_ok, text_cons, read_line_ok by (by apply line_text_plain).
  split; [|done]. apply (ph_line before l todo).
  - split; [done| |by state]. cbn [set_main main]. f_equal. cbn [length]. lia.
  - by state.
  - destruct Hr as [Hr1 Hr2]. split; [by state|]. destruct Hr2 as [Hr2|(Q1 & Q2 & Q3)]; [left; by state|right]. split; [done|]. split; [by state|].
    destruct Q3 as [Q3|Q3]; [by left|right]. by state.
  - state. by rewrite S1, S2, S3.
Qed.

(** *** Every step of every phase *)

Lemma step_start s ds p s' : main s = Starting -> files s input = Some (ds ++ newline :: text lines) -> Forall digit ds -> number ds = Z.of_nat (length lines) ->
  number ds < 2 ^ 31 -> readied s -> sems 0 0 0 s -> step refused p s = Some s' -> next (work lines + 3) s s'.
Proof using Hcreate Hqueues.
  intros Hm Hi Hd Hn Hb Hr Hs Hst. pose proof Hs as (S1 & S2 & S3). destruct p; cbn [step] in Hst.
  - unfold main_step in Hst. rewrite Hm in Hst. unfold main_start in Hst. rewrite create_ok in Hst.
    assert (Hi' : files (set_file output [] s) input = files s input) by (by state). rewrite Hi', Hi, read_num_ok in Hst by done. fold (number ds) in Hst. rewrite Hn in Hst.
    injection Hst as <-. set (s1 := set_file output [] s).
    assert (Hr1 : readied s1).
    { destruct Hr as [Hr1 Hr2]. split; [by unfold s1; state|]. destruct Hr2 as [Hr2|(Q1 & Q2 & Q3)]; [by left|right]. split; [done|]. split; [by unfold s1; state|done]. }
    assert (Hl1 : late s1 = late s) by done.
    pose proof (main_loop_ok [] lines s1 eq_refl ltac:(unfold s1; by state) (or_introl Hr1) Hs) as H.
    assert (El : lines = [] \/ exists l todo, lines = l :: todo) by (destruct lines; [by left|right; by do 2 eexists]). destruct El as [El|(l & todo & El)]; rewrite El in *.
    + cbn [length] in *. change (Z.of_nat 0) with 0 in *. rewrite H. exists 0%nat. split; [|cbn [work foldr]; change (late (set_main (Returned 0) s1)) with (late s); lia].
      apply ph_over; [done|rewrite El; by unfold s1; state|apply Hr1| |done]. destruct Hr1 as [_ [(Q1 & Q2 & Q3)|(Q1 & _ & Q3)]]; [by left|right]. split; [done|]. by apply opens_rests.
    + destruct H as (s2 & -> & H2 & H3). eexists. split; [exact H2|]. rewrite H3, Hl1. cbn [work foldr]. fold (work todo). lia.
  - destruct (readied_student s Hr) as [Hb'|(Hb' & _)].
    + rewrite (student_begins s Hb') in Hst. injection Hst as <-. exists (work lines + 3)%nat. split; [|state; rewrite Hb'; lia].
      apply (ph_start _ ds); [done|by state|done|done|done|by apply readied_begins|by state].
    + unfold student_step, Wait in Hst. by rewrite Hb', S2 in Hst.
  - destruct (readied_tap s s' Hr S3 Hst) as (Hw & m & Hmm & ->). exists (work lines + 3)%nat. split; [|state; rewrite Hw; lia].
    apply (ph_start _ ds); [done..|by apply readied_opened|by state].
Qed.

Lemma line_bottles before l todo s : in_line before l todo s -> queue l.
Proof using Hqueues. intros [Hl _ _]. rewrite Hl in Hqueues. apply Forall_app in Hqueues as [_ Hq]. by inversion Hq. Qed.

Lemma step_line before l todo p s s' : in_line before l todo s -> files s student_txt = Some (line_text l) -> readied s -> sems 0 1 0 s ->
  step refused p s = Some s' -> next (work todo + 2 * length l + 4) s s'.
Proof using Hcreate Hqueues.
  intros Hi Ht Hr Hs Hst. pose proof Hi as [Hl Hm Ho]. pose proof Hs as (S1 & S2 & S3). pose proof (line_bottles _ _ _ _ Hi) as [Hb _]. destruct p; cbn [step] in Hst.
  - by rewrite (main_waits s _ _ _ Hm S1) in Hst.
  - destruct (readied_student s Hr) as [Hb'|(Hb' & Hw & Hto)].
    + rewrite (student_begins s Hb') in Hst. injection Hst as <-. exists (work todo + 2 * length l + 4)%nat. split; [|state; rewrite Hb'; lia].
      apply (ph_line before); [by split; state|by state|by apply readied_begins|by state].
    + unfold student_step, Wait in Hst. rewrite Hb', S2, create_ok in Hst. cbn [files set_file] in Hst.
      rewrite !fn_lookup_insert_ne, Ht, Hw in Hst by done. destruct l as [|b rest].
      * cbn [line_text student_loop] in Hst. injection Hst as <-. exists (work todo + 2)%nat. split; [|state; rewrite Hb'; cbn [length]; lia].
        apply (ph_main before []); [by split; state|done|by state|by state|by apply opens_rests in Hto|state; by rewrite S1, S3].
      * rewrite student_loop_ok in Hst by done. injection Hst as <-. exists (work todo + 2 * length rest + 5)%nat. split; [|state; rewrite Hb'; cbn [length]; lia].
        apply (ph_tap before (b :: rest) todo [] b rest); [by split; state|done|done|state; by rewrite write_at_empty|by state| |state; by rewrite S1, S3].
        left. split; [done|]. destruct Hto as [Q|[Q1 Q2]]; [by left|right]. split; [done|by state].
  - destruct (readied_tap s s' Hr S3 Hst) as (Hw & m & Hmm & ->). exists (work todo + 2 * length l + 4)%nat. split; [|state; rewrite Hw; lia].
    apply (ph_line before); [by apply in_line_opened|done|by apply readied_opened|by state].
Qed.

Lemma step_tap before l todo pre b rest p s s' : in_line before l todo s -> l = pre ++ b :: rest -> student s = Serving (line_text rest) ->
  files s watertap_txt = Some (b ++ mark rest) -> files s result = Some (choices pre) ->
  (pre = [] /\ tap_opens s \/ (exists t1 t2, totals 0 0 (number <$> pre) = (t1, t2) /\ watertap s = Open t1 t2 (length pre))) -> sems 0 0 1 s ->
  step refused p s = Some s' -> next (work todo + 2 * length rest + 5) s s'.
Proof using Hqueues.
  intros Hi El Hst Hf Hres Htap Hs Hstep. pose proof Hi as [Hl Hm Ho]. pose proof Hs as (S1 & S2 & S3). pose proof (line_bottles _ _ _ _ Hi) as Hq. destruct p; cbn [step] in Hstep.
  - by rewrite (main_waits s _ _ _ Hm S1) in Hstep.
  - unfold student_step, Wait in Hstep. by rewrite Hst, S2 in Hstep.
  - assert (Htap' : (pre = [] /\ watertap s = Closed 0 0) \/ exists t1 t2, totals 0 0 (number <$> pre) = (t1, t2) /\ watertap s = Open t1 t2 (length pre)).
    { destruct Htap as [(-> & [H|[H _]])|H]; [right; by exists 0, 0|by left|by right]. }
    destruct Htap' as [(-> & Hw)|(t1 & t2 & Ht & Hw)].
    + destruct (tap_opened s s' Hw (ex_intro _ _ Hres) Hstep) as (m & Hmm & ->). exists (work todo + 2 * length rest + 5)%nat. split; [|state; rewrite Hw, Hst; lia].
      apply (ph_tap before l todo [] b rest); [by apply in_line_opened|done|done|done|done| |by state]. right. by exists 0, 0.
    + rewrite El in Hq. destruct (serve_bottle pre b rest Hq) as (c & u1 & u2 & Hserve & Hch & Htot). rewrite Ht in Hserve. cbn [fst snd] in Hserve.
      destruct Hq as [Hq Hsum]. apply Forall_app in Hq as [Hqp Hqb]. inversion_clear Hqb as [|? ? [Hd Hpos] Hqr].
      assert (Hsmall : number b < 2 ^ 31).
      { rewrite fmap_app, sum_app in Hsum. cbn [fmap list_fmap] in Hsum. pose proof (sum_nonneg _ (bottles_positive _ Hqp)). pose proof (sum_nonneg _ (bottles_positive _ Hqr)).
        unfold sum in *. cbn [foldr] in Hsum. unfold fmap in *. lia. }
      unfold tap_step, Wait in Hstep. rewrite Hw, S3 in Hstep. cbn [files] in Hstep. rewrite Hf, read_volume_ok in Hstep by done. fold (number b) in Hstep.
      assert (Hlen : write_at (length pre) [c] (choices pre) = choices (pre ++ [b])).
      { rewrite Hch, write_at_end; [done|]. unfold choices. by rewrite length_taps, length_fmap. }
      destruct rest as [|b' rest]; cbn [mark read_volume] in Hstep.
      * rewrite bool_decide_eq_true_2 in Hstep by done. rewrite Hserve, Hres in Hstep. injection Hstep as <-. cbn [default]. rewrite Hlen.
        exists (work todo + 3)%nat. split; [|state; rewrite Hw, Hst; lia].
        apply (ph_end before (pre ++ [b]) todo); [by rewrite <- El; split; state|done|by state|by right|state; by rewrite S1, S2].
      * rewrite Hserve, Hres in Hstep. injection Hstep as <-. cbn [default]. rewrite Hlen.
        exists (work todo + 2 * length rest + 6)%nat. split; [|state; rewrite Hw, Hst; cbn [length]; lia].
        apply (ph_student before (pre ++ b :: b' :: rest) todo (pre ++ [b]) b' rest _ u1 u2); [by rewrite <- El; split; state|by rewrite <- app_assoc|done|by state|done| |state; by rewrite S1, S2].
        state. f_equal. rewrite length_app. cbn [length]. lia.
Qed.

Lemma step_student before l todo pre b rest p s s' t1 t2 : in_line before l todo s -> l = pre ++ b :: rest -> student s = Serving (line_text (b :: rest)) ->
  files s result = Some (choices pre) -> totals 0 0 (number <$> pre) = (t1, t2) -> watertap s = Open t1 t2 (length pre) -> sems 0 1 0 s ->
  step refused p s = Some s' -> next (work todo + 2 * length rest + 6) s s'.
Proof using Hcreate Hqueues.
  intros Hi El Hst Hres Ht Hw Hs Hstep. pose proof Hi as [Hl Hm Ho]. pose proof Hs as (S1 & S2 & S3). pose proof (line_bottles _ _ _ _ Hi) as [Hb _]. destruct p; cbn [step] in Hstep.
  - by rewrite (main_waits s _ _ _ Hm S1) in Hstep.
  - unfold student_step, Wait in Hstep. rewrite Hst, S2, create_ok in Hstep. rewrite El in Hb. apply Forall_app in Hb as [_ Hb].
    rewrite student_loop_ok in Hstep by done. injection Hstep as <-. exists (work todo + 2 * length rest + 5)%nat. split; [|state; rewrite Hw, Hst; lia].
    apply (ph_tap before l todo pre b rest); [by split; state|done|done|state; by rewrite write_at_empty|by state| |state; by rewrite S1, S3].
    right. by exists t1, t2.
  - by rewrite (tap_idle _ _ _ s Hw S3) in Hstep.
Qed.

Lemma step_end before l todo p s s' : in_line before l todo s -> student s = Serving [] -> files s result = Some (choices l) -> tap_rests s -> sems 0 1 0 s ->
  step refused p s = Some s' -> next (work todo + 3) s s'.
Proof using Hcreate.
  intros Hi Hst Hres Hw Hs Hstep. pose proof Hi as [Hl Hm Ho]. pose proof Hs as (S1 & S2 & S3). destruct p; cbn [step] in Hstep.
  - by rewrite (main_waits s _ _ _ Hm S1) in Hstep.
  - unfold student_step, Wait in Hstep. rewrite Hst, S2, create_ok in Hstep. cbn [student_loop] in Hstep. injection Hstep as <-.
    exists (work todo + 2)%nat. split; [|state; rewrite Hst; lia].
    apply (ph_main before l); [by split; state|done|by state|by state|done|state; by rewrite S1, S3].
  - destruct (rests_opened s s' Hw (ex_intro _ _ Hres) S3 Hstep) as (Hc & m & Hmm & ->). exists (work todo + 3)%nat. split; [|state; rewrite Hc, Hst; lia].
    apply (ph_end before l); [by apply in_line_opened|done|done|by left|by state].
Qed.

Lemma expected_app before l : expected (before ++ [l]) = expected before ++ line_of (choices l).
Proof using Type. unfold expected. rewrite fmap_app, concat_app. cbn [fmap list_fmap concat]. by rewrite app_nil_r. Qed.

Lemma step_main before l todo p s s' : in_line before l todo s -> student s = Idle -> files s watertap_txt = Some [] -> files s result = Some (choices l) ->
  tap_rests s -> sems 1 0 0 s -> step refused p s = Some s' -> next (work todo + 2) s s'.
Proof using Hcreate Hqueues.
  intros Hi Hst Hf Hres Hw Hs Hstep. pose proof Hi as [Hl Hm Ho]. pose proof Hs as (S1 & S2 & S3). destruct p; cbn [step] in Hstep.
  - unfold main_step, Wait in Hstep. rewrite Hm, S1 in Hstep. unfold WriteToOutput in Hstep. cbn [files] in Hstep. rewrite Hres, Ho in Hstep. cbn [default] in Hstep.
    injection Hstep as <-. set (s1 := Signal main_watertap _).
    assert (Hr1 : readied s1).
    { split; [by unfold s1; state|]. right. split; [done|]. split; [by unfold s1; state|]. destruct Hw as [Hw|Hw]; [by left|right]. split; [done|]. unfold s1. state. lia. }
    pose proof (main_loop_ok (before ++ [l]) todo s1) as H. rewrite <- app_assoc in H.
    specialize (H Hl ltac:(unfold s1; state; by rewrite expected_app) (or_introl Hr1) ltac:(unfold s1; state; by rewrite S2, S3)).
    destruct todo as [|l' todo'].
    + change (Z.of_nat (length [])) with 0. rewrite H. exists 0%nat. split; [|cbn [work foldr]; change (late (set_main (Returned 0) s1)) with (late s); lia].
      apply ph_over; [done|unfold s1; state; by rewrite Hl, expected_app|apply Hr1|by right|unfold s1; state; by rewrite S2, S3].
    + destruct H as (s2 & -> & H2 & H3). eexists. split; [exact H2|]. rewrite H3. change (late s1) with (late s). cbn [work foldr]. fold (work todo'). lia.
  - unfold student_step, Wait in Hstep. by rewrite Hst, S2 in Hstep.
  - destruct (rests_opened s s' Hw (ex_intro _ _ Hres) S3 Hstep) as (Hc & m & Hmm & ->). exists (work todo + 2)%nat. split; [|state; rewrite Hc, Hst; lia].
    apply (ph_main before l); [by apply in_line_opened|done|done|done|by left|by state].
Qed.

Lemma step_over p s s' : main s = Returned 0 -> files s output = Some (expected lines) -> is_Some (files s result) ->
  (student s = Beginning /\ watertap s = Closed 0 0 /\ sem s main_watertap = 0%nat \/ student s = Idle /\ tap_rests s) -> sems 0 0 0 s -> step refused p s = Some s' -> next 0 s s'.
Proof using Hcreate.
  intros Hm Ho Hres Hst Hs Hstep. pose proof Hs as (S1 & S2 & S3). destruct p; cbn [step] in Hstep.
  - unfold main_step in Hstep. by rewrite Hm in Hstep.
  - destruct Hst as [(Hst & Hw & _)|[Hst _]].
    + rewrite (student_begins s Hst) in Hstep. injection Hstep as <-. exists 0%nat. split; [|state; rewrite Hst; lia].
      apply ph_over; [done|by state|by state|right; split; [done|by right]|by state].
    + unfold student_step, Wait in Hstep. by rewrite Hst, S2 in Hstep.
  - destruct Hst as [(_ & Hw & Hz)|[Hst Hw]]; [by rewrite (tap_waits s Hw Hz) in Hstep|].
    destruct (rests_opened s s' Hw Hres S3 Hstep) as (Hc & m & Hmm & ->). exists 0%nat. split; [|state; rewrite Hc; lia].
    apply ph_over; [done|done|done| |by state]. right. split; [done|by left].
Qed.

Lemma phase_step n p s s' : phase n s -> step refused p s = Some s' -> next n s s'.
Proof using Hcreate Hqueues.
  intros Hp Hst. destruct Hp.
  - by eapply step_start.
  - by eapply step_line.
  - by eapply step_tap.
  - by eapply step_student.
  - by eapply step_end.
  - by eapply step_main.
  - by eapply step_over.
Qed.

Lemma phase_run ps : forall n s s', phase n s -> run refused ps s = Some s' -> exists n', phase n' s' /\ (n' + late s' + length ps <= n + late s)%nat.
Proof using Hcreate Hqueues.
  induction ps as [|p ps IH]; intros n s s' Hp Hr; cbn [run] in Hr.
  - injection Hr as <-. exists n. split; [done|cbn; lia].
  - destruct (step refused p s) as [s1|] eqn:E; [|done]. destruct (phase_step n p s s1 Hp E) as (n1 & Hp1 & Hn1).
    destruct (IH n1 s1 s' Hp1 Hr) as (n' & Hp' & Hn'). exists n'. split; [done|]. cbn [length]. lia.
Qed.

(** Somebody can go on, as long as [main] has not returned. *)
Lemma phase_progress n s : phase n s -> (exists p s', step refused p s = Some s') \/ main s = Returned 0.
Proof using Hcreate Hqueues.
  intros Hp.
  assert (Hready : readied s -> (exists p s', step refused p s = Some s') \/ (student s = Idle /\ files s watertap_txt = Some [])).
  { intros Hr. destruct (readied_student s Hr) as [H|(H1 & H2 & _)]; [|by right]. left. exists PStudent. cbn [step]. rewrite (student_begins s H). by eexists. }
  destruct Hp as [s ds Hm Hi Hd Hn Hb Hr Hs|before l todo s Hi Ht Hr Hs|before l todo pre b rest s Hi El Hst Hf Hres Htap Hs|before l todo pre b rest s t1 t2 Hi El Hst Hres Ht Hw Hs|
    before l todo s Hi Hst Hres Hw Hs|before l todo s Hi Hst Hf Hres Hw Hs|s Hm]; [left..|by right]; try destruct Hs as (S1 & S2 & S3).
  - exists PMain. cbn [step]. unfold main_step. rewrite Hm. unfold main_start. rewrite create_ok.
    assert (Hi' : files (set_file output [] s) input = files s input) by (by state). rewrite Hi', Hi, read_num_ok by done. by eexists.
  - destruct (Hready Hr) as [H|[H1 H2]]; [done|]. exists PStudent. cbn [step]. unfold student_step, Wait. rewrite H1, S2, create_ok. cbn [files set_file].
    rewrite !fn_lookup_insert_ne, Ht, H2 by done. by eexists.
  - assert (Hw : watertap s = Closed 0 0 /\ (0 < sem s main_watertap)%nat \/ exists t1 t2 k, watertap s = Open t1 t2 k).
    { destruct Htap as [(_ & [H|H])|(t1 & t2 & _ & H)]; [right; by do 3 eexists|by left|right; by do 3 eexists]. }
    exists PTap. cbn [step]. unfold tap_step, Wait. destruct Hw as [[-> Hmw]|(t1 & t2 & k & ->)].
    + destruct (sem s main_watertap); [lia|]. cbn [files]. rewrite Hres. by eexists.
    + rewrite S3. cbn [files]. rewrite Hf. destruct (read_volume _ _) as [v e]. destruct (serve _ _ _) as [[c u1] u2]. destruct c; by eexists.
  - exists PStudent. cbn [step]. unfold student_step, Wait. rewrite Hst, S2, create_ok. by eexists.
  - exists PStudent. cbn [step]. unfold student_step, Wait. rewrite Hst, S2, create_ok. by eexists.
  - destruct Hi as [Hl Hm Ho]. exists PMain. cbn [step]. unfold main_step, Wait. rewrite Hm, S1. destruct (WriteToOutput _ _) eqn:E; by eexists.
Qed.
End turns.

(** What the host has at the beginning: input.txt with the number of its lines and
    the lines, and a result.txt. *)
Record given (fs : file -> option (list byte)) (ds : list byte) (lines : list (list (list byte))) : Prop := {
  gi_input : fs input = Some (ds ++ newline :: text lines);
  gi_digits : Forall digit ds;
  gi_number : number ds = Z.of_nat (length lines);
  gi_int : number ds < 2 ^ 31;
  gi_queues : Forall queue lines;
  gi_result : is_Some (fs result)
}.

Lemma booted_phase fs ds lines : given fs ds lines -> phase lines (work lines + 3) (booted fs).
Proof.
  intros [H1 H2 H3 H4 _ H6]. apply (ph_start lines _ ds); try done. split; [done|]. by left.
Qed.

(** ** Without a result.txt *)

Definition example_input : list byte := [x31; newline; x33; space; x31; space; x32; newline].
Definition example_files (r : option (list byte)) : file -> option (list byte) :=
  fun f => match f with input => Some example_input | result => r | _ => None end.
Definition none_refused : file -> bool := fun _ => false.

(** [watertap] may open result.txt before [student] creates it: it signals
    [student] and leaves, and when the queue has three bottles the two others wait
    for ever. *)
Lemma missing_result : exists ps s, run none_refused ps (booted (example_files None)) = Some s /\ watertap s = Gone /\
  (forall p, step none_refused p s = None) /\ exists num rest, main s = Waiting num rest true.
Proof.
  exists [PMain; PStudent; PTap; PStudent; PStudent]. eexists. split; [vm_compute; reflexivity|]. split; [done|].
  split; [intros []; vm_compute; reflexivity|]. by do 2 eexists.
Qed.

(** ** Property *)


Lemma example_given : given (example_files (Some [])) [x31] [[[x33]; [x31]; [x32]]].
Proof.
  assert (D : forall c, 48 <= charZ c <= 57 -> digit c) by done.
  split; [reflexivity|repeat constructor; by vm_compute|done|done| |by eexists].
  constructor; [|constructor]. split; [|by vm_compute]. repeat constructor; by vm_compute.
Qed.

End WaterSystem.
